(** * email-provider-loops: webhook verification, webhook ingestion and the
      Contact / ContactGroupMembership reconcilers.

    A shallow embedding of the Go sources

      - internal/webhook/http.go            (verifyWebhook, field indexes)
      - internal/webhook (handler)          (NewLoopsContactGroupMembershipWebhookV1)
      - internal/controller (contact)       (LoopsContactController, its finalizer)
      - internal/contactgroupmembership_controller.go
      - internal/util/status.go             (PatchStatusIfChanged)
      - pkg/loops                           (Error, IsBadRequest, IsNotFound)

    Go [string] and [[]byte] are both byte sequences and are modelled by
    [string] (a list of 8-bit [ascii]).  The Go standard library and the
    Kubernetes client libraries the code calls are modelled by their documented
    behaviour, each in a module named after the Go package. *)

From Stdlib Require Import NArith ZArith String Ascii List Bool Lia DecimalString.
Import ListNotations.

Local Open Scope string_scope.
Local Open Scope list_scope.

(* ------------------------------------------------------------------------- *)
(** ** Package [strings] *)

Module strings.

(** [strings.HasPrefix(s, prefix)]. *)
Fixpoint HasPrefix (s p : string) : bool :=
  match p with
  | EmptyString => true
  | String c p' =>
      match s with
      | EmptyString => false
      | String d s' => Ascii.eqb d c && HasPrefix s' p'
      end
  end.

(** [strings.Contains(s, substr)]: [substr] occurs somewhere in [s]. *)
Fixpoint Contains (s sub : string) : bool :=
  HasPrefix s sub ||
  match s with
  | EmptyString => false
  | String _ s' => Contains s' sub
  end.

(** [strings.HasSuffix(s, suffix)]. *)
Fixpoint HasSuffix (s suf : string) : bool :=
  String.eqb s suf ||
  match s with
  | EmptyString => false
  | String _ s' => HasSuffix s' suf
  end.

(** [strings.Split(s, sep)] for a one-byte separator, the only way the
    sources call it: every occurrence of [sep] cuts, so the result has one
    more element than there are separators (and [Split "" sep = [""]]). *)
Fixpoint Split (s : string) (sep : ascii) : list string :=
  match s with
  | EmptyString => [EmptyString]
  | String c s' =>
      if Ascii.eqb c sep then EmptyString :: Split s' sep
      else match Split s' sep with
           | [] => [String c EmptyString]
           | w :: ws => String c w :: ws
           end
  end.

(** Membership of a byte in a string. *)
Fixpoint mem (c : ascii) (s : string) : bool :=
  match s with
  | EmptyString => false
  | String d s' => Ascii.eqb d c || mem c s'
  end.

End strings.

(* ------------------------------------------------------------------------- *)
(** ** Package [crypto/sha256] (FIPS 180-4) *)

Module sha256.
Local Open Scope N_scope.

Definition mask32 : N := 0xFFFFFFFF.
Definition add32 (x y : N) : N := N.land (x + y) mask32.
Definition rotr (n x : N) : N :=
  N.lor (N.shiftr x n) (N.land (N.shiftl x (32 - n)) mask32).
Definition xor3 (x y z : N) : N := N.lxor (N.lxor x y) z.

Definition Ch (x y z : N) : N :=
  N.lxor (N.land x y) (N.land (N.lxor x mask32) z).
Definition Maj (x y z : N) : N :=
  xor3 (N.land x y) (N.land x z) (N.land y z).
Definition bsig0 (x : N) : N := xor3 (rotr 2 x) (rotr 13 x) (rotr 22 x).
Definition bsig1 (x : N) : N := xor3 (rotr 6 x) (rotr 11 x) (rotr 25 x).
Definition ssig0 (x : N) : N := xor3 (rotr 7 x) (rotr 18 x) (N.shiftr x 3).
Definition ssig1 (x : N) : N := xor3 (rotr 17 x) (rotr 19 x) (N.shiftr x 10).

(** The round constants are the first 32 bits of the fractional parts of the
    cube roots of the first 64 primes, the initial hash value those of the
    square roots of the first 8 primes; both are computed here. *)
Definition is_prime (n : N) : bool :=
  forallb (fun d => negb (n mod (N.of_nat d) =? 0))
          (seq 2 (N.to_nat n - 2)).

Definition primes64 : list N := Eval vm_compute in
  filter is_prime (map N.of_nat (seq 2 310)).

Fixpoint icbrt_aux (bits : nat) (n r : N) : N :=
  match bits with
  | O => r
  | S b =>
      let c := r + N.shiftl 1 (N.of_nat b) in
      icbrt_aux b n (if c * c * c <=? n then c else r)
  end.

Definition K : list N := Eval vm_compute in
  map (fun p => N.land (icbrt_aux 40 (N.shiftl p 96) 0) mask32) primes64.

Definition H0 : list N := Eval vm_compute in
  map (fun p => N.land (N.sqrt (N.shiftl p 64)) mask32) (firstn 8 primes64).

(** Message schedule: [rw] holds W[t-1], W[t-2], ... (most recent first). *)
Fixpoint extend (n : nat) (rw : list N) : list N :=
  match n with
  | O => rw
  | S n' =>
      let w := add32 (add32 (ssig1 (nth 1 rw 0)) (nth 6 rw 0))
                     (add32 (ssig0 (nth 14 rw 0)) (nth 15 rw 0)) in
      extend n' (w :: rw)
  end.

Definition schedule (block : list N) : list N := rev (extend 48 (rev block)).

Record digest := mkDigest {
  ha : N; hb : N; hc : N; hd : N; he : N; hf : N; hg : N; hh : N
}.

Definition round (s : digest) (kw : N * N) : digest :=
  let t1 := add32 (add32 (add32 (hh s) (bsig1 (he s)))
                         (add32 (Ch (he s) (hf s) (hg s)) (fst kw))) (snd kw) in
  let t2 := add32 (bsig0 (ha s)) (Maj (ha s) (hb s) (hc s)) in
  mkDigest (add32 t1 t2) (ha s) (hb s) (hc s) (add32 (hd s) t1) (he s) (hf s) (hg s).

Definition compress (s : digest) (block : list N) : digest :=
  let r := fold_left round (combine K (schedule block)) s in
  mkDigest (add32 (ha s) (ha r)) (add32 (hb s) (hb r))
           (add32 (hc s) (hc r)) (add32 (hd s) (hd r))
           (add32 (he s) (he r)) (add32 (hf s) (hf r))
           (add32 (hg s) (hg r)) (add32 (hh s) (hh r)).

(** Big-endian packing of bytes into 32-bit words. *)
Fixpoint words (bs : list N) : list N :=
  match bs with
  | b0 :: b1 :: b2 :: b3 :: rest =>
      (N.shiftl b0 24 + N.shiftl b1 16 + N.shiftl b2 8 + b3) :: words rest
  | _ => []
  end.

Fixpoint blocks (fuel : nat) (ws : list N) : list (list N) :=
  match fuel, ws with
  | S f, _ :: _ => firstn 16 ws :: blocks f (skipn 16 ws)
  | _, _ => []
  end.

Definition be_bytes (n : nat) (x : N) : list N :=
  map (fun i => N.land (N.shiftr x (8 * N.of_nat i)) 0xFF) (rev (seq 0 n)).

Definition pad (msg : list N) : list N :=
  let len := N.of_nat (length msg) in
  let zeros := N.to_nat ((119 - len mod 64) mod 64) in
  msg ++ [0x80] ++ repeat 0 zeros ++ be_bytes 8 (8 * len).

Definition initial : digest :=
  mkDigest (nth 0 H0 0) (nth 1 H0 0) (nth 2 H0 0) (nth 3 H0 0)
           (nth 4 H0 0) (nth 5 H0 0) (nth 6 H0 0) (nth 7 H0 0).

Definition bytes_of_string (s : string) : list N :=
  map N_of_ascii (list_ascii_of_string s).

Definition string_of_bytes (bs : list N) : string :=
  string_of_list_ascii (map ascii_of_N bs).

Definition word_string (w : N) : string := string_of_bytes (be_bytes 4 w).

(** [sha256.Sum256(data)], as a 32-byte string. *)
Definition Sum256 (data : string) : string :=
  let ws := words (pad (bytes_of_string data)) in
  let d := fold_left compress (blocks (length ws) ws) initial in
  word_string (ha d) ++ word_string (hb d) ++ word_string (hc d) ++
  word_string (hd d) ++ word_string (he d) ++ word_string (hf d) ++
  word_string (hg d) ++ word_string (hh d).

Definition BlockSize : nat := 64.

End sha256.

(* ------------------------------------------------------------------------- *)
(** ** Package [crypto/hmac] (RFC 2104), instantiated with SHA-256 *)

Module hmac.

Definition keyBlock (key : string) : list N :=
  let k := if Nat.ltb sha256.BlockSize (String.length key)
           then sha256.Sum256 key else key in
  let kb := sha256.bytes_of_string k in
  kb ++ repeat 0%N (sha256.BlockSize - List.length kb).

Definition xorPad (c : N) (key : string) : string :=
  sha256.string_of_bytes (map (N.lxor c) (keyBlock key)).

(** [h := hmac.New(sha256.New, key); h.Write(msg); h.Sum(nil)]. *)
Definition SumSHA256 (key msg : string) : string :=
  sha256.Sum256 (xorPad 0x5c key ++ sha256.Sum256 (xorPad 0x36 key ++ msg)).

End hmac.

(* ------------------------------------------------------------------------- *)
(** ** Package [encoding/base64], [StdEncoding] (RFC 4648, padded) *)

Module base64.
Local Open Scope N_scope.

Definition encodeStd : string :=
  "ABCDEFGHIJKLMNOPQRSTUVWXYZabcdefghijklmnopqrstuvwxyz0123456789+/".

Definition StdPadding : ascii := "="%char.

(** [enc.encode[v]] for a 6-bit [v]. *)
Definition encode (v : N) : ascii :=
  match String.get (N.to_nat v) encodeStd with
  | Some c => c
  | None => "A"%char
  end.

Definition sextet (val shift : N) : ascii :=
  encode (N.land (N.shiftr val shift) 0x3F).

Definition pack (a b c : N) : N :=
  N.lor (N.lor (N.shiftl a 16) (N.shiftl b 8)) c.

(** [StdEncoding.EncodeToString(src)]: three bytes give four characters; a
    remainder of one or two bytes gives two or three characters and padding. *)
Fixpoint EncodeToString (src : string) : string :=
  match src with
  | EmptyString => EmptyString
  | String a EmptyString =>
      let val := pack (N_of_ascii a) 0 0 in
      String (sextet val 18) (String (sextet val 12)
        (String StdPadding (String StdPadding EmptyString)))
  | String a (String b EmptyString) =>
      let val := pack (N_of_ascii a) (N_of_ascii b) 0 in
      String (sextet val 18) (String (sextet val 12) (String (sextet val 6)
        (String StdPadding EmptyString)))
  | String a (String b (String c rest)) =>
      let val := pack (N_of_ascii a) (N_of_ascii b) (N_of_ascii c) in
      String (sextet val 18) (String (sextet val 12) (String (sextet val 6)
        (String (sextet val 0) (EncodeToString rest))))
  end.

(** [enc.decodeMap[c]]: the position of [c] in the alphabet, if any. *)
Fixpoint indexIn (c : ascii) (alphabet : string) (i : N) : option N :=
  match alphabet with
  | EmptyString => None
  | String d rest => if Ascii.eqb d c then Some i else indexIn c rest (i + 1)
  end.

Definition decodeMap (c : ascii) : option N := indexIn c encodeStd 0.

(** The decoder skips carriage returns and line feeds wherever they are. *)
Fixpoint stripNewlines (s : string) : string :=
  match s with
  | EmptyString => EmptyString
  | String c rest =>
      if Ascii.eqb c "010"%char || Ascii.eqb c "013"%char
      then stripNewlines rest
      else String c (stripNewlines rest)
  end.

Definition byteAt (val shift : N) : ascii :=
  ascii_of_N (N.land (N.shiftr val shift) 0xFF).

Definition unpack (d0 d1 d2 d3 : N) : N :=
  N.lor (N.lor (N.lor (N.shiftl d0 18) (N.shiftl d1 12)) (N.shiftl d2 6)) d3.

Definition isEmpty (s : string) : bool :=
  match s with EmptyString => true | _ => false end.

(** Quanta of four characters; padding only closes the last quantum; the
    unused low bits of a padded quantum are not checked (non-strict mode). *)
Fixpoint decodeQuanta (s : string) : option string :=
  match s with
  | EmptyString => Some EmptyString
  | String c0 (String c1 (String c2 (String c3 rest))) =>
      match decodeMap c0, decodeMap c1 with
      | Some d0, Some d1 =>
          match decodeMap c2, decodeMap c3 with
          | Some d2, Some d3 =>
              let val := unpack d0 d1 d2 d3 in
              match decodeQuanta rest with
              | Some out =>
                  Some (String (byteAt val 16) (String (byteAt val 8)
                         (String (byteAt val 0) out)))
              | None => None
              end
          | Some d2, None =>
              let val := unpack d0 d1 d2 0 in
              if Ascii.eqb c3 StdPadding && isEmpty rest
              then Some (String (byteAt val 16)
                           (String (byteAt val 8) EmptyString))
              else None
          | None, _ =>
              let val := unpack d0 d1 0 0 in
              if Ascii.eqb c2 StdPadding && Ascii.eqb c3 StdPadding
                 && isEmpty rest
              then Some (String (byteAt val 16) EmptyString)
              else None
          end
      | _, _ => None
      end
  | _ => None
  end.

(** [StdEncoding.DecodeString(s)]; [None] is a [CorruptInputError]. *)
Definition DecodeString (s : string) : option string :=
  decodeQuanta (stripNewlines s).

End base64.

(* ------------------------------------------------------------------------- *)
(** ** Go [error] values

    The concrete error types that travel through the modelled code. *)

(** [metav1.StatusReason] of a Kubernetes API error. *)
Inductive StatusReason :=
| StatusReasonNotFound
| StatusReasonAlreadyExists
| StatusReasonConflict
| StatusReasonInvalid
| StatusReasonForbidden
| StatusReasonInternalError
| StatusReasonUnknown.

Inductive error :=
| errorString (s : string)                  (* errors.New, fmt.Errorf without %w *)
| wrapError (msg : string) (err : error)    (* fmt.Errorf(msg + ": %w", err) *)
| LoopsError (StatusCode : Z) (Body : string)           (* *loops.Error *)
| StatusError (reason : StatusReason) (message : string) (* *apierrors.StatusError *)
| CorruptInputError                          (* base64.CorruptInputError *)
| aggregateError (err : error)               (* kerrors.NewAggregate of one error *)
| WebhookVerificationError (Code Message : string) (Err : error).

Definition itoa (n : Z) : string := NilZero.string_of_int (Z.to_int n).

(** The [Error() string] method of each error type. *)
Fixpoint Error (e : error) : string :=
  match e with
  | errorString s => s
  | wrapError msg err => msg ++ ": " ++ Error err
  | LoopsError code body =>
      "api request failed with status " ++ itoa code ++ ": " ++ body
  | StatusError _ message => message
  | CorruptInputError => "illegal base64 data"
  | aggregateError err => Error err
  | WebhookVerificationError _ message err => message ++ ": " ++ Error err
  end.

Definition isNil {A : Type} (x : option A) : bool :=
  match x with None => true | Some _ => false end.

(* ------------------------------------------------------------------------- *)
(** ** Package [pkg/loops]: API errors, webhook events, the provider interface *)

Module loops.

(** [errors.As(err, &apiErr)] for [*loops.Error]: follows the [%w] chain. *)
Fixpoint asError (err : error) : option Z :=
  match err with
  | LoopsError code _ => Some code
  | wrapError _ inner => asError inner
  | _ => None
  end.

Definition isErrorStatus (err : error) (status : Z) : bool :=
  match asError err with
  | Some code => Z.eqb code status
  | None => false
  end.

Definition IsBadRequest (err : error) : bool := isErrorStatus err 400.
Definition IsNotFound (err : error) : bool := isErrorStatus err 404.
Definition IsConflict (err : error) : bool := isErrorStatus err 409.

Record ContactIdentity := mkContactIdentity {
  ID : string; Email : string; UserID : string
}.

Record WebhookEvent := mkWebhookEvent {
  EventName : string;
  EventTime : Z;
  WebhookSchemaVersion : string;
  contactIdentity : ContactIdentity
}.

Record MailingList := mkMailingList {
  mlID : string; mlName : string; mlDescription : string; mlIsPublic : bool
}.

Record MailingListSubscribedEvent := mkSubscribed {
  subEvent : WebhookEvent; subMailingList : MailingList
}.

Record MailingListUnsubscribedEvent := mkUnsubscribed {
  unsubEvent : WebhookEvent; unsubMailingList : MailingList
}.

Definition EventNameMailingListSubscribed := "contact.mailingList.subscribed".
Definition EventNameMailingListUnsubscribed := "contact.mailingList.unsubscribed".

Record ContactRequest := mkContactRequest {
  reqEmail : string;
  reqUserID : string;
  reqFirstName : string;
  reqLastName : string;
  reqSource : string;
  reqSubscribed : option bool
}.

(** The four methods of the [loops.API] interface, as requests. *)
Inductive Request :=
| UpsertContact (req : ContactRequest)
| DeleteContact (userID : string)
| AddToMailingList (userID listID : string)
| RemoveFromMailingList (userID listID : string).

End loops.

(* ------------------------------------------------------------------------- *)
(** ** Package [net/http]: the part of a request the verifier reads *)

Module http.

Definition Header := list (string * string).

(** [Header.Get(key)]: the first value stored under [key], or [""]. *)
Fixpoint Get (h : Header) (key : string) : string :=
  match h with
  | [] => EmptyString
  | (k, v) :: rest => if String.eqb k key then v else Get rest key
  end.

Record Request := mkRequest { Method : string; header : Header }.

(** [Header.Set(key, value)]: [value] replaces what was stored under
    [key] ([Set] is a keyword here). *)
Definition Set_ (h : Header) (key value : string) : Header :=
  (key, value) :: filter (fun kv => negb (String.eqb (fst kv) key)) h.

Definition StatusOK : Z := 200.
Definition StatusBadRequest : Z := 400.
Definition StatusUnauthorized : Z := 401.
Definition StatusMethodNotAllowed : Z := 405.
Definition StatusInternalServerError : Z := 500.

End http.

(* ------------------------------------------------------------------------- *)
(** ** Package [pkg/loops], sdk_client.go: the HTTP client of the provider

    What the SDK does not decide is left to four collaborators from the Go
    standard library: [json.Marshal], the validation of the method and the
    URL by [http.NewRequestWithContext], the decoding of a response body by
    [json.Decoder], and the transport behind [http.Client.Do]. *)

Module sdk_client.

Definition defaultBaseURL := "https://app.loops.so/api/v1".

(** The request [sendRequest] hands to [httpClient.Do] and the response it
    reads back; [rqBody] is absent when no body reader was given. *)
Record HTTPRequest := mkHTTPRequest {
  rqMethod : string;
  rqURL : string;
  rqHeader : http.Header;
  rqBody : option string
}.

Record HTTPResponse := mkHTTPResponse { StatusCode : Z; Body : string }.

(** [*http.Client]: its timeout, in seconds, and what [Do] answers. *)
Record HTTPClient := mkHTTPClient {
  Timeout : Z;
  Do : HTTPRequest -> HTTPResponse + error
}.

Record Client := mkClient {
  apiKey : string;
  baseURL : string;
  httpClient : HTTPClient
}.

(** [type ClientOption func(c *Client)]: the client after the option ran. *)
Definition ClientOption := Client -> Client.

Definition WithBaseURL (url : string) : ClientOption :=
  fun c => mkClient (apiKey c) url (httpClient c).

Definition WithHTTPClient (client : HTTPClient) : ClientOption :=
  fun c => mkClient (apiKey c) (baseURL c) client.

(** The whole [ContactRequest] struct (module [loops] keeps the fields the
    reconciler sets); [MailingLists] is the map, as its entries. *)
Record ContactRequest := mkContactRequest {
  Email : string;
  UserID : string;
  FirstName : string;
  LastName : string;
  Source : string;
  Subscribed : option bool;
  UserGroup : string;
  MailingLists : list (string * bool)
}.

Record DeleteContactRequest := mkDeleteContactRequest { dUserID : string }.

Record APIResponse := mkAPIResponse {
  Success : bool;
  Message : string;
  ID : string
}.

(** The values passed as [body interface{}]. *)
Inductive Payload :=
| ContactPayload (req : ContactRequest)
| DeletePayload (req : DeleteContactRequest).

Section SDK.
(** [json.Marshal(body)]. *)
Variable Marshal : Payload -> string + error.
(** [http.NewRequestWithContext]: the error for this method and URL. *)
Variable NewRequest : string -> string -> option error.
(** [json.NewDecoder(resp.Body).Decode(out)]. *)
Variable Decode : string -> APIResponse + error.
(** The default transport, behind [&http.Client{Timeout: 10s}]. *)
Variable network : HTTPRequest -> HTTPResponse + error.

(** [NewSDK(apiKey, opts...)]. *)
Definition NewSDK (apiKey : string) (opts : list ClientOption)
  : Client + error :=
  if String.eqb apiKey "" then inr (errorString "api key is required")
  else
    let c := mkClient apiKey defaultBaseURL (mkHTTPClient 10 network) in
    let c := fold_left (fun c opt => opt c) opts c in
    if String.eqb (baseURL c) "" then
      inr (errorString "base url is required")
    else inl c.

(** [(c *Client) sendRequest(ctx, method, path, body, out)]: the error,
    and what [out] holds afterwards when the caller passed one. *)
Definition sendRequest (c : Client) (method path : string)
           (body : option Payload) (out : option APIResponse)
  : option error * option APIResponse :=
  let marshalled :=
    match body with
    | Some b =>
        match Marshal b with
        | inl data => inl (Some data)
        | inr err => inr err
        end
    | None => inl None
    end in
  match marshalled with
  | inr err => (Some (wrapError "failed to marshal request body" err), out)
  | inl bodyReader =>
      match NewRequest method (baseURL c ++ path)%string with
      | Some err => (Some (wrapError "failed to create request" err), out)
      | None =>
          let req :=
            mkHTTPRequest method (baseURL c ++ path)%string
              [("Authorization", ("Bearer " ++ apiKey c)%string);
               ("Content-Type", "application/json")]
              bodyReader in
          match Do (httpClient c) req with
          | inr err =>
              (Some (wrapError "failed to execute request" err), out)
          | inl resp =>
              if (400 <=? StatusCode resp)%Z then
                (Some (LoopsError (StatusCode resp) (Body resp)), out)
              else
                match out with
                | Some _ =>
                    match Decode (Body resp) with
                    | inr err =>
                        (Some (wrapError "failed to decode response" err),
                         out)
                    | inl decoded => (None, Some decoded)
                    end
                | None => (None, None)
                end
          end
      end
  end.

(** [var resp APIResponse]. *)
Definition zeroResponse : APIResponse := mkAPIResponse false "" "".

(** [(c *Client) UpsertContact]: the response, or the error. *)
Definition UpsertContact (c : Client) (req : ContactRequest)
  : APIResponse + error :=
  match sendRequest c "PUT" "/contacts/update"
                    (Some (ContactPayload req)) (Some zeroResponse) with
  | (Some err, _) => inr err
  | (None, Some resp) => inl resp
  | (None, None) => inl zeroResponse
  end.

Definition DeleteContact (c : Client) (userID : string)
  : APIResponse + error :=
  let req := mkDeleteContactRequest userID in
  match sendRequest c "POST" "/contacts/delete"
                    (Some (DeletePayload req)) (Some zeroResponse) with
  | (Some err, _) => inr err
  | (None, Some resp) => inl resp
  | (None, None) => inl zeroResponse
  end.

Definition AddToMailingList (c : Client) (userID listID : string)
  : APIResponse + error :=
  let req := mkContactRequest "" userID "" "" "" None "" [(listID, true)] in
  UpsertContact c req.

Definition RemoveFromMailingList (c : Client) (userID listID : string)
  : APIResponse + error :=
  let req := mkContactRequest "" userID "" "" "" None "" [(listID, false)] in
  UpsertContact c req.

End SDK.

End sdk_client.

(* ------------------------------------------------------------------------- *)
(** ** Package [metav1] (k8s.io/apimachinery/pkg/apis/meta/v1) *)

Module metav1.

(** A [metav1.Time], in seconds; [0] is the zero time. *)
Definition Time := N.

Inductive ConditionStatus := ConditionTrue | ConditionFalse | ConditionUnknown.

Record Condition := mkCondition {
  Type_ : string;
  Status : ConditionStatus;
  ObservedGeneration : Z;
  LastTransitionTime : Time;
  Reason : string;
  Message : string
}.

Record ObjectMeta := mkObjectMeta {
  Name : string;
  GenerateName : string;
  Namespace : string;
  UID : string;
  Generation : Z;
  DeletionTimestamp : option Time;
  Finalizers : list string
}.

Definition ConditionStatus_eqb (a b : ConditionStatus) : bool :=
  match a, b with
  | ConditionTrue, ConditionTrue
  | ConditionFalse, ConditionFalse
  | ConditionUnknown, ConditionUnknown => true
  | _, _ => false
  end.

(** An [ObjectMeta] with only a name and a namespace set. *)
Definition named (name namespace : string) : ObjectMeta :=
  mkObjectMeta name "" namespace "" 0 None [].

(** An [ObjectMeta] with only a name prefix and a namespace set. *)
Definition generated (prefix namespace : string) : ObjectMeta :=
  mkObjectMeta "" prefix namespace "" 0 None [].

Definition withName (m : ObjectMeta) (name : string) : ObjectMeta :=
  mkObjectMeta name (GenerateName m) (Namespace m) (UID m) (Generation m)
               (DeletionTimestamp m) (Finalizers m).

Definition withFinalizers (m : ObjectMeta) (fs : list string) : ObjectMeta :=
  mkObjectMeta (Name m) (GenerateName m) (Namespace m) (UID m) (Generation m)
               (DeletionTimestamp m) fs.

End metav1.

(* ------------------------------------------------------------------------- *)
(** ** Package [v1alpha1] (go.miloapis.com/milo/pkg/apis/notification/v1alpha1)

    The API types are declared in the milo module; the fields the sources
    read and write are kept, with the shapes section 3 of the specification
    gives them. *)

Module v1alpha1.

Record ContactProviderStatus := mkProviderStatus {
  psName : string; psID : string
}.

Record ContactGroupProvider := mkGroupProvider {
  gpName : string; gpID : string
}.

Record ContactReference := mkContactRef {
  crName : string; crNamespace : string
}.

Record ContactGroupReference := mkGroupRef {
  grName : string; grNamespace : string
}.

Record ContactSpec := mkContactSpec {
  Email : string; GivenName : string; FamilyName : string
}.

Record ContactStatus := mkContactStatus {
  Conditions : list metav1.Condition;
  Providers : list ContactProviderStatus
}.

Record Contact := mkContact {
  cMeta : metav1.ObjectMeta; cSpec : ContactSpec; cStatus : ContactStatus
}.

Record ContactGroupSpec := mkGroupSpec {
  gProviders : list ContactGroupProvider
}.

Record ContactGroup := mkContactGroup {
  gMeta : metav1.ObjectMeta; gSpec : ContactGroupSpec
}.

Record ContactGroupMembershipSpec := mkMembershipSpec {
  ContactRef : ContactReference; ContactGroupRef : ContactGroupReference
}.

Record ContactGroupMembershipStatus := mkMembershipStatus {
  mConditions : list metav1.Condition;
  mProviders : list ContactProviderStatus
}.

Record ContactGroupMembership := mkMembership {
  mMeta : metav1.ObjectMeta;
  mSpec : ContactGroupMembershipSpec;
  mStatus : ContactGroupMembershipStatus
}.

Record ContactGroupMembershipRemovalSpec := mkRemovalSpec {
  rContactRef : ContactReference; rContactGroupRef : ContactGroupReference
}.

Record ContactGroupMembershipRemoval := mkRemoval {
  rMeta : metav1.ObjectMeta; rSpec : ContactGroupMembershipRemovalSpec
}.

Definition withStatus (c : Contact) (s : ContactStatus) : Contact :=
  mkContact (cMeta c) (cSpec c) s.

Definition withConditions (c : Contact) (cs : list metav1.Condition)
  : Contact :=
  withStatus c (mkContactStatus cs (Providers (cStatus c))).

Definition withProviders (c : Contact) (ps : list ContactProviderStatus)
  : Contact :=
  withStatus c (mkContactStatus (Conditions (cStatus c)) ps).

Definition mWithStatus (m : ContactGroupMembership)
           (s : ContactGroupMembershipStatus) : ContactGroupMembership :=
  mkMembership (mMeta m) (mSpec m) s.

Definition mWithConditions (m : ContactGroupMembership)
           (cs : list metav1.Condition) : ContactGroupMembership :=
  mWithStatus m (mkMembershipStatus cs (mProviders (mStatus m))).

Definition mWithProviders (m : ContactGroupMembership)
           (ps : list ContactProviderStatus) : ContactGroupMembership :=
  mWithStatus m (mkMembershipStatus (mConditions (mStatus m)) ps).

End v1alpha1.

(* ------------------------------------------------------------------------- *)
(** ** Package [equality]: [equality.Semantic.DeepEqual] on the two status
       types.  No field of them is a pointer, a map or a quantity, and a nil
       slice equals an empty one, so the comparison is structural equality. *)

Module equality.

Definition Condition_eq_dec (a b : metav1.Condition) : {a = b} + {a <> b}.
Proof.
  decide equality;
    solve [ apply string_dec | apply N.eq_dec | apply Z.eq_dec
          | decide equality ].
Defined.

Definition ProviderStatus_eq_dec (a b : v1alpha1.ContactProviderStatus)
  : {a = b} + {a <> b}.
Proof. decide equality; apply string_dec. Defined.

Definition ContactStatus_eq_dec (a b : v1alpha1.ContactStatus)
  : {a = b} + {a <> b}.
Proof.
  decide equality;
    [ apply (list_eq_dec ProviderStatus_eq_dec)
    | apply (list_eq_dec Condition_eq_dec) ].
Defined.

Definition MembershipStatus_eq_dec (a b : v1alpha1.ContactGroupMembershipStatus)
  : {a = b} + {a <> b}.
Proof.
  decide equality;
    [ apply (list_eq_dec ProviderStatus_eq_dec)
    | apply (list_eq_dec Condition_eq_dec) ].
Defined.

Definition DeepEqualContactStatus (a b : v1alpha1.ContactStatus) : bool :=
  if ContactStatus_eq_dec a b then true else false.

Definition DeepEqualMembershipStatus
           (a b : v1alpha1.ContactGroupMembershipStatus) : bool :=
  if MembershipStatus_eq_dec a b then true else false.

End equality.

(* ------------------------------------------------------------------------- *)
(** ** Package [meta] (k8s.io/apimachinery/pkg/api/meta): status conditions *)

Module meta.
Import metav1.

(** [meta.FindStatusCondition]: the first condition of the given type. *)
Definition FindStatusCondition (conditions : list Condition)
           (conditionType : string) : option Condition :=
  find (fun c => String.eqb (Type_ c) conditionType) conditions.

(** What [SetStatusCondition] does to the existing condition it found: the
    transition time moves only when the status value changes. *)
Definition overwrite (existing newCondition : Condition) : Condition :=
  mkCondition (Type_ existing)
              (Status newCondition)
              (ObservedGeneration newCondition)
              (if ConditionStatus_eqb (Status existing) (Status newCondition)
               then LastTransitionTime existing
               else LastTransitionTime newCondition)
              (Reason newCondition)
              (Message newCondition).

(** [meta.SetStatusCondition(&conditions, newCondition)]: the first
    condition of that type is overwritten in place, and when there is none
    the new one is appended.  Every caller here passes
    [LastTransitionTime: metav1.Now()], so the fallback to [time.Now()] for
    a zero time is the same clock reading. *)
Fixpoint SetStatusCondition (conditions : list Condition)
         (newCondition : Condition) : list Condition :=
  match conditions with
  | [] => [newCondition]
  | c :: rest =>
      if String.eqb (Type_ c) (Type_ newCondition)
      then overwrite c newCondition :: rest
      else c :: SetStatusCondition rest newCondition
  end.

End meta.

(* ------------------------------------------------------------------------- *)
(** ** Package [controllerutil]: finalizer lists *)

Module controllerutil.

Definition ContainsFinalizer (m : metav1.ObjectMeta) (key : string) : bool :=
  existsb (String.eqb key) (metav1.Finalizers m).

Definition AddFinalizer (m : metav1.ObjectMeta) (key : string)
  : metav1.ObjectMeta :=
  if ContainsFinalizer m key then m
  else metav1.withFinalizers m (metav1.Finalizers m ++ [key]).

Definition RemoveFinalizer (m : metav1.ObjectMeta) (key : string)
  : metav1.ObjectMeta :=
  metav1.withFinalizers m
    (filter (fun f => negb (String.eqb f key)) (metav1.Finalizers m)).

End controllerutil.

(* ------------------------------------------------------------------------- *)
(** ** Package [apierrors] (k8s.io/apimachinery/pkg/api/errors) *)

Module apierrors.

(** [ReasonForError]: the reason of the API status in the [%w] chain. *)
Fixpoint ReasonForError (err : error) : StatusReason :=
  match err with
  | StatusError reason _ => reason
  | wrapError _ inner => ReasonForError inner
  | _ => StatusReasonUnknown
  end.

Definition IsNotFound (err : error) : bool :=
  match ReasonForError err with StatusReasonNotFound => true | _ => false end.

Definition IsAlreadyExists (err : error) : bool :=
  match ReasonForError err with
  | StatusReasonAlreadyExists => true
  | _ => false
  end.

Definition IsConflict (err : error) : bool :=
  match ReasonForError err with StatusReasonConflict => true | _ => false end.

Definition NewNotFound (kind name : string) : error :=
  StatusError StatusReasonNotFound (kind ++ " " ++ name ++ " not found").

Definition NewAlreadyExists (kind name : string) : error :=
  StatusError StatusReasonAlreadyExists
              (kind ++ " " ++ name ++ " already exists").

End apierrors.

(* ------------------------------------------------------------------------- *)
(** ** Package [client] (sigs.k8s.io/controller-runtime/pkg/client)

    The declarative store and the remote provider are the two collaborators
    of the code.  The store is a cluster state holding the objects of each
    kind in stored order; reads see all earlier writes.  Whatever the code
    does not decide — a request the server refuses, the suffix the server
    appends to [metadata.generateName], the provider's answer, the clock — is
    read from an environment, indexed by the number of calls made so far. *)

Module client.
Import metav1 v1alpha1.

Record Cluster := mkCluster {
  Contacts : list Contact;
  ContactGroups : list ContactGroup;
  Memberships : list ContactGroupMembership;
  Removals : list ContactGroupMembershipRemoval
}.

Inductive Verb := VGet | VList | VCreate | VUpdate | VDelete | VPatchStatus.

(** One outbound call: a request to the store or to the provider. *)
Inductive Call :=
| StoreCall (verb : Verb) (kind : string)
| LoopsCall (request : loops.Request).

Record World := mkWorld {
  cluster : Cluster;
  calls : list Call            (* most recent first *)
}.

Record Env := mkEnv {
  storeFault : nat -> option error;   (* the store refuses the n-th call *)
  nameSuffix : nat -> string;         (* suffix for generateName in the n-th call *)
  loopsReply : nat -> option error;   (* the provider's answer to the n-th call *)
  clock : nat -> Time                 (* wall clock after n calls *)
}.

(** [client.Object]: what the store needs to know of a kind. *)
Class Object (T : Type) := {
  Kind : string;
  GetObjectMeta : T -> ObjectMeta;
  SetObjectMeta : T -> ObjectMeta -> T;
  items : Cluster -> list T;
  setItems : Cluster -> list T -> Cluster;
  (** [copyStatus src dst]: [dst] with the status sub-resource of [src]. *)
  copyStatus : T -> T -> T
}.

#[export] Instance ContactObject : Object Contact := {|
  Kind := "Contact";
  GetObjectMeta := cMeta;
  SetObjectMeta := fun c m => mkContact m (cSpec c) (cStatus c);
  items := Contacts;
  setItems := fun cl l =>
    mkCluster l (ContactGroups cl) (Memberships cl) (Removals cl);
  copyStatus := fun src dst => withStatus dst (cStatus src)
|}.

#[export] Instance ContactGroupObject : Object ContactGroup := {|
  Kind := "ContactGroup";
  GetObjectMeta := gMeta;
  SetObjectMeta := fun g m => mkContactGroup m (gSpec g);
  items := ContactGroups;
  setItems := fun cl l =>
    mkCluster (Contacts cl) l (Memberships cl) (Removals cl);
  copyStatus := fun _ dst => dst
|}.

#[export] Instance MembershipObject : Object ContactGroupMembership := {|
  Kind := "ContactGroupMembership";
  GetObjectMeta := mMeta;
  SetObjectMeta := fun o m => mkMembership m (mSpec o) (mStatus o);
  items := Memberships;
  setItems := fun cl l =>
    mkCluster (Contacts cl) (ContactGroups cl) l (Removals cl);
  copyStatus := fun src dst => mWithStatus dst (mStatus src)
|}.

#[export] Instance RemovalObject : Object ContactGroupMembershipRemoval := {|
  Kind := "ContactGroupMembershipRemoval";
  GetObjectMeta := rMeta;
  SetObjectMeta := fun o m => mkRemoval m (rSpec o);
  items := Removals;
  setItems := fun cl l =>
    mkCluster (Contacts cl) (ContactGroups cl) (Memberships cl) l;
  copyStatus := fun _ dst => dst
|}.

(** [client.ObjectKey] / [types.NamespacedName]. *)
Record ObjectKey := mkKey { keyNamespace : string; keyName : string }.

Definition hasKey {T} `{Object T} (key : ObjectKey) (o : T) : bool :=
  String.eqb (Namespace (GetObjectMeta o)) (keyNamespace key)
  && String.eqb (Name (GetObjectMeta o)) (keyName key).

Definition keyOf {T} `{Object T} (o : T) : ObjectKey :=
  mkKey (Namespace (GetObjectMeta o)) (Name (GetObjectMeta o)).

(** Code that talks to the store or the provider: a state transformer. *)
Definition M (A : Type) : Type := World -> A * World.

Definition ret {A} (a : A) : M A := fun w => (a, w).

Definition bind {A B} (m : M A) (k : A -> M B) : M B :=
  fun w => let (a, w') := m w in k a w'.

(** The number of calls made so far. *)
Definition tick (w : World) : nat := List.length (calls w).

Section Operations.
Variable env : Env.

(** [metav1.Now()]. *)
Definition Now : M Time := fun w => (clock env (tick w), w).

(** A request to the store: it is logged, the server may refuse it, and
    otherwise [serve] answers it from the cluster state. *)
Definition request {A} (verb : Verb) (kind : string)
           (refused : error -> A)
           (serve : nat -> Cluster -> A * Cluster) : M A :=
  fun w =>
    let n := tick w in
    let log := StoreCall verb kind :: calls w in
    match storeFault env n with
    | Some err => (refused err, mkWorld (cluster w) log)
    | None => let (a, cl) := serve n (cluster w) in (a, mkWorld cl log)
    end.

(** [c.Get(ctx, key, obj)]: the object, or the error. *)
Definition Get {T} `{Object T} (key : ObjectKey) : M (T + error) :=
  request VGet Kind inr
    (fun _ cl =>
       match find (hasKey key) (items cl) with
       | Some o => (inl o, cl)
       | None => (inr (apierrors.NewNotFound Kind (keyName key)), cl)
       end).

(** [c.List(ctx, list, client.MatchingFields{index: value})]: the objects
    of the kind, in every namespace, one of whose index values is
    [value]; [index] is the function registered for the field. *)
Definition List {T} `{Object T} (index : T -> list string)
           (value : string) : M (list T * option error) :=
  request VList Kind (fun err => ([], Some err))
    (fun _ cl =>
       (filter (fun o => existsb (String.eqb value) (index o)) (items cl),
        None, cl)).

(** [c.Create(ctx, obj)]: with an empty name the server makes one from
    [generateName] and a suffix of its choice; a second object of the same
    kind, namespace and name is refused with AlreadyExists. *)
Definition Create {T} `{Object T} (obj : T) : M (option error) :=
  request VCreate Kind Some
    (fun n cl =>
       let m := GetObjectMeta obj in
       let name : string :=
         if String.eqb (Name m) "" then (GenerateName m ++ nameSuffix env n)%string
         else Name m in
       let key := mkKey (Namespace m) name in
       if existsb (hasKey key) (items cl)
       then (Some (apierrors.NewAlreadyExists Kind name), cl)
       else (None,
             setItems cl (items cl ++ [SetObjectMeta obj (withName m name)]))).

(** [c.Delete(ctx, obj)]: the object of that namespace and name leaves the
    store (the objects this code deletes carry no finalizer). *)
Definition Delete {T} `{Object T} (obj : T) : M (option error) :=
  request VDelete Kind Some
    (fun _ cl =>
       let key := keyOf obj in
       if existsb (hasKey key) (items cl)
       then (None,
             setItems cl (filter (fun o => negb (hasKey key o)) (items cl)))
       else (Some (apierrors.NewNotFound Kind (keyName key)), cl)).

(** Is the object ready to be purged: deleted and without finalizers. *)
Definition purged {T} `{Object T} (o : T) : bool :=
  negb (isNil (DeletionTimestamp (GetObjectMeta o)))
  && match Finalizers (GetObjectMeta o) with [] => true | _ => false end.

(** [c.Update(ctx, obj)]: replaces the stored object; an object under
    deletion whose last finalizer is gone leaves the store. *)
Definition Update {T} `{Object T} (obj : T) : M (option error) :=
  request VUpdate Kind Some
    (fun _ cl =>
       let key := keyOf obj in
       if existsb (hasKey key) (items cl)
       then (None,
             setItems cl
               (flat_map (fun o => if hasKey key o
                                   then (if purged obj then [] else [obj])
                                   else [o]) (items cl)))
       else (Some (apierrors.NewNotFound Kind (keyName key)), cl)).

(** [c.Status().Patch(ctx, obj, client.MergeFrom(original))]: the status
    of the stored object becomes that of [obj]. *)
Definition PatchStatus {T} `{Object T} (obj : T) : M (option error) :=
  request VPatchStatus Kind Some
    (fun _ cl =>
       let key := keyOf obj in
       if existsb (hasKey key) (items cl)
       then (None,
             setItems cl
               (map (fun o => if hasKey key o then copyStatus obj o else o)
                    (items cl)))
       else (Some (apierrors.NewNotFound Kind (keyName key)), cl)).

(** A call on the [loops.API] interface; the response body is unused by
    every caller, only the error is kept. *)
Definition Loops (r : loops.Request) : M (option error) :=
  fun w => (loopsReply env (tick w),
            mkWorld (cluster w) (LoopsCall r :: calls w)).

End Operations.

End client.

Declare Scope go_scope.
Delimit Scope go_scope with go.
Notation "x <- m ;; k" := (client.bind m (fun x => k))
  (at level 61, m at next level, right associativity) : go_scope.
Notation "' pat <- m ;; k" :=
  (client.bind m (fun x => match x with pat => k end))
  (at level 61, pat pattern, m at next level, right associativity) : go_scope.

(* ------------------------------------------------------------------------- *)
(** ** Package [internal/webhook]: signature verification, field indexes and
       the ingestion handler *)

Module webhook.
Import metav1 v1alpha1 client.
Local Open Scope go_scope.

(** *** http.go: signature verification *)

Definition ErrMissingHeaders := errorString "missing required webhook header".
Definition ErrMissingSecret :=
  errorString "missing LOOPS_SIGNING_SECRET environment variable".
Definition ErrInvalidSignature := errorString "invalid signature".

(** [fmt.Sprintf("%s.%s.%s", eventID, timestamp, string(body))]. *)
Definition signedContent (eventID timestamp body : string) : string :=
  eventID ++ "." ++ timestamp ++ "." ++ body.

(** The digest the verifier looks for: base64 of HMAC-SHA256. *)
Definition computeSignature (secretBytes content : string) : string :=
  base64.EncodeToString (hmac.SumSHA256 secretBytes content).

(** The loop over [strings.Split(webhookSignature, " ")]. *)
Definition signatureFound (webhookSignature signature : string) : bool :=
  existsb (fun sig => strings.Contains sig ("," ++ signature))
          (strings.Split webhookSignature " "%char).

Definition isEmpty (s : string) : bool := String.eqb s "".

(** [verifyWebhook(r, body, secret)]; [None] is the nil error. *)
Definition verifyWebhook (r : http.Request) (body secret : string)
  : option error :=
  let eventID := http.Get (http.header r) "webhook-id" in
  let timestamp := http.Get (http.header r) "webhook-timestamp" in
  let webhookSignature := http.Get (http.header r) "webhook-signature" in
  if isEmpty eventID || isEmpty timestamp || isEmpty webhookSignature then
    Some (WebhookVerificationError "MISSING_HEADERS"
            "Missing required webhook header" ErrMissingHeaders)
  else
    let content := signedContent eventID timestamp body in
    match strings.Split secret "_"%char with
    | _ :: part1 :: _ =>
        match base64.DecodeString part1 with
        | None =>
            Some (WebhookVerificationError "INVALID_SECRET_ENCODING"
                    "Failed to decode LOOPS_SIGNING_SECRET" CorruptInputError)
        | Some secretBytes =>
            let signature := computeSignature secretBytes content in
            if signatureFound webhookSignature signature then None
            else Some (WebhookVerificationError "INVALID_SIGNATURE"
                         "Invalid signature" ErrInvalidSignature)
        end
    | _ =>
        Some (WebhookVerificationError "INVALID_SECRET_FORMAT"
                "Invalid LOOPS_SIGNING_SECRET format" ErrMissingSecret)
    end.

(** *** http.go: field indexes; the handler of the webhook *)

Record Request := mkRequest {
  MailingListSubscribedEvent : option loops.MailingListSubscribedEvent;
  MailingListUnsubscribedEvent : option loops.MailingListUnsubscribedEvent;
  (** [ServeHTTP] always passes a non-nil base event. *)
  BaseEvent : loops.WebhookEvent
}.

Record Response := mkResponse { HttpStatus : Z }.

(** Modelled from the spec: the response constructors [OkResponse],
    [BadRequestResponse], [UnauthorizedResponse], [MethodNotAllowedResponse]
    and [InternalServerErrorResponse] are declared in a file of the package
    that is not among the sources; section 6 fixes the status code of
    each. *)
Definition OkResponse : Response := mkResponse http.StatusOK.
Definition BadRequestResponse : Response := mkResponse http.StatusBadRequest.
Definition UnauthorizedResponse : Response :=
  mkResponse http.StatusUnauthorized.
Definition MethodNotAllowedResponse : Response :=
  mkResponse http.StatusMethodNotAllowed.
Definition InternalServerErrorResponse : Response :=
  mkResponse http.StatusInternalServerError.

Definition contactStatusProviderIDIndexKey := "contact-status-providerID".
Definition groupProviderIDIndexKey := "group-providerID".
Definition groupMembershipRemovalIndexKey := "group-membership-removal".

(** [fmt.Sprintf("%s-%s-%s-%s", ...)]. *)
Definition buildGroupMembershipRemovalIndexKey
           (contactRef : ContactReference)
           (groupRef : ContactGroupReference) : string :=
  crName contactRef ++ "-" ++ crNamespace contactRef ++ "-" ++
  grName groupRef ++ "-" ++ grNamespace groupRef.

(** The three extraction functions [setupIndexes] registers, under
    [contactStatusProviderIDIndexKey], [groupProviderIDIndexKey] and
    [groupMembershipRemovalIndexKey]. *)
Definition indexContact (contact : Contact) : list string :=
  if String.eqb (UID (cMeta contact)) "" then []
  else [UID (cMeta contact)].

Definition indexContactGroup (group : ContactGroup) : list string :=
  match find (fun p => String.eqb (gpName p) "Loops")
             (gProviders (gSpec group)) with
  | Some provider => [gpID provider]
  | None => []
  end.

Definition indexRemoval (removal : ContactGroupMembershipRemoval)
  : list string :=
  [buildGroupMembershipRemovalIndexKey (rContactRef (rSpec removal))
                                       (rContactGroupRef (rSpec removal))].

(** The first item of a listing, if any ([&list.Items[0]]). *)
Definition firstItem {T} (l : list T) : option T :=
  match l with [] => None | o :: _ => Some o end.

Section Handler.
Variable env : Env.

Definition getContactByProviderID (providerID : string)
  : M (option Contact * option error) :=
  '(contactList, err) <- List env indexContact providerID ;;
  match err with
  | Some err => ret (None, Some err)
  | None => ret (firstItem contactList, None)
  end.

Definition getContactGroupByProviderID (providerID : string)
  : M (option ContactGroup * option error) :=
  '(contactGroupList, err) <- List env indexContactGroup providerID ;;
  match err with
  | Some err => ret (None, Some err)
  | None => ret (firstItem contactGroupList, None)
  end.

Definition createContactGroupMembership (contact : Contact)
           (group : ContactGroup) : M (option error) :=
  let contactGroupMembership :=
    mkMembership
      (metav1.generated (Name (gMeta group) ++ "-" ++ Name (cMeta contact))
                        (Namespace (gMeta group)))
      (mkMembershipSpec
         (mkContactRef (Name (cMeta contact)) (Namespace (cMeta contact)))
         (mkGroupRef (Name (gMeta group)) (Namespace (gMeta group))))
      (mkMembershipStatus [] []) in
  Create env contactGroupMembership.

Definition getContactGroupMembershipRemoval (contact : Contact)
           (group : ContactGroup)
  : M (option ContactGroupMembershipRemoval * option error) :=
  '(removalList, err) <-
     List env indexRemoval
       (buildGroupMembershipRemovalIndexKey
          (mkContactRef (Name (cMeta contact)) (Namespace (cMeta contact)))
          (mkGroupRef (Name (gMeta group)) (Namespace (gMeta group)))) ;;
  match err with
  | Some err => ret (None, Some err)
  | None => ret (firstItem removalList, None)
  end.

Definition deleteContactGroupMembershipRemoval
           (removal : ContactGroupMembershipRemoval) : M (option error) :=
  Delete env removal.

Definition createContactGroupMembershipRemoval (contact : Contact)
           (group : ContactGroup) : M (option error) :=
  let removal :=
    mkRemoval
      (metav1.generated (Name (gMeta group) ++ "-" ++ Name (cMeta contact))
                        (Namespace (gMeta group)))
      (mkRemovalSpec
         (mkContactRef (Name (cMeta contact)) (Namespace (cMeta contact)))
         (mkGroupRef (Name (gMeta group)) (Namespace (gMeta group)))) in
  Create env removal.

(** [err != nil && !pred(err)]. *)
Definition failedOtherThan (pred : error -> bool) (err : option error)
  : bool :=
  match err with
  | Some e => negb (pred e)
  | None => false
  end.

(** The mailing-list id the request carries ([groupID]). *)
Definition requestGroupID (req : Request) : string :=
  let groupID := "" in
  let groupID :=
    match MailingListSubscribedEvent req with
    | Some e => loops.mlID (loops.subMailingList e)
    | None => groupID
    end in
  match MailingListUnsubscribedEvent req with
  | Some e => loops.mlID (loops.unsubMailingList e)
  | None => groupID
  end.

(** The subscribed branch, once contact and group are resolved. *)
Definition handleSubscribed (contact : Contact) (group : ContactGroup)
  : M Response :=
  '(removal, err) <- getContactGroupMembershipRemoval contact group ;;
  if failedOtherThan apierrors.IsNotFound err
  then ret InternalServerErrorResponse
  else
    err <- match removal with
           | Some removal => deleteContactGroupMembershipRemoval removal
           | None => ret None
           end ;;
    match err with
    | Some _ => ret InternalServerErrorResponse
    | None =>
        err <- createContactGroupMembership contact group ;;
        if failedOtherThan apierrors.IsAlreadyExists err
        then ret InternalServerErrorResponse
        else ret OkResponse
    end.

(** The unsubscribed branch, once contact and group are resolved. *)
Definition handleUnsubscribed (contact : Contact) (group : ContactGroup)
  : M Response :=
  '(removal, err) <- getContactGroupMembershipRemoval contact group ;;
  if failedOtherThan apierrors.IsNotFound err
  then ret InternalServerErrorResponse
  else
    match removal with
    | Some _ => ret OkResponse
    | None =>
        err <- createContactGroupMembershipRemoval contact group ;;
        match err with
        | Some _ => ret InternalServerErrorResponse
        | None => ret OkResponse
        end
    end.

(** The handler of [NewLoopsContactGroupMembershipWebhookV1]. *)
Definition Handle (req : Request) : M Response :=
  let userUID := loops.UserID (loops.contactIdentity (BaseEvent req)) in
  if String.eqb userUID "" then ret BadRequestResponse
  else
    '(contact, err) <- getContactByProviderID userUID ;;
    match err, contact with
    | Some _, _ => ret InternalServerErrorResponse
    | None, None => ret BadRequestResponse
    | None, Some contact =>
        let groupID := requestGroupID req in
        if String.eqb groupID "" then ret BadRequestResponse
        else
          '(group, err) <- getContactGroupByProviderID groupID ;;
          match err, group with
          | Some _, _ => ret InternalServerErrorResponse
          | None, None => ret BadRequestResponse
          | None, Some group =>
              match MailingListSubscribedEvent req,
                    MailingListUnsubscribedEvent req with
              | Some _, _ => handleSubscribed contact group
              | None, Some _ => handleUnsubscribed contact group
              | None, None => ret BadRequestResponse
              end
          end
    end.

End Handler.

(** *** http.go: the HTTP entry point *)

Record Webhook := mkWebhook {
  Handler : Request -> M Response;
  Endpoint : string;
  signingSecret : string
}.

(** [NewLoopsContactGroupMembershipWebhookV1(k8sClient, signingSecret)]. *)
Definition NewLoopsContactGroupMembershipWebhookV1 (env : Env)
           (signingSecret : string) : Webhook :=
  mkWebhook (Handle env)
            "/apis/emailnotification.k8s.io/v1/loops/contactgroupmemberships"
            signingSecret.

(** What [ServeHTTP] leaves on the [http.ResponseWriter]: the headers it
    set and the status it wrote. *)
Record ResponseWriter := mkResponseWriter {
  wHeader : http.Header;
  wStatus : option Z
}.

(** [(wh *Webhook) writeResponse(w, response)]. *)
Definition writeResponse (w : ResponseWriter) (response : Response)
  : ResponseWriter :=
  mkResponseWriter (wHeader w) (Some (HttpStatus response)).

Section Serve.
(** [json.Unmarshal(body, &v)] at the three event types. *)
Variable unmarshalEvent : string -> loops.WebhookEvent + error.
Variable unmarshalSubscribed
  : string -> loops.MailingListSubscribedEvent + error.
Variable unmarshalUnsubscribed
  : string -> loops.MailingListUnsubscribedEvent + error.

(** [(wh *Webhook) ServeHTTP(w, r)]; [read] is what [io.ReadAll(r.Body)]
    returns.  The handler modelled here does not panic, so the deferred
    recovery has nothing to do. *)
Definition ServeHTTP (wh : Webhook) (w : ResponseWriter)
           (r : http.Request) (read : string + error) : M ResponseWriter :=
  if negb (String.eqb (http.Method r) "POST") then
    let w := mkResponseWriter (http.Set_ (wHeader w) "Allow" "POST")
                              (wStatus w) in
    ret (writeResponse w MethodNotAllowedResponse)
  else
    match read with
    | inr _ => ret (writeResponse w InternalServerErrorResponse)
    | inl body =>
        match verifyWebhook r body (signingSecret wh) with
        | Some _ => ret (writeResponse w UnauthorizedResponse)
        | None =>
            match unmarshalEvent body with
            | inr _ => ret (writeResponse w BadRequestResponse)
            | inl baseEvent =>
                if String.eqb (loops.EventName baseEvent)
                              loops.EventNameMailingListSubscribed then
                  match unmarshalSubscribed body with
                  | inr _ => ret (writeResponse w BadRequestResponse)
                  | inl subscribedEvent =>
                      response <- Handler wh
                                    (mkRequest (Some subscribedEvent) None
                                               baseEvent) ;;
                      ret (writeResponse w response)
                  end
                else if String.eqb (loops.EventName baseEvent)
                                   loops.EventNameMailingListUnsubscribed
                then
                  match unmarshalUnsubscribed body with
                  | inr _ => ret (writeResponse w BadRequestResponse)
                  | inl unsubscribedEvent =>
                      response <- Handler wh
                                    (mkRequest None (Some unsubscribedEvent)
                                               baseEvent) ;;
                      ret (writeResponse w response)
                  end
                else ret (writeResponse w BadRequestResponse)
            end
        end
    end.
End Serve.

End webhook.

(* ------------------------------------------------------------------------- *)
(** ** Package [fmt]: the [%x] verb on a byte string *)

Module fmt.

Definition hexDigit (n : N) : ascii :=
  match String.get (N.to_nat n) "0123456789abcdef" with
  | Some c => c
  | None => "0"%char
  end.

Fixpoint hex (s : string) : string :=
  match s with
  | EmptyString => EmptyString
  | String c rest =>
      String (hexDigit (N.shiftr (N_of_ascii c) 4))
             (String (hexDigit (N.land (N_of_ascii c) 15)) (hex rest))
  end.

End fmt.

(* ------------------------------------------------------------------------- *)
(** ** Packages [ctrl] and [finalizer] (sigs.k8s.io/controller-runtime) *)

Module ctrl.

Record Result := mkResult { Requeue : bool }.

(** What a reconciliation returns, [(ctrl.Result, error)], together with the
    object the reconciler holds in memory when it returns ([None] when it
    never read one). *)
Record Outcome (T : Type) := mkOutcome {
  result : Result;
  err : option error;
  object : option T
}.
Arguments mkOutcome {T}.
Arguments result {T}.
Arguments err {T}.
Arguments object {T}.

Definition done {T} (o : option T) : Outcome T :=
  mkOutcome (mkResult false) None o.
Definition requeue {T} (o : option T) : Outcome T :=
  mkOutcome (mkResult true) None o.
Definition failed {T} (e : error) (o : option T) : Outcome T :=
  mkOutcome (mkResult false) (Some e) o.

End ctrl.

Module finalizer.
Import metav1 client.
Local Open Scope go_scope.

Record Result := mkResult { Updated : bool; StatusUpdated : bool }.

(** [dt.IsZero()] on a [*metav1.Time]. *)
Definition IsZero (dt : option Time) : bool :=
  match dt with
  | None => true
  | Some t => N.eqb t 0
  end.

Definition quoted (s : string) : string :=
  String "034"%char (s ++ String "034"%char EmptyString).

(** [Finalizers.Finalize(ctx, obj)] with one finalizer registered under
    [key], as [SetupWithManager] does: an object that is not being deleted
    gets the finalizer key; an object being deleted that still has the key
    is finalized, and loses the key when that succeeds. *)
Definition Finalize {T} `{Object T} (key : string)
           (finalize : T -> M (Result * option error * T)) (obj : T)
  : M (Result * option error * T) :=
  let dt := DeletionTimestamp (GetObjectMeta obj) in
  let has := controllerutil.ContainsFinalizer (GetObjectMeta obj) key in
  if IsZero dt && negb has then
    ret (mkResult true false, None,
         SetObjectMeta obj (controllerutil.AddFinalizer (GetObjectMeta obj) key))
  else if negb (IsZero dt) && has then
    '(finalizerRes, err, obj) <- finalize obj ;;
    match err with
    | Some e =>
        ret (mkResult (Updated finalizerRes) (StatusUpdated finalizerRes),
             Some (aggregateError
                     (wrapError ("finalizer " ++ quoted key ++ " failed") e)),
             obj)
    | None =>
        ret (mkResult true (StatusUpdated finalizerRes), None,
             SetObjectMeta obj
               (controllerutil.RemoveFinalizer (GetObjectMeta obj) key))
    end
  else ret (mkResult false false, None, obj).

End finalizer.

(* ------------------------------------------------------------------------- *)
(** ** Package [internal/util]: status.go *)

Module util.
Import client.
Local Open Scope go_scope.

(** [PatchStatusIfChanged(ctx, params)]: [deepEqual] is
    [equality.Semantic.DeepEqual] at the status type of the object. *)
Definition PatchStatusIfChanged (env : Env) {T S} `{Object T}
           (deepEqual : S -> S -> bool) (Object_ : T)
           (OldStatus NewStatus : S) : M (option error) :=
  if negb (deepEqual OldStatus NewStatus) then
    err <- PatchStatus env Object_ ;;
    match err with
    | Some e => ret (Some (wrapError "failed to patch resource status" e))
    | None => ret None
    end
  else ret None.

End util.

(* ------------------------------------------------------------------------- *)
(** ** Package [internal/controller]: the Contact reconciler *)

Module controller.
Import metav1 v1alpha1 client.
Local Open Scope go_scope.

Definition loopsContactFinalizerKey := "notification.miloapis.com/loops-contact".

Definition LoopsContactReadyCondition := "LoopsContactReady".
Definition LoopsContactNotCreatedReason := "ContactNotCreated".
Definition LoopsContactCreatedReason := "ContactCreated".
Definition LoopsContactUpdatedReason := "ContactUpdated".
Definition LoopsContactNotUpdatedReason := "ContactNotUpdated".

Definition NewsLetterAddedCondition := "NewsLetterAdded".
Definition NewsLetterAddedReason := "NewsLetterAdded".
Definition NewsLetterNotAddedReason := "NewsLetterNotAdded".

Definition generation (contact : Contact) : Z := Generation (cMeta contact).

Definition setCondition (contact : Contact) (c : Condition) : Contact :=
  withConditions contact
    (meta.SetStatusCondition (Conditions (cStatus contact)) c).

Module loopsContactFinalizer.
Section Finalizer.
Variable env : Env.

(** [(f *loopsContactFinalizer) DeleteContact]. *)
Definition DeleteContact (contact : Contact) : M (option error) :=
  err <- Loops env (loops.DeleteContact (UID (cMeta contact))) ;;
  match err with
  | Some e =>
      if negb (loops.IsNotFound e)
      then ret (Some (wrapError "failed to delete Loops contact" e))
      else ret None
  | None => ret None
  end.

(** [(f *loopsContactFinalizer) Finalize]. *)
Definition Finalize (contact : Contact)
  : M (finalizer.Result * option error * Contact) :=
  err <- DeleteContact contact ;;
  match err with
  | Some e =>
      ret (finalizer.mkResult false false,
           Some (wrapError "failed to delete Loops contact" e), contact)
  | None => ret (finalizer.mkResult false false, None, contact)
  end.
End Finalizer.
End loopsContactFinalizer.

Module LoopsContactController.

(** The configuration fields of the [LoopsContactController] struct. *)
Record Fields := mkFields {
  NewsLetterContactGroupName : string;
  NewsLetterContactGroupNamespace : string
}.

Section Controller.
Variable env : Env.
Variable r : Fields.

Definition upsertContact (contact : Contact) : M (option error) :=
  err <- Loops env
           (loops.UpsertContact
              (loops.mkContactRequest
                 (Email (cSpec contact))
                 (UID (cMeta contact))
                 (GivenName (cSpec contact))
                 (FamilyName (cSpec contact))
                 "email-provider-loops-k8s-controller"
                 (Some true))) ;;
  match err with
  | Some e => ret (Some (wrapError "failed to find Loops contact" e))
  | None => ret None
  end.

Definition isNewsletterContact (contact : Contact) : bool :=
  strings.HasPrefix (Name (cMeta contact)) "newsletter-".

Definition generateCgmName (contact : Contact) : string :=
  Name (cMeta contact) ++ "-" ++
  fmt.hex (sha256.Sum256 (UID (cMeta contact))).

(** [addToNewsLetterList]: the flag it returns and the contact as it
    leaves it. *)
Definition addToNewsLetterList (contact : Contact) : M (bool * Contact) :=
  let newsLetterCond :=
    meta.FindStatusCondition (Conditions (cStatus contact))
                             NewsLetterAddedCondition in
  let added :=
    match newsLetterCond with
    | Some c => ConditionStatus_eqb (Status c) ConditionTrue
    | None => false
    end in
  if added then ret (false, contact)
  else
    let contactgroupmembership :=
      mkMembership
        (metav1.named (generateCgmName contact) (Namespace (cMeta contact)))
        (mkMembershipSpec
           (mkContactRef (Name (cMeta contact)) (Namespace (cMeta contact)))
           (mkGroupRef (NewsLetterContactGroupName r)
                       (NewsLetterContactGroupNamespace r)))
        (mkMembershipStatus [] []) in
    err <- Create env contactgroupmembership ;;
    match err with
    | Some e =>
        if apierrors.IsAlreadyExists e then ret (false, contact)
        else
          now <- Now env ;;
          ret (true,
               setCondition contact
                 (mkCondition NewsLetterAddedCondition ConditionFalse
                    (generation contact) now NewsLetterNotAddedReason
                    ("Contact not added to Newsletter list: " ++ Error e)))
    | None =>
        now <- Now env ;;
        ret (false,
             setCondition contact
               (mkCondition NewsLetterAddedCondition ConditionTrue
                  (generation contact) now NewsLetterAddedReason
                  "Contact added to Newsletter list on email provider."))
    end.

(** First case of the switch: the condition is absent or NotCreated.
    The error, when there is one, is what [Reconcile] returns at once. *)
Definition creation (contact : Contact) : M (Contact * option error) :=
  err <- upsertContact contact ;;
  match err with
  | Some e =>
      if negb (loops.IsBadRequest e)
      then ret (contact,
                Some (wrapError "failed to create Loops contact" e))
      else
        now <- Now env ;;
        ret (setCondition contact
               (mkCondition LoopsContactReadyCondition ConditionFalse
                  (generation contact) now LoopsContactNotCreatedReason
                  ("Loops contact not created on email provider: "
                     ++ Error e)),
             None)
  | None =>
      now <- Now env ;;
      ret (withProviders
             (setCondition contact
                (mkCondition LoopsContactReadyCondition ConditionTrue
                   (generation contact) now LoopsContactCreatedReason
                   "Loops contact created on email provider"))
             [mkProviderStatus "Loops" (UID (cMeta contact))],
           None)
  end.

(** Second case of the switch: the generation moved. *)
Definition update (contact : Contact) : M (Contact * option error) :=
  err <- upsertContact contact ;;
  match err with
  | Some e =>
      if loops.IsBadRequest e then
        now <- Now env ;;
        ret (setCondition contact
               (mkCondition LoopsContactReadyCondition ConditionFalse
                  (generation contact) now LoopsContactNotUpdatedReason
                  ("Loops contact not updated on email provider: "
                     ++ Error e)),
             None)
      else ret (contact,
                Some (wrapError "failed to update Loops contact" e))
  | None =>
      now <- Now env ;;
      ret (setCondition contact
             (mkCondition LoopsContactReadyCondition ConditionTrue
                (generation contact) now LoopsContactUpdatedReason
                "Loops contact updated on email provider"),
           None)
  end.

(** Which case of the switch applies. *)
Inductive Case := CaseCreation | CaseUpdate | CaseNone.

Definition switchCase (contact : Contact) : Case :=
  match meta.FindStatusCondition (Conditions (cStatus contact))
                                 LoopsContactReadyCondition with
  | None => CaseCreation
  | Some readyCond =>
      if String.eqb (Reason readyCond) LoopsContactNotCreatedReason
      then CaseCreation
      else if negb (Z.eqb (ObservedGeneration readyCond)
                          (generation contact))
      then CaseUpdate
      else CaseNone
  end.

(** [Reconcile] from the point where the finalizers left the object
    alone: the switch, the newsletter side effect, the status patch. *)
Definition converge (contact : Contact) : M (ctrl.Outcome Contact) :=
  let oldStatus := cStatus contact in
  '(contact, early) <-
     match switchCase contact with
     | CaseCreation => creation contact
     | CaseUpdate => update contact
     | CaseNone => ret (contact, None)
     end ;;
  match early with
  | Some e => ret (ctrl.failed e (Some contact))
  | None =>
      '(errorAddingToNewsLetter, contact) <-
         (if isNewsletterContact contact
          then addToNewsLetterList contact
          else ret (false, contact)) ;;
      patchErr <-
         (if negb (equality.DeepEqualContactStatus oldStatus
                                                   (cStatus contact))
          then PatchStatus env contact
          else ret None) ;;
      match patchErr with
      | Some e =>
          ret (ctrl.failed (wrapError "failed to patch contact status" e)
                           (Some contact))
      | None =>
          if errorAddingToNewsLetter
          then ret (ctrl.failed
                      (errorString
                         "failed to add mailing list to Loops contact")
                      (Some contact))
          else ret (ctrl.done (Some contact))
      end
  end.

(** [(r *LoopsContactController) Reconcile]. *)
Definition Reconcile (req : ObjectKey) : M (ctrl.Outcome Contact) :=
  got <- Get env req ;;
  match got with
  | inr e =>
      if apierrors.IsNotFound e then ret (ctrl.done None)
      else ret (ctrl.failed (wrapError "failed to get contact" e) None)
  | inl contact =>
      '(finalizeResult, err, contact) <-
         finalizer.Finalize loopsContactFinalizerKey
           (loopsContactFinalizer.Finalize env) contact ;;
      match err with
      | Some e =>
          ret (ctrl.failed
                 (wrapError "failed to run finalizers for Contact" e)
                 (Some contact))
      | None =>
          if finalizer.Updated finalizeResult then
            updateErr <- Update env contact ;;
            match updateErr with
            | Some ue =>
                if apierrors.IsConflict ue
                then ret (ctrl.requeue (Some contact))
                else ret (ctrl.failed ue (Some contact))
            | None => ret (ctrl.done (Some contact))
            end
          else converge contact
      end
  end.

End Controller.
End LoopsContactController.

(** *** contactgroupmembership_controller.go *)

Definition LoopsContactGroupMembershipReadyCondition :=
  "LoopsContactGroupMembershipReady".
Definition LoopsContactGroupMembershipNotCreatedReason :=
  "ContactGroupMembershipNotCreated".
Definition LoopsContactGroupMembershipCreatedReason :=
  "ContactGroupMembershipCreated".
Definition LoopsContactGroupMembershipNotFinalizedReason :=
  "ContactGroupMembershipNotFinalized".

Definition loopsContactGroupMembershipFinalizerKey :=
  "notification.miloapis.com/loops-contact-group-membership".

Definition mSetCondition (cgm : ContactGroupMembership) (c : Condition)
  : ContactGroupMembership :=
  mWithConditions cgm
    (meta.SetStatusCondition (mConditions (mStatus cgm)) c).

Definition getMailingListId (cg : ContactGroup) : string * option error :=
  match find (fun provider => String.eqb (gpName provider) "Loops")
             (gProviders (gSpec cg)) with
  | Some provider => (gpID provider, None)
  | None =>
      (EmptyString,
       Some (errorString "mailing list ID not found for contact group"))
  end.

Section Referenced.
Variable env : Env.

(** [getReferencedResources]: both objects, or the first error. *)
Definition getReferencedResources (cgm : ContactGroupMembership)
  : M ((Contact * ContactGroup) + error) :=
  got <- Get env (mkKey (crNamespace (ContactRef (mSpec cgm)))
                        (crName (ContactRef (mSpec cgm)))) ;;
  match got with
  | inr e => ret (inr (wrapError "failed to get Contact" e))
  | inl contact =>
      got <- Get env (mkKey (grNamespace (ContactGroupRef (mSpec cgm)))
                            (grName (ContactGroupRef (mSpec cgm)))) ;;
      match got with
      | inr e => ret (inr (wrapError "failed to get ContactGroup" e))
      | inl contactGroup => ret (inl (contact, contactGroup))
      end
  end.
End Referenced.

Module loopsContactGroupMembershipFinalizer.
Section Finalizer.
Variable env : Env.

Definition removeContactFromMailingList (c : Contact) (cg : ContactGroup)
  : M (option error) :=
  match getMailingListId cg with
  | (_, Some e) =>
      ret (Some (wrapError "failed to get Loops mailing list ID" e))
  | (mailingListId, None) =>
      err <- Loops env
               (loops.RemoveFromMailingList (UID (cMeta c)) mailingListId) ;;
      match err with
      | Some e =>
          ret (Some (wrapError
                       "failed to remove Loops contact from mailing list" e))
      | None => ret None
      end
  end.

(** The first part of [Finalize]: the last [err] and the
    [finalizerError] it was wrapped into, if anything failed. *)
Definition cleanup (cgm : ContactGroupMembership)
  : M (option (error * error)) :=
  refs <- getReferencedResources env cgm ;;
  match refs with
  | inr e =>
      ret (Some (e, wrapError "failed to get referenced resources" e))
  | inl (contact, contactGroup) =>
      err <- removeContactFromMailingList contact contactGroup ;;
      match err with
      | Some e =>
          ret (Some (e, wrapError "failed to delete Loops contact" e))
      | None => ret None
      end
  end.

(** [(f *loopsContactGroupMembershipFinalizer) Finalize]. *)
Definition Finalize (cgm : ContactGroupMembership)
  : M (finalizer.Result * option error * ContactGroupMembership) :=
  failure <- cleanup cgm ;;
  match failure with
  | Some (e, finalizerError) =>
      let oldStatus := mStatus cgm in
      now <- Now env ;;
      let cgm :=
        mSetCondition cgm
          (mkCondition LoopsContactGroupMembershipReadyCondition
             ConditionFalse (Generation (mMeta cgm)) now
             LoopsContactGroupMembershipNotFinalizedReason
             ("Failed to remove Loops contact from mailing list: "
                ++ Error e)) in
      err <- util.PatchStatusIfChanged env
               equality.DeepEqualMembershipStatus cgm oldStatus
               (mStatus cgm) ;;
      match err with
      | Some pe =>
          ret (finalizer.mkResult false false,
               Some (wrapError
                       "failed to patch contactgroupmembership status in finalizer"
                       pe),
               cgm)
      | None =>
          ret (finalizer.mkResult false false, Some finalizerError, cgm)
      end
  | None => ret (finalizer.mkResult false false, None, cgm)
  end.
End Finalizer.
End loopsContactGroupMembershipFinalizer.

Module LoopsContactGroupMembershipController.
Section Controller.
Variable env : Env.

Definition addContactToMailingList (c : Contact) (cg : ContactGroup)
  : M (option error) :=
  match getMailingListId cg with
  | (_, Some e) =>
      ret (Some (wrapError "failed to get Loops mailing list ID" e))
  | (mailingListId, None) =>
      err <- Loops env
               (loops.AddToMailingList (UID (cMeta c)) mailingListId) ;;
      match err with
      | Some e =>
          ret (Some (wrapError
                       "failed to add Loops contact to mailing list" e))
      | None => ret None
      end
  end.

(** Does the creation branch of [Reconcile] apply. *)
Definition needsCreation (cgm : ContactGroupMembership) : bool :=
  match meta.FindStatusCondition
          (mConditions (mStatus cgm))
          LoopsContactGroupMembershipReadyCondition with
  | None => true
  | Some readyCond =>
      String.eqb (Reason readyCond)
                 LoopsContactGroupMembershipNotCreatedReason
  end.

(** The creation branch: the membership as it leaves it and the
    [reconcileError]. *)
Definition creation (cgm : ContactGroupMembership) (contact : Contact)
           (contactGroup : ContactGroup)
  : M (ContactGroupMembership * option error) :=
  err <- addContactToMailingList contact contactGroup ;;
  now <- Now env ;;
  match err with
  | Some e =>
      ret (mSetCondition cgm
             (mkCondition LoopsContactGroupMembershipReadyCondition
                ConditionFalse (Generation (mMeta cgm)) now
                LoopsContactGroupMembershipNotCreatedReason
                ("Loops contact group membership not created on email provider: "
                   ++ Error e)),
           Some e)
  | None =>
      ret (mWithProviders
             (mSetCondition cgm
                (mkCondition LoopsContactGroupMembershipReadyCondition
                   ConditionTrue (Generation (mMeta cgm)) now
                   LoopsContactGroupMembershipCreatedReason
                   "Loops contact group membership created on email provider"))
             [mkProviderStatus "Loops" (UID (cMeta contact))],
           None)
  end.

(** [Reconcile] from the point where the finalizers left the object
    alone. *)
Definition converge (cgm : ContactGroupMembership)
  : M (ctrl.Outcome ContactGroupMembership) :=
  refs <- getReferencedResources env cgm ;;
  match refs with
  | inr e =>
      ret (ctrl.failed (wrapError "failed to get referenced resources" e)
                       (Some cgm))
  | inl (contact, contactGroup) =>
      let oldStatus := mStatus cgm in
      '(cgm, reconcileError) <-
         (if needsCreation cgm then creation cgm contact contactGroup
          else ret (cgm, None)) ;;
      err <- util.PatchStatusIfChanged env
               equality.DeepEqualMembershipStatus cgm oldStatus
               (mStatus cgm) ;;
      match err with
      | Some e => ret (ctrl.failed e (Some cgm))
      | None =>
          match reconcileError with
          | Some e => ret (ctrl.failed e (Some cgm))
          | None => ret (ctrl.done (Some cgm))
          end
      end
  end.

(** [(r *LoopsContactGroupMembershipController) Reconcile]. *)
Definition Reconcile (req : ObjectKey)
  : M (ctrl.Outcome ContactGroupMembership) :=
  got <- Get env req ;;
  match got with
  | inr e =>
      if apierrors.IsNotFound e then ret (ctrl.done None)
      else ret (ctrl.failed
                  (wrapError "failed to get contactgroupmembership" e)
                  None)
  | inl cgm =>
      '(finalizeResult, err, cgm) <-
         finalizer.Finalize loopsContactGroupMembershipFinalizerKey
           (loopsContactGroupMembershipFinalizer.Finalize env) cgm ;;
      match err with
      | Some e =>
          ret (ctrl.failed
                 (wrapError
                    "failed to run finalizers for ContactGroupMembership" e)
                 (Some cgm))
      | None =>
          if finalizer.Updated finalizeResult then
            updateErr <- Update env cgm ;;
            match updateErr with
            | Some ue =>
                if apierrors.IsConflict ue
                then ret (ctrl.requeue (Some cgm))
                else ret (ctrl.failed ue (Some cgm))
            | None => ret (ctrl.done (Some cgm))
            end
          else converge cgm
      end
  end.

End Controller.
End LoopsContactGroupMembershipController.

End controller.

(* ------------------------------------------------------------------------- *)
(** ** The vocabulary of the claims

    Nothing below is code of the repository: these are the observations
    the claims are stated with (which calls were made, which records a pair
    has, what an invariant demands) and the inputs they speak about. *)

Module spec.
Import metav1 v1alpha1 client controller.

(** The key a well-formed secret [prefix_<base64>] carries. *)
Definition secretKey (secret : string) : option string :=
  match strings.Split secret "_"%char with
  | _ :: part1 :: _ => base64.DecodeString part1
  | _ => None
  end.

(** A request carrying the three webhook headers. *)
Definition signedRequest (eventID timestamp webhookSignature : string)
  : http.Request :=
  http.mkRequest "POST"
    [("webhook-id", eventID); ("webhook-timestamp", timestamp);
     ("webhook-signature", webhookSignature)].

(** The spec's reading of a match: the token is [version,digest] and its
    digest part, everything after the comma, is exactly [signature]. *)
Definition digestSuffixMatches (token signature : string) : bool :=
  strings.HasSuffix token ("," ++ signature).

Definition specSignatureFound (webhookSignature signature : string) : bool :=
  existsb (fun token => digestSuffixMatches token signature)
          (strings.Split webhookSignature " "%char).



(** The world after a call that left the cluster alone. *)
Definition logged (call : Call) (w : World) : World :=
  mkWorld (cluster w) (call :: calls w).

(** [m] leaves the observation [f] of the world as it found it. *)
Definition preserves {A X} (f : World -> X) (m : M A) : Prop :=
  forall w, f (snd (m w)) = f w.

(** The same code run twice in a row. *)
Definition twice {A} (m : M A) : M (A * A) :=
  bind m (fun a => bind m (fun b => ret (a, b))).

Definition isLoopsCall (c : Call) : bool :=
  match c with LoopsCall _ => true | StoreCall _ _ => false end.

Definition isStatusPatch (c : Call) : bool :=
  match c with StoreCall VPatchStatus _ => true | _ => false end.

(** The calls to the remote provider made so far. *)
Definition remoteCalls (w : World) : list Call := filter isLoopsCall (calls w).

(** The status patches issued so far. *)
Definition statusPatches (w : World) : list Call :=
  filter isStatusPatch (calls w).

(** What the status patches of a run from [w] to [w'] have to be, for an
    object of kind [kind] whose status was [before] when the run read it
    and is [after] when the run returns: none when the two are equal, one
    otherwise. *)
Definition patchedIffChanged {S} (kind : string) (before after : S)
           (w w' : World) : Prop :=
  (after = before -> statusPatches w' = statusPatches w)
  /\ (after <> before ->
      statusPatches w' = StoreCall VPatchStatus kind :: statusPatches w).

(** The requests [ServeHTTP] hands to the handler for the two events. *)
Definition baseEvent (eventName userID : string) : loops.WebhookEvent :=
  loops.mkWebhookEvent eventName 0 "" (loops.mkContactIdentity "" "" userID).

Definition subscribedRequest (userID listID : string) : webhook.Request :=
  let base := baseEvent loops.EventNameMailingListSubscribed userID in
  webhook.mkRequest
    (Some (loops.mkSubscribed base (loops.mkMailingList listID "" "" false)))
    None base.

Definition unsubscribedRequest (userID listID : string) : webhook.Request :=
  let base := baseEvent loops.EventNameMailingListUnsubscribed userID in
  webhook.mkRequest None
    (Some (loops.mkUnsubscribed base (loops.mkMailingList listID "" "" false)))
    base.

(** The memberships and tombstones of a (contact, group) pair. *)
Definition membershipOf (contact : Contact) (group : ContactGroup)
           (m : ContactGroupMembership) : bool :=
  String.eqb (crName (ContactRef (mSpec m))) (Name (cMeta contact))
  && String.eqb (crNamespace (ContactRef (mSpec m))) (Namespace (cMeta contact))
  && String.eqb (grName (ContactGroupRef (mSpec m))) (Name (gMeta group))
  && String.eqb (grNamespace (ContactGroupRef (mSpec m)))
                (Namespace (gMeta group)).

Definition removalOf (contact : Contact) (group : ContactGroup)
           (r : ContactGroupMembershipRemoval) : bool :=
  String.eqb (crName (rContactRef (rSpec r))) (Name (cMeta contact))
  && String.eqb (crNamespace (rContactRef (rSpec r)))
                (Namespace (cMeta contact))
  && String.eqb (grName (rContactGroupRef (rSpec r))) (Name (gMeta group))
  && String.eqb (grNamespace (rContactGroupRef (rSpec r)))
                (Namespace (gMeta group)).

Definition membershipsOf (contact : Contact) (group : ContactGroup)
           (cl : Cluster) : list ContactGroupMembership :=
  filter (membershipOf contact group) (Memberships cl).

Definition removalsOf (contact : Contact) (group : ContactGroup)
           (cl : Cluster) : list ContactGroupMembershipRemoval :=
  filter (removalOf contact group) (Removals cl).

(** A Ready condition of the given outcome, observed at the contact's
    generation. *)
Definition readyCondition (status : ConditionStatus) (reason message : string)
           (contact : Contact) (now : Time) : Condition :=
  mkCondition LoopsContactReadyCondition status (generation contact) now
              reason message.

(** The invariant of a Contact status (section 3 of the specification): at
    most one Ready condition, at most one provider entry per name. *)
Definition countType (conditionType : string) (conditions : list Condition)
  : nat :=
  List.length
    (filter (fun c => String.eqb (Type_ c) conditionType) conditions).

Definition statusInvariant (s : ContactStatus) : Prop :=
  countType LoopsContactReadyCondition (Conditions s) <= 1
  /\ NoDup (map psName (Providers s)).

End spec.

(* ------------------------------------------------------------------------- *)
(** ** Concrete deliveries and cluster states, used to run the model *)

Module example.
Import metav1 v1alpha1 client spec.

(** A signed delivery: secret [whsec_] followed by the base64 of
    [secret-key], event [evt_1] at [1700000000], body [{}]. *)
Definition secret : string := "whsec_c2VjcmV0LWtleQ==".
Definition key : string := "secret-key".
Definition signature : string := Eval vm_compute in
  webhook.computeSignature key (webhook.signedContent "evt_1" "1700000000" "{}").

Definition alice : Contact :=
  mkContact (mkObjectMeta "alice" "" "default" "u1" 1 None [])
            (mkContactSpec "a@example.com" "Alice" "Liddell")
            (mkContactStatus [] []).

Definition news : ContactGroup :=
  mkContactGroup (mkObjectMeta "news" "" "default" "group-uid" 1 None [])
                 (mkGroupSpec [mkGroupProvider "Loops" "g1"]).

Definition tombstone : ContactGroupMembershipRemoval :=
  mkRemoval (mkObjectMeta "news-alice-x7k2p" "news-alice" "default" "" 1 None [])
            (mkRemovalSpec (mkContactRef "alice" "default")
                           (mkGroupRef "news" "default")).

Definition forbidden : error :=
  StatusError StatusReasonForbidden "memberships are read-only".

(** A store that refuses nothing and names the object it generates in its
    n-th request after [n]; a provider that accepts everything. *)
Definition calm : Env :=
  mkEnv (fun _ => None) (fun n => ("-" ++ itoa (Z.of_nat n))%string)
        (fun _ => None) (fun n => N.of_nat n).

(** The same store, refusing its fifth request. *)
Definition refusingFifth : Env :=
  mkEnv (fun n => if Nat.eqb n 4 then Some forbidden else None)
        (nameSuffix calm) (loopsReply calm) (clock calm).

Definition fresh : World := mkWorld (mkCluster [alice] [news] [] []) [].

Definition withTombstone : World :=
  mkWorld (mkCluster [alice] [news] [] [tombstone]) [].

(** Two contacts whose names and namespaces, joined by a dash, read the
    same: [a-b] in namespace [c], and [a] in namespace [b-c]. *)
Definition ab : Contact :=
  mkContact (mkObjectMeta "a-b" "" "c" "u1" 1 None [])
            (mkContactSpec "ab@example.com" "A" "B")
            (mkContactStatus [] []).

Definition a : Contact :=
  mkContact (mkObjectMeta "a" "" "b-c" "u2" 1 None [])
            (mkContactSpec "a@example.com" "A" "A")
            (mkContactStatus [] []).

(** The tombstone of contact [a] (namespace [b-c]) for the group [news]. *)
Definition tombstoneOfA : ContactGroupMembershipRemoval :=
  mkRemoval (mkObjectMeta "news-a-q9w8e" "news-a" "default" "" 1 None [])
            (mkRemovalSpec (mkContactRef "a" "b-c")
                           (mkGroupRef "news" "default")).

Definition colliding : World :=
  mkWorld (mkCluster [ab; a] [news] [] [tombstoneOfA]) [].

(** Objects for the reconcilers: [alice] with her finalizer in place, not
    yet created remotely; created and observed at her generation; and
    under deletion. *)
Definition fields : controller.LoopsContactController.Fields :=
  controller.LoopsContactController.mkFields "newsletter" "default".

Definition aliceMeta (deletion : option Time) : ObjectMeta :=
  mkObjectMeta "alice" "" "default" "u1" 1 deletion
               [controller.loopsContactFinalizerKey].

Definition pending : Contact :=
  mkContact (aliceMeta None)
            (mkContactSpec "a@example.com" "Alice" "Liddell")
            (mkContactStatus [] []).

Definition created : Condition :=
  mkCondition controller.LoopsContactReadyCondition ConditionTrue 1 7%N
              controller.LoopsContactCreatedReason
              "Loops contact created on email provider".

Definition converged : Contact :=
  mkContact (aliceMeta None)
            (mkContactSpec "a@example.com" "Alice" "Liddell")
            (mkContactStatus [created] [mkProviderStatus "Loops" "u1"]).

(** [alice] after her spec was edited: created at generation 1, now at
    generation 2. *)
Definition edited : Contact :=
  mkContact (mkObjectMeta "alice" "" "default" "u1" 2 None
                          [controller.loopsContactFinalizerKey])
            (mkContactSpec "alice@example.com" "Alice" "Liddell")
            (mkContactStatus [created] [mkProviderStatus "Loops" "u1"]).

Definition deleting : Contact :=
  mkContact (aliceMeta (Some 42%N))
            (mkContactSpec "a@example.com" "Alice" "Liddell")
            (mkContactStatus [created] [mkProviderStatus "Loops" "u1"]).

Definition membership : ContactGroupMembership :=
  mkMembership
    (mkObjectMeta "news-alice-k3j5h" "news-alice" "default" "m1" 1 None
                  [controller.loopsContactGroupMembershipFinalizerKey])
    (mkMembershipSpec (mkContactRef "alice" "default")
                      (mkGroupRef "news" "default"))
    (mkMembershipStatus [] []).

(** The membership once [alice] was added to the mailing list. *)
Definition subscribed : ContactGroupMembership :=
  mkMembership
    (mkObjectMeta "news-alice-k3j5h" "news-alice" "default" "m1" 1 None
                  [controller.loopsContactGroupMembershipFinalizerKey])
    (mkMembershipSpec (mkContactRef "alice" "default")
                      (mkGroupRef "news" "default"))
    (mkMembershipStatus
       [mkCondition controller.LoopsContactGroupMembershipReadyCondition
                    ConditionTrue 1 9%N
                    controller.LoopsContactGroupMembershipCreatedReason
                    "Loops contact group membership created on email provider"]
       [mkProviderStatus "Loops" "u1"]).

(** The membership as its first reconciliation under [calm] stores it:
    the condition is set after the fourth call. *)
Definition subscribed' : ContactGroupMembership :=
  mkMembership (mMeta subscribed) (mSpec subscribed)
    (mkMembershipStatus
       [mkCondition controller.LoopsContactGroupMembershipReadyCondition
                    ConditionTrue 1 4%N
                    controller.LoopsContactGroupMembershipCreatedReason
                    "Loops contact group membership created on email provider"]
       [mkProviderStatus "Loops" "u1"]).

(** The same membership under deletion. *)
Definition leaving : ContactGroupMembership :=
  mkMembership
    (mkObjectMeta "news-alice-k3j5h" "news-alice" "default" "m1" 1
                  (Some 50%N)
                  [controller.loopsContactGroupMembershipFinalizerKey])
    (mSpec subscribed) (mStatus subscribed).

(** A group that is not known to the provider. *)
Definition local : ContactGroup :=
  mkContactGroup (mkObjectMeta "news" "" "default" "group-uid" 1 None [])
                 (mkGroupSpec [mkGroupProvider "Resend" "r1"]).

Definition aliceKey : ObjectKey := mkKey "default" "alice".
Definition membershipKey : ObjectKey := mkKey "default" "news-alice-k3j5h".

Definition pendingWorld : World :=
  mkWorld (mkCluster [pending] [news] [membership] []) [].

Definition convergedWorld : World :=
  mkWorld (mkCluster [converged] [news] [] []) [].

Definition badRequest : error :=
  LoopsError 400 "{success:false,message:Invalid email}".

Definition gone : error := LoopsError 404 "{success:false,message:Not found}".

(** A provider that answers every call with the given error. *)
Definition answering (e : error) : Env :=
  mkEnv (storeFault calm) (nameSuffix calm) (fun _ => Some e) (clock calm).

End example.

(* ========================================================================= *)
(** * Theorems *)

(** In what follows [++] is the append of strings. *)
Local Open Scope string_scope.

(* ------------------------------------------------------------------------- *)
(** * Facts about strings *)

Section StringFacts.

Lemma length_append (s t : string) :
  String.length (s ++ t) = String.length s + String.length t.
Proof. induction s as [|c s IH]; simpl; [reflexivity | now rewrite IH]. Qed.

Lemma HasPrefix_refl (s : string) : strings.HasPrefix s s = true.
Proof.
  induction s as [|c s IH]; simpl; [reflexivity|].
  now rewrite Ascii.eqb_refl.
Qed.



Lemma Contains_cons (c : ascii) (s t : string) :
  strings.Contains (String c s) t
  = strings.HasPrefix (String c s) t || strings.Contains s t.
Proof. reflexivity. Qed.

Lemma Contains_append (p s t : string) :
  strings.Contains s t = true -> strings.Contains (p ++ s) t = true.
Proof.
  intros H. induction p as [|c p IH]; [exact H|].
  cbn [append]. rewrite Contains_cons, IH. apply orb_true_r.
Qed.

Lemma Contains_refl (s : string) : strings.Contains s s = true.
Proof. destruct s; simpl; [reflexivity|]. now rewrite Ascii.eqb_refl, HasPrefix_refl. Qed.

Lemma HasSuffix_Contains (s t : string) :
  strings.HasSuffix s t = true -> strings.Contains s t = true.
Proof.
  induction s as [|d s IH].
  - destruct t; [reflexivity | discriminate].
  - cbn [strings.HasSuffix strings.Contains].
    intros H. apply orb_true_iff in H as [H | H].
    + apply String.eqb_eq in H. subst t.
      now rewrite HasPrefix_refl.
    + rewrite (IH H). apply orb_true_r.
Qed.

Lemma Split_absent (sep : ascii) (s : string) :
  strings.mem sep s = false -> strings.Split s sep = [s].
Proof.
  induction s as [|d s IH]; simpl; [reflexivity|].
  intros H. apply orb_false_iff in H as [Hd Hs].
  rewrite Hd, (IH Hs). reflexivity.
Qed.

Lemma mem_append (c : ascii) (s t : string) :
  strings.mem c (s ++ t) = strings.mem c s || strings.mem c t.
Proof.
  induction s as [|d s IH]; simpl; [reflexivity|].
  now rewrite IH, orb_assoc.
Qed.

Lemma mem_get (n : nat) (s : string) (c : ascii) :
  String.get n s = Some c -> strings.mem c s = true.
Proof.
  revert n; induction s as [|d s IH]; intros [|n]; simpl; try discriminate.
  - intros [= ->]. now rewrite Ascii.eqb_refl.
  - intros H. rewrite (IH _ H). apply orb_true_r.
Qed.

(** Strings by groups of three bytes, the way base64 reads them. *)
Lemma string_ind3 (P : string -> Prop) :
  P EmptyString ->
  (forall a, P (String a EmptyString)) ->
  (forall a b, P (String a (String b EmptyString))) ->
  (forall a b c rest, P rest -> P (String a (String b (String c rest)))) ->
  forall s, P s.
Proof.
  intros P0 P1 P2 P3.
  assert (forall s, P s /\ (forall a, P (String a s))
                    /\ (forall a b, P (String a (String b s)))) as H.
  { induction s as [|c s [IH0 [IH1 IH2]]].
    - repeat split; auto.
    - repeat split; auto. }
  intros s. apply H.
Qed.

End StringFacts.

(* ------------------------------------------------------------------------- *)
(** * Facts about base64 *)

Section Base64Facts.
Local Open Scope N_scope.

Lemma land_shiftl_low (a b n : N) :
  b < 2 ^ n -> N.land (N.shiftl a n) b = 0.
Proof.
  intros Hb. apply N.bits_inj. intros i.
  rewrite N.land_spec, N.bits_0.
  destruct (N.ltb_spec i n) as [Hi | Hi].
  - now rewrite N.shiftl_spec_low.
  - destruct (N.eq_dec b 0) as [-> | Hnz].
    + now rewrite N.bits_0, andb_false_r.
    + rewrite (N.bits_above_log2 b i), andb_false_r; [reflexivity|].
      apply N.lt_le_trans with n; [|assumption].
      apply N.log2_lt_pow2; lia.
Qed.

Lemma lor_shiftl_add (a b n : N) :
  b < 2 ^ n -> N.lor (N.shiftl a n) b = a * 2 ^ n + b.
Proof.
  intros Hb.
  rewrite <- N.lxor_lor by now apply land_shiftl_low.
  rewrite <- N.add_nocarry_lxor by now apply land_shiftl_low.
  now rewrite N.shiftl_mul_pow2.
Qed.

Lemma pack_add (a b c : N) :
  b < 256 -> c < 256 -> base64.pack a b c = a * 65536 + b * 256 + c.
Proof.
  intros Hb Hc. unfold base64.pack.
  assert (N.shiftl b 8 = b * 256) as Eb
      by (rewrite N.shiftl_mul_pow2; reflexivity).
  rewrite (lor_shiftl_add a (N.shiftl b 8) 16)
    by (rewrite Eb; change (2 ^ 16) with 65536; lia).
  rewrite Eb. change (2 ^ 16) with 65536.
  replace (a * 65536 + b * 256) with (N.shiftl (a * 256 + b) 8)
    by (rewrite N.shiftl_mul_pow2; change (2 ^ 8) with 256; lia).
  rewrite lor_shiftl_add by (change (2 ^ 8) with 256; lia).
  rewrite N.shiftl_mul_pow2. change (2 ^ 8) with 256. lia.
Qed.

(** A 6-bit slice, as the quotient and remainder it is. *)
Lemma slice_div_mod (val shift : N) :
  N.land (N.shiftr val shift) 0x3F = (val / 2 ^ shift) mod 64.
Proof.
  rewrite N.shiftr_div_pow2. change 0x3F with (N.ones 6).
  now rewrite N.land_ones.
Qed.

Lemma slice_bound (val shift : N) : N.land (N.shiftr val shift) 0x3F < 64.
Proof. rewrite slice_div_mod. apply N.mod_lt. discriminate. Qed.

(** A 24-bit value is the sum of its four 6-bit slices. *)
Lemma slices_sum (v : N) :
  v < 16777216 ->
  v = ((v / 262144) mod 64) * 262144 + ((v / 4096) mod 64) * 4096
      + ((v / 64) mod 64) * 64 + v mod 64.
Proof.
  intros Hv.
  pose proof (N.div_mod' v 64) as E0.
  pose proof (N.div_mod' (v / 64) 64) as E1.
  pose proof (N.div_mod' (v / 4096) 64) as E2.
  rewrite N.Div0.div_div in E1, E2.
  change (64 * 64) with 4096 in E1. change (4096 * 64) with 262144 in E2.
  assert (v / 262144 < 64) as Hq by (apply N.Div0.div_lt_upper_bound; lia).
  rewrite (N.mod_small (v / 262144) 64) by assumption.
  lia.
Qed.


(** The alphabet is read back by the decode map. *)
Lemma decodeMap_encode (v : N) :
  v < 64 -> base64.decodeMap (base64.encode v) = Some v.
Proof.
  intros Hv.
  assert (forallb (fun v => match base64.decodeMap (base64.encode v) with
                            | Some w => N.eqb w v
                            | None => false
                            end)
                  (map N.of_nat (seq 0 64)) = true) as Hall
      by (vm_compute; reflexivity).
  rewrite forallb_forall in Hall.
  specialize (Hall v).
  destruct (base64.decodeMap (base64.encode v)) as [w|].
  - f_equal. apply N.eqb_eq. apply Hall.
    rewrite <- (N2Nat.id v). apply in_map. apply in_seq. lia.
  - exfalso. assert (false = true); [|discriminate]. apply Hall.
    rewrite <- (N2Nat.id v). apply in_map. apply in_seq. lia.
Qed.



Lemma encode_in_alphabet (v : N) :
  strings.mem (base64.encode v) base64.encodeStd = true.
Proof.
  unfold base64.encode.
  destruct (String.get (N.to_nat v) base64.encodeStd) as [c|] eqn:G.
  - exact (mem_get _ _ _ G).
  - reflexivity.
Qed.

(** A byte outside the alphabet is no sextet. *)
Lemma sextet_outside (c : ascii) (val shift : N) :
  strings.mem c base64.encodeStd = false ->
  Ascii.eqb (base64.sextet val shift) c = false.
Proof.
  intros Hc. apply Ascii.eqb_neq. intros E.
  pose proof (encode_in_alphabet (N.land (N.shiftr val shift) 0x3F)) as Hin.
  fold (base64.sextet val shift) in Hin. rewrite E, Hc in Hin. discriminate.
Qed.

End Base64Facts.

Section Base64Encoding.
Local Open Scope N_scope.

Lemma slice0_padded (a b : N) :
  b < 256 -> N.land (N.shiftr (base64.pack a b 0) 0) 0x3F = 0.
Proof.
  intros Hb. rewrite slice_div_mod, pack_add by lia.
  change (2 ^ 0) with 1. rewrite N.div_1_r.
  replace (a * 65536 + b * 256 + 0) with ((a * 1024 + b * 4) * 64) by lia.
  apply N.Div0.mod_mul.
Qed.

Lemma slice6_padded (a : N) :
  N.land (N.shiftr (base64.pack a 0 0) 6) 0x3F = 0.
Proof.
  rewrite slice_div_mod, pack_add by lia. change (2 ^ 6) with 64.
  replace (a * 65536 + 0 * 256 + 0) with (a * 1024 * 64) by lia.
  rewrite N.div_mul by discriminate.
  replace (a * 1024) with (a * 16 * 64) by lia.
  apply N.Div0.mod_mul.
Qed.


Lemma N_of_ascii_inj (a b : ascii) : N_of_ascii a = N_of_ascii b -> a = b.
Proof.
  intros E. rewrite <- (ascii_N_embedding a), <- (ascii_N_embedding b).
  now rewrite E.
Qed.










(** No byte outside the alphabet and the padding occurs in the text. *)
Lemma EncodeToString_alphabet (c : ascii) (s : string) :
  strings.mem c base64.encodeStd = false ->
  Ascii.eqb base64.StdPadding c = false ->
  strings.mem c (base64.EncodeToString s) = false.
Proof.
  intros Hc Hp.
  induction s as [|x|x y|x y z rest IH] using string_ind3;
    cbn [base64.EncodeToString strings.mem];
    rewrite ?sextet_outside, ?Hp by assumption; try reflexivity.
  exact IH.
Qed.

End Base64Encoding.

(* ------------------------------------------------------------------------- *)
(** * Webhook verification *)

Section Digest.

Lemma word_string_length (w : N) : String.length (sha256.word_string w) = 4.
Proof. reflexivity. Qed.

Lemma Sum256_length (data : string) : String.length (sha256.Sum256 data) = 32.
Proof.
  unfold sha256.Sum256. cbv zeta.
  now rewrite !length_append, !word_string_length.
Qed.


Lemma space_outside : strings.mem " "%char base64.encodeStd = false.
Proof. reflexivity. Qed.

Lemma comma_outside : strings.mem ","%char base64.encodeStd = false.
Proof. reflexivity. Qed.

(** The text of a signature has neither a space nor a comma in it. *)
Lemma computeSignature_no_space (key content : string) :
  strings.mem " "%char (webhook.computeSignature key content) = false.
Proof. apply EncodeToString_alphabet; reflexivity. Qed.




End Digest.

Section VerifyWebhook.

Lemma isEmpty_false (s : string) : s <> EmptyString -> webhook.isEmpty s = false.
Proof. intros H. now apply String.eqb_neq. Qed.

(** What [verifyWebhook] does once the headers are there and the secret
    decodes: it answers by [signatureFound]. *)
Lemma verifyWebhook_decoded (r : http.Request) (body secret key : string) :
  http.Get (http.header r) "webhook-id" <> EmptyString ->
  http.Get (http.header r) "webhook-timestamp" <> EmptyString ->
  http.Get (http.header r) "webhook-signature" <> EmptyString ->
  spec.secretKey secret = Some key ->
  webhook.verifyWebhook r body secret
  = if webhook.signatureFound
         (http.Get (http.header r) "webhook-signature")
         (webhook.computeSignature key
            (webhook.signedContent (http.Get (http.header r) "webhook-id")
               (http.Get (http.header r) "webhook-timestamp") body))
    then None
    else Some (WebhookVerificationError "INVALID_SIGNATURE"
                 "Invalid signature" webhook.ErrInvalidSignature).
Proof.
  intros Hid Hts Hsig Hkey. unfold webhook.verifyWebhook.
  rewrite (isEmpty_false _ Hid), (isEmpty_false _ Hts),
    (isEmpty_false _ Hsig). cbn [orb].
  unfold spec.secretKey in Hkey.
  destruct (strings.Split secret "_") as [|p0 [|p1 rest]];
    try discriminate Hkey.
  now rewrite Hkey.
Qed.

(** The header of a freshly signed request: one token, [v1,<signature>]. *)
Lemma fresh_header_tokens (signature : string) :
  strings.mem " "%char signature = false ->
  strings.Split ("v1," ++ signature) " " = ["v1," ++ signature].
Proof. intros H. apply Split_absent. cbn. exact H. Qed.

Lemma fresh_header_found (signature : string) :
  strings.mem " "%char signature = false ->
  webhook.signatureFound ("v1," ++ signature) signature = true.
Proof.
  intros H. unfold webhook.signatureFound.
  rewrite (fresh_header_tokens _ H). cbn [existsb].
  rewrite orb_false_r.
  change ("v1," ++ signature) with ("v1" ++ ("," ++ signature)).
  apply Contains_append. apply Contains_refl.
Qed.


End VerifyWebhook.

(* ------------------------------------------------------------------------- *)
(** * Claims C2 and C3: the webhook verifier *)

(** C2, as the code has it.  For a request with non-empty event-id,
    timestamp and signature headers and a secret that splits and decodes,
    [verifyWebhook] succeeds if and only if some space-separated token of the
    signature header contains the text [","] followed by the base64 of the
    HMAC-SHA256 of [eventID.timestamp.body]: the token has to contain it, not
    to end with it. *)
Theorem verifyWebhook_accepts_iff_token_contains
        (r : http.Request) (body secret key : string) :
  http.Get (http.header r) "webhook-id" <> EmptyString ->
  http.Get (http.header r) "webhook-timestamp" <> EmptyString ->
  http.Get (http.header r) "webhook-signature" <> EmptyString ->
  spec.secretKey secret = Some key ->
  webhook.verifyWebhook r body secret = None <->
  exists token,
    In token (strings.Split (http.Get (http.header r) "webhook-signature") " ")
    /\ strings.Contains token
         ("," ++ webhook.computeSignature key
                   (webhook.signedContent
                      (http.Get (http.header r) "webhook-id")
                      (http.Get (http.header r) "webhook-timestamp") body))
       = true.
Proof.
  intros Hid Hts Hsig Hkey.
  rewrite (verifyWebhook_decoded r body secret key Hid Hts Hsig Hkey).
  unfold webhook.signatureFound. rewrite <- existsb_exists.
  destruct (existsb _ _); split; intros H; try reflexivity; discriminate H.
Qed.

Lemma verifyWebhook_accepts_iff_token_contains_witness :
  let r := spec.signedRequest "evt_1" "1700000000" ("v1," ++ example.signature) in
  spec.secretKey example.secret = Some example.key
  /\ (webhook.verifyWebhook r "{}" example.secret = None <->
      exists token,
        In token (strings.Split ("v1," ++ example.signature) " ")
        /\ strings.Contains token
             ("," ++ webhook.computeSignature example.key
                       (webhook.signedContent "evt_1" "1700000000" "{}"))
           = true).
Proof.
  intros r. split; [vm_compute; reflexivity|].
  apply (verifyWebhook_accepts_iff_token_contains r "{}" example.secret example.key).
  - discriminate.
  - discriminate.
  - discriminate.
  - vm_compute; reflexivity.
Defined.

(** C2 as it is worded fails: a token whose digest part is the right digest
    followed by one more byte is accepted, although the digest part does not
    equal the digest. *)
Lemma verifyWebhook_exact_digest_counterexample :
  let r := spec.signedRequest "evt_1" "1700000000"
             ("v1," ++ example.signature ++ "x") in
  http.Get (http.header r) "webhook-id" <> EmptyString
  /\ http.Get (http.header r) "webhook-timestamp" <> EmptyString
  /\ http.Get (http.header r) "webhook-signature" <> EmptyString
  /\ spec.secretKey example.secret = Some example.key
  /\ webhook.verifyWebhook r "{}" example.secret = None
  /\ spec.specSignatureFound
       (http.Get (http.header r) "webhook-signature")
       (webhook.computeSignature example.key
          (webhook.signedContent "evt_1" "1700000000" "{}")) = false.
Proof.
  cbv zeta. repeat split; try discriminate; vm_compute; reflexivity.
Qed.

(** The signed content of an altered delivery. *)
Section Alteration.




End Alteration.




(* ------------------------------------------------------------------------- *)
(** * The store: what each request does to the cluster state *)

Section StoreFacts.
Import metav1 v1alpha1 client spec.
Variable env : Env.

(** A request is logged whatever its outcome; refused, it leaves the
    cluster as it was; served, it answers from the cluster. *)
Lemma request_inv {A} verb kind (refused : error -> A) serve w a w' :
  request env verb kind refused serve w = (a, w') ->
  calls w' = StoreCall verb kind :: calls w
  /\ ((exists err, storeFault env (tick w) = Some err
                   /\ a = refused err /\ cluster w' = cluster w)
      \/ (storeFault env (tick w) = None
          /\ serve (tick w) (cluster w) = (a, cluster w'))).
Proof.
  unfold request. intros H.
  destruct (storeFault env (tick w)) as [err|].
  - inversion H; subst; cbn. split; [reflexivity|]. left. now exists err.
  - destruct (serve (tick w) (cluster w)) as [a0 cl] eqn:S.
    inversion H; subst; cbn. split; [reflexivity|]. now right.
Qed.

(** Listing never changes the cluster; served, it returns the matches in
    stored order. *)
Lemma List_inv {T} `{Object T} (index : T -> list string) value w l err w' :
  List env index value w = (l, err, w') ->
  cluster w' = cluster w
  /\ (err = None ->
      l = filter (fun o => existsb (String.eqb value) (index o))
                 (items (cluster w))).
Proof.
  unfold List. intros H0.
  apply request_inv in H0 as [_ [[e [_ [E C]]] | [_ S]]].
  - inversion E; subst. split; [assumption | discriminate].
  - inversion S; subst. split; [now symmetry | reflexivity].
Qed.

(** A creation that fails leaves the cluster as it was. *)
Lemma Create_failed {T} `{Object T} (obj : T) w e w' :
  Create env obj w = (Some e, w') -> cluster w' = cluster w.
Proof.
  unfold Create. intros H0.
  apply request_inv in H0 as [_ [[e' [_ [_ C]]] | [_ S]]]; [assumption|].
  destruct (existsb _ _); inversion S; reflexivity.
Qed.

(** A creation that succeeds appends one object, under the name the
    server settled on. *)
Lemma Create_succeeded {T} `{Object T} (obj : T) w w' :
  Create env obj w = (None, w') ->
  exists name,
    existsb (hasKey (mkKey (Namespace (GetObjectMeta obj)) name))
            (items (cluster w)) = false
    /\ cluster w'
       = setItems (cluster w)
           (items (cluster w)
              ++ [SetObjectMeta obj (withName (GetObjectMeta obj) name)])%list.
Proof.
  unfold Create. intros H0.
  apply request_inv in H0 as [_ [[e' [_ [E _]]] | [_ S]]]; [discriminate E|].
  match type of S with
  | (if existsb (hasKey (mkKey _ ?n)) _ then _ else _) = _ =>
      exists n; destruct (existsb (hasKey (mkKey _ n)) _) eqn:X
  end; inversion S; auto.
Qed.

(** A deletion that succeeds removes every object of that key. *)
Lemma Delete_succeeded {T} `{Object T} (obj : T) w w' :
  Delete env obj w = (None, w') ->
  cluster w'
  = setItems (cluster w)
      (filter (fun o => negb (hasKey (keyOf obj) o)) (items (cluster w))).
Proof.
  unfold Delete. intros H0.
  apply request_inv in H0 as [_ [[e' [_ [E _]]] | [_ S]]]; [discriminate E|].
  destruct (existsb _ _); inversion S; reflexivity.
Qed.

Lemma hasKey_keyOf {T} `{Object T} (o : T) : hasKey (keyOf o) o = true.
Proof. unfold hasKey, keyOf; cbn. now rewrite !String.eqb_refl. Qed.

Lemma firstItem_In {T} (l : list T) (o : T) :
  webhook.firstItem l = Some o -> In o l.
Proof. destruct l; [discriminate|]. intros [= ->]. now left. Qed.

End StoreFacts.

(* ------------------------------------------------------------------------- *)
(** * The ingestion handler *)

Section HandlerFacts.
Import metav1 v1alpha1 client webhook spec.
Variable env : Env.

Lemma getContactByProviderID_inv providerID w contact err w' :
  getContactByProviderID env providerID w = (contact, err, w') ->
  cluster w' = cluster w.
Proof.
  unfold getContactByProviderID, bind. intros H.
  destruct (List env indexContact providerID w) as [[l e] w1] eqn:L.
  apply List_inv in L as [C _].
  destruct e; inversion H; subst; assumption.
Qed.

Lemma getContactGroupByProviderID_inv providerID w group err w' :
  getContactGroupByProviderID env providerID w = (group, err, w') ->
  cluster w' = cluster w.
Proof.
  unfold getContactGroupByProviderID, bind. intros H.
  destruct (List env indexContactGroup providerID w) as [[l e] w1] eqn:L.
  apply List_inv in L as [C _].
  destruct e; inversion H; subst; assumption.
Qed.

(** The tombstone the lookup returns is stored, and its index key is the
    key built from the names of the contact and the group. *)
Lemma getContactGroupMembershipRemoval_inv contact group w removal err w' :
  getContactGroupMembershipRemoval env contact group w = (removal, err, w') ->
  cluster w' = cluster w
  /\ forall r, removal = Some r ->
       In r (Removals (cluster w))
       /\ buildGroupMembershipRemovalIndexKey
            (rContactRef (rSpec r)) (rContactGroupRef (rSpec r))
          = buildGroupMembershipRemovalIndexKey
              (mkContactRef (Name (cMeta contact)) (Namespace (cMeta contact)))
              (mkGroupRef (Name (gMeta group)) (Namespace (gMeta group))).
Proof.
  unfold getContactGroupMembershipRemoval, bind. intros H.
  match type of H with
  | (let (_, _) := ?m in _) = _ => destruct m as [[l e] w1] eqn:L
  end.
  apply List_inv in L as [C F].
  destruct e as [e|]; inversion H; subst; split; try assumption;
    intros r Hr; [discriminate Hr|].
  specialize (F eq_refl). subst l.
  apply firstItem_In, filter_In in Hr as [Hin Hkey].
  split; [exact Hin|].
  cbn in Hkey. rewrite orb_false_r in Hkey.
  apply String.eqb_eq in Hkey. now symmetry.
Qed.

End HandlerFacts.

(* ------------------------------------------------------------------------- *)
(** * Claim C10: a 500 after the tombstone is gone *)

Section SubscribedFailure.
Import metav1 v1alpha1 client webhook example spec.

(** C10.  In a subscribed delivery whose contact and group resolve, whose
    tombstone lookup finds a tombstone, whose deletion of it succeeds and
    whose membership creation fails with an error other than
    AlreadyExists, the handler answers 500 and the tombstone, which was in
    the store, is not in it any more. *)
Theorem subscribed_failure_after_tombstone_deleted
        (env : Env) (userID listID : string)
        (contact : Contact) (group : ContactGroup)
        (removal : ContactGroupMembershipRemoval) (e : error)
        (w wa wb wc wd we : World) :
  userID <> EmptyString ->
  listID <> EmptyString ->
  getContactByProviderID env userID w = (Some contact, None, wa) ->
  getContactGroupByProviderID env listID wa = (Some group, None, wb) ->
  getContactGroupMembershipRemoval env contact group wb
  = (Some removal, None, wc) ->
  deleteContactGroupMembershipRemoval env removal wc = (None, wd) ->
  createContactGroupMembership env contact group wd = (Some e, we) ->
  apierrors.IsAlreadyExists e = false ->
  Handle env (subscribedRequest userID listID) w
  = (InternalServerErrorResponse, we)
  /\ HttpStatus InternalServerErrorResponse = 500%Z
  /\ In removal (Removals (cluster w))
  /\ ~ In removal (Removals (cluster we)).
Proof.
  intros Huid Hlid Hc Hg Hr Hd Hm He.
  apply String.eqb_neq in Huid, Hlid.
  repeat split.
  - unfold Handle, handleSubscribed, bind.
    cbn [subscribedRequest BaseEvent MailingListSubscribedEvent
         MailingListUnsubscribedEvent baseEvent loops.contactIdentity
         loops.UserID requestGroupID loops.subMailingList loops.mlID].
    rewrite Huid, Hc, Hlid, Hg, Hr. cbn [failedOtherThan].
    rewrite Hd, Hm. cbn [failedOtherThan]. now rewrite He.
  - apply getContactByProviderID_inv in Hc.
    apply getContactGroupByProviderID_inv in Hg.
    apply getContactGroupMembershipRemoval_inv in Hr as [Cr Fr].
    destruct (Fr removal eq_refl) as [Hin _].
    now rewrite Hg, Hc in Hin.
  - unfold createContactGroupMembership in Hm.
    apply Create_failed in Hm.
    unfold deleteContactGroupMembershipRemoval in Hd.
    apply Delete_succeeded in Hd.
    rewrite Hm, Hd. cbn [setItems items RemovalObject Removals].
    intros Hin. apply filter_In in Hin as [_ Hk].
    now rewrite hasKey_keyOf in Hk.
Qed.

Lemma subscribed_failure_after_tombstone_deleted_witness :
  Handle refusingFifth (subscribedRequest "u1" "g1") withTombstone
  = (InternalServerErrorResponse,
     mkWorld (mkCluster [alice] [news] [] [])
             [StoreCall VCreate "ContactGroupMembership";
              StoreCall VDelete "ContactGroupMembershipRemoval";
              StoreCall VList "ContactGroupMembershipRemoval";
              StoreCall VList "ContactGroup"; StoreCall VList "Contact"])
  /\ HttpStatus InternalServerErrorResponse = 500%Z
  /\ In tombstone (Removals (cluster withTombstone))
  /\ ~ In tombstone (Removals (mkCluster [alice] [news] [] [])).
Proof.
  pose (l1 := [StoreCall VList "Contact"]).
  pose (l2 := StoreCall VList "ContactGroup" :: l1).
  pose (l3 := StoreCall VList "ContactGroupMembershipRemoval" :: l2).
  pose (l4 := StoreCall VDelete "ContactGroupMembershipRemoval" :: l3).
  pose (l5 := StoreCall VCreate "ContactGroupMembership" :: l4).
  pose (cl := mkCluster [alice] [news] [] [tombstone]).
  pose (cl' := mkCluster [alice] [news] [] []).
  exact (subscribed_failure_after_tombstone_deleted
           refusingFifth "u1" "g1" alice news tombstone forbidden
           withTombstone (mkWorld cl l1) (mkWorld cl l2) (mkWorld cl l3)
           (mkWorld cl' l4) (mkWorld cl' l5)
           ltac:(discriminate) ltac:(discriminate)
           eq_refl eq_refl eq_refl eq_refl eq_refl eq_refl).
Defined.

End SubscribedFailure.

(* ------------------------------------------------------------------------- *)
(** * Claims C1 and C4: the same delivery twice *)

Section Redelivery.
Import metav1 v1alpha1 client webhook example spec.
Variable env : Env.

(** A membership creation the store accepts adds one membership of the
    pair, whatever the store holds already. *)
Lemma createContactGroupMembership_appends contact group w w' :
  createContactGroupMembership env contact group w = (None, w') ->
  exists m,
    membershipsOf contact group (cluster w')
    = (membershipsOf contact group (cluster w) ++ [m])%list
    /\ Removals (cluster w') = Removals (cluster w).
Proof.
  unfold createContactGroupMembership. intros H.
  apply Create_succeeded in H as [name [_ C]].
  eexists. rewrite C. unfold membershipsOf.
  cbn [setItems items MembershipObject Memberships Removals].
  rewrite filter_app. cbn [filter]. unfold membershipOf at 2.
  cbn [SetObjectMeta MembershipObject mSpec ContactRef ContactGroupRef
       crName crNamespace grName grNamespace].
  rewrite !String.eqb_refl. cbn [andb]. split; reflexivity.
Qed.

(** A tombstone creation the store accepts adds one tombstone of the
    pair and no membership. *)
Lemma createContactGroupMembershipRemoval_appends contact group w w' :
  createContactGroupMembershipRemoval env contact group w = (None, w') ->
  exists r,
    Removals (cluster w') = (Removals (cluster w) ++ [r])%list
    /\ removalOf contact group r = true
    /\ indexRemoval r
       = [buildGroupMembershipRemovalIndexKey
            (mkContactRef (Name (cMeta contact)) (Namespace (cMeta contact)))
            (mkGroupRef (Name (gMeta group)) (Namespace (gMeta group)))]
    /\ Memberships (cluster w') = Memberships (cluster w).
Proof.
  unfold createContactGroupMembershipRemoval. intros H.
  apply Create_succeeded in H as [name [_ C]].
  eexists. rewrite C.
  cbn [setItems items RemovalObject Memberships Removals].
  split; [reflexivity|]. unfold removalOf.
  cbn [SetObjectMeta RemovalObject rSpec rContactRef rContactGroupRef
       crName crNamespace grName grNamespace].
  rewrite !String.eqb_refl. repeat split; reflexivity.
Qed.

Lemma firstItem_filter {T} (f : T -> bool) (l : list T) (x : T) :
  In x l -> f x = true -> exists y, firstItem (filter f l) = Some y.
Proof.
  intros Hin Hf.
  destruct (filter f l) as [|y rest] eqn:F.
  - exfalso. assert (In x (filter f l)) as Hx by (apply filter_In; auto).
    now rewrite F in Hx.
  - now exists y.
Qed.

Lemma Handle_subscribed userID listID contact group w wa wb :
  userID <> EmptyString -> listID <> EmptyString ->
  getContactByProviderID env userID w = (Some contact, None, wa) ->
  getContactGroupByProviderID env listID wa = (Some group, None, wb) ->
  Handle env (subscribedRequest userID listID) w
  = handleSubscribed env contact group wb.
Proof.
  intros Huid Hlid Hc Hg. apply String.eqb_neq in Huid, Hlid.
  unfold Handle, bind.
  cbn [subscribedRequest BaseEvent MailingListSubscribedEvent
       MailingListUnsubscribedEvent baseEvent loops.contactIdentity
       loops.UserID requestGroupID loops.subMailingList loops.mlID].
  now rewrite Huid, Hc, Hlid, Hg.
Qed.

Lemma Handle_unsubscribed userID listID contact group w wa wb :
  userID <> EmptyString -> listID <> EmptyString ->
  getContactByProviderID env userID w = (Some contact, None, wa) ->
  getContactGroupByProviderID env listID wa = (Some group, None, wb) ->
  Handle env (unsubscribedRequest userID listID) w
  = handleUnsubscribed env contact group wb.
Proof.
  intros Huid Hlid Hc Hg. apply String.eqb_neq in Huid, Hlid.
  unfold Handle, bind.
  cbn [unsubscribedRequest BaseEvent MailingListSubscribedEvent
       MailingListUnsubscribedEvent baseEvent loops.contactIdentity
       loops.UserID requestGroupID loops.unsubMailingList loops.mlID].
  now rewrite Huid, Hc, Hlid, Hg.
Qed.

(** Two subscribed deliveries whose creations the store both accepts leave
    two more memberships of the pair. *)
Lemma subscribed_twice_accepted userID listID contact group
      w wa wb wc wd we wf wg wh :
  userID <> EmptyString -> listID <> EmptyString ->
  getContactByProviderID env userID w = (Some contact, None, wa) ->
  getContactGroupByProviderID env listID wa = (Some group, None, wb) ->
  getContactGroupMembershipRemoval env contact group wb = (None, None, wc) ->
  createContactGroupMembership env contact group wc = (None, wd) ->
  getContactByProviderID env userID wd = (Some contact, None, we) ->
  getContactGroupByProviderID env listID we = (Some group, None, wf) ->
  getContactGroupMembershipRemoval env contact group wf = (None, None, wg) ->
  createContactGroupMembership env contact group wg = (None, wh) ->
  twice (Handle env (subscribedRequest userID listID)) w
  = (OkResponse, OkResponse, wh)
  /\ exists m1 m2,
       membershipsOf contact group (cluster wh)
       = (membershipsOf contact group (cluster w) ++ [m1; m2])%list.
Proof.
  intros Huid Hlid Hc Hg Hr Hm Hc2 Hg2 Hr2 Hm2. split.
  - unfold twice, bind.
    rewrite (Handle_subscribed _ _ _ _ _ _ _ Huid Hlid Hc Hg).
    unfold handleSubscribed at 1, bind. rewrite Hr. cbn. rewrite Hm. cbn.
    rewrite (Handle_subscribed _ _ _ _ _ _ _ Huid Hlid Hc2 Hg2).
    unfold handleSubscribed, bind. rewrite Hr2. cbn. rewrite Hm2.
    reflexivity.
  - apply createContactGroupMembership_appends in Hm as [m1 [M1 _]].
    apply createContactGroupMembership_appends in Hm2 as [m2 [M2 _]].
    apply getContactByProviderID_inv in Hc, Hc2.
    apply getContactGroupByProviderID_inv in Hg, Hg2.
    apply getContactGroupMembershipRemoval_inv in Hr as [Cr _].
    apply getContactGroupMembershipRemoval_inv in Hr2 as [Cr2 _].
    exists m1, m2. rewrite M2, Cr2, Hg2, Hc2, M1, Cr, Hg, Hc.
    now rewrite <- app_assoc.
Qed.

(** Two unsubscribed deliveries, the first of which finds no tombstone
    under the key of the pair: one tombstone of the pair is created, the
    second delivery changes nothing, and no membership is created. *)
Lemma unsubscribed_twice_no_tombstone_under_key userID listID contact group
      w wa wb wc wd we wf :
  userID <> EmptyString -> listID <> EmptyString ->
  getContactByProviderID env userID w = (Some contact, None, wa) ->
  getContactGroupByProviderID env listID wa = (Some group, None, wb) ->
  getContactGroupMembershipRemoval env contact group wb = (None, None, wc) ->
  createContactGroupMembershipRemoval env contact group wc = (None, wd) ->
  getContactByProviderID env userID wd = (Some contact, None, we) ->
  getContactGroupByProviderID env listID we = (Some group, None, wf) ->
  storeFault env (tick wf) = None ->
  exists wg r,
    twice (Handle env (unsubscribedRequest userID listID)) w
    = (OkResponse, OkResponse, wg)
    /\ Removals (cluster wg) = (Removals (cluster w) ++ [r])%list
    /\ removalOf contact group r = true
    /\ Memberships (cluster wg) = Memberships (cluster w).
Proof.
  intros Huid Hlid Hc Hg Hr Hm Hc2 Hg2 Hok.
  destruct (createContactGroupMembershipRemoval_appends _ _ _ _ Hm)
    as [r [R [Hof [Hidx M]]]].
  pose proof (getContactByProviderID_inv _ _ _ _ _ _ Hc) as C1.
  pose proof (getContactGroupByProviderID_inv _ _ _ _ _ _ Hg) as C2.
  pose proof (getContactGroupMembershipRemoval_inv _ _ _ _ _ _ _ Hr)
    as [C3 _].
  pose proof (getContactByProviderID_inv _ _ _ _ _ _ Hc2) as C4.
  pose proof (getContactGroupByProviderID_inv _ _ _ _ _ _ Hg2) as C5.
  assert (exists y,
             firstItem
               (filter (fun o =>
                          existsb
                            (String.eqb
                               (buildGroupMembershipRemovalIndexKey
                                  (mkContactRef (Name (cMeta contact))
                                                (Namespace (cMeta contact)))
                                  (mkGroupRef (Name (gMeta group))
                                              (Namespace (gMeta group)))))
                            (indexRemoval o))
                       (Removals (cluster wf))) = Some y) as [y Hy].
  { apply (firstItem_filter _ _ r).
    - rewrite C5, C4, R. apply in_or_app. right. now left.
    - rewrite Hidx. cbn [existsb]. now rewrite String.eqb_refl. }
  exists (mkWorld (cluster wf)
                  (StoreCall VList "ContactGroupMembershipRemoval" :: calls wf)),
    r.
  split; [|split; [|split]].
  - unfold twice, bind.
    rewrite (Handle_unsubscribed _ _ _ _ _ _ _ Huid Hlid Hc Hg).
    unfold handleUnsubscribed at 1, bind. rewrite Hr. cbn. rewrite Hm. cbn.
    rewrite (Handle_unsubscribed _ _ _ _ _ _ _ Huid Hlid Hc2 Hg2).
    unfold handleUnsubscribed, getContactGroupMembershipRemoval, bind,
      List, request.
    rewrite Hok. cbn [items RemovalObject Kind]. rewrite Hy.
    reflexivity.
  - cbn [cluster]. now rewrite C5, C4, R, C3, C2, C1.
  - exact Hof.
  - cbn [cluster]. now rewrite C5, C4, M, C3, C2, C1.
Qed.

End Redelivery.

(** C1 on the code.  Contact [alice] and group [news] resolve, the store
    holds neither a membership nor a tombstone of the pair and refuses
    nothing.  Two subscribed deliveries in a row are both answered 200 and
    leave two memberships of the pair: each creation asks the server for a
    generated name, so the second is a new object and not AlreadyExists. *)
Lemma subscribed_twice_two_memberships :
  let start := example.fresh in
  let '(responses, finish) :=
    spec.twice (webhook.Handle example.calm
                    (spec.subscribedRequest "u1" "g1")) start in
  spec.membershipsOf example.alice example.news (client.cluster start) = []
  /\ spec.removalsOf example.alice example.news (client.cluster start) = []
  /\ responses = (webhook.OkResponse, webhook.OkResponse)
  /\ List.length (spec.membershipsOf example.alice example.news
                                        (client.cluster finish)) = 2
  /\ spec.removalsOf example.alice example.news (client.cluster finish) = [].
Proof. vm_compute. repeat split; reflexivity. Qed.

(** C4 on the code.  Contact [a-b] of namespace [c] has no tombstone, but
    contact [a] of namespace [b-c] has one for the same group, and the two
    pairs have the same index key.  Two unsubscribed deliveries for [a-b] are
    both answered 200 and leave no tombstone of its pair: the lookup took the
    other contact's tombstone for its own. *)
Lemma unsubscribed_twice_key_collision :
  let start := example.colliding in
  let '(responses, finish) :=
    spec.twice (webhook.Handle example.calm
                    (spec.unsubscribedRequest "u1" "g1")) start in
  spec.removalsOf example.ab example.news (client.cluster start) = []
  /\ responses = (webhook.OkResponse, webhook.OkResponse)
  /\ spec.removalsOf example.ab example.news (client.cluster finish) = []
  /\ client.Removals (client.cluster finish) = [example.tombstoneOfA].
Proof. vm_compute. repeat split; reflexivity. Qed.

(* ------------------------------------------------------------------------- *)
(** * What a piece of code leaves untouched *)

Section Preservation.
Import metav1 v1alpha1 client spec.
Variable env : Env.

Lemma preserves_ret {A X} (f : World -> X) (a : A) : preserves f (ret a).
Proof. intros w. reflexivity. Qed.

Lemma preserves_bind {A B X} (f : World -> X) (m : M A) (k : A -> M B) :
  preserves f m -> (forall a, preserves f (k a)) -> preserves f (bind m k).
Proof.
  intros Hm Hk w. unfold bind. specialize (Hm w).
  destruct (m w) as [a w1]. cbn in Hm. now rewrite (Hk a w1).
Qed.

Lemma preserves_Now {X} (f : World -> X) : preserves f (Now env).
Proof. intros w. reflexivity. Qed.

Lemma request_calls {A} verb kind (refused : error -> A) serve w :
  calls (snd (request env verb kind refused serve w))
  = StoreCall verb kind :: calls w.
Proof.
  unfold request. destruct (storeFault env (tick w)); [reflexivity|].
  now destruct (serve (tick w) (cluster w)).
Qed.

(** No request to the store is a call to the provider. *)
Lemma request_remote {A} verb kind (refused : error -> A) serve :
  preserves remoteCalls (request env verb kind refused serve).
Proof. intros w. unfold remoteCalls. now rewrite request_calls. Qed.

(** Only a status patch is a status patch. *)
Lemma request_unpatched {A} verb kind (refused : error -> A) serve :
  verb <> VPatchStatus ->
  preserves statusPatches (request env verb kind refused serve).
Proof.
  intros Hv w. unfold statusPatches. rewrite request_calls.
  destruct verb; try reflexivity. now elim Hv.
Qed.

Lemma Get_remote {T} `{Object T} key : preserves remoteCalls (Get env key).
Proof. apply request_remote. Qed.

Lemma Create_remote {T} `{Object T} (obj : T) :
  preserves remoteCalls (Create env obj).
Proof. apply request_remote. Qed.

Lemma Update_remote {T} `{Object T} (obj : T) :
  preserves remoteCalls (Update env obj).
Proof. apply request_remote. Qed.

Lemma PatchStatus_remote {T} `{Object T} (obj : T) :
  preserves remoteCalls (PatchStatus env obj).
Proof. apply request_remote. Qed.

Lemma Get_unpatched {T} `{Object T} key :
  preserves statusPatches (Get env key).
Proof. apply request_unpatched. discriminate. Qed.

Lemma Create_unpatched {T} `{Object T} (obj : T) :
  preserves statusPatches (Create env obj).
Proof. apply request_unpatched. discriminate. Qed.

Lemma Update_unpatched {T} `{Object T} (obj : T) :
  preserves statusPatches (Update env obj).
Proof. apply request_unpatched. discriminate. Qed.

Lemma Loops_unpatched (r : loops.Request) :
  preserves statusPatches (Loops env r).
Proof. intros w. reflexivity. Qed.

Lemma Loops_remote (r : loops.Request) (w : World) :
  remoteCalls (snd (Loops env r w)) = LoopsCall r :: remoteCalls w.
Proof. reflexivity. Qed.

Lemma PatchStatus_patched {T} `{Object T} (obj : T) (w : World) :
  statusPatches (snd (PatchStatus env obj w))
  = StoreCall VPatchStatus Kind :: statusPatches w.
Proof.
  unfold PatchStatus, statusPatches. now rewrite request_calls.
Qed.

End Preservation.

(** Decomposes a goal [preserves f m] along the structure of [m]. *)
Ltac preserve :=
  repeat (first
    [ apply preserves_ret
    | apply preserves_Now
    | apply Get_remote | apply Create_remote | apply Update_remote
    | apply PatchStatus_remote
    | apply Get_unpatched | apply Create_unpatched | apply Update_unpatched
    | apply Loops_unpatched
    | apply preserves_bind; [|intros ?]
    | match goal with
      | |- spec.preserves _ (match ?x with _ => _ end) => destruct x
      | |- spec.preserves _ (if ?x then _ else _) => destruct x
      | |- spec.preserves _ (let (_, _) := ?x in _) => destruct x
      end ]).

(* ------------------------------------------------------------------------- *)
(** * Status conditions *)

Section Conditions.
Import metav1 controller spec.

(** Setting a condition leaves the number of conditions of another type
    as it was, and brings that of its own type to at least one without
    otherwise changing it. *)
Lemma countType_SetStatusCondition t conditions c :
  countType t (meta.SetStatusCondition conditions c)
  = if String.eqb (Type_ c) t
    then Nat.max 1 (countType t conditions)
    else countType t conditions.
Proof.
  unfold countType.
  induction conditions as [|c0 rest IH]; cbn [meta.SetStatusCondition].
  - cbn. now destruct (String.eqb (Type_ c) t).
  - destruct (String.eqb_spec (Type_ c0) (Type_ c)) as [E | N].
    + cbn [filter meta.overwrite Type_]. rewrite E.
      destruct (String.eqb (Type_ c) t); [cbn; lia | reflexivity].
    + cbn [filter]. destruct (String.eqb_spec (Type_ c0) t) as [E0 | N0].
      * cbn [List.length]. rewrite IH.
        destruct (String.eqb_spec (Type_ c) t) as [E1 | N1];
          [congruence | reflexivity].
      * rewrite IH.
        destruct (String.eqb (Type_ c) t); [|reflexivity].
        reflexivity.
Qed.

Lemma countType_le_SetStatusCondition t conditions c :
  countType t conditions <= 1 ->
  countType t (meta.SetStatusCondition conditions c) <= 1.
Proof.
  intros H. rewrite countType_SetStatusCondition.
  destruct (String.eqb (Type_ c) t); lia.
Qed.

(** The condition found after it was set carries the new status, reason,
    message and observed generation. *)
Lemma Find_SetStatusCondition_same conditions c :
  exists c',
    meta.FindStatusCondition (meta.SetStatusCondition conditions c) (Type_ c)
    = Some c'
    /\ Status c' = Status c /\ Reason c' = Reason c
    /\ Message c' = Message c
    /\ ObservedGeneration c' = ObservedGeneration c.
Proof.
  unfold meta.FindStatusCondition.
  induction conditions as [|c0 rest IH]; cbn [meta.SetStatusCondition].
  - exists c. cbn. rewrite String.eqb_refl. auto.
  - destruct (String.eqb_spec (Type_ c0) (Type_ c)) as [E | N].
    + exists (meta.overwrite c0 c). cbn [find meta.overwrite Type_].
      rewrite E, String.eqb_refl. auto.
    + cbn [find]. apply String.eqb_neq in N. now rewrite N.
Qed.

Lemma Find_SetStatusCondition_other conditions c t :
  Type_ c <> t ->
  meta.FindStatusCondition (meta.SetStatusCondition conditions c) t
  = meta.FindStatusCondition conditions t.
Proof.
  intros Hne. unfold meta.FindStatusCondition.
  induction conditions as [|c0 rest IH]; cbn [meta.SetStatusCondition].
  - cbn. apply String.eqb_neq in Hne. now rewrite Hne.
  - destruct (String.eqb_spec (Type_ c0) (Type_ c)) as [E | N].
    + cbn [find meta.overwrite Type_].
      assert (String.eqb (Type_ c0) t = false) as F
          by (apply String.eqb_neq; congruence).
      now rewrite F.
    + cbn [find]. now rewrite IH.
Qed.

End Conditions.

(* ------------------------------------------------------------------------- *)
(** * The Contact reconciler *)

Section ContactFacts.
Import metav1 v1alpha1 client controller spec.
Import controller.LoopsContactController.
Variable env : Env.
Variable r : Fields.

Lemma Get_eq {T} `{Object T} (key : ObjectKey) (w : World) :
  Get env key w
  = (match storeFault env (tick w) with
     | Some e => inr e
     | None =>
         match find (hasKey key) (items (cluster w)) with
         | Some o => inl o
         | None => inr (apierrors.NewNotFound Kind (keyName key))
         end
     end,
     logged (StoreCall VGet Kind) w).
Proof.
  unfold Get, request, logged.
  destruct (storeFault env (tick w)); [reflexivity|].
  now destruct (find (hasKey key) (items (cluster w))).
Qed.

(** An object that is not being deleted is not finalized: it gets the
    finalizer key if it lacks it, and is otherwise left alone. *)
Lemma Finalize_not_deleting {T} `{Object T} key finalize (obj : T) w :
  finalizer.IsZero (DeletionTimestamp (GetObjectMeta obj)) = true ->
  finalizer.Finalize key finalize obj w
  = if controllerutil.ContainsFinalizer (GetObjectMeta obj) key
    then (finalizer.mkResult false false, None, obj, w)
    else (finalizer.mkResult true false, None,
          SetObjectMeta obj
            (controllerutil.AddFinalizer (GetObjectMeta obj) key), w).
Proof.
  intros Hz. unfold finalizer.Finalize. rewrite Hz.
  now destruct (controllerutil.ContainsFinalizer (GetObjectMeta obj) key).
Qed.

(** [Reconcile] on a stored contact that is not being deleted. *)
Lemma Reconcile_not_deleting req w contact :
  storeFault env (tick w) = None ->
  find (hasKey req) (Contacts (cluster w)) = Some contact ->
  finalizer.IsZero (DeletionTimestamp (cMeta contact)) = true ->
  Reconcile env r req w
  = if controllerutil.ContainsFinalizer (cMeta contact)
                                        loopsContactFinalizerKey
    then converge env r contact (logged (StoreCall VGet "Contact") w)
    else
      let contact' :=
        mkContact (controllerutil.AddFinalizer (cMeta contact)
                                               loopsContactFinalizerKey)
                  (cSpec contact) (cStatus contact) in
      let (updateErr, w') :=
        Update env contact' (logged (StoreCall VGet "Contact") w) in
      (match updateErr with
       | Some ue => if apierrors.IsConflict ue
                    then ctrl.requeue (Some contact')
                    else ctrl.failed ue (Some contact')
       | None => ctrl.done (Some contact')
       end, w').
Proof.
  intros Hok Hfind Hz. unfold Reconcile, bind.
  rewrite Get_eq, Hok. cbn [items ContactObject]. rewrite Hfind.
  rewrite Finalize_not_deleting by exact Hz.
  cbn [GetObjectMeta SetObjectMeta ContactObject Kind].
  destruct (controllerutil.ContainsFinalizer (cMeta contact)
                                             loopsContactFinalizerKey);
    [reflexivity|].
  cbn [finalizer.Updated].
  destruct (Update env _ _) as [[ue|] w']; [|reflexivity].
  now destruct (apierrors.IsConflict ue).
Qed.

Lemma upsertContact_unpatched contact :
  preserves statusPatches (upsertContact env contact).
Proof. unfold upsertContact. preserve. Qed.

Lemma creation_unpatched contact :
  preserves statusPatches (creation env contact).
Proof. unfold creation, upsertContact. preserve. Qed.

Lemma update_unpatched contact :
  preserves statusPatches (update env contact).
Proof. unfold update, upsertContact. preserve. Qed.

Lemma addToNewsLetterList_unpatched contact :
  preserves statusPatches (addToNewsLetterList env r contact).
Proof. unfold addToNewsLetterList. preserve. Qed.

Lemma addToNewsLetterList_remote contact :
  preserves remoteCalls (addToNewsLetterList env r contact).
Proof. unfold addToNewsLetterList. preserve. Qed.

End ContactFacts.

(* ------------------------------------------------------------------------- *)
(** * Claim C5: a converged Contact costs no remote call *)

Section Converged.
Import metav1 v1alpha1 client controller spec.
Import controller.LoopsContactController.

Lemma switchCase_converged contact readyCond :
  meta.FindStatusCondition (Conditions (cStatus contact))
                           LoopsContactReadyCondition = Some readyCond ->
  Reason readyCond = LoopsContactCreatedReason
  \/ Reason readyCond = LoopsContactUpdatedReason ->
  ObservedGeneration readyCond = Generation (cMeta contact) ->
  switchCase contact = CaseNone.
Proof.
  intros Hfind Hreason Hgen. unfold switchCase, generation.
  rewrite Hfind, Hgen, Z.eqb_refl.
  now destruct Hreason as [-> | ->].
Qed.

(** C5.  A stored Contact that is not being deleted, whose Ready condition
    has reason ContactCreated or ContactUpdated and was observed at the
    Contact's current generation: reconciling it makes no call to the
    remote provider, whatever the store and the provider would answer. *)
Theorem converged_contact_makes_no_remote_call
        (env : Env) (r : Fields) (req : ObjectKey) (w : World)
        (contact : Contact) (readyCond : Condition) :
  find (hasKey req) (Contacts (cluster w)) = Some contact ->
  finalizer.IsZero (DeletionTimestamp (cMeta contact)) = true ->
  meta.FindStatusCondition (Conditions (cStatus contact))
                           LoopsContactReadyCondition = Some readyCond ->
  Reason readyCond = LoopsContactCreatedReason
  \/ Reason readyCond = LoopsContactUpdatedReason ->
  ObservedGeneration readyCond = Generation (cMeta contact) ->
  remoteCalls (snd (Reconcile env r req w)) = remoteCalls w.
Proof.
  intros Hfind Hz Hcond Hreason Hgen.
  destruct (storeFault env (tick w)) as [e|] eqn:Hok.
  - unfold Reconcile, bind. rewrite Get_eq, Hok.
    now destruct (apierrors.IsNotFound e).
  - rewrite (Reconcile_not_deleting env r req w contact Hok Hfind Hz).
    destruct (controllerutil.ContainsFinalizer _ _).
    + transitivity (remoteCalls (logged (StoreCall VGet "Contact") w));
        [|reflexivity].
      generalize (logged (StoreCall VGet "Contact") w).
      change (preserves remoteCalls (converge env r contact)).
      unfold converge.
      rewrite (switchCase_converged contact readyCond Hcond Hreason Hgen).
      preserve; apply addToNewsLetterList_remote.
    + cbv zeta.
      match goal with
      | |- context [Update env ?c ?w0] =>
          pose proof (Update_remote env c w0) as P;
          destruct (Update env c w0) as [ue w']
      end.
      exact P.
Qed.

End Converged.

(* ------------------------------------------------------------------------- *)
(** * Claim C9: the status is patched exactly when it changed *)

Section ContactStatusPatch.
Import metav1 v1alpha1 client controller spec.
Import controller.LoopsContactController.
Variable env : Env.
Variable r : Fields.

Lemma DeepEqualContactStatus_spec (a b : ContactStatus) :
  equality.DeepEqualContactStatus a b = true <-> a = b.
Proof.
  unfold equality.DeepEqualContactStatus.
  destruct (equality.ContactStatus_eq_dec a b); split;
    intros; try assumption; try reflexivity; try discriminate.
  contradiction.
Qed.

Lemma unchanged_unpatched {S} kind (s : S) (w w' : World) :
  statusPatches w' = statusPatches w -> patchedIffChanged kind s s w w'.
Proof. intros H. split; [now intros _ | intros N; now elim N]. Qed.

(** A switch case that returns early has not touched the contact. *)
Lemma creation_early contact w c e w' :
  creation env contact w = (c, Some e, w') -> c = contact.
Proof.
  unfold creation, upsertContact, bind, Loops, Now, ret.
  destruct (loopsReply env (tick w)) as [e0|]; cbn.
  - destruct (loops.IsBadRequest _); cbn; intros H; inversion H.
    reflexivity.
  - intros H; inversion H.
Qed.

Lemma update_early contact w c e w' :
  update env contact w = (c, Some e, w') -> c = contact.
Proof.
  unfold update, upsertContact, bind, Loops, Now, ret.
  destruct (loopsReply env (tick w)) as [e0|]; cbn.
  - destruct (loops.IsBadRequest _); cbn; intros H; inversion H.
    reflexivity.
  - intros H; inversion H.
Qed.

(** The switch: no status patch, and an early return leaves the contact
    as it was. *)
Lemma switch_inv contact w c early w' :
  match switchCase contact with
  | CaseCreation => creation env contact
  | CaseUpdate => update env contact
  | CaseNone => ret (contact, None)
  end w = (c, early, w') ->
  statusPatches w' = statusPatches w
  /\ (early <> None -> c = contact).
Proof.
  destruct (switchCase contact); intros H.
  - split.
    + pose proof (creation_unpatched env contact w) as P.
      now rewrite H in P.
    + destruct early as [e|]; [intros _ | now intros N].
      exact (creation_early _ _ _ _ _ H).
  - split.
    + pose proof (update_unpatched env contact w) as P.
      now rewrite H in P.
    + destruct early as [e|]; [intros _ | now intros N].
      exact (update_early _ _ _ _ _ H).
  - inversion H; subst. split; [reflexivity | reflexivity].
Qed.

(** The run of [converge]: it always returns the contact it holds, and has
    patched the status exactly when that contact's status differs from the
    one it started with. *)
Lemma converge_patches contact w :
  exists final,
    ctrl.object (fst (converge env r contact w)) = Some final
    /\ patchedIffChanged "Contact" (cStatus contact) (cStatus final)
                         w (snd (converge env r contact w)).
Proof.
  unfold converge, bind.
  match goal with
  | |- context [match switchCase contact with _ => _ end w] =>
      destruct (match switchCase contact with
                | CaseCreation => creation env contact
                | CaseUpdate => update env contact
                | CaseNone => ret (contact, None)
                end w) as [[c1 early] w1] eqn:B
  end.
  apply switch_inv in B as [P1 E1].
  destruct early as [e|].
  - rewrite (E1 ltac:(discriminate)). exists contact. split; [reflexivity|].
    now apply unchanged_unpatched.
  - assert (exists flag c2 w2,
               (if isNewsletterContact c1
                then addToNewsLetterList env r c1
                else ret (false, c1)) w1 = (flag, c2, w2)
               /\ statusPatches w2 = statusPatches w1)
      as [flag [c2 [w2 [N P2]]]].
    { destruct (isNewsletterContact c1).
      - pose proof (addToNewsLetterList_unpatched env r c1 w1) as P.
        destruct (addToNewsLetterList env r c1 w1) as [[flag c2] w2].
        now exists flag, c2, w2.
      - now exists false, c1, w1. }
    rewrite N. exists c2.
    destruct (equality.DeepEqualContactStatus (cStatus contact) (cStatus c2))
      eqn:D; cbn [negb].
    + apply DeepEqualContactStatus_spec in D.
      split; [now destruct flag|].
      assert (statusPatches w2 = statusPatches w) as P by congruence.
      rewrite <- D.
      destruct flag; cbn; now apply unchanged_unpatched.
    + assert (cStatus c2 <> cStatus contact) as Hne.
      { intros E. symmetry in E. apply DeepEqualContactStatus_spec in E.
        congruence. }
      pose proof (PatchStatus_patched env c2 w2) as P3.
      destruct (PatchStatus env c2 w2) as [[pe|] w3]; cbn [snd] in P3.
      * split; [reflexivity|]. split; [now intros E|]. intros _.
        cbn. rewrite P3, P2, P1. reflexivity.
      * split; [now destruct flag|]. split; [now intros E|]. intros _.
        destruct flag; cbn; rewrite P3, P2, P1; reflexivity.
Qed.

(** The finalizer of a Contact neither touches the contact nor patches
    its status. *)
Lemma contact_Finalize_inv contact w :
  exists res err w',
    loopsContactFinalizer.Finalize env contact w = (res, err, contact, w')
    /\ statusPatches w' = statusPatches w.
Proof.
  unfold loopsContactFinalizer.Finalize, loopsContactFinalizer.DeleteContact,
    bind, Loops, ret.
  destruct (loopsReply env (tick w)) as [e|]; cbn.
  - destruct (loops.IsNotFound e); cbn; eauto.
  - eauto.
Qed.

Lemma Reconcile_patches req w :
  match ctrl.object (fst (Reconcile env r req w)) with
  | None => statusPatches (snd (Reconcile env r req w)) = statusPatches w
  | Some final =>
      exists contact,
        find (hasKey req) (Contacts (cluster w)) = Some contact
        /\ patchedIffChanged "Contact" (cStatus contact) (cStatus final)
                             w (snd (Reconcile env r req w))
  end.
Proof.
  unfold Reconcile, bind. rewrite Get_eq.
  destruct (storeFault env (tick w)) as [e|].
  { now destruct (apierrors.IsNotFound e). }
  cbn [items ContactObject Kind].
  destruct (find (hasKey req) (Contacts (cluster w))) as [contact|];
    [|reflexivity].
  set (w1 := logged (StoreCall VGet "Contact") w).
  assert (statusPatches w1 = statusPatches w) as P1 by reflexivity.
  unfold finalizer.Finalize.
  cbn [GetObjectMeta SetObjectMeta ContactObject].
  destruct (finalizer.IsZero (DeletionTimestamp (cMeta contact))
            && negb (controllerutil.ContainsFinalizer
                       (cMeta contact) loopsContactFinalizerKey)).
  { (* the finalizer key is added *)
    cbn [ret finalizer.Updated].
    match goal with
    | |- context [Update env ?c w1] =>
        pose proof (Update_unpatched env c w1) as P2;
        destruct (Update env c w1) as [[ue|] w2]
    end; cbn [snd] in P2.
    - destruct (apierrors.IsConflict ue); cbn;
        exists contact; (split; [reflexivity|]);
        apply unchanged_unpatched; congruence.
    - cbn. exists contact. split; [reflexivity|].
      apply unchanged_unpatched; congruence. }
  destruct (negb (finalizer.IsZero (DeletionTimestamp (cMeta contact)))
            && controllerutil.ContainsFinalizer
                 (cMeta contact) loopsContactFinalizerKey).
  { (* the contact is finalized *)
    unfold bind.
    destruct (contact_Finalize_inv contact w1) as [res [err [w2 [F P2]]]].
    rewrite F. destruct err as [e|]; cbn [ret finalizer.Updated].
    - cbn. exists contact. split; [reflexivity|].
      apply unchanged_unpatched; congruence.
    - match goal with
      | |- context [Update env ?c w2] =>
          pose proof (Update_unpatched env c w2) as P3;
          destruct (Update env c w2) as [[ue|] w3]
      end; cbn [snd] in P3.
      + destruct (apierrors.IsConflict ue); cbn;
          exists contact; (split; [reflexivity|]);
          apply unchanged_unpatched; congruence.
      + cbn. exists contact. split; [reflexivity|].
        apply unchanged_unpatched; congruence. }
  cbn [ret finalizer.Updated].
  destruct (converge_patches contact w1) as [final [O [Q1 Q2]]].
  rewrite O. exists contact. split; [reflexivity|].
  split; intros H; [rewrite (Q1 H) | rewrite (Q2 H)]; now rewrite P1.
Qed.

End ContactStatusPatch.

Section MembershipStatusPatch.
Import metav1 v1alpha1 client controller spec.
Import controller.LoopsContactGroupMembershipController.
Variable env : Env.

Lemma DeepEqualMembershipStatus_spec (a b : ContactGroupMembershipStatus) :
  equality.DeepEqualMembershipStatus a b = true <-> a = b.
Proof.
  unfold equality.DeepEqualMembershipStatus.
  destruct (equality.MembershipStatus_eq_dec a b); split;
    intros; try assumption; try reflexivity; try discriminate.
  contradiction.
Qed.

(** [PatchStatusIfChanged] on a membership: one patch when the two
    statuses differ, none when they are equal. *)
Lemma PatchStatusIfChanged_patches (cgm : ContactGroupMembership)
      (old : ContactGroupMembershipStatus) (w : World) :
  patchedIffChanged "ContactGroupMembership" old (mStatus cgm) w
    (snd (util.PatchStatusIfChanged env equality.DeepEqualMembershipStatus
            cgm old (mStatus cgm) w)).
Proof.
  unfold util.PatchStatusIfChanged, bind.
  destruct (equality.DeepEqualMembershipStatus old (mStatus cgm)) eqn:D;
    cbn [negb].
  - apply DeepEqualMembershipStatus_spec in D. rewrite <- D.
    now apply unchanged_unpatched.
  - assert (mStatus cgm <> old) as Hne.
    { intros E. symmetry in E. apply DeepEqualMembershipStatus_spec in E.
      congruence. }
    pose proof (PatchStatus_patched env cgm w) as P.
    destruct (PatchStatus env cgm w) as [[pe|] w1]; cbn [snd] in P |- *;
      (split; [now intros E | intros _; exact P]).
Qed.

Lemma getReferencedResources_unpatched cgm :
  preserves statusPatches (getReferencedResources env cgm).
Proof. unfold getReferencedResources. preserve. Qed.

Lemma cleanup_unpatched cgm :
  preserves statusPatches (loopsContactGroupMembershipFinalizer.cleanup env cgm).
Proof.
  unfold loopsContactGroupMembershipFinalizer.cleanup,
    loopsContactGroupMembershipFinalizer.removeContactFromMailingList.
  preserve; apply getReferencedResources_unpatched.
Qed.

Lemma creation_membership_unpatched cgm contact contactGroup :
  preserves statusPatches (creation env cgm contact contactGroup).
Proof. unfold creation, addContactToMailingList. preserve. Qed.

(** The finalizer of a membership patches the status exactly when it
    changed it, and hands back the membership untouched when it succeeds. *)
Lemma membership_Finalize_inv cgm w :
  exists res err final w',
    loopsContactGroupMembershipFinalizer.Finalize env cgm w
    = (res, err, final, w')
    /\ patchedIffChanged "ContactGroupMembership" (mStatus cgm) (mStatus final) w w'
    /\ (err = None -> final = cgm).
Proof.
  unfold loopsContactGroupMembershipFinalizer.Finalize, bind.
  pose proof (cleanup_unpatched cgm w) as P1.
  destruct (loopsContactGroupMembershipFinalizer.cleanup env cgm w)
    as [[[e finalizerError]|] w1]; cbn [snd] in P1.
  - unfold Now at 1. cbv beta.
    match goal with
    | |- context [util.PatchStatusIfChanged env _ ?c ?old _ w1] =>
        pose proof (PatchStatusIfChanged_patches c old w1) as [Q1 Q2];
        destruct (util.PatchStatusIfChanged
                    env equality.DeepEqualMembershipStatus c old
                    (mStatus c) w1) as [[pe|] w2];
        cbn [snd] in Q1, Q2; cbn [ret];
        do 4 eexists; (split; [reflexivity|]);
        (split; [|discriminate]);
        (split; intros H; [rewrite (Q1 H) | rewrite (Q2 H)];
         now rewrite P1)
    end.
  - cbn [ret]. do 4 eexists. split; [reflexivity|].
    split; [now apply unchanged_unpatched | reflexivity].
Qed.

Lemma converge_membership_patches cgm w :
  exists final,
    ctrl.object (fst (converge env cgm w)) = Some final
    /\ patchedIffChanged "ContactGroupMembership" (mStatus cgm) (mStatus final)
                         w (snd (converge env cgm w)).
Proof.
  unfold converge, bind.
  pose proof (getReferencedResources_unpatched cgm w) as P1.
  destruct (getReferencedResources env cgm w)
    as [[[contact contactGroup]|e] w1]; cbn [snd] in P1.
  - assert (exists c1 reconcileError w2,
               (if needsCreation cgm
                then creation env cgm contact contactGroup
                else ret (cgm, None)) w1 = (c1, reconcileError, w2)
               /\ statusPatches w2 = statusPatches w1)
      as [c1 [reconcileError [w2 [B P2]]]].
    { destruct (needsCreation cgm).
      - pose proof (creation_membership_unpatched cgm contact contactGroup w1)
          as P.
        destruct (creation env cgm contact contactGroup w1) as [[c1 re] w2].
        now exists c1, re, w2.
      - now exists cgm, None, w1. }
    rewrite B. exists c1.
    pose proof (PatchStatusIfChanged_patches c1 (mStatus cgm) w2) as [Q1 Q2].
    destruct (util.PatchStatusIfChanged
                env equality.DeepEqualMembershipStatus c1 (mStatus cgm)
                (mStatus c1) w2) as [[pe|] w3]; cbn [snd] in Q1, Q2.
    + cbn. split; [reflexivity|].
      split; intros H; [rewrite (Q1 H) | rewrite (Q2 H)]; congruence.
    + split; [now destruct reconcileError|].
      destruct reconcileError; cbn;
        (split; intros H; [rewrite (Q1 H) | rewrite (Q2 H)]; congruence).
  - cbn. exists cgm. split; [reflexivity|]. now apply unchanged_unpatched.
Qed.

Lemma Reconcile_membership_patches req w :
  match ctrl.object (fst (Reconcile env req w)) with
  | None => statusPatches (snd (Reconcile env req w)) = statusPatches w
  | Some final =>
      exists cgm,
        find (hasKey req) (Memberships (cluster w)) = Some cgm
        /\ patchedIffChanged "ContactGroupMembership" (mStatus cgm) (mStatus final)
                             w (snd (Reconcile env req w))
  end.
Proof.
  unfold Reconcile, bind. rewrite Get_eq.
  destruct (storeFault env (tick w)) as [e|].
  { now destruct (apierrors.IsNotFound e). }
  cbn [items MembershipObject Kind].
  destruct (find (hasKey req) (Memberships (cluster w))) as [cgm|];
    [|reflexivity].
  set (w1 := logged (StoreCall VGet "ContactGroupMembership") w).
  assert (statusPatches w1 = statusPatches w) as P1 by reflexivity.
  unfold finalizer.Finalize.
  cbn [GetObjectMeta SetObjectMeta MembershipObject].
  destruct (finalizer.IsZero (DeletionTimestamp (mMeta cgm))
            && negb (controllerutil.ContainsFinalizer
                       (mMeta cgm) loopsContactGroupMembershipFinalizerKey)).
  { cbn [ret finalizer.Updated].
    match goal with
    | |- context [Update env ?c w1] =>
        pose proof (Update_unpatched env c w1) as P2;
        destruct (Update env c w1) as [[ue|] w2]
    end; cbn [snd] in P2.
    - destruct (apierrors.IsConflict ue); cbn;
        exists cgm; (split; [reflexivity|]);
        apply unchanged_unpatched; congruence.
    - cbn. exists cgm. split; [reflexivity|].
      apply unchanged_unpatched; congruence. }
  destruct (negb (finalizer.IsZero (DeletionTimestamp (mMeta cgm)))
            && controllerutil.ContainsFinalizer
                 (mMeta cgm) loopsContactGroupMembershipFinalizerKey).
  { unfold bind.
    destruct (membership_Finalize_inv cgm w1)
      as [res [err [final [w2 [F [[Q1 Q2] Same]]]]]].
    rewrite F. destruct err as [e|]; cbn [ret finalizer.Updated].
    - cbn. exists cgm. split; [reflexivity|].
      split; intros H; [rewrite (Q1 H) | rewrite (Q2 H)]; now rewrite P1.
    - rewrite (Same eq_refl) in *.
      assert (statusPatches w2 = statusPatches w) as P2
          by (rewrite (Q1 eq_refl); exact P1).
      match goal with
      | |- context [Update env ?c w2] =>
          pose proof (Update_unpatched env c w2) as P3;
          destruct (Update env c w2) as [[ue|] w3]
      end; cbn [snd] in P3.
      + destruct (apierrors.IsConflict ue); cbn;
          exists cgm; (split; [reflexivity|]);
          apply unchanged_unpatched; congruence.
      + cbn. exists cgm. split; [reflexivity|].
        apply unchanged_unpatched; congruence. }
  cbn [ret finalizer.Updated].
  destruct (converge_membership_patches cgm w1) as [final [O [Q1 Q2]]].
  rewrite O. exists cgm. split; [reflexivity|].
  split; intros H; [rewrite (Q1 H) | rewrite (Q2 H)]; now rewrite P1.
Qed.

End MembershipStatusPatch.

Section StatusPatch.
Import metav1 v1alpha1 client controller spec.

(** C9.  Whatever the store and the provider answer, a reconciliation of a
  Contact, and one of a ContactGroupMembership, that read an object issues
  no status patch when the status of the object it returns with equals the
  status it read, and exactly one when the two differ; a reconciliation
  that read no object issues none. *)
Theorem status_patched_iff_changed
      (env : client.Env) (r : controller.LoopsContactController.Fields)
      (req : client.ObjectKey) (w : client.World) :
(let run := controller.LoopsContactController.Reconcile env r req w in
 match ctrl.object (fst run) with
 | None => spec.statusPatches (snd run) = spec.statusPatches w
 | Some final =>
     exists contact,
       find (client.hasKey req) (client.Contacts (client.cluster w))
       = Some contact
       /\ spec.patchedIffChanged "Contact"
            (v1alpha1.cStatus contact) (v1alpha1.cStatus final) w (snd run)
 end)
/\
(let run := controller.LoopsContactGroupMembershipController.Reconcile
              env req w in
 match ctrl.object (fst run) with
 | None => spec.statusPatches (snd run) = spec.statusPatches w
 | Some final =>
     exists cgm,
       find (client.hasKey req) (client.Memberships (client.cluster w))
       = Some cgm
       /\ spec.patchedIffChanged "ContactGroupMembership"
            (v1alpha1.mStatus cgm) (v1alpha1.mStatus final) w (snd run)
 end).
Proof.
split.
- exact (Reconcile_patches env r req w).
- exact (Reconcile_membership_patches env req w).
Qed.

End StatusPatch.

(* ------------------------------------------------------------------------- *)
(** * Claim C6: the status invariant *)

Section ContactInvariant.
Import metav1 v1alpha1 client controller spec.
Import controller.LoopsContactController.
Variable env : Env.
Variable r : Fields.

Lemma setCondition_invariant contact c :
  statusInvariant (cStatus contact) ->
  statusInvariant (cStatus (setCondition contact c)).
Proof.
  intros [Hc Hp]. split; cbn.
  - now apply countType_le_SetStatusCondition.
  - exact Hp.
Qed.

Lemma withProviders_invariant contact p :
  statusInvariant (cStatus contact) ->
  statusInvariant (cStatus (withProviders contact [p])).
Proof.
  intros [Hc _]. split; cbn; [exact Hc|].
  constructor; [intros [] | constructor].
Qed.

Lemma creation_invariant contact w :
  statusInvariant (cStatus contact) ->
  statusInvariant (cStatus (fst (fst (creation env contact w)))).
Proof.
  intros H. unfold creation, upsertContact, bind, Loops, Now, ret.
  destruct (loopsReply env (tick w)) as [e|]; cbn [fst snd].
  - destruct (negb (loops.IsBadRequest _)); cbn [fst snd]; [exact H|].
    now apply setCondition_invariant.
  - now apply withProviders_invariant, setCondition_invariant.
Qed.

Lemma update_invariant contact w :
  statusInvariant (cStatus contact) ->
  statusInvariant (cStatus (fst (fst (update env contact w)))).
Proof.
  intros H. unfold update, upsertContact, bind, Loops, Now, ret.
  destruct (loopsReply env (tick w)) as [e|]; cbn [fst snd].
  - destruct (loops.IsBadRequest _); cbn [fst snd]; [|exact H].
    now apply setCondition_invariant.
  - now apply setCondition_invariant.
Qed.

(** The newsletter side effect changes nothing of the contact but its
    NewsLetterAdded condition. *)
Lemma addToNewsLetterList_inv contact w :
  let c' := snd (fst (addToNewsLetterList env r contact w)) in
  cMeta c' = cMeta contact
  /\ Providers (cStatus c') = Providers (cStatus contact)
  /\ meta.FindStatusCondition (Conditions (cStatus c'))
                              LoopsContactReadyCondition
     = meta.FindStatusCondition (Conditions (cStatus contact))
                                LoopsContactReadyCondition
  /\ (statusInvariant (cStatus contact) -> statusInvariant (cStatus c')).
Proof.
  unfold addToNewsLetterList.
  destruct (match meta.FindStatusCondition _ NewsLetterAddedCondition with
            | Some c => ConditionStatus_eqb (Status c) ConditionTrue
            | None => false
            end); [cbn [ret fst snd]; auto|].
  unfold bind, Now, ret.
  destruct (Create env _ w) as [[e|] w1]; cbn [fst snd].
  - destruct (apierrors.IsAlreadyExists e); cbn [fst snd]; [auto|].
    split; [reflexivity|]. split; [reflexivity|]. split.
    + now apply Find_SetStatusCondition_other.
    + apply setCondition_invariant.
  - split; [reflexivity|]. split; [reflexivity|]. split.
    + now apply Find_SetStatusCondition_other.
    + apply setCondition_invariant.
Qed.

(** The contact [converge] returns with is the one the switch and the
    newsletter side effect left. *)
Lemma converge_object contact w :
  let '(c1, early, w1) :=
    match switchCase contact with
    | CaseCreation => creation env contact
    | CaseUpdate => update env contact
    | CaseNone => ret (contact, None)
    end w in
  ctrl.object (fst (converge env r contact w))
  = Some (match early with
          | Some _ => c1
          | None =>
              if isNewsletterContact c1
              then snd (fst (addToNewsLetterList env r c1 w1))
              else c1
          end).
Proof.
  unfold converge, bind.
  destruct (match switchCase contact with
            | CaseCreation => creation env contact
            | CaseUpdate => update env contact
            | CaseNone => ret (contact, None)
            end w) as [[c1 early] w1].
  destruct early as [e|]; [reflexivity|].
  destruct (isNewsletterContact c1).
  - destruct (addToNewsLetterList env r c1 w1) as [[flag c2] w2]. cbn [ret].
    destruct (negb _).
    + destruct (PatchStatus env c2 w2) as [[pe|] w3]; [reflexivity|].
      now destruct flag.
    + now destruct flag.
  - cbn [ret]. destruct (negb _).
    + destruct (PatchStatus env c1 w1) as [[pe|] w3]; reflexivity.
    + reflexivity.
Qed.

Lemma converge_invariant contact w final :
  statusInvariant (cStatus contact) ->
  ctrl.object (fst (converge env r contact w)) = Some final ->
  statusInvariant (cStatus final).
Proof.
  intros Hinv. pose proof (converge_object contact w) as O.
  assert (statusInvariant
            (cStatus (fst (fst (match switchCase contact with
                                | CaseCreation => creation env contact
                                | CaseUpdate => update env contact
                                | CaseNone => ret (contact, None)
                                end w))))) as H1.
  { destruct (switchCase contact);
      [now apply creation_invariant | now apply update_invariant
      | exact Hinv]. }
  destruct (match switchCase contact with
            | CaseCreation => creation env contact
            | CaseUpdate => update env contact
            | CaseNone => ret (contact, None)
            end w) as [[c1 early] w1].
  cbn [fst] in H1. rewrite O. intros [= <-].
  destruct early; [exact H1|].
  destruct (isNewsletterContact c1); [|exact H1].
  now apply addToNewsLetterList_inv.
Qed.

(** The contact [Reconcile] returns with has the status it read, unless
    it went through [converge]. *)
Lemma Reconcile_object req w final :
  ctrl.object (fst (Reconcile env r req w)) = Some final ->
  exists contact,
    find (hasKey req) (Contacts (cluster w)) = Some contact
    /\ (cStatus final = cStatus contact
        \/ exists w1,
             ctrl.object (fst (converge env r contact w1)) = Some final).
Proof.
  unfold Reconcile, bind. rewrite Get_eq.
  destruct (storeFault env (tick w)) as [e|].
  { now destruct (apierrors.IsNotFound e). }
  cbn [items ContactObject Kind].
  destruct (find (hasKey req) (Contacts (cluster w))) as [contact|];
    [|discriminate].
  intros H. exists contact. split; [reflexivity|]. revert H.
  unfold finalizer.Finalize.
  cbn [GetObjectMeta SetObjectMeta ContactObject].
  destruct (finalizer.IsZero (DeletionTimestamp (cMeta contact))
            && negb (controllerutil.ContainsFinalizer
                       (cMeta contact) loopsContactFinalizerKey)).
  { cbn [ret finalizer.Updated].
    destruct (Update env _ _) as [[ue|] w2];
      [destruct (apierrors.IsConflict ue)|]; cbn; intros [= <-];
      now left. }
  destruct (negb (finalizer.IsZero (DeletionTimestamp (cMeta contact)))
            && controllerutil.ContainsFinalizer
                 (cMeta contact) loopsContactFinalizerKey).
  { unfold bind.
    destruct (contact_Finalize_inv env contact
                (logged (StoreCall VGet "Contact") w))
      as [res [err [w2 [F _]]]].
    rewrite F. destruct err as [e|]; cbn [ret finalizer.Updated].
    - cbn. intros [= <-]. now left.
    - destruct (Update env _ _) as [[ue|] w3];
        [destruct (apierrors.IsConflict ue)|]; cbn; intros [= <-];
        now left. }
  cbn [ret finalizer.Updated]. intros H. right. eauto.
Qed.

(** The creation case when the provider accepts the upsert. *)
Lemma creation_accepted contact w :
  loopsReply env (tick w) = None ->
  exists now w',
    creation env contact w
    = (withProviders
         (setCondition contact
            (readyCondition ConditionTrue LoopsContactCreatedReason
               "Loops contact created on email provider" contact now))
         [mkProviderStatus "Loops" (UID (cMeta contact))],
       None, w')
    /\ cluster w' = cluster w /\ tick w' = S (tick w).
Proof.
  intros Hok. unfold creation, upsertContact, bind, Loops, Now, ret.
  rewrite Hok. do 2 eexists. split; [reflexivity|]. split; reflexivity.
Qed.

(** The creation case when the provider answers bad-request. *)
Lemma creation_bad_request contact w e :
  loopsReply env (tick w) = Some e ->
  loops.IsBadRequest e = true ->
  exists now message w',
    creation env contact w
    = (setCondition contact
         (readyCondition ConditionFalse LoopsContactNotCreatedReason
            message contact now),
       None, w')
    /\ cluster w' = cluster w /\ tick w' = S (tick w).
Proof.
  intros Hrep Hbad. unfold creation, upsertContact, bind, Loops, Now, ret.
  rewrite Hrep.
  change (loops.IsBadRequest (wrapError "failed to find Loops contact" e))
    with (loops.IsBadRequest e).
  rewrite Hbad. cbn [negb]. do 3 eexists.
  split; [reflexivity|]. split; reflexivity.
Qed.

(** What is found of the Ready condition and of the providers in the
    contact [converge] returns with, when the switch did not return
    early. *)
Lemma converge_keeps contact w c1 w1 :
  match switchCase contact with
  | CaseCreation => creation env contact
  | CaseUpdate => update env contact
  | CaseNone => ret (contact, None)
  end w = (c1, None, w1) ->
  exists final,
    ctrl.object (fst (converge env r contact w)) = Some final
    /\ cMeta final = cMeta c1
    /\ Providers (cStatus final) = Providers (cStatus c1)
    /\ meta.FindStatusCondition (Conditions (cStatus final))
                                LoopsContactReadyCondition
       = meta.FindStatusCondition (Conditions (cStatus c1))
                                  LoopsContactReadyCondition.
Proof.
  intros B. pose proof (converge_object contact w) as O.
  rewrite B in O. eexists. split; [exact O|].
  destruct (isNewsletterContact c1); [|auto].
  destruct (addToNewsLetterList_inv c1 w1) as [M [P [F _]]]. auto.
Qed.

End ContactInvariant.

Section Invariant.
Import metav1 v1alpha1 client controller spec.
Import controller.LoopsContactController.

(** C6.  Reconciling a stored Contact whose status has at most one Ready
    condition and at most one provider entry per name returns a Contact
    whose status has them too, on every path (creation or update, success
    or bad-request, or no remote call at all).  And when the Contact is in
    the creation case, is not being deleted, has its finalizer, and the
    provider accepts the upsert, the status it returns with has the
    providers list [{Loops, UID}] and a Ready condition True with reason
    ContactCreated. *)
Theorem contact_status_invariant
        (env : Env) (r : Fields) (req : ObjectKey) (w : World)
        (contact : Contact) :
  find (hasKey req) (Contacts (cluster w)) = Some contact ->
  statusInvariant (cStatus contact) ->
  let run := Reconcile env r req w in
  (forall final,
      ctrl.object (fst run) = Some final -> statusInvariant (cStatus final))
  /\ (storeFault env (tick w) = None ->
      finalizer.IsZero (DeletionTimestamp (cMeta contact)) = true ->
      controllerutil.ContainsFinalizer (cMeta contact)
                                       loopsContactFinalizerKey = true ->
      switchCase contact = CaseCreation ->
      loopsReply env (S (tick w)) = None ->
      exists final readyCond,
        ctrl.object (fst run) = Some final
        /\ Providers (cStatus final)
           = [mkProviderStatus "Loops" (UID (cMeta contact))]
        /\ meta.FindStatusCondition (Conditions (cStatus final))
                                    LoopsContactReadyCondition
           = Some readyCond
        /\ Status readyCond = ConditionTrue
        /\ Reason readyCond = LoopsContactCreatedReason).
Proof.
  intros Hfind Hinv run. split.
  - intros final Hobj.
    destruct (Reconcile_object env r req w final Hobj)
      as [contact' [Hfind' [Hsame | [w1 Hconv]]]];
      rewrite Hfind in Hfind'; injection Hfind' as <-.
    + now rewrite Hsame.
    + exact (converge_invariant env r contact w1 final Hinv Hconv).
  - intros Hok Hz Hfin Hcase Hrep. subst run.
    rewrite (Reconcile_not_deleting env r req w contact Hok Hfind Hz), Hfin.
    set (w1 := logged (StoreCall VGet "Contact") w).
    destruct (creation_accepted env contact w1 Hrep) as [now [w2 [C _]]].
    match type of C with
    | _ = (?c1, None, _) =>
        assert (match switchCase contact with
                | CaseCreation => creation env contact
                | CaseUpdate => update env contact
                | CaseNone => ret (contact, None)
                end w1 = (c1, None, w2)) as B
            by (rewrite Hcase; exact C)
    end.
    destruct (converge_keeps env r contact w1 _ w2 B) as [final [O [_ [P F]]]].
    destruct (Find_SetStatusCondition_same
                (Conditions (cStatus contact))
                (readyCondition ConditionTrue LoopsContactCreatedReason
                   "Loops contact created on email provider" contact now))
      as [readyCond [Hr [Hs [Hre _]]]].
    exists final, readyCond. split; [exact O|]. split; [exact P|].
    split; [rewrite F; exact Hr|]. split; [exact Hs | exact Hre].
Qed.

End Invariant.

(* ------------------------------------------------------------------------- *)
(** * Claim C7: bad-request is softened for a Contact, escalated for a
      membership *)

Section StoredObjects.
Import metav1 v1alpha1 client controller spec.
Variable env : Env.

(** A status patch the store does not refuse succeeds on a stored
    object. *)
Lemma PatchStatus_accepted {T} `{Object T} (obj : T) w :
  storeFault env (tick w) = None ->
  existsb (hasKey (keyOf obj)) (items (cluster w)) = true ->
  fst (PatchStatus env obj w) = None.
Proof.
  intros Hok Hin. unfold PatchStatus, request. now rewrite Hok, Hin.
Qed.

Lemma find_stored {T} `{Object T} key (l : list T) (o : T) :
  find (hasKey key) l = Some o -> existsb (hasKey (keyOf o)) l = true.
Proof.
  intros Hfind. apply find_some in Hfind as [Hin _].
  apply existsb_exists. exists o. split; [exact Hin | apply hasKey_keyOf].
Qed.

End StoredObjects.

Section ContactSoftens.
Import metav1 v1alpha1 client controller spec.
Import controller.LoopsContactController.
Variable env : Env.
Variable r : Fields.

(** With a store that refuses nothing the newsletter side effect reports
    no error and leaves the contacts of the cluster alone. *)
Lemma addToNewsLetterList_accepted contact w :
  (forall n, storeFault env n = None) ->
  fst (fst (addToNewsLetterList env r contact w)) = false
  /\ Contacts (cluster (snd (addToNewsLetterList env r contact w)))
     = Contacts (cluster w).
Proof.
  intros accepts. unfold addToNewsLetterList.
  destruct (match meta.FindStatusCondition _ NewsLetterAddedCondition with
            | Some c => ConditionStatus_eqb (Status c) ConditionTrue
            | None => false
            end); [split; reflexivity|].
  unfold bind, Create, request, Now, ret. rewrite accepts.
  destruct (existsb _ _); split; reflexivity.
Qed.

(** The only errors [converge] returns once the switch is past: a status
    patch the store refused, and the newsletter side effect. *)
Lemma converge_error_cases contact w c1 w1 :
  match switchCase contact with
  | CaseCreation => creation env contact
  | CaseUpdate => update env contact
  | CaseNone => ret (contact, None)
  end w = (c1, None, w1) ->
  let err := ctrl.err (fst (converge env r contact w)) in
  err = None
  \/ (exists pe, err = Some (wrapError "failed to patch contact status" pe))
  \/ err = Some (errorString "failed to add mailing list to Loops contact").
Proof.
  intros B. unfold converge, bind. rewrite B.
  destruct ((if isNewsletterContact c1
             then addToNewsLetterList env r c1
             else ret (false, c1)) w1) as [[flag c2] w2].
  destruct (negb _).
  - destruct (PatchStatus env c2 w2) as [[pe|] w3]; cbn.
    + right. left. now exists pe.
    + destruct flag; cbn; auto.
  - destruct flag; cbn; auto.
Qed.

(** [converge] returns no error when the switch did not return early
    and the store refuses nothing. *)
Lemma converge_no_error contact w c1 w1 :
  (forall n, storeFault env n = None) ->
  match switchCase contact with
  | CaseCreation => creation env contact
  | CaseUpdate => update env contact
  | CaseNone => ret (contact, None)
  end w = (c1, None, w1) ->
  cMeta c1 = cMeta contact ->
  Contacts (cluster w1) = Contacts (cluster w) ->
  existsb (hasKey (keyOf contact)) (Contacts (cluster w)) = true ->
  ctrl.err (fst (converge env r contact w)) = None.
Proof.
  intros accepts B Hmeta Hcl Hin. unfold converge, bind. rewrite B.
  assert (exists c2 w2,
             (if isNewsletterContact c1
              then addToNewsLetterList env r c1
              else ret (false, c1)) w1 = (false, c2, w2)
             /\ cMeta c2 = cMeta c1
             /\ Contacts (cluster w2) = Contacts (cluster w1))
    as [c2 [w2 [N [M2 C2]]]].
  { destruct (isNewsletterContact c1).
    - destruct (addToNewsLetterList_accepted c1 w1 accepts) as [F C].
      destruct (addToNewsLetterList_inv env r c1 w1) as [M _].
      destruct (addToNewsLetterList env r c1 w1) as [[flag c2] w2].
      cbn [fst snd] in *. subst flag. now exists c2, w2.
    - now exists c1, w1. }
  rewrite N. destruct (negb _); [|reflexivity].
  pose proof (PatchStatus_accepted env c2 w2 (accepts _)) as P.
  destruct (PatchStatus env c2 w2) as [pe w3]. cbn [fst] in P.
  rewrite P; [reflexivity|].
  cbn [items ContactObject]. rewrite C2, Hcl.
  unfold keyOf in *. cbn [GetObjectMeta ContactObject] in *.
  now rewrite M2, Hmeta.
Qed.

Lemma contact_softens req w contact e :
  storeFault env (tick w) = None ->
  find (hasKey req) (Contacts (cluster w)) = Some contact ->
  finalizer.IsZero (DeletionTimestamp (cMeta contact)) = true ->
  controllerutil.ContainsFinalizer (cMeta contact)
                                   loopsContactFinalizerKey = true ->
  switchCase contact = CaseCreation ->
  loopsReply env (S (tick w)) = Some e ->
  loops.IsBadRequest e = true ->
  let run := Reconcile env r req w in
  (exists final readyCond,
      ctrl.object (fst run) = Some final
      /\ meta.FindStatusCondition (Conditions (cStatus final))
                                  LoopsContactReadyCondition
         = Some readyCond
      /\ Status readyCond = ConditionFalse
      /\ Reason readyCond = LoopsContactNotCreatedReason)
  /\ (ctrl.err (fst run) = None
      \/ (exists pe,
             ctrl.err (fst run)
             = Some (wrapError "failed to patch contact status" pe))
      \/ ctrl.err (fst run)
         = Some (errorString "failed to add mailing list to Loops contact"))
  /\ ((forall n, storeFault env n = None) -> ctrl.err (fst run) = None).
Proof.
  intros Hok Hfind Hz Hfin Hcase Hrep Hbad run. subst run.
  rewrite (Reconcile_not_deleting env r req w contact Hok Hfind Hz), Hfin.
  set (w1 := logged (StoreCall VGet "Contact") w).
  destruct (creation_bad_request env contact w1 e Hrep Hbad)
    as [now [message [w2 [C [Hcl _]]]]].
  match type of C with
  | _ = (?c1, None, _) =>
      assert (match switchCase contact with
              | CaseCreation => creation env contact
              | CaseUpdate => update env contact
              | CaseNone => ret (contact, None)
              end w1 = (c1, None, w2)) as B
          by (rewrite Hcase; exact C)
  end.
  split; [|split].
  - destruct (converge_keeps env r contact w1 _ w2 B) as [final [O [_ [_ F]]]].
    match type of C with
    | _ = (setCondition contact ?c, None, _) =>
        destruct (Find_SetStatusCondition_same
                    (Conditions (cStatus contact)) c)
          as [readyCond [Hr [Hs [Hre _]]]]
    end.
    exists final, readyCond. split; [exact O|].
    split; [rewrite F; exact Hr|]. split; [exact Hs | exact Hre].
  - exact (converge_error_cases contact w1 _ w2 B).
  - intros accepts.
    apply (converge_no_error contact w1 _ w2 accepts B).
    + reflexivity.
    + now rewrite Hcl.
    + exact (find_stored req _ contact Hfind).
Qed.

End ContactSoftens.

Section MembershipEscalates.
Import metav1 v1alpha1 client controller spec.
Import controller.LoopsContactGroupMembershipController.
Variable env : Env.

(** With both referenced objects stored and the two reads not refused,
    [getReferencedResources] returns them. *)
Lemma getReferencedResources_found cgm contact contactGroup w :
  storeFault env (tick w) = None ->
  storeFault env (1 + tick w) = None ->
  find (hasKey (mkKey (crNamespace (ContactRef (mSpec cgm)))
                      (crName (ContactRef (mSpec cgm)))))
       (Contacts (cluster w)) = Some contact ->
  find (hasKey (mkKey (grNamespace (ContactGroupRef (mSpec cgm)))
                      (grName (ContactGroupRef (mSpec cgm)))))
       (ContactGroups (cluster w)) = Some contactGroup ->
  getReferencedResources env cgm w
  = (inl (contact, contactGroup),
     logged (StoreCall VGet "ContactGroup")
            (logged (StoreCall VGet "Contact") w)).
Proof.
  intros H0 H1 Hc Hg. unfold getReferencedResources, bind.
  rewrite Get_eq, H0. cbn [items ContactObject]. rewrite Hc.
  rewrite Get_eq.
  change (tick (logged (StoreCall VGet Kind) w)) with (1 + tick w).
  rewrite H1.
  cbn [items ContactGroupObject logged cluster]. rewrite Hg.
  reflexivity.
Qed.

Lemma membership_escalates req w cgm contact contactGroup listID e :
  storeFault env (tick w) = None ->
  storeFault env (1 + tick w) = None ->
  storeFault env (2 + tick w) = None ->
  find (hasKey req) (Memberships (cluster w)) = Some cgm ->
  finalizer.IsZero (DeletionTimestamp (mMeta cgm)) = true ->
  controllerutil.ContainsFinalizer
    (mMeta cgm) loopsContactGroupMembershipFinalizerKey = true ->
  needsCreation cgm = true ->
  find (hasKey (mkKey (crNamespace (ContactRef (mSpec cgm)))
                      (crName (ContactRef (mSpec cgm)))))
       (Contacts (cluster w)) = Some contact ->
  find (hasKey (mkKey (grNamespace (ContactGroupRef (mSpec cgm)))
                      (grName (ContactGroupRef (mSpec cgm)))))
       (ContactGroups (cluster w)) = Some contactGroup ->
  getMailingListId contactGroup = (listID, None) ->
  loopsReply env (3 + tick w) = Some e ->
  let run := Reconcile env req w in
  (exists final readyCond,
      ctrl.object (fst run) = Some final
      /\ meta.FindStatusCondition
           (mConditions (mStatus final))
           LoopsContactGroupMembershipReadyCondition = Some readyCond
      /\ Status readyCond = ConditionFalse
      /\ Reason readyCond = LoopsContactGroupMembershipNotCreatedReason)
  /\ ctrl.err (fst run) <> None
  /\ (storeFault env (4 + tick w) = None ->
      ctrl.err (fst run)
      = Some (wrapError "failed to add Loops contact to mailing list" e)).
Proof.
  intros H0 H1 H2 Hfind Hz Hfin Hneeds Hc Hg Hlist Hrep run.
  assert (exists now w' pe,
             run
             = (ctrl.failed
                  (match pe with
                   | Some e' => e'
                   | None =>
                       wrapError "failed to add Loops contact to mailing list"
                                 e
                   end)
                  (Some (mSetCondition cgm
                           (mkCondition
                              LoopsContactGroupMembershipReadyCondition
                              ConditionFalse (Generation (mMeta cgm)) now
                              LoopsContactGroupMembershipNotCreatedReason
                              ("Loops contact group membership not created on email provider: "
                                 ++ Error
                                      (wrapError
                                         "failed to add Loops contact to mailing list"
                                         e))))),
                w')
             /\ (storeFault env (4 + tick w) = None -> pe = None))
    as [now [w' [pe [R Hpe]]]].
  { subst run. unfold Reconcile, bind. rewrite Get_eq, H0.
    cbn [items MembershipObject]. rewrite Hfind.
    rewrite Finalize_not_deleting by exact Hz.
    cbn [GetObjectMeta MembershipObject]. rewrite Hfin.
    cbn [finalizer.Updated].
    unfold converge, bind.
    rewrite (getReferencedResources_found cgm contact contactGroup)
      by assumption.
    rewrite Hneeds.
    unfold creation, addContactToMailingList, bind. rewrite Hlist.
    unfold Loops. cbv beta.
    change (tick (logged (StoreCall VGet "ContactGroup")
                    (logged (StoreCall VGet "Contact")
                       (logged (StoreCall VGet Kind) w))))
      with (3 + tick w).
    rewrite Hrep. cbn [ret Now].
    match goal with
    | |- context [util.PatchStatusIfChanged env _ ?c ?old ?new ?w0] =>
        set (final := c); set (w3 := w0);
        assert (storeFault env (4 + tick w) = None ->
                fst (util.PatchStatusIfChanged
                       env equality.DeepEqualMembershipStatus final old
                       (mStatus final) w3) = None) as P
    end.
    { intros H4. unfold util.PatchStatusIfChanged, bind.
      destruct (negb _); [|reflexivity].
      pose proof (PatchStatus_accepted env final w3 H4) as Q.
      destruct (PatchStatus env final w3) as [pe w4]. cbn [fst] in Q.
      rewrite Q; [reflexivity|].
      exact (find_stored req _ cgm Hfind). }
    destruct (util.PatchStatusIfChanged _ _ _ _ _ _) as [pe w4].
    cbn [fst] in P. exists (clock env (4 + tick w)), w4, pe.
    split; [|exact P]. now destruct pe. }
  rewrite R. cbn [fst ctrl.failed ctrl.err ctrl.object].
  split; [|split].
  - match goal with
    | |- context [mSetCondition cgm ?c] =>
        destruct (Find_SetStatusCondition_same (mConditions (mStatus cgm)) c)
          as [readyCond [Hr [Hs [Hre _]]]]
    end.
    eexists. exists readyCond. split; [reflexivity|].
    split; [exact Hr | split; assumption].
  - discriminate.
  - intros H4. now rewrite (Hpe H4).
Qed.

End MembershipEscalates.

(* ------------------------------------------------------------------------- *)
(** * Claim C8: the Contact finalizer *)

Section ContactFinalizer.
Import metav1 v1alpha1 client controller spec.

Lemma ContainsFinalizer_RemoveFinalizer (m : ObjectMeta) (key : string) :
  controllerutil.ContainsFinalizer (controllerutil.RemoveFinalizer m key) key
  = false.
Proof.
  unfold controllerutil.ContainsFinalizer, controllerutil.RemoveFinalizer.
  cbn [Finalizers withFinalizers].
  induction (Finalizers m) as [|f fs IH]; [reflexivity|].
  cbn [filter]. destruct (String.eqb_spec f key) as [E | N]; cbn [negb].
  - exact IH.
  - cbn [existsb]. rewrite IH, orb_false_r.
    apply String.eqb_neq. congruence.
Qed.

(** C8.  The finalizer of a Contact makes exactly one remote call,
    DeleteContact on the contact's UID.  When the provider accepts it, or
    answers not-found, the finalizer returns no error; when the provider
    answers any other error the finalizer returns an error.  And for a
    Contact under deletion that still has the finalizer key,
    [Finalizers.Finalize] accordingly takes the key off the Contact and
    reports it updated (so that the record can be purged), or returns the
    error and leaves the Contact as it was (so that finalization is tried
    again). *)
Theorem contact_finalizer_deletes_remotely
        (env : Env) (contact : Contact) (w : World) :
  (let '(_, err, _, w') := loopsContactFinalizer.Finalize env contact w in
   remoteCalls w'
   = LoopsCall (loops.DeleteContact (UID (cMeta contact))) :: remoteCalls w
   /\ match loopsReply env (tick w) with
      | None => err = None
      | Some e => if loops.IsNotFound e then err = None else err <> None
      end)
  /\
  (finalizer.IsZero (DeletionTimestamp (cMeta contact)) = false ->
   controllerutil.ContainsFinalizer (cMeta contact)
                                    loopsContactFinalizerKey = true ->
   let '(res, err, final, _) :=
     finalizer.Finalize loopsContactFinalizerKey
                        (loopsContactFinalizer.Finalize env) contact w in
   let purgeable :=
     err = None /\ finalizer.Updated res = true
     /\ controllerutil.ContainsFinalizer (cMeta final)
                                         loopsContactFinalizerKey = false in
   match loopsReply env (tick w) with
   | None => purgeable
   | Some e => if loops.IsNotFound e then purgeable
               else err <> None /\ final = contact
   end).
Proof.
  split.
  - unfold loopsContactFinalizer.Finalize,
      loopsContactFinalizer.DeleteContact, bind, Loops, ret.
    destruct (loopsReply env (tick w)) as [e|]; cbn.
    + destruct (loops.IsNotFound e); cbn; split;
        try reflexivity; discriminate.
    + split; reflexivity.
  - intros Hz Hfin. unfold finalizer.Finalize.
    cbn [GetObjectMeta SetObjectMeta ContactObject].
    rewrite Hz, Hfin. cbn [andb negb].
    unfold bind, loopsContactFinalizer.Finalize,
      loopsContactFinalizer.DeleteContact, bind, Loops, ret.
    destruct (loopsReply env (tick w)) as [e|]; cbv beta iota zeta.
    + destruct (loops.IsNotFound e); cbv beta iota zeta; cbn [negb];
        cbv beta iota zeta.
      * split; [reflexivity|]. split; [reflexivity|].
        apply ContainsFinalizer_RemoveFinalizer.
      * split; [discriminate | reflexivity].
    + split; [reflexivity|]. split; [reflexivity|].
      apply ContainsFinalizer_RemoveFinalizer.
Qed.

End ContactFinalizer.

(* ------------------------------------------------------------------------- *)
(** * The claims of the reconcilers on concrete objects *)

Section ReconcilerWitnesses.
Import metav1 v1alpha1 client controller example spec.

Lemma converged_contact_makes_no_remote_call_witness :
  find (hasKey aliceKey) (Contacts (cluster convergedWorld)) = Some converged
  /\ remoteCalls
       (snd (LoopsContactController.Reconcile calm fields aliceKey
               convergedWorld))
     = remoteCalls convergedWorld.
Proof.
  split; [reflexivity|].
  apply (converged_contact_makes_no_remote_call
           calm fields aliceKey convergedWorld converged created).
  - reflexivity.
  - reflexivity.
  - reflexivity.
  - left; reflexivity.
  - reflexivity.
Defined.

Lemma contact_status_invariant_witness :
  let run := LoopsContactController.Reconcile calm fields aliceKey
               pendingWorld in
  statusInvariant (cStatus pending)
  /\ (forall final,
         ctrl.object (fst run) = Some final ->
         statusInvariant (cStatus final))
  /\ exists final readyCond,
       ctrl.object (fst run) = Some final
       /\ Providers (cStatus final) = [mkProviderStatus "Loops" "u1"]
       /\ meta.FindStatusCondition (Conditions (cStatus final))
                                   LoopsContactReadyCondition
          = Some readyCond
       /\ Status readyCond = ConditionTrue
       /\ Reason readyCond = LoopsContactCreatedReason.
Proof.
  intros run.
  assert (statusInvariant (cStatus pending)) as Hinv.
  { split; [cbn; lia | constructor]. }
  destruct (contact_status_invariant
              calm fields aliceKey pendingWorld pending eq_refl Hinv)
    as [Hall Hcreated].
  split; [exact Hinv|]. split; [exact Hall|].
  apply Hcreated; reflexivity.
Defined.

Lemma contact_finalizer_deletes_remotely_witness :
  let env := answering gone in
  loops.IsNotFound gone = true
  /\ let '(res, err, final, _) :=
       finalizer.Finalize loopsContactFinalizerKey
         (loopsContactFinalizer.Finalize env) deleting convergedWorld in
     err = None /\ finalizer.Updated res = true
     /\ controllerutil.ContainsFinalizer (cMeta final)
                                         loopsContactFinalizerKey = false.
Proof.
  intros env. split; [reflexivity|].
  destruct (contact_finalizer_deletes_remotely env deleting convergedWorld)
    as [_ Hdeleting].
  exact (Hdeleting eq_refl eq_refl).
Defined.

End ReconcilerWitnesses.

(* ========================================================================= *)
(** * Further properties of the code *)

(* ------------------------------------------------------------------------- *)
(** * Splitting at a separator *)

Section SplitFacts.

Lemma Split_not_nil (s : string) (sep : ascii) : strings.Split s sep <> [].
Proof.
  destruct s as [|c s]; cbn [strings.Split]; [discriminate|].
  destruct (Ascii.eqb c sep); [discriminate|].
  destruct (strings.Split s sep); discriminate.
Qed.

(** A separator between two texts cuts between their parts. *)
Lemma Split_app (a b : string) (sep : ascii) :
  strings.Split (a ++ String sep b) sep
  = (strings.Split a sep ++ strings.Split b sep)%list.
Proof.
  induction a as [|c a IH]; cbn [append strings.Split].
  - now rewrite Ascii.eqb_refl.
  - destruct (Ascii.eqb c sep); [now rewrite IH|].
    rewrite IH. pose proof (Split_not_nil a sep) as N.
    destruct (strings.Split a sep); [now elim N | reflexivity].
Qed.

Lemma Split_present (sep : ascii) (s : string) :
  strings.mem sep s = true ->
  exists a b rest, strings.Split s sep = a :: b :: rest.
Proof.
  induction s as [|c s IH]; cbn [strings.mem strings.Split];
    [discriminate|].
  destruct (Ascii.eqb c sep); cbn [orb].
  - intros _. pose proof (Split_not_nil s sep) as N.
    destruct (strings.Split s sep) as [|b rest]; [now elim N|].
    now exists EmptyString, b, rest.
  - intros H. destruct (IH H) as [a [b [rest E]]]. rewrite E.
    now exists (String c a), b, rest.
Qed.

(** A text without the separator, then the separator: the text is the
    first part. *)
Lemma Split_first (a b : string) (sep : ascii) :
  strings.mem sep a = false ->
  strings.Split (a ++ String sep b) sep = a :: strings.Split b sep.
Proof. intros H. now rewrite Split_app, (Split_absent _ _ H). Qed.

End SplitFacts.

(* ------------------------------------------------------------------------- *)
(** * base64: decoding reads back what encoding wrote *)

Section Base64RoundTrip.
Local Open Scope N_scope.

Lemma unpack_add (d0 d1 d2 d3 : N) :
  d1 < 64 -> d2 < 64 -> d3 < 64 ->
  base64.unpack d0 d1 d2 d3 = d0 * 262144 + d1 * 4096 + d2 * 64 + d3.
Proof.
  intros H1 H2 H3. unfold base64.unpack.
  assert (N.shiftl d1 12 = d1 * 4096) as E1
      by (rewrite N.shiftl_mul_pow2; reflexivity).
  assert (N.shiftl d2 6 = d2 * 64) as E2
      by (rewrite N.shiftl_mul_pow2; reflexivity).
  rewrite (lor_shiftl_add d0 (N.shiftl d1 12) 18)
    by (rewrite E1; change (2 ^ 18) with 262144; lia).
  rewrite E1, E2. change (2 ^ 18) with 262144.
  replace (d0 * 262144 + d1 * 4096) with (N.shiftl (d0 * 64 + d1) 12)
    by (rewrite N.shiftl_mul_pow2; change (2 ^ 12) with 4096; lia).
  rewrite <- E2.
  rewrite (lor_shiftl_add (d0 * 64 + d1) (N.shiftl d2 6) 12)
    by (rewrite E2; change (2 ^ 12) with 4096; lia).
  rewrite E2. change (2 ^ 12) with 4096.
  replace ((d0 * 64 + d1) * 4096 + d2 * 64)
    with (N.shiftl (d0 * 4096 + d1 * 64 + d2) 6)
    by (rewrite N.shiftl_mul_pow2; change (2 ^ 6) with 64; lia).
  rewrite lor_shiftl_add by (change (2 ^ 6) with 64; lia).
  rewrite ?N.shiftl_mul_pow2.
  change (2 ^ 6) with 64. change (2 ^ 12) with 4096. lia.
Qed.

(** The four slices of a 24-bit value, put together again. *)
Lemma unpack_slices (v : N) :
  v < 16777216 ->
  base64.unpack (N.land (N.shiftr v 18) 0x3F) (N.land (N.shiftr v 12) 0x3F)
                (N.land (N.shiftr v 6) 0x3F) (N.land (N.shiftr v 0) 0x3F)
  = v.
Proof.
  intros Hv. rewrite unpack_add by apply slice_bound.
  rewrite !slice_div_mod.
  change (2 ^ 18) with 262144. change (2 ^ 12) with 4096.
  change (2 ^ 6) with 64. change (2 ^ 0) with 1. rewrite N.div_1_r.
  symmetry. now apply slices_sum.
Qed.

Lemma N_of_ascii_bound (a : ascii) : N_of_ascii a < 256.
Proof. destruct a as [[] [] [] [] [] [] [] []]; vm_compute; reflexivity. Qed.

Lemma byteAt_div_mod (val shift : N) :
  base64.byteAt val shift = ascii_of_N ((val / 2 ^ shift) mod 256).
Proof.
  unfold base64.byteAt. rewrite N.shiftr_div_pow2.
  change 0xFF with (N.ones 8). now rewrite N.land_ones.
Qed.

(** The three bytes of a packed quantum. *)
Lemma byteAt_pack (a b c : ascii) :
  let val := base64.pack (N_of_ascii a) (N_of_ascii b) (N_of_ascii c) in
  base64.byteAt val 16 = a /\ base64.byteAt val 8 = b
  /\ base64.byteAt val 0 = c.
Proof.
  pose proof (N_of_ascii_bound a) as Ha.
  pose proof (N_of_ascii_bound b) as Hb.
  pose proof (N_of_ascii_bound c) as Hc.
  cbv zeta. rewrite !byteAt_div_mod, pack_add by assumption.
  change (2 ^ 16) with 65536. change (2 ^ 8) with 256.
  change (2 ^ 0) with 1. rewrite N.div_1_r.
  set (x := N_of_ascii a) in *. set (y := N_of_ascii b) in *.
  set (z := N_of_ascii c) in *.
  assert ((x * 65536 + y * 256 + z) / 65536 = x) as E16.
  { symmetry. apply (N.div_unique _ 65536 x (y * 256 + z)); lia. }
  assert ((x * 65536 + y * 256 + z) / 256 = x * 256 + y) as E8.
  { symmetry. apply (N.div_unique _ 256 (x * 256 + y) z); lia. }
  rewrite E16, E8.
  assert ((x * 256 + y) mod 256 = y) as M8.
  { symmetry. apply (N.mod_unique _ 256 x y); lia. }
  assert ((x * 65536 + y * 256 + z) mod 256 = z) as M0.
  { symmetry. apply (N.mod_unique _ 256 (x * 256 + y) z); lia. }
  rewrite M8, M0, (N.mod_small x 256) by assumption.
  unfold x, y, z. now rewrite !ascii_N_embedding.
Qed.

Lemma pack_bound24 (a b c : ascii) :
  base64.pack (N_of_ascii a) (N_of_ascii b) (N_of_ascii c) < 16777216.
Proof.
  pose proof (N_of_ascii_bound a). pose proof (N_of_ascii_bound b).
  pose proof (N_of_ascii_bound c). rewrite pack_add by assumption. lia.
Qed.

Lemma decodeMap_sextet (val shift : N) :
  base64.decodeMap (base64.sextet val shift)
  = Some (N.land (N.shiftr val shift) 0x3F).
Proof. apply decodeMap_encode, slice_bound. Qed.

Lemma decodeMap_padding : base64.decodeMap base64.StdPadding = None.
Proof. reflexivity. Qed.

Lemma decodeQuanta_EncodeToString (s : string) :
  base64.decodeQuanta (base64.EncodeToString s) = Some s.
Proof.
  induction s as [|a|a b|a b c rest IH] using string_ind3.
  - reflexivity.
  - cbn [base64.EncodeToString base64.decodeQuanta].
    rewrite !decodeMap_sextet, decodeMap_padding.
    rewrite Ascii.eqb_refl. cbn [andb base64.isEmpty].
    pose proof (unpack_slices _ (pack_bound24 a zero zero)) as U.
    change (N_of_ascii zero) with 0 in U.
    rewrite slice6_padded, slice0_padded in U by lia.
    rewrite U.
    pose proof (byteAt_pack a zero zero) as [B _]. cbv zeta in B.
    change (N_of_ascii zero) with 0 in B. now rewrite B.
  - cbn [base64.EncodeToString base64.decodeQuanta].
    rewrite !decodeMap_sextet, decodeMap_padding.
    rewrite Ascii.eqb_refl. cbn [andb base64.isEmpty].
    pose proof (unpack_slices _ (pack_bound24 a b zero)) as U.
    change (N_of_ascii zero) with 0 in U.
    rewrite slice0_padded in U by apply N_of_ascii_bound.
    rewrite U.
    pose proof (byteAt_pack a b zero) as [B16 [B8 _]]. cbv zeta in B16, B8.
    change (N_of_ascii zero) with 0 in B16, B8. now rewrite B16, B8.
  - cbn [base64.EncodeToString base64.decodeQuanta].
    rewrite !decodeMap_sextet, IH.
    rewrite (unpack_slices _ (pack_bound24 a b c)).
    pose proof (byteAt_pack a b c) as [B16 [B8 B0]].
    cbv zeta in B16, B8, B0. now rewrite B16, B8, B0.
Qed.

Lemma stripNewlines_none (s : string) :
  strings.mem "010"%char s = false -> strings.mem "013"%char s = false ->
  base64.stripNewlines s = s.
Proof.
  induction s as [|c s IH]; cbn [strings.mem base64.stripNewlines];
    [reflexivity|].
  intros H1 H2. apply orb_false_iff in H1 as [C1 S1].
  apply orb_false_iff in H2 as [C2 S2].
  now rewrite C1, C2, IH.
Qed.

(** [DecodeString(EncodeToString(src)) = src]. *)
Lemma DecodeString_EncodeToString (s : string) :
  base64.DecodeString (base64.EncodeToString s) = Some s.
Proof.
  unfold base64.DecodeString.
  rewrite stripNewlines_none
    by (apply EncodeToString_alphabet; reflexivity).
  apply decodeQuanta_EncodeToString.
Qed.

End Base64RoundTrip.

(* ------------------------------------------------------------------------- *)
(** * The webhook verifier: the secret, the key and the signature header *)

Section VerifierFacts.

Lemma signedRequest_headers (eventID timestamp webhookSignature : string) :
  let r := spec.signedRequest eventID timestamp webhookSignature in
  http.Get (http.header r) "webhook-id" = eventID
  /\ http.Get (http.header r) "webhook-timestamp" = timestamp
  /\ http.Get (http.header r) "webhook-signature" = webhookSignature.
Proof. repeat split. Qed.

(** The key of the secret [prefix_<base64 of key>]. *)
Lemma secretKey_encoded (prefix key : string) :
  strings.mem "_"%char prefix = false ->
  spec.secretKey (prefix ++ "_" ++ base64.EncodeToString key) = Some key.
Proof.
  intros Hp. unfold spec.secretKey.
  change (prefix ++ "_" ++ base64.EncodeToString key)
    with (prefix ++ String "_" (base64.EncodeToString key)).
  rewrite (Split_first _ _ _ Hp).
  rewrite Split_absent by (apply EncodeToString_alphabet; reflexivity).
  apply DecodeString_EncodeToString.
Qed.

(** The header is searched token by token. *)
Lemma signatureFound_app (a b signature : string) :
  webhook.signatureFound (a ++ " " ++ b) signature
  = webhook.signatureFound a signature || webhook.signatureFound b signature.
Proof.
  unfold webhook.signatureFound.
  change (a ++ " " ++ b) with (a ++ String " " b).
  now rewrite Split_app, existsb_app.
Qed.

Lemma signatureFound_empty (signature : string) :
  webhook.signatureFound EmptyString signature = false.
Proof. reflexivity. Qed.

Lemma isEmpty_spec (s : string) :
  webhook.isEmpty s = true <-> s = EmptyString.
Proof. apply String.eqb_eq. Qed.

End VerifierFacts.

(** X1. The order of the checks of [verifyWebhook].  A request that lacks one of
    the three headers is refused with code MISSING_HEADERS whatever the
    secret is; with the three headers present, the request is refused with
    code INVALID_SECRET_FORMAT exactly when the secret contains no
    underscore. *)
Theorem verifyWebhook_missing_headers_then_secret_format
        (r : http.Request) (body secret : string) :
  let eventID := http.Get (http.header r) "webhook-id" in
  let timestamp := http.Get (http.header r) "webhook-timestamp" in
  let webhookSignature := http.Get (http.header r) "webhook-signature" in
  (eventID = EmptyString \/ timestamp = EmptyString
   \/ webhookSignature = EmptyString ->
   webhook.verifyWebhook r body secret
   = Some (WebhookVerificationError "MISSING_HEADERS"
             "Missing required webhook header" webhook.ErrMissingHeaders))
  /\ (eventID <> EmptyString -> timestamp <> EmptyString ->
      webhookSignature <> EmptyString ->
      (webhook.verifyWebhook r body secret
       = Some (WebhookVerificationError "INVALID_SECRET_FORMAT"
                 "Invalid LOOPS_SIGNING_SECRET format" webhook.ErrMissingSecret)
       <-> strings.mem "_"%char secret = false)).
Proof.
  cbv zeta. split.
  - intros H. unfold webhook.verifyWebhook.
    assert (webhook.isEmpty (http.Get (http.header r) "webhook-id")
            || webhook.isEmpty (http.Get (http.header r) "webhook-timestamp")
            || webhook.isEmpty (http.Get (http.header r) "webhook-signature")
            = true) as E.
    { destruct H as [H | [H | H]]; apply isEmpty_spec in H; rewrite H;
        rewrite ?orb_true_r; reflexivity. }
    now rewrite E.
  - intros Hid Hts Hsig. unfold webhook.verifyWebhook.
    rewrite (isEmpty_false _ Hid), (isEmpty_false _ Hts),
      (isEmpty_false _ Hsig). cbn [orb].
    destruct (strings.mem "_"%char secret) eqn:Hmem.
    + destruct (Split_present _ _ Hmem) as [a [b [rest E]]]. rewrite E.
      split; [|discriminate].
      destruct (base64.DecodeString b); [|discriminate].
      destruct (webhook.signatureFound _ _); discriminate.
    + rewrite (Split_absent _ _ Hmem). split; reflexivity.
Qed.

Lemma verifyWebhook_missing_headers_then_secret_format_witness :
  webhook.verifyWebhook (spec.signedRequest "evt_1" "" "v1,AAAA") "{}"
                        "not a secret"
  = Some (WebhookVerificationError "MISSING_HEADERS"
            "Missing required webhook header" webhook.ErrMissingHeaders)
  /\ (webhook.verifyWebhook (spec.signedRequest "evt_1" "1700000000" "v1,AAAA")
                            "{}" "whsec"
      = Some (WebhookVerificationError "INVALID_SECRET_FORMAT"
                "Invalid LOOPS_SIGNING_SECRET format" webhook.ErrMissingSecret)
      <-> strings.mem "_"%char "whsec" = false).
Proof.
  split.
  - apply (verifyWebhook_missing_headers_then_secret_format
             (spec.signedRequest "evt_1" "" "v1,AAAA") "{}" "not a secret").
    right. left. reflexivity.
  - apply (verifyWebhook_missing_headers_then_secret_format
             (spec.signedRequest "evt_1" "1700000000" "v1,AAAA") "{}" "whsec");
      discriminate.
Defined.

(** X2. Only the text between the first and the second underscore of the secret
    is read: the prefix is not checked, and what follows a second underscore
    is ignored. *)
Theorem verifyWebhook_reads_second_part_of_secret_only
        (r : http.Request) (body prefix prefix' part rest : string) :
  strings.mem "_"%char prefix = false ->
  strings.mem "_"%char prefix' = false ->
  strings.mem "_"%char part = false ->
  webhook.verifyWebhook r body (prefix ++ "_" ++ part ++ "_" ++ rest)
  = webhook.verifyWebhook r body (prefix' ++ "_" ++ part).
Proof.
  intros Hp Hp' Hk. unfold webhook.verifyWebhook.
  change (prefix ++ "_" ++ part ++ "_" ++ rest)
    with (prefix ++ String "_" (part ++ String "_" rest)).
  change (prefix' ++ "_" ++ part) with (prefix' ++ String "_" part).
  rewrite (Split_first _ _ _ Hp), (Split_first _ _ _ Hk),
    (Split_first _ _ _ Hp'), (Split_absent _ _ Hk).
  reflexivity.
Qed.

Lemma verifyWebhook_reads_second_part_of_secret_only_witness :
  webhook.verifyWebhook
    (spec.signedRequest "evt_1" "1700000000" ("v1," ++ example.signature))
    "{}" "whsec_c2VjcmV0LWtleQ==_2024"
  = webhook.verifyWebhook
      (spec.signedRequest "evt_1" "1700000000" ("v1," ++ example.signature))
      "{}" "anything_c2VjcmV0LWtleQ==".
Proof.
  exact (verifyWebhook_reads_second_part_of_secret_only
           (spec.signedRequest "evt_1" "1700000000"
                               ("v1," ++ example.signature))
           "{}" "whsec" "anything" "c2VjcmV0LWtleQ==" "2024"
           eq_refl eq_refl eq_refl).
Defined.

(** X3. Signing with the raw key and verifying with the encoded secret agree.
    For every key, the empty one included, and every prefix without an
    underscore: the delivery whose signature header is [v1,] followed by the
    base64 of the HMAC-SHA256, under the key, of [eventID.timestamp.body] is
    accepted under the secret [prefix_<base64 of the key>]. *)
Theorem verifyWebhook_accepts_delivery_signed_with_decoded_key
        (prefix key eventID timestamp body : string) :
  strings.mem "_"%char prefix = false ->
  eventID <> EmptyString ->
  timestamp <> EmptyString ->
  webhook.verifyWebhook
    (spec.signedRequest eventID timestamp
       ("v1," ++ webhook.computeSignature key
                   (webhook.signedContent eventID timestamp body)))
    body (prefix ++ "_" ++ base64.EncodeToString key)
  = None.
Proof.
  intros Hp Hid Hts.
  rewrite (verifyWebhook_decoded _ body _ key);
    try (exact Hid || exact Hts || discriminate).
  - cbn [http.header spec.signedRequest http.Get String.eqb Ascii.eqb
         Bool.eqb].
    now rewrite fresh_header_found by apply computeSignature_no_space.
  - now apply secretKey_encoded.
Qed.

Lemma verifyWebhook_accepts_delivery_signed_with_decoded_key_witness :
  webhook.verifyWebhook
    (spec.signedRequest "evt_1" "1700000000"
       ("v1," ++ webhook.computeSignature "secret-key"
                   (webhook.signedContent "evt_1" "1700000000" "{}")))
    "{}" ("whsec" ++ "_" ++ base64.EncodeToString "secret-key")
  = None.
Proof.
  apply (verifyWebhook_accepts_delivery_signed_with_decoded_key
           "whsec" "secret-key" "evt_1" "1700000000" "{}").
  - reflexivity.
  - discriminate.
  - discriminate.
Defined.

(** X4. A signature header made of two parts separated by a space is accepted
    exactly when one of the parts is accepted on its own: further signatures
    in the header never invalidate a valid one. *)
Theorem verifyWebhook_accepts_header_iff_one_part_accepted
        (eventID timestamp a b body secret : string) :
  webhook.verifyWebhook
    (spec.signedRequest eventID timestamp (a ++ " " ++ b)) body secret = None
  <-> webhook.verifyWebhook (spec.signedRequest eventID timestamp a)
                            body secret = None
      \/ webhook.verifyWebhook (spec.signedRequest eventID timestamp b)
                               body secret = None.
Proof.
  unfold webhook.verifyWebhook.
  cbn [http.header spec.signedRequest http.Get String.eqb Ascii.eqb Bool.eqb].
  destruct (webhook.isEmpty eventID); cbn [orb];
    [split; [discriminate | intros [H | H]; discriminate H]|].
  destruct (webhook.isEmpty timestamp); cbn [orb];
    [split; [discriminate | intros [H | H]; discriminate H]|].
  assert (webhook.isEmpty (a ++ " " ++ b) = false) as E
      by (destruct a; reflexivity).
  rewrite E.
  assert (forall (x y : option error),
             x <> None -> y <> None ->
             (x = None <->
              (if webhook.isEmpty a then y else x) = None
              \/ (if webhook.isEmpty b then y else x) = None)) as Hfail.
  { intros x y Hx Hy. split; [intros H; now elim Hx|].
    intros [H | H]; [destruct (webhook.isEmpty a) | destruct (webhook.isEmpty b)];
      contradiction. }
  destruct (strings.Split secret "_") as [|p0 [|part1 rest]];
    [apply Hfail; discriminate | apply Hfail; discriminate |].
  destruct (base64.DecodeString part1) as [secretBytes|];
    [|apply Hfail; discriminate].
  rewrite signatureFound_app. clear Hfail E.
  destruct (webhook.isEmpty a) eqn:Ea;
    [apply isEmpty_spec in Ea; subst a; rewrite signatureFound_empty|];
    (destruct (webhook.isEmpty b) eqn:Eb;
     [apply isEmpty_spec in Eb; subst b; rewrite signatureFound_empty|]);
    cbn [orb];
    repeat match goal with
      | |- context [webhook.signatureFound ?h ?s] =>
          destruct (webhook.signatureFound h s); cbn [orb]
      end;
    split; intros H; try discriminate H; try reflexivity; auto;
    destruct H as [H | H]; discriminate H.
Qed.

(* ------------------------------------------------------------------------- *)
(** * The index key of a tombstone *)

Section IndexKey.
Import v1alpha1 webhook.

(** Two texts cut at a separator that neither head contains are equal
    part by part. *)
Lemma append_sep_inj (sep : ascii) (a a' r r' : string) :
  strings.mem sep a = false -> strings.mem sep a' = false ->
  a ++ String sep r = a' ++ String sep r' -> a = a' /\ r = r'.
Proof.
  revert a'. induction a as [|c a IH]; intros [|c' a'];
    cbn [append strings.mem]; intros Ha Ha' E.
  - now inversion E.
  - inversion E; subst c'. now rewrite Ascii.eqb_refl in Ha'.
  - inversion E; subst c. now rewrite Ascii.eqb_refl in Ha.
  - apply orb_false_iff in Ha as [_ Ha]. apply orb_false_iff in Ha' as [_ Ha'].
    inversion E; subst c'. destruct (IH a' Ha Ha' H1) as [-> ->]. now split.
Qed.

End IndexKey.

(** X5. The index key of a tombstone determines the contact and the group as
    long as the contact's name, the contact's namespace and the group's name
    contain no dash. *)
Theorem buildGroupMembershipRemovalIndexKey_injective_without_dashes
        (contactRef contactRef' : v1alpha1.ContactReference)
        (groupRef groupRef' : v1alpha1.ContactGroupReference) :
  strings.mem "-"%char (v1alpha1.crName contactRef) = false ->
  strings.mem "-"%char (v1alpha1.crNamespace contactRef) = false ->
  strings.mem "-"%char (v1alpha1.grName groupRef) = false ->
  strings.mem "-"%char (v1alpha1.crName contactRef') = false ->
  strings.mem "-"%char (v1alpha1.crNamespace contactRef') = false ->
  strings.mem "-"%char (v1alpha1.grName groupRef') = false ->
  webhook.buildGroupMembershipRemovalIndexKey contactRef groupRef
  = webhook.buildGroupMembershipRemovalIndexKey contactRef' groupRef' ->
  contactRef = contactRef' /\ groupRef = groupRef'.
Proof.
  destruct contactRef as [n ns], contactRef' as [n' ns'],
    groupRef as [g gns], groupRef' as [g' gns'].
  unfold webhook.buildGroupMembershipRemovalIndexKey.
  cbn [v1alpha1.crName v1alpha1.crNamespace v1alpha1.grName
       v1alpha1.grNamespace].
  intros H1 H2 H3 H1' H2' H3' E.
  change (n ++ String "-" (ns ++ String "-" (g ++ String "-" gns))
          = n' ++ String "-" (ns' ++ String "-" (g' ++ String "-" gns')))
    in E.
  apply append_sep_inj in E as [-> E]; try assumption.
  apply append_sep_inj in E as [-> E]; try assumption.
  apply append_sep_inj in E as [-> ->]; try assumption.
  now split.
Qed.

Lemma buildGroupMembershipRemovalIndexKey_injective_without_dashes_witness :
  webhook.buildGroupMembershipRemovalIndexKey
    (v1alpha1.mkContactRef "alice" "default")
    (v1alpha1.mkGroupRef "news" "team-a")
  = webhook.buildGroupMembershipRemovalIndexKey
      (v1alpha1.mkContactRef "alice" "default")
      (v1alpha1.mkGroupRef "news" "team-a")
  /\ v1alpha1.mkContactRef "alice" "default"
     = v1alpha1.mkContactRef "alice" "default"
  /\ v1alpha1.mkGroupRef "news" "team-a" = v1alpha1.mkGroupRef "news" "team-a".
Proof.
  split; [reflexivity|].
  exact (buildGroupMembershipRemovalIndexKey_injective_without_dashes
           (v1alpha1.mkContactRef "alice" "default")
           (v1alpha1.mkContactRef "alice" "default")
           (v1alpha1.mkGroupRef "news" "team-a")
           (v1alpha1.mkGroupRef "news" "team-a")
           eq_refl eq_refl eq_refl eq_refl eq_refl eq_refl eq_refl).
Defined.

(* ------------------------------------------------------------------------- *)
(** * The lookups of the webhook handler *)

Section Lookups.
Import metav1 v1alpha1 client webhook spec.
Variable env : Env.

Lemma firstItem_filter_find {T} (f : T -> bool) (l : list T) :
  firstItem (filter f l) = find f l.
Proof.
  induction l as [|x l IH]; [reflexivity|].
  cbn [filter find]. destruct (f x); [reflexivity | exact IH].
Qed.

Lemma find_ext_in {T} (f g : T -> bool) (l : list T) :
  (forall x, In x l -> f x = g x) -> find f l = find g l.
Proof.
  induction l as [|x l IH]; intros E; [reflexivity|].
  cbn [find]. rewrite (E x) by now left.
  destruct (g x); [reflexivity|]. apply IH. intros y Hy. apply E. now right.
Qed.

(** What a lookup through a field index returns. *)
Lemma List_first {T} `{Object T} (index : T -> list string) value w :
  List env index value w
  = (match storeFault env (tick w) with
     | Some e => ([], Some e)
     | None =>
         (filter (fun o => existsb (String.eqb value) (index o))
                 (items (cluster w)), None)
     end,
     logged (StoreCall VList Kind) w).
Proof.
  unfold List, request, logged.
  now destruct (storeFault env (tick w)).
Qed.

Lemma indexContact_matches (providerID : string) (contact : Contact) :
  existsb (String.eqb providerID) (indexContact contact) = true
  <-> UID (cMeta contact) = providerID /\ providerID <> EmptyString.
Proof.
  unfold indexContact.
  destruct (String.eqb_spec (UID (cMeta contact)) EmptyString) as [E | N];
    cbn [existsb].
  - split; [discriminate|]. intros [<- Hne]. now elim Hne.
  - rewrite orb_false_r, String.eqb_eq. split.
    + intros ->. now split.
    + now intros [-> _].
Qed.

Lemma indexContactGroup_matches (providerID : string) (group : ContactGroup) :
  existsb (String.eqb providerID) (indexContactGroup group) = true
  <-> controller.getMailingListId group = (providerID, None).
Proof.
  unfold indexContactGroup, controller.getMailingListId.
  destruct (find _ (gProviders (gSpec group))) as [provider|];
    cbn [existsb].
  - rewrite orb_false_r, String.eqb_eq. split.
    + now intros ->.
    + now intros [= ->].
  - split; discriminate.
Qed.

End Lookups.

(** X6. The webhook resolves the user id of an event to a stored Contact with
    that UID: a contact it returns is stored, its UID is the id asked for,
    that id is not empty and no error comes with it; and when the store
    does not refuse the listing, it returns the first stored contact whose
    UID is the (non-empty) id, or none if there is none. *)
Theorem getContactByProviderID_returns_first_contact_with_uid
        (env : client.Env) (providerID : string) (w : client.World) :
  (forall contact err w',
      webhook.getContactByProviderID env providerID w
      = (Some contact, err, w') ->
      err = None
      /\ In contact (client.Contacts (client.cluster w))
      /\ metav1.UID (v1alpha1.cMeta contact) = providerID
      /\ providerID <> EmptyString)
  /\ (client.storeFault env (client.tick w) = None ->
      providerID <> EmptyString ->
      fst (webhook.getContactByProviderID env providerID w)
      = (find (fun c => String.eqb (metav1.UID (v1alpha1.cMeta c)) providerID)
              (client.Contacts (client.cluster w)),
         None)).
Proof.
  unfold webhook.getContactByProviderID, client.bind.
  rewrite List_first. cbn [client.items client.ContactObject].
  split.
  - intros contact err w'.
    destruct (client.storeFault env (client.tick w)); [discriminate|].
    cbn [client.ret]. intros [= Hfirst <- _].
    apply firstItem_In, filter_In in Hfirst as [Hin Hm].
    apply indexContact_matches in Hm as [Huid Hne]. auto.
  - intros -> Hne. cbn [client.ret fst]. f_equal.
    rewrite firstItem_filter_find. apply find_ext_in. intros c _.
    apply eq_true_iff_eq. rewrite indexContact_matches, String.eqb_eq.
    split; [now intros [-> _] | now intros ->].
Qed.

Lemma getContactByProviderID_returns_first_contact_with_uid_witness :
  webhook.getContactByProviderID example.calm "u1" example.fresh
  = (Some example.alice, None,
     spec.logged (client.StoreCall client.VList "Contact") example.fresh)
  /\ In example.alice (client.Contacts (client.cluster example.fresh))
  /\ metav1.UID (v1alpha1.cMeta example.alice) = "u1"
  /\ fst (webhook.getContactByProviderID example.calm "u1" example.fresh)
     = (Some example.alice, None).
Proof.
  destruct (getContactByProviderID_returns_first_contact_with_uid
              example.calm "u1" example.fresh) as [Hsound Hfirst].
  destruct (Hsound example.alice None
              (spec.logged (client.StoreCall client.VList "Contact")
                           example.fresh) eq_refl)
    as [_ [Hin [Huid _]]].
  split; [reflexivity|]. split; [exact Hin|]. split; [exact Huid|].
  apply Hfirst; [reflexivity | discriminate].
Defined.

(** X7. The webhook and the membership reconciler read the mailing-list id of a
    group the same way.  A group the webhook resolves for a list id is
    stored and [getMailingListId] gives that id for it; and when the store
    does not refuse the listing, a stored group for which [getMailingListId]
    gives the id makes the lookup return a group. *)
Theorem getContactGroupByProviderID_agrees_with_getMailingListId
        (env : client.Env) (providerID : string) (w : client.World) :
  (forall group err w',
      webhook.getContactGroupByProviderID env providerID w
      = (Some group, err, w') ->
      err = None
      /\ In group (client.ContactGroups (client.cluster w))
      /\ controller.getMailingListId group = (providerID, None))
  /\ (client.storeFault env (client.tick w) = None ->
      forall group,
        In group (client.ContactGroups (client.cluster w)) ->
        controller.getMailingListId group = (providerID, None) ->
        exists found,
          fst (webhook.getContactGroupByProviderID env providerID w)
          = (Some found, None)).
Proof.
  unfold webhook.getContactGroupByProviderID, client.bind.
  rewrite List_first. cbn [client.items client.ContactGroupObject].
  split.
  - intros group err w'.
    destruct (client.storeFault env (client.tick w)); [discriminate|].
    cbn [client.ret]. intros [= Hfirst <- _].
    apply firstItem_In, filter_In in Hfirst as [Hin Hm].
    apply indexContactGroup_matches in Hm. auto.
  - intros -> group Hin Hid. cbn [client.ret fst].
    destruct (firstItem_filter
                (fun o => existsb (String.eqb providerID)
                                  (webhook.indexContactGroup o))
                _ group Hin) as [found Hfound].
    + now apply indexContactGroup_matches.
    + exists found. now rewrite Hfound.
Qed.

Lemma getContactGroupByProviderID_agrees_with_getMailingListId_witness :
  webhook.getContactGroupByProviderID example.calm "g1" example.fresh
  = (Some example.news, None,
     spec.logged (client.StoreCall client.VList "ContactGroup") example.fresh)
  /\ controller.getMailingListId example.news = ("g1", None)
  /\ exists found,
       fst (webhook.getContactGroupByProviderID example.calm "g1"
                                                example.fresh)
       = (Some found, None).
Proof.
  destruct (getContactGroupByProviderID_agrees_with_getMailingListId
              example.calm "g1" example.fresh) as [Hsound Hfound].
  destruct (Hsound example.news None
              (spec.logged (client.StoreCall client.VList "ContactGroup")
                           example.fresh) eq_refl)
    as [_ [_ Hid]].
  split; [reflexivity|]. split; [exact Hid|].
  apply (Hfound eq_refl example.news); [now left | reflexivity].
Defined.

(* ------------------------------------------------------------------------- *)
(** * What the webhook handler does to the cluster *)

(** Decomposes [preserves f m] along [m], closing the requests with [lem]. *)
Ltac preserve_with lem :=
  repeat (first
    [ apply preserves_ret
    | apply preserves_Now
    | apply lem
    | apply preserves_bind; [|intros ?]
    | match goal with
      | |- spec.preserves _ (match ?x with _ => _ end) => destruct x
      | |- spec.preserves _ (if ?x then _ else _) => destruct x
      | |- spec.preserves _ (let (_, _) := ?x in _) => destruct x
      end ]).

Section HandlerEffects.
Import metav1 v1alpha1 client webhook spec.
Variable env : Env.

(** A deletion that fails leaves the cluster as it was. *)
Lemma Delete_failed {T} `{Object T} (obj : T) w e w' :
  Delete env obj w = (Some e, w') -> cluster w' = cluster w.
Proof.
  unfold Delete. intros H0.
  apply request_inv in H0 as [_ [[e' [_ [_ C]]] | [_ S]]]; [assumption|].
  destruct (existsb _ _); inversion S; reflexivity.
Qed.

Lemma Handle_remote (req : Request) :
  preserves remoteCalls (Handle env req).
Proof.
  unfold Handle, handleSubscribed, handleUnsubscribed,
    getContactByProviderID, getContactGroupByProviderID,
    getContactGroupMembershipRemoval, deleteContactGroupMembershipRemoval,
    createContactGroupMembership, createContactGroupMembershipRemoval,
    List, Create, Delete.
  cbv zeta. preserve_with (@request_remote env).
Qed.

(** The unsubscribed branch: memberships stay, at most one tombstone is
    added. *)
Lemma handleUnsubscribed_effects contact group w :
  let cl' := cluster (snd (handleUnsubscribed env contact group w)) in
  Contacts cl' = Contacts (cluster w)
  /\ ContactGroups cl' = ContactGroups (cluster w)
  /\ Memberships cl' = Memberships (cluster w)
  /\ exists added,
       Removals cl' = (Removals (cluster w) ++ added)%list
       /\ List.length added <= 1.
Proof.
  cbv zeta. unfold handleUnsubscribed, bind.
  destruct (getContactGroupMembershipRemoval env contact group w)
    as [[removal err] w1] eqn:G.
  apply getContactGroupMembershipRemoval_inv in G as [C1 _].
  assert (Contacts (cluster w1) = Contacts (cluster w)
          /\ ContactGroups (cluster w1) = ContactGroups (cluster w)
          /\ Memberships (cluster w1) = Memberships (cluster w)
          /\ exists added,
               Removals (cluster w1) = (Removals (cluster w) ++ added)%list
               /\ List.length added <= 1) as Same.
  { rewrite C1. repeat split. exists []. rewrite app_nil_r. split; [reflexivity | cbn; lia]. }
  destruct (failedOtherThan apierrors.IsNotFound err); [exact Same|].
  destruct removal; [exact Same|].
  destruct (createContactGroupMembershipRemoval env contact group w1)
    as [[e|] w2] eqn:Cr; cbn [ret snd].
  - unfold createContactGroupMembershipRemoval in Cr.
    apply Create_failed in Cr. now rewrite Cr.
  - pose proof Cr as Cr'.
    apply createContactGroupMembershipRemoval_appends in Cr
      as [r [R [_ [_ M]]]].
    unfold createContactGroupMembershipRemoval in Cr'.
    apply Create_succeeded in Cr' as [name [_ Cl]].
    rewrite M, R, C1. rewrite Cl, C1.
    cbn [setItems items RemovalObject Contacts ContactGroups].
    repeat split. exists [r]. split; [reflexivity | cbn; lia].
Qed.

(** The subscribed branch: tombstones are only taken away, at most one
    membership is added. *)
Lemma handleSubscribed_effects contact group w :
  let cl' := cluster (snd (handleSubscribed env contact group w)) in
  Contacts cl' = Contacts (cluster w)
  /\ ContactGroups cl' = ContactGroups (cluster w)
  /\ (exists keep, Removals cl' = filter keep (Removals (cluster w)))
  /\ exists added,
       Memberships cl' = (Memberships (cluster w) ++ added)%list
       /\ List.length added <= 1.
Proof.
  cbv zeta. unfold handleSubscribed, bind.
  destruct (getContactGroupMembershipRemoval env contact group w)
    as [[removal err] w1] eqn:G.
  apply getContactGroupMembershipRemoval_inv in G as [C1 _].
  assert (forall w0, cluster w0 = cluster w ->
            Contacts (cluster w0) = Contacts (cluster w)
            /\ ContactGroups (cluster w0) = ContactGroups (cluster w)
            /\ (exists keep,
                   Removals (cluster w0) = filter keep (Removals (cluster w)))
            /\ exists added,
                 Memberships (cluster w0)
                 = (Memberships (cluster w) ++ added)%list
                 /\ List.length added <= 1) as Same.
  { intros w0 ->. repeat split.
    - exists (fun _ => true).
      induction (Removals (cluster w)) as [|x l IH]; [reflexivity|].
      cbn [filter]. now rewrite <- IH.
    - exists []. rewrite app_nil_r. split; [reflexivity | cbn; lia]. }
  destruct (failedOtherThan apierrors.IsNotFound err);
    [now apply Same|].
  assert (exists w2 derr,
             match removal with
             | Some removal => deleteContactGroupMembershipRemoval env removal
             | None => ret None
             end w1 = (derr, w2)
             /\ Contacts (cluster w2) = Contacts (cluster w)
             /\ ContactGroups (cluster w2) = ContactGroups (cluster w)
             /\ Memberships (cluster w2) = Memberships (cluster w)
             /\ exists keep,
                  Removals (cluster w2) = filter keep (Removals (cluster w)))
    as [w2 [derr [D [K1 [K2 [K3 [keep K4]]]]]]].
  { destruct (Same w1 C1) as [S1 [S2 [S3 _]]].
    destruct removal as [removal|].
    - destruct (deleteContactGroupMembershipRemoval env removal w1)
        as [[e|] w2] eqn:D; exists w2; eexists; (split; [reflexivity|]).
      + apply Delete_failed in D. rewrite D, C1. repeat split.
        destruct S3 as [keep S3]. exists keep. now rewrite C1 in S3.
      + apply Delete_succeeded in D. rewrite D, C1.
        cbn [setItems items RemovalObject Contacts ContactGroups Memberships
             Removals].
        repeat split. eexists. reflexivity.
    - exists w1. eexists. split; [reflexivity|]. rewrite C1.
      repeat split. destruct S3 as [keep S3]. exists keep.
      now rewrite C1 in S3. }
  rewrite D.
  assert (Contacts (cluster w2) = Contacts (cluster w)
          /\ ContactGroups (cluster w2) = ContactGroups (cluster w)
          /\ (exists keep,
                 Removals (cluster w2) = filter keep (Removals (cluster w)))
          /\ exists added,
               Memberships (cluster w2)
               = (Memberships (cluster w) ++ added)%list
               /\ List.length added <= 1) as Same2.
  { repeat split; try assumption; [now exists keep|].
    exists []. rewrite app_nil_r. split; [exact K3 | cbn; lia]. }
  destruct derr; [exact Same2|].
  destruct (createContactGroupMembership env contact group w2)
    as [[e|] w3] eqn:Cr.
  - unfold createContactGroupMembership in Cr. apply Create_failed in Cr.
    destruct (failedOtherThan _ _); cbn [ret snd]; now rewrite Cr.
  - unfold createContactGroupMembership in Cr.
    apply Create_succeeded in Cr as [name [_ Cl]].
    cbn [failedOtherThan ret snd]. rewrite Cl.
    cbn [setItems items MembershipObject Contacts ContactGroups Memberships
         Removals].
    repeat split; try assumption; [now exists keep|].
    eexists. rewrite K3. split; [reflexivity | cbn; lia].
Qed.

(** [Handle] resolves the contact and the group without writing, and
    then either answers at once or runs one of the two branches. *)
Lemma Handle_cases (req : Request) (w : World) :
  cluster (snd (Handle env req w)) = cluster w
  \/ exists contact group wb,
       cluster wb = cluster w
       /\ ((MailingListSubscribedEvent req <> None
            /\ Handle env req w = handleSubscribed env contact group wb)
           \/ (MailingListSubscribedEvent req = None
               /\ Handle env req w = handleUnsubscribed env contact group wb)).
Proof.
  unfold Handle, bind. cbv zeta.
  destruct (String.eqb _ EmptyString); [now left|].
  destruct (getContactByProviderID env _ w) as [[contact err] wa] eqn:Hc.
  apply getContactByProviderID_inv in Hc.
  destruct err; [now left|]. destruct contact as [contact|]; [|now left].
  destruct (String.eqb (requestGroupID req) EmptyString); [now left|].
  destruct (getContactGroupByProviderID env _ wa) as [[group err] wb] eqn:Hg.
  apply getContactGroupByProviderID_inv in Hg.
  assert (cluster wb = cluster w) as C by now rewrite Hg.
  destruct err; [now left|]. destruct group as [group|]; [|now left].
  destruct (MailingListSubscribedEvent req) eqn:Es.
  - right. exists contact, group, wb. split; [exact C|]. left.
    split; [discriminate | reflexivity].
  - destruct (MailingListUnsubscribedEvent req); [|now left].
    right. exists contact, group, wb. split; [exact C|]. right.
    split; reflexivity.
Qed.

End HandlerEffects.

(** X8. The webhook handler never calls the provider and never writes a Contact
    or a ContactGroup, whatever the request and whatever the store
    answers. *)
Theorem Handle_calls_no_provider_and_keeps_contacts_and_groups
        (env : client.Env) (req : webhook.Request) (w : client.World) :
  let w' := snd (webhook.Handle env req w) in
  spec.remoteCalls w' = spec.remoteCalls w
  /\ client.Contacts (client.cluster w') = client.Contacts (client.cluster w)
  /\ client.ContactGroups (client.cluster w')
     = client.ContactGroups (client.cluster w).
Proof.
  cbv zeta. split; [apply Handle_remote|].
  destruct (Handle_cases env req w)
    as [C | [contact [group [wb [C [[_ E] | [_ E]]]]]]].
  - now rewrite C.
  - rewrite E.
    destruct (handleSubscribed_effects env contact group wb) as [A [B _]].
    cbv zeta in A, B. now rewrite A, B, C.
  - rewrite E.
    destruct (handleUnsubscribed_effects env contact group wb) as [A [B _]].
    cbv zeta in A, B. now rewrite A, B, C.
Qed.

(** X9. The direction of the writes of the handler.  A request that carries a
    subscribed event never creates a tombstone (tombstones are only taken
    away) and adds at most one membership; any other request never touches a
    membership, so an unsubscribed event leaves the memberships of the pair
    in the store, and adds at most one tombstone. *)
Theorem Handle_subscribed_adds_no_tombstone_unsubscribed_keeps_memberships
        (env : client.Env) (req : webhook.Request) (w : client.World) :
  let cl := client.cluster w in
  let cl' := client.cluster (snd (webhook.Handle env req w)) in
  match webhook.MailingListSubscribedEvent req with
  | Some _ =>
      (exists keep, client.Removals cl' = filter keep (client.Removals cl))
      /\ exists added,
           client.Memberships cl' = (client.Memberships cl ++ added)%list
           /\ List.length added <= 1
  | None =>
      client.Memberships cl' = client.Memberships cl
      /\ exists added,
           client.Removals cl' = (client.Removals cl ++ added)%list
           /\ List.length added <= 1
  end.
Proof.
  cbv zeta.
  assert (forall {T} (l : list T), l = filter (fun _ => true) l) as Hall.
  { intros T l. induction l as [|x l IH]; [reflexivity|].
    cbn [filter]. now rewrite <- IH. }
  assert (forall {T} (l : list T),
             exists added, l = (l ++ added)%list /\ List.length added <= 1)
    as Hnone.
  { intros T l. exists []. rewrite app_nil_r. split; [reflexivity | cbn; lia]. }
  destruct (Handle_cases env req w)
    as [C | [contact [group [wb [C [[Hs E] | [Hs E]]]]]]].
  - rewrite C. destruct (webhook.MailingListSubscribedEvent req).
    + split; [eexists; apply Hall | apply Hnone].
    + split; [reflexivity | apply Hnone].
  - rewrite E.
    destruct (handleSubscribed_effects env contact group wb)
      as [_ [_ [R M]]].
    cbv zeta in R, M. rewrite C in R, M.
    destruct (webhook.MailingListSubscribedEvent req); [|now elim Hs].
    now split.
  - rewrite E, Hs.
    destruct (handleUnsubscribed_effects env contact group wb)
      as [_ [_ [M R]]].
    cbv zeta in R, M. rewrite C in R, M. now split.
Qed.

Section Unresolved.
Import metav1 v1alpha1 client webhook spec.
Variable env : Env.

Lemma getContactByProviderID_eq providerID w :
  getContactByProviderID env providerID w
  = (match storeFault env (tick w) with
     | Some e => (None, Some e)
     | None =>
         (firstItem
            (filter (fun o => existsb (String.eqb providerID)
                                      (indexContact o))
                    (Contacts (cluster w))), None)
     end,
     logged (StoreCall VList "Contact") w).
Proof.
  unfold getContactByProviderID, bind. rewrite List_first.
  now destruct (storeFault env (tick w)).
Qed.

Lemma getContactGroupByProviderID_eq providerID w :
  getContactGroupByProviderID env providerID w
  = (match storeFault env (tick w) with
     | Some e => (None, Some e)
     | None =>
         (firstItem
            (filter (fun o => existsb (String.eqb providerID)
                                      (indexContactGroup o))
                    (ContactGroups (cluster w))), None)
     end,
     logged (StoreCall VList "ContactGroup") w).
Proof.
  unfold getContactGroupByProviderID, bind. rewrite List_first.
  now destruct (storeFault env (tick w)).
Qed.

Lemma filter_nothing {T} (f : T -> bool) (l : list T) :
  (forall x, In x l -> f x = false) -> filter f l = [].
Proof.
  induction l as [|x l IH]; intros H; [reflexivity|].
  cbn [filter]. rewrite (H x) by now left.
  apply IH. intros y Hy. apply H. now right.
Qed.

End Unresolved.

(** X10. An event the handler cannot resolve changes nothing.  When the user id
    of the event is empty the handler answers [BadRequestResponse] without a
    single request to the store; when no stored contact has the user id as
    its UID, when the event carries no mailing-list id, or when no stored
    group has that id as its Loops mailing-list id, the cluster is left as it
    was, and the answer is [BadRequestResponse] unless the store refuses one
    of the two listings. *)
Theorem Handle_leaves_cluster_alone_when_event_is_unresolved
        (env : client.Env) (req : webhook.Request) (w : client.World) :
  let userUID :=
    loops.UserID (loops.contactIdentity (webhook.BaseEvent req)) in
  let groupID := webhook.requestGroupID req in
  let run := webhook.Handle env req w in
  (userUID = EmptyString -> run = (webhook.BadRequestResponse, w))
  /\ ((forall contact, In contact (client.Contacts (client.cluster w)) ->
                       metav1.UID (v1alpha1.cMeta contact) <> userUID)
      \/ groupID = EmptyString
      \/ (forall group, In group (client.ContactGroups (client.cluster w)) ->
                        controller.getMailingListId group <> (groupID, None)) ->
      client.cluster (snd run) = client.cluster w
      /\ (client.storeFault env (client.tick w) = None ->
          client.storeFault env (S (client.tick w)) = None ->
          fst run = webhook.BadRequestResponse)).
Proof.
  cbv zeta. unfold webhook.Handle, client.bind.
  split.
  - intros ->. reflexivity.
  - intros H.
    destruct (String.eqb _ EmptyString); [split; reflexivity|].
    rewrite getContactByProviderID_eq.
    destruct (client.storeFault env (client.tick w)) as [e|] eqn:F0;
      [split; [reflexivity | discriminate]|].
    destruct (webhook.firstItem _) as [contact|] eqn:Hc;
      [|split; reflexivity].
    destruct (String.eqb_spec (webhook.requestGroupID req) EmptyString)
      as [Eg | Ng]; [split; reflexivity|].
    rewrite getContactGroupByProviderID_eq.
    change (client.tick (spec.logged _ w)) with (S (client.tick w)).
    cbn [client.cluster spec.logged].
    destruct (client.storeFault env (S (client.tick w))) as [e|] eqn:F1;
      [split; [reflexivity | discriminate]|].
    destruct H as [H | [H | H]].
    + exfalso. apply firstItem_In, filter_In in Hc as [Hin Hm].
      apply indexContact_matches in Hm as [Huid _].
      exact (H contact Hin Huid).
    + now elim Ng.
    + rewrite filter_nothing; [split; reflexivity|].
      intros group Hin. apply not_true_is_false. intros Hm.
      apply indexContactGroup_matches in Hm. exact (H group Hin Hm).
Qed.

Lemma Handle_leaves_cluster_alone_when_event_is_unresolved_witness :
  webhook.Handle example.calm (spec.subscribedRequest "" "g1") example.fresh
  = (webhook.BadRequestResponse, example.fresh)
  /\ client.cluster
       (snd (webhook.Handle example.calm (spec.subscribedRequest "u9" "g1")
                            example.fresh))
     = client.cluster example.fresh
  /\ fst (webhook.Handle example.calm (spec.subscribedRequest "u9" "g1")
                         example.fresh)
     = webhook.BadRequestResponse.
Proof.
  split.
  - apply (Handle_leaves_cluster_alone_when_event_is_unresolved
             example.calm (spec.subscribedRequest "" "g1") example.fresh).
    reflexivity.
  - destruct (Handle_leaves_cluster_alone_when_event_is_unresolved
                example.calm (spec.subscribedRequest "u9" "g1") example.fresh)
      as [_ H].
    destruct H as [Hsame Hbad].
    + left. intros contact [<- | []]. discriminate.
    + split; [exact Hsame|]. apply Hbad; reflexivity.
Defined.

(* ------------------------------------------------------------------------- *)
(** * The store: updates and status patches that are served *)

Section StoreWrites.
Import metav1 v1alpha1 client spec.
Variable env : Env.

Lemma hasKey_eq {T} `{Object T} (key : ObjectKey) (o : T) :
  hasKey key o = true <-> key = keyOf o.
Proof.
  unfold hasKey, keyOf. destruct key as [ns n]. cbn [keyNamespace keyName].
  rewrite andb_true_iff, !String.eqb_eq. split.
  - now intros [-> ->].
  - now intros [= -> ->].
Qed.

Lemma find_hasKey {T} `{Object T} (key : ObjectKey) (l : list T) (o : T) :
  find (hasKey key) l = Some o -> key = keyOf o /\ In o l.
Proof.
  intros F. apply find_some in F as [Hin Hk].
  split; [now apply hasKey_eq | exact Hin].
Qed.

Lemma Update_refused {T} `{Object T} (obj : T) w e :
  storeFault env (tick w) = Some e ->
  Update env obj w = (Some e, logged (StoreCall VUpdate Kind) w).
Proof. intros F. unfold Update, request. now rewrite F. Qed.

Lemma Update_accepted {T} `{Object T} (obj : T) w :
  storeFault env (tick w) = None ->
  existsb (hasKey (keyOf obj)) (items (cluster w)) = true ->
  Update env obj w
  = (None,
     mkWorld
       (setItems (cluster w)
          (flat_map (fun o => if hasKey (keyOf obj) o
                              then (if purged obj then [] else [obj])
                              else [o]) (items (cluster w))))
       (StoreCall VUpdate Kind :: calls w)).
Proof. intros F E. unfold Update, request. now rewrite F, E. Qed.

(** After an update was served, whatever is stored under the key of the
    object is the object, and nothing is when the object was purged. *)
Lemma updated_lookup {T} `{Object T} (obj : T) (l : list T) (o : T) :
  In o (flat_map (fun o => if hasKey (keyOf obj) o
                           then (if purged obj then [] else [obj])
                           else [o]) l) ->
  hasKey (keyOf obj) o = true -> o = obj /\ purged obj = false.
Proof.
  intros Hin Hk. apply in_flat_map in Hin as [x [_ Hx]].
  destruct (hasKey (keyOf obj) x) eqn:Kx.
  - destruct (purged obj); [destruct Hx|].
    destruct Hx as [<- | []]. now split.
  - destruct Hx as [<- | []]. congruence.
Qed.

Lemma updated_find {T} `{Object T} (obj : T) (l : list T) (o : T) :
  find (hasKey (keyOf obj)) l = Some o ->
  purged obj = false ->
  find (hasKey (keyOf obj))
       (flat_map (fun o => if hasKey (keyOf obj) o
                           then (if purged obj then [] else [obj])
                           else [o]) l)
  = Some obj.
Proof.
  intros F P. rewrite P.
  induction l as [|x l IH]; [discriminate|].
  cbn [find flat_map] in *.
  destruct (hasKey (keyOf obj) x) eqn:Kx; cbn [app find].
  - now rewrite hasKey_keyOf.
  - rewrite Kx. now apply IH.
Qed.

Lemma PatchStatus_refused {T} `{Object T} (obj : T) w e :
  storeFault env (tick w) = Some e ->
  PatchStatus env obj w = (Some e, logged (StoreCall VPatchStatus Kind) w).
Proof. intros F. unfold PatchStatus, request. now rewrite F. Qed.

Lemma PatchStatus_served {T} `{Object T} (obj : T) w :
  storeFault env (tick w) = None ->
  existsb (hasKey (keyOf obj)) (items (cluster w)) = true ->
  PatchStatus env obj w
  = (None,
     mkWorld
       (setItems (cluster w)
          (map (fun o => if hasKey (keyOf obj) o then copyStatus obj o else o)
               (items (cluster w))))
       (StoreCall VPatchStatus Kind :: calls w)).
Proof. intros F E. unfold PatchStatus, request. now rewrite F, E. Qed.

End StoreWrites.

(* ------------------------------------------------------------------------- *)
(** * The Contact reconciler: the finalizer comes first, the provider's
      record goes before the contact *)

Section ContactLifecycle.
Import metav1 v1alpha1 client controller spec.
Import controller.LoopsContactController.
Variable env : Env.
Variable r : Fields.

(** [Reconcile] on a stored contact under deletion that has the key. *)
Lemma Reconcile_deleting req w contact :
  storeFault env (tick w) = None ->
  find (hasKey req) (Contacts (cluster w)) = Some contact ->
  finalizer.IsZero (DeletionTimestamp (cMeta contact)) = false ->
  controllerutil.ContainsFinalizer (cMeta contact) loopsContactFinalizerKey
  = true ->
  let w1 := logged (LoopsCall (loops.DeleteContact (UID (cMeta contact))))
                   (logged (StoreCall VGet "Contact") w) in
  let released :=
    mkContact (controllerutil.RemoveFinalizer (cMeta contact)
                                              loopsContactFinalizerKey)
              (cSpec contact) (cStatus contact) in
  let release :=
    let (updateErr, w') := Update env released w1 in
    (match updateErr with
     | Some ue => if apierrors.IsConflict ue
                  then ctrl.requeue (Some released)
                  else ctrl.failed ue (Some released)
     | None => ctrl.done (Some released)
     end, w') in
  Reconcile env r req w
  = match loopsReply env (S (tick w)) with
    | None => release
    | Some e =>
        if loops.IsNotFound e then release
        else
          (ctrl.failed
             (wrapError "failed to run finalizers for Contact"
                (aggregateError
                   (wrapError
                      ("finalizer " ++ finalizer.quoted loopsContactFinalizerKey
                                    ++ " failed")
                      (wrapError "failed to delete Loops contact"
                         (wrapError "failed to delete Loops contact" e)))))
             (Some contact), w1)
    end.
Proof.
  intros Hok Hfind Hz Hfin. cbv zeta. unfold Reconcile, bind.
  rewrite Get_eq, Hok. cbn [items ContactObject]. rewrite Hfind.
  unfold finalizer.Finalize.
  cbn [GetObjectMeta SetObjectMeta ContactObject]. rewrite Hz, Hfin.
  cbn [andb negb].
  unfold bind, loopsContactFinalizer.Finalize,
    loopsContactFinalizer.DeleteContact, bind, Loops, ret.
  change (tick (logged (StoreCall VGet Kind) w)) with (S (tick w)).
  destruct (loopsReply env (S (tick w))) as [e|]; cbv beta iota zeta.
  - destruct (loops.IsNotFound e); cbn [negb]; cbv beta iota zeta;
      [|reflexivity].
    cbn [finalizer.Updated].
    destruct (Update env _ _) as [[ue|] w']; [|reflexivity].
    now destruct (apierrors.IsConflict ue).
  - cbn [finalizer.Updated].
    destruct (Update env _ _) as [[ue|] w']; [|reflexivity].
    now destruct (apierrors.IsConflict ue).
Qed.

Lemma keyOf_meta (c c' : Contact) :
  Name (cMeta c') = Name (cMeta c) ->
  Namespace (cMeta c') = Namespace (cMeta c) -> keyOf c' = keyOf c.
Proof. unfold keyOf. cbn. now intros -> ->. Qed.

Lemma ContainsFinalizer_false_app (m : ObjectMeta) (key : string) :
  controllerutil.ContainsFinalizer m key = false ->
  controllerutil.AddFinalizer m key
  = withFinalizers m (Finalizers m ++ [key])%list.
Proof. intros H. unfold controllerutil.AddFinalizer. now rewrite H. Qed.

End ContactLifecycle.

Section FinalizerFirst.
Import metav1 v1alpha1 client controller spec.

(** X11. A Contact that is not being deleted and lacks the finalizer key: all
  [Reconcile] does is to store the contact with the key added.  It makes
  no call to the provider and patches no status.  When the store serves
  the update, the stored Contact is the one read with the key appended to
  its finalizers; when the store refuses it, the cluster is left as it was
  and [Reconcile] asks for a requeue without error on a conflict and
  returns the error otherwise. *)
Theorem Reconcile_stores_finalizer_before_anything_else
      (env : client.Env) (r : controller.LoopsContactController.Fields)
      (req : client.ObjectKey) (w : client.World)
      (contact : v1alpha1.Contact) :
client.storeFault env (client.tick w) = None ->
find (client.hasKey req) (client.Contacts (client.cluster w)) = Some contact ->
finalizer.IsZero (metav1.DeletionTimestamp (v1alpha1.cMeta contact)) = true ->
controllerutil.ContainsFinalizer (v1alpha1.cMeta contact)
                                 controller.loopsContactFinalizerKey = false ->
let run := controller.LoopsContactController.Reconcile env r req w in
let contact' :=
  v1alpha1.mkContact
    (metav1.withFinalizers
       (v1alpha1.cMeta contact)
       (metav1.Finalizers (v1alpha1.cMeta contact)
          ++ [controller.loopsContactFinalizerKey])%list)
    (v1alpha1.cSpec contact) (v1alpha1.cStatus contact) in
spec.remoteCalls (snd run) = spec.remoteCalls w
/\ spec.statusPatches (snd run) = spec.statusPatches w
/\ match client.storeFault env (S (client.tick w)) with
   | None =>
       fst run = ctrl.done (Some contact')
       /\ find (client.hasKey req)
               (client.Contacts (client.cluster (snd run)))
          = Some contact'
   | Some ue =>
       fst run = (if apierrors.IsConflict ue
                  then ctrl.requeue (Some contact')
                  else ctrl.failed ue (Some contact'))
       /\ client.cluster (snd run) = client.cluster w
   end.
Proof.
intros Hok Hfind Hz Hfin. cbv zeta.
rewrite (Reconcile_not_deleting env r req w contact Hok Hfind Hz), Hfin.
cbv zeta. rewrite (ContainsFinalizer_false_app _ _ Hfin).
set (contact' := v1alpha1.mkContact _ _ _).
set (w1 := spec.logged (client.StoreCall client.VGet "Contact") w).
pose proof (Update_remote env contact' w1) as R.
pose proof (Update_unpatched env contact' w1) as P.
destruct (find_hasKey req _ contact Hfind) as [Hreq Hin].
assert (client.keyOf contact' = req) as K by (now subst req).
change (client.tick w1) with (S (client.tick w)) in *.
destruct (client.storeFault env (S (client.tick w))) as [ue|] eqn:F.
- rewrite (Update_refused env contact' w1 ue F) in *.
  split; [exact R|]. split; [exact P|].
  split; [now destruct (apierrors.IsConflict ue) | reflexivity].
- assert (existsb (client.hasKey (client.keyOf contact'))
                  (client.Contacts (client.cluster w1)) = true) as E.
  { rewrite K. apply existsb_exists. exists contact.
    split; [exact Hin | now apply hasKey_eq]. }
  rewrite (Update_accepted env contact' w1 F E) in *.
  split; [exact R|]. split; [exact P|]. split; [reflexivity|].
  cbn [snd client.cluster client.setItems client.ContactObject
       client.Contacts client.items].
  rewrite <- K. apply (updated_find contact' _ contact).
  + now rewrite K.
  + unfold client.purged. cbn [client.GetObjectMeta client.ContactObject].
    unfold contact'. cbn [v1alpha1.cMeta metav1.Finalizers
                            metav1.withFinalizers].
    destruct (metav1.Finalizers (v1alpha1.cMeta contact));
      cbn [app]; apply andb_false_r.
Qed.

Lemma Reconcile_stores_finalizer_before_anything_else_witness :
let run :=
  controller.LoopsContactController.Reconcile
    example.calm example.fields example.aliceKey example.fresh in
spec.remoteCalls (snd run) = spec.remoteCalls example.fresh
/\ spec.statusPatches (snd run) = spec.statusPatches example.fresh
/\ fst run = ctrl.done (Some example.pending)
/\ find (client.hasKey example.aliceKey)
        (client.Contacts (client.cluster (snd run)))
   = Some example.pending.
Proof.
destruct (Reconcile_stores_finalizer_before_anything_else
            example.calm example.fields example.aliceKey example.fresh
            example.alice eq_refl eq_refl eq_refl eq_refl)
  as [R [P U]].
exact (conj R (conj P U)).
Defined.

End FinalizerFirst.

Section ReleaseAfterDelete.
Import metav1 v1alpha1 client controller spec.

(** X12. A Contact under deletion that still has the finalizer key: [Reconcile]
  makes exactly one call to the provider, DeleteContact on the UID.  When
  the provider answers an error other than not-found, [Reconcile] returns
  an error without a request to update the contact, and the cluster is
  left as it was.  When the provider accepts, or answers not-found, the
  contact is updated without the key: once the store serves that update
  no stored contact of that name has the key any more, and when the key
  was the only finalizer the contact is gone from the store. *)
Theorem Reconcile_releases_contact_only_after_provider_delete
      (env : Env) (r : LoopsContactController.Fields)
      (req : ObjectKey) (w : World) (contact : Contact) :
storeFault env (tick w) = None ->
find (hasKey req) (Contacts (cluster w)) = Some contact ->
finalizer.IsZero (DeletionTimestamp (cMeta contact)) = false ->
controllerutil.ContainsFinalizer (cMeta contact) loopsContactFinalizerKey
= true ->
let run := LoopsContactController.Reconcile env r req w in
let released :=
  storeFault env (S (S (tick w))) = None ->
  ctrl.err (fst run) = None
  /\ (forall c, In c (Contacts (cluster (snd run))) ->
                hasKey req c = true ->
                controllerutil.ContainsFinalizer
                  (cMeta c) loopsContactFinalizerKey = false)
  /\ (Finalizers (cMeta contact) = [loopsContactFinalizerKey] ->
      existsb (hasKey req) (Contacts (cluster (snd run))) = false) in
let kept :=
  ctrl.err (fst run) <> None
  /\ cluster (snd run) = cluster w
  /\ calls (snd run)
     = LoopsCall (loops.DeleteContact (UID (cMeta contact)))
         :: StoreCall VGet "Contact" :: calls w in
remoteCalls (snd run)
= LoopsCall (loops.DeleteContact (UID (cMeta contact))) :: remoteCalls w
/\ match loopsReply env (S (tick w)) with
   | None => released
   | Some e => if loops.IsNotFound e then released else kept
   end.
Proof.
intros Hok Hfind Hz Hfin. cbv zeta.
rewrite (Reconcile_deleting env r req w contact Hok Hfind Hz Hfin).
cbv zeta.
set (released := mkContact _ (cSpec contact) (cStatus contact)).
set (w1 := logged (LoopsCall _) (logged (StoreCall VGet "Contact") w)).
destruct (find_hasKey req _ contact Hfind) as [Hreq Hin].
assert (keyOf released = req) as K by (now subst req).
assert (isNil (DeletionTimestamp (cMeta contact)) = false) as Hnil
    by (destruct (DeletionTimestamp (cMeta contact)); [reflexivity
                                                      | discriminate Hz]).
assert (remoteCalls (snd (Update env released w1)) = remoteCalls w1
        /\ (storeFault env (S (S (tick w))) = None ->
            fst (Update env released w1) = None
            /\ (forall c, In c (Contacts (cluster (snd (Update env released w1)))) ->
                          hasKey req c = true ->
                          controllerutil.ContainsFinalizer
                            (cMeta c) loopsContactFinalizerKey = false)
            /\ (Finalizers (cMeta contact) = [loopsContactFinalizerKey] ->
                existsb (hasKey req)
                        (Contacts (cluster (snd (Update env released w1))))
                = false))) as [R Rel].
{ split; [apply Update_remote|]. intros F.
  assert (existsb (hasKey (keyOf released)) (Contacts (cluster w1)) = true)
    as E.
  { rewrite K. apply existsb_exists. exists contact.
    split; [exact Hin | now apply hasKey_eq]. }
  rewrite (Update_accepted env released w1 F E).
  cbn [fst snd cluster setItems ContactObject Contacts items].
  split; [reflexivity|]. split.
  - intros c Hc Hk. rewrite <- K in Hk.
    destruct (updated_lookup released _ c Hc Hk) as [-> _].
    apply ContainsFinalizer_RemoveFinalizer.
  - intros Hone. destruct (existsb (hasKey req) _) eqn:X; [|reflexivity].
    apply existsb_exists in X as [c [Hc Hk]]. rewrite <- K in Hk.
    destruct (updated_lookup released _ c Hc Hk) as [_ Hp].
    unfold purged in Hp. cbn [GetObjectMeta ContactObject] in Hp.
    unfold released in Hp.
    cbn [cMeta controllerutil.RemoveFinalizer withFinalizers Finalizers
         DeletionTimestamp] in Hp.
    rewrite Hone, Hnil in Hp. cbn in Hp. discriminate Hp. }
assert (let (updateErr, w') := Update env released w1 in
        remoteCalls w' = remoteCalls w1
        /\ (storeFault env (S (S (tick w))) = None ->
            updateErr = None
            /\ (forall c, In c (Contacts (cluster w')) ->
                          hasKey req c = true ->
                          controllerutil.ContainsFinalizer
                            (cMeta c) loopsContactFinalizerKey = false)
            /\ (Finalizers (cMeta contact) = [loopsContactFinalizerKey] ->
                existsb (hasKey req) (Contacts (cluster w')) = false)))
  as U.
{ destruct (Update env released w1) as [updateErr w']. now split. }
clear R Rel.
destruct (loopsReply env (S (tick w))) as [e|];
  [destruct (loops.IsNotFound e)|].
- destruct (Update env released w1) as [updateErr w'].
  destruct U as [R Rel]. cbn [fst snd]. split; [exact R|].
  intros F. destruct (Rel F) as [-> [A B]]. now split.
- cbn [fst snd ctrl.failed ctrl.err]. split; [reflexivity|].
  split; [discriminate|]. split; reflexivity.
- destruct (Update env released w1) as [updateErr w'].
  destruct U as [R Rel]. cbn [fst snd]. split; [exact R|].
  intros F. destruct (Rel F) as [-> [A B]]. now split.
Qed.

Lemma Reconcile_releases_contact_only_after_provider_delete_witness :
let w := mkWorld (mkCluster [example.deleting] [example.news] [] []) [] in
let run :=
  LoopsContactController.Reconcile example.calm example.fields
                                   example.aliceKey w in
remoteCalls (snd run) = [LoopsCall (loops.DeleteContact "u1")]
/\ ctrl.err (fst run) = None
/\ existsb (hasKey example.aliceKey) (Contacts (cluster (snd run))) = false.
Proof.
intros w run.
destruct (Reconcile_releases_contact_only_after_provider_delete
            example.calm example.fields example.aliceKey w example.deleting
            eq_refl eq_refl eq_refl eq_refl)
  as [R Rel].
destruct (Rel eq_refl) as [E [_ Gone]].
split; [exact R|]. split; [exact E|]. exact (Gone eq_refl).
Defined.

End ReleaseAfterDelete.

(* ------------------------------------------------------------------------- *)
(** * The newsletter membership and its name *)

Section GeneratedName.
Import metav1 v1alpha1 client controller spec.
Import controller.LoopsContactController.

Lemma hex_length (s : string) :
  String.length (fmt.hex s) = 2 * String.length s.
Proof.
  induction s as [|c s IH]; [reflexivity|].
  cbn [fmt.hex String.length]. rewrite IH. lia.
Qed.

Lemma hexDigit_inj (m n : N) :
  (m < 16)%N -> (n < 16)%N -> fmt.hexDigit m = fmt.hexDigit n -> m = n.
Proof.
  intros Hm Hn.
  assert (forall k, (k < 16)%N -> In k (map N.of_nat (seq 0 16))) as Hin.
  { intros k Hk. rewrite <- (N2Nat.id k). apply in_map, in_seq. lia. }
  assert (forallb (fun a => forallb (fun b =>
                     implb (Ascii.eqb (fmt.hexDigit a) (fmt.hexDigit b))
                           (N.eqb a b))
                   (map N.of_nat (seq 0 16)))
                  (map N.of_nat (seq 0 16)) = true) as Hall
      by (vm_compute; reflexivity).
  rewrite forallb_forall in Hall. specialize (Hall m (Hin m Hm)).
  rewrite forallb_forall in Hall. specialize (Hall n (Hin n Hn)).
  intros E. rewrite E, Ascii.eqb_refl in Hall. now apply N.eqb_eq.
Qed.

Lemma nibbles_inj (a b : ascii) :
  N.shiftr (N_of_ascii a) 4 = N.shiftr (N_of_ascii b) 4 ->
  N.land (N_of_ascii a) 15 = N.land (N_of_ascii b) 15 -> a = b.
Proof.
  intros Hhi Hlo. apply N_of_ascii_inj.
  rewrite !N.shiftr_div_pow2 in Hhi. change (2 ^ 4)%N with 16%N in Hhi.
  change 15%N with (N.ones 4) in Hlo. rewrite !N.land_ones in Hlo.
  change (2 ^ 4)%N with 16%N in Hlo.
  rewrite (N.div_mod' (N_of_ascii a) 16), (N.div_mod' (N_of_ascii b) 16).
  now rewrite Hhi, Hlo.
Qed.

Lemma hex_inj (s t : string) : fmt.hex s = fmt.hex t -> s = t.
Proof.
  revert t. induction s as [|a s IH]; intros [|b t]; cbn [fmt.hex];
    try discriminate; [reflexivity|].
  intros [= Hhi Hlo E].
  assert (forall c, (N.shiftr (N_of_ascii c) 4 < 16)%N) as Bhi.
  { intros c. rewrite N.shiftr_div_pow2. change (2 ^ 4)%N with 16%N.
    pose proof (N_of_ascii_bound c).
    apply N.Div0.div_lt_upper_bound. lia. }
  assert (forall c, (N.land (N_of_ascii c) 15 < 16)%N) as Blo.
  { intros c. change 15%N with (N.ones 4). rewrite N.land_ones.
    apply N.mod_lt. discriminate. }
  apply hexDigit_inj in Hhi; [|apply Bhi|apply Bhi].
  apply hexDigit_inj in Hlo; [|apply Blo|apply Blo].
  f_equal; [now apply nibbles_inj | now apply IH].
Qed.

(** Two texts with tails of the same length are equal part by part. *)
Lemma append_same_tail_length (a a' s s' : string) :
  String.length s = String.length s' -> a ++ s = a' ++ s' ->
  a = a' /\ s = s'.
Proof.
  intros L. revert a'. induction a as [|c a IH]; intros [|c' a'];
    cbn [append]; intros E.
  - now split.
  - exfalso. apply (f_equal String.length) in E.
    cbn [String.length] in E. rewrite length_append in E. lia.
  - exfalso. apply (f_equal String.length) in E.
    cbn [String.length] in E. rewrite length_append in E. lia.
  - inversion E; subst c'. destruct (IH a' H1) as [-> ->]. now split.
Qed.

Lemma generateCgmName_length (contact : Contact) :
  String.length (generateCgmName contact)
  = String.length (Name (cMeta contact)) + 65.
Proof.
  unfold generateCgmName. rewrite !length_append, hex_length, Sum256_length.
  cbn [String.length]. lia.
Qed.

Lemma generateCgmName_not_empty (contact : Contact) :
  String.eqb (generateCgmName contact) "" = false.
Proof.
  apply String.eqb_neq. intros E. apply (f_equal String.length) in E.
  rewrite generateCgmName_length in E. cbn [String.length] in E. lia.
Qed.

(** X13. The name of the newsletter membership of a contact is the contact's
  name followed by a suffix of fixed width, a dash and the 64 hexadecimal
  digits of the SHA-256 of the UID: it is 65 characters longer than the
  contact's name, and two contacts with the same generated name have the
  same name and the same UID digest. *)
Theorem generateCgmName_is_name_then_fixed_width_digest
      (contact contact' : Contact) :
String.length (generateCgmName contact)
= String.length (Name (cMeta contact)) + 65
/\ (generateCgmName contact = generateCgmName contact' ->
    Name (cMeta contact) = Name (cMeta contact')
    /\ sha256.Sum256 (UID (cMeta contact))
       = sha256.Sum256 (UID (cMeta contact'))).
Proof.
split; [apply generateCgmName_length|].
unfold generateCgmName.
pose proof (hex_inj (sha256.Sum256 (UID (cMeta contact)))
                    (sha256.Sum256 (UID (cMeta contact')))) as Hinj.
assert (String.length (fmt.hex (sha256.Sum256 (UID (cMeta contact))))
        = String.length (fmt.hex (sha256.Sum256 (UID (cMeta contact')))))
  as Hlen by (rewrite !hex_length, !Sum256_length; reflexivity).
revert Hinj Hlen.
generalize (fmt.hex (sha256.Sum256 (UID (cMeta contact)))).
generalize (fmt.hex (sha256.Sum256 (UID (cMeta contact')))).
generalize (sha256.Sum256 (UID (cMeta contact))).
generalize (sha256.Sum256 (UID (cMeta contact'))).
intros d' d h' h Hinj Hlen E.
destruct (append_same_tail_length
            (Name (cMeta contact)) (Name (cMeta contact'))
            (String "-" h) (String "-" h')) as [En Eh].
- cbn [String.length]. now rewrite Hlen.
- exact E.
- split; [exact En|]. apply Hinj. now inversion Eh.
Qed.

Lemma generateCgmName_is_name_then_fixed_width_digest_witness :
String.length (generateCgmName example.alice) = 70
/\ Name (cMeta example.alice) = Name (cMeta example.pending)
/\ sha256.Sum256 (UID (cMeta example.alice))
   = sha256.Sum256 (UID (cMeta example.pending)).
Proof.
destruct (generateCgmName_is_name_then_fixed_width_digest
            example.alice example.pending) as [L I].
split; [exact L|]. apply I. vm_compute. reflexivity.
Defined.

End GeneratedName.

Section NewsletterMembership.
Import metav1 v1alpha1 client controller spec.
Import controller.LoopsContactController.
Variable env : Env.
Variable r : Fields.

(** The key of the newsletter membership of a contact. *)
Lemma generateCgmName_same (contact contact' : Contact) :
  Name (cMeta contact') = Name (cMeta contact) ->
  UID (cMeta contact') = UID (cMeta contact) ->
  generateCgmName contact' = generateCgmName contact.
Proof. unfold generateCgmName. now intros -> ->. Qed.

(** The newsletter side effect either leaves the cluster as it was, or
    adds one membership under the generated name, which was free. *)
Lemma addToNewsLetterList_cluster contact w :
  let key := mkKey (Namespace (cMeta contact)) (generateCgmName contact) in
  let w' := snd (addToNewsLetterList env r contact w) in
  cluster w' = cluster w
  \/ (existsb (hasKey key) (Memberships (cluster w)) = false
      /\ exists m,
           hasKey key m = true
           /\ cluster w'
              = mkCluster (Contacts (cluster w)) (ContactGroups (cluster w))
                          (Memberships (cluster w) ++ [m])%list
                          (Removals (cluster w))).
Proof.
  cbv zeta. unfold addToNewsLetterList.
  destruct (match meta.FindStatusCondition _ NewsLetterAddedCondition with
            | Some c => ConditionStatus_eqb (Status c) ConditionTrue
            | None => false
            end); [now left|].
  unfold bind, Create, request, Now, ret.
  destruct (storeFault env (tick w)) as [e|].
  { left. now destruct (apierrors.IsAlreadyExists e). }
  cbn [GetObjectMeta SetObjectMeta MembershipObject mMeta named Name
       Namespace items setItems].
  rewrite generateCgmName_not_empty.
  destruct (existsb _ (Memberships (cluster w))) eqn:X.
  - now left.
  - right. split; [reflexivity|]. eexists. split; [|reflexivity].
    unfold hasKey.
    cbn [GetObjectMeta MembershipObject mMeta withName Name Namespace
         named keyNamespace keyName].
    now rewrite !String.eqb_refl.
Qed.

(** Once a membership of the generated name is stored, the side effect
    adds nothing. *)
Lemma addToNewsLetterList_present contact w :
  existsb (hasKey (mkKey (Namespace (cMeta contact))
                         (generateCgmName contact)))
          (Memberships (cluster w)) = true ->
  cluster (snd (addToNewsLetterList env r contact w)) = cluster w.
Proof.
  intros E. destruct (addToNewsLetterList_cluster contact w) as [C | [X _]].
  - exact C.
  - cbv zeta in X. congruence.
Qed.

(** X14. The newsletter membership is created at most once.  Running
  [addToNewsLetterList] for a contact, and then again for the same contact
  as read later (same name, namespace and UID, whatever its status), leaves
  at most one membership more than there was, whatever the store answers:
  the name of the membership is a function of the contact, so the second
  creation is refused as AlreadyExists. *)
Theorem addToNewsLetterList_creates_at_most_one_membership
      (contact contact' : Contact) (w : World) :
Name (cMeta contact') = Name (cMeta contact) ->
Namespace (cMeta contact') = Namespace (cMeta contact) ->
UID (cMeta contact') = UID (cMeta contact) ->
let w1 := snd (addToNewsLetterList env r contact w) in
let w2 := snd (addToNewsLetterList env r contact' w1) in
List.length (Memberships (cluster w2))
<= S (List.length (Memberships (cluster w))).
Proof.
intros Hn Hns Hu. cbv zeta.
set (w1 := snd (addToNewsLetterList env r contact w)).
destruct (addToNewsLetterList_cluster contact w) as [C | [_ [m [Hm C]]]];
  cbv zeta in *; fold w1 in C.
- destruct (addToNewsLetterList_cluster contact' w1)
    as [C' | [_ [m [_ C']]]]; cbv zeta in *; rewrite C'.
  + rewrite C. lia.
  + cbn [Memberships]. rewrite C, length_app. cbn. lia.
- rewrite addToNewsLetterList_present.
  + rewrite C. cbn [Memberships]. rewrite length_app. cbn. lia.
  + rewrite Hns, (generateCgmName_same _ _ Hn Hu), C. cbn [Memberships].
    rewrite existsb_app. cbn [existsb]. rewrite Hm.
    now rewrite orb_true_r.
Qed.

End NewsletterMembership.

Section NewsletterWitness.
Import metav1 v1alpha1 client controller spec.
Import controller.LoopsContactController.

Lemma addToNewsLetterList_creates_at_most_one_membership_witness :
let w1 := snd (addToNewsLetterList example.calm example.fields
                                   example.alice example.fresh) in
let w2 := snd (addToNewsLetterList example.calm example.fields
                                   example.pending w1) in
List.length (Memberships (cluster w2))
<= S (List.length (Memberships (cluster example.fresh))).
Proof.
exact (addToNewsLetterList_creates_at_most_one_membership
         example.calm example.fields example.alice example.pending
         example.fresh eq_refl eq_refl eq_refl).
Defined.

End NewsletterWitness.

(* ------------------------------------------------------------------------- *)
(** * The Contact reconciler: what it writes, what it retries *)

Section ContactWrites.
Import metav1 v1alpha1 client controller spec.
Import controller.LoopsContactController.
Variable env : Env.
Variable r : Fields.

(** A write to a Contact leaves the objects of the other kinds alone. *)
Lemma Update_contact_others (c : Contact) w :
  let cl' := cluster (snd (Update env c w)) in
  ContactGroups cl' = ContactGroups (cluster w)
  /\ Memberships cl' = Memberships (cluster w)
  /\ Removals cl' = Removals (cluster w).
Proof.
  cbv zeta. unfold Update, request.
  destruct (storeFault env (tick w)); [now repeat split|].
  destruct (existsb _ _); now repeat split.
Qed.

Lemma PatchStatus_contact_others (c : Contact) w :
  let cl' := cluster (snd (PatchStatus env c w)) in
  ContactGroups cl' = ContactGroups (cluster w)
  /\ Memberships cl' = Memberships (cluster w)
  /\ Removals cl' = Removals (cluster w).
Proof.
  cbv zeta. unfold PatchStatus, request.
  destruct (storeFault env (tick w)); [now repeat split|].
  destruct (existsb _ _); now repeat split.
Qed.

(** The switch talks to the provider only, and keeps the metadata. *)
Lemma switch_cluster contact w :
  let '(c1, _, w1) :=
    match switchCase contact with
    | CaseCreation => creation env contact
    | CaseUpdate => update env contact
    | CaseNone => ret (contact, None)
    end w in
  cluster w1 = cluster w /\ cMeta c1 = cMeta contact.
Proof.
  destruct (switchCase contact);
    unfold creation, update, upsertContact, bind, Loops, Now, ret;
    try (destruct (loopsReply env (tick w)) as [e|];
         [destruct (loops.IsBadRequest _)|]); now split.
Qed.

Lemma converge_cluster contact w :
  let cl := cluster w in
  let cl' := cluster (snd (converge env r contact w)) in
  ContactGroups cl' = ContactGroups cl
  /\ Removals cl' = Removals cl
  /\ (isNewsletterContact contact = false ->
      Memberships cl' = Memberships cl)
  /\ (Memberships cl' = Memberships cl
      \/ exists m, Memberships cl' = (Memberships cl ++ [m])%list).
Proof.
  cbv zeta. unfold converge, bind.
  pose proof (switch_cluster contact w) as S.
  destruct (match switchCase contact with
            | CaseCreation => creation env contact
            | CaseUpdate => update env contact
            | CaseNone => ret (contact, None)
            end w) as [[c1 early] w1].
  destruct S as [C1 M1].
  destruct early as [e|]; [cbn [ret snd]; rewrite C1; now auto|].
  assert (isNewsletterContact c1 = isNewsletterContact contact) as N
      by (unfold isNewsletterContact; now rewrite M1).
  rewrite N.
  assert (exists flag c2 w2,
             (if isNewsletterContact contact
              then addToNewsLetterList env r c1
              else ret (false, c1)) w1 = (flag, c2, w2)
             /\ ContactGroups (cluster w2) = ContactGroups (cluster w)
             /\ Removals (cluster w2) = Removals (cluster w)
             /\ (isNewsletterContact contact = false ->
                 Memberships (cluster w2) = Memberships (cluster w))
             /\ (Memberships (cluster w2) = Memberships (cluster w)
                 \/ exists m, Memberships (cluster w2)
                              = (Memberships (cluster w) ++ [m])%list))
    as [flag [c2 [w2 [A [G [R [Mn Mo]]]]]]].
  { destruct (isNewsletterContact contact).
    - pose proof (addToNewsLetterList_cluster env r c1 w1) as L.
      destruct (addToNewsLetterList env r c1 w1) as [[flag c2] w2].
      exists flag, c2, w2. split; [reflexivity|].
      cbv zeta in L. cbn [snd] in L.
      destruct L as [L | [_ [m [_ L]]]]; rewrite L, ?C1;
        cbn [ContactGroups Removals Memberships]; rewrite ?C1.
      + split; [reflexivity|]. split; [reflexivity|].
        split; [discriminate | now left].
      + split; [reflexivity|]. split; [reflexivity|].
        split; [discriminate | right; now exists m].
    - exists false, c1, w1. split; [reflexivity|]. rewrite C1. auto. }
  rewrite A.
  assert (forall w3, ContactGroups (cluster w3) = ContactGroups (cluster w2) ->
                     Memberships (cluster w3) = Memberships (cluster w2) ->
                     Removals (cluster w3) = Removals (cluster w2) ->
            ContactGroups (cluster w3) = ContactGroups (cluster w)
            /\ Removals (cluster w3) = Removals (cluster w)
            /\ (isNewsletterContact contact = false ->
                Memberships (cluster w3) = Memberships (cluster w))
            /\ (Memberships (cluster w3) = Memberships (cluster w)
                \/ exists m, Memberships (cluster w3)
                             = (Memberships (cluster w) ++ [m])%list))
    as Done.
  { intros w3 -> -> ->. auto. }
  destruct (negb _).
  - pose proof (PatchStatus_contact_others c2 w2) as P.
    destruct (PatchStatus env c2 w2) as [[pe|] w3]; cbv zeta in P;
      cbn [snd] in P; destruct P as [P1 [P2 P3]].
    + cbn [ret snd]. now apply Done.
    + destruct flag; cbn [ret snd]; now apply Done.
  - destruct flag; cbn [ret snd]; now apply Done.
Qed.

Lemma contact_Finalize_cluster contact w :
  cluster (snd (loopsContactFinalizer.Finalize env contact w)) = cluster w.
Proof.
  unfold loopsContactFinalizer.Finalize,
    loopsContactFinalizer.DeleteContact, bind, Loops, ret.
  destruct (loopsReply env (tick w)) as [e|]; [|reflexivity].
  now destruct (negb (loops.IsNotFound e)).
Qed.

(** X15. What reconciling a Contact writes.  Whatever the store and the provider
  answer, [Reconcile] leaves every ContactGroup and every tombstone as it
  found them, removes no membership and adds at most one; and it adds none
  unless the name asked for starts with [newsletter-]. *)
Theorem contact_Reconcile_adds_a_membership_only_for_newsletter_contacts
      (req : ObjectKey) (w : World) :
let cl := cluster w in
let cl' := cluster (snd (Reconcile env r req w)) in
ContactGroups cl' = ContactGroups cl
/\ Removals cl' = Removals cl
/\ (Memberships cl' = Memberships cl
    \/ exists m, Memberships cl' = (Memberships cl ++ [m])%list)
/\ (strings.HasPrefix (keyName req) "newsletter-" = false ->
    Memberships cl' = Memberships cl).
Proof.
cbv zeta. unfold Reconcile, bind. rewrite Get_eq.
destruct (storeFault env (tick w)) as [e|].
{ destruct (apierrors.IsNotFound e); cbn [ret snd logged cluster]; auto. }
cbn [items ContactObject Kind].
destruct (find (hasKey req) (Contacts (cluster w))) as [contact|] eqn:F;
  [|cbn [apierrors.NewNotFound apierrors.IsNotFound apierrors.ReasonForError
          ret snd logged cluster]; auto].
destruct (find_hasKey req _ contact F) as [Hreq _].
assert (forall (c : Contact) w0,
           cluster w0 = cluster w ->
           let cl' := cluster (snd (Update env c w0)) in
           ContactGroups cl' = ContactGroups (cluster w)
           /\ Removals cl' = Removals (cluster w)
           /\ (Memberships cl' = Memberships (cluster w)
               \/ exists m, Memberships cl'
                            = (Memberships (cluster w) ++ [m])%list)
           /\ (strings.HasPrefix (keyName req) "newsletter-" = false ->
               Memberships cl' = Memberships (cluster w))) as Upd.
{ intros c w0 C. destruct (Update_contact_others c w0) as [U1 [U2 U3]].
  cbv zeta in *. rewrite U1, U2, U3, C. auto. }
unfold finalizer.Finalize. cbn [GetObjectMeta SetObjectMeta ContactObject].
destruct (finalizer.IsZero (DeletionTimestamp (cMeta contact))
          && negb (controllerutil.ContainsFinalizer
                     (cMeta contact) loopsContactFinalizerKey)).
{ cbn [ret finalizer.Updated].
  specialize (Upd (mkContact (controllerutil.AddFinalizer
                                (cMeta contact) loopsContactFinalizerKey)
                             (cSpec contact) (cStatus contact))
                  (logged (StoreCall VGet "Contact") w) eq_refl).
  destruct (Update env _ _) as [[ue|] w2];
    [destruct (apierrors.IsConflict ue)|]; exact Upd. }
destruct (negb (finalizer.IsZero (DeletionTimestamp (cMeta contact)))
          && controllerutil.ContainsFinalizer
               (cMeta contact) loopsContactFinalizerKey).
{ unfold bind.
  pose proof (contact_Finalize_cluster contact
                (logged (StoreCall VGet "Contact") w)) as Fc.
  destruct (loopsContactFinalizer.Finalize env contact _)
    as [[[res err] c'] w1].
  cbn [snd] in Fc.
  destruct err as [e|]; cbn [ret finalizer.Updated].
  - unfold ret. cbn [snd]. rewrite Fc. cbn [logged cluster]. auto.
  - specialize (Upd (mkContact (controllerutil.RemoveFinalizer
                                  (cMeta c') loopsContactFinalizerKey)
                               (cSpec c') (cStatus c')) w1 Fc).
    destruct (Update env _ _) as [[ue|] w2];
      [destruct (apierrors.IsConflict ue)|]; exact Upd. }
cbn [ret finalizer.Updated].
destruct (converge_cluster contact (logged (StoreCall VGet "Contact") w))
  as [G [R [Mn Mo]]].
cbv zeta in *. cbn [logged cluster] in *.
split; [exact G|]. split; [exact R|]. split; [exact Mo|].
intros Hp. apply Mn. unfold isNewsletterContact.
rewrite Hreq in Hp. exact Hp.
Qed.

End ContactWrites.

Section ContactWritesWitness.
Import metav1 v1alpha1 client controller spec.
Import controller.LoopsContactController.

Lemma contact_Reconcile_adds_a_membership_only_for_newsletter_contacts_witness :
let cl' :=
  cluster (snd (Reconcile example.calm example.fields example.aliceKey
                          example.pendingWorld)) in
strings.HasPrefix (keyName example.aliceKey) "newsletter-" = false
/\ ContactGroups cl' = [example.news]
/\ Removals cl' = []
/\ Memberships cl' = [example.membership].
Proof.
destruct (contact_Reconcile_adds_a_membership_only_for_newsletter_contacts
            example.calm example.fields example.aliceKey
            example.pendingWorld) as [G [R [_ M]]].
split; [reflexivity|]. split; [exact G|]. split; [exact R|].
exact (M eq_refl).
Defined.

End ContactWritesWitness.

(* ------------------------------------------------------------------------- *)
(** * The Contact reconciler: the update case *)

Section ContactUpdate.
Import metav1 v1alpha1 client controller spec.
Import controller.LoopsContactController.
Variable env : Env.
Variable r : Fields.

(** Setting a condition over an existing one of its type. *)
Lemma Find_SetStatusCondition_overwrite conditions c old :
  meta.FindStatusCondition conditions (Type_ c) = Some old ->
  meta.FindStatusCondition (meta.SetStatusCondition conditions c) (Type_ c)
  = Some (meta.overwrite old c).
Proof.
  unfold meta.FindStatusCondition.
  induction conditions as [|c0 rest IH]; cbn [meta.SetStatusCondition find];
    [discriminate|].
  destruct (String.eqb (Type_ c0) (Type_ c)) eqn:E.
  - intros [= <-]. cbn [find meta.overwrite Type_]. now rewrite E.
  - intros F. cbn [find]. rewrite E. now apply IH.
Qed.

(** The update case when the provider accepts the upsert. *)
Lemma update_accepted contact w :
  loopsReply env (tick w) = None ->
  update env contact w
  = (setCondition contact
       (readyCondition ConditionTrue LoopsContactUpdatedReason
          "Loops contact updated on email provider" contact
          (clock env (S (tick w)))),
     None, logged (LoopsCall
                     (loops.UpsertContact
                        (loops.mkContactRequest
                           (Email (cSpec contact)) (UID (cMeta contact))
                           (GivenName (cSpec contact))
                           (FamilyName (cSpec contact))
                           "email-provider-loops-k8s-controller"
                           (Some true)))) w).
Proof.
  intros Hok. unfold update, upsertContact, bind, Loops, Now, ret.
  now rewrite Hok.
Qed.

(** The update case when the provider answers bad-request. *)
Lemma update_bad_request contact w e :
  loopsReply env (tick w) = Some e ->
  loops.IsBadRequest e = true ->
  exists message,
    update env contact w
    = (setCondition contact
         (readyCondition ConditionFalse LoopsContactNotUpdatedReason
            message contact (clock env (S (tick w)))),
       None, logged (LoopsCall
                       (loops.UpsertContact
                          (loops.mkContactRequest
                             (Email (cSpec contact)) (UID (cMeta contact))
                             (GivenName (cSpec contact))
                             (FamilyName (cSpec contact))
                             "email-provider-loops-k8s-controller"
                             (Some true)))) w).
Proof.
  intros Hrep Hbad. unfold update, upsertContact, bind, Loops, Now, ret.
  rewrite Hrep.
  change (loops.IsBadRequest (wrapError "failed to find Loops contact" e))
    with (loops.IsBadRequest e).
  rewrite Hbad. eexists. reflexivity.
Qed.

(** The case of the switch, read off the Ready condition. *)
Lemma switchCase_of contact readyCond :
  meta.FindStatusCondition (Conditions (cStatus contact))
                           LoopsContactReadyCondition = Some readyCond ->
  switchCase contact
  = if String.eqb (Reason readyCond) LoopsContactNotCreatedReason
    then CaseCreation
    else if Z.eqb (ObservedGeneration readyCond) (Generation (cMeta contact))
         then CaseNone else CaseUpdate.
Proof.
  intros F. unfold switchCase, generation. rewrite F.
  destruct (String.eqb _ _); [reflexivity|]. now destruct (Z.eqb _ _).
Qed.

(** The contact [Reconcile] returns with when the switch set the Ready
    condition [c] and did not return early. *)
Lemma Reconcile_after_switch req w contact c w2 :
  storeFault env (tick w) = None ->
  find (hasKey req) (Contacts (cluster w)) = Some contact ->
  finalizer.IsZero (DeletionTimestamp (cMeta contact)) = true ->
  controllerutil.ContainsFinalizer (cMeta contact) loopsContactFinalizerKey
  = true ->
  match switchCase contact with
  | CaseCreation => creation env contact
  | CaseUpdate => update env contact
  | CaseNone => ret (contact, None)
  end (logged (StoreCall VGet "Contact") w)
  = (setCondition contact c, None, w2) ->
  exists final,
    ctrl.object (fst (Reconcile env r req w)) = Some final
    /\ cMeta final = cMeta contact
    /\ meta.FindStatusCondition (Conditions (cStatus final))
                                LoopsContactReadyCondition
       = meta.FindStatusCondition
           (meta.SetStatusCondition (Conditions (cStatus contact)) c)
           LoopsContactReadyCondition.
Proof.
  intros Hok Hfind Hz Hfin B.
  rewrite (Reconcile_not_deleting env r req w contact Hok Hfind Hz), Hfin.
  destruct (converge_keeps env r contact _ _ w2 B) as [final [O [M [_ F]]]].
  exists final. split; [exact O|]. split; [exact M | exact F].
Qed.

(** X17. An accepted update keeps the transition time of a condition that was
  already True.  For a stored Contact in the update case (not being
  deleted, finalizer in place) whose upsert the provider accepts: the
  Contact [Reconcile] returns with has the Ready condition True with
  reason ContactUpdated, observed at the current generation; its
  transition time is that of the condition it replaces when that one was
  True, and the time of the reconciliation otherwise; and the contact is
  then in the case of the switch where nothing is sent. *)
Theorem accepted_update_keeps_transition_time_of_true_condition
      (req : ObjectKey) (w : World) (contact : Contact) (old : Condition) :
storeFault env (tick w) = None ->
find (hasKey req) (Contacts (cluster w)) = Some contact ->
finalizer.IsZero (DeletionTimestamp (cMeta contact)) = true ->
controllerutil.ContainsFinalizer (cMeta contact) loopsContactFinalizerKey
= true ->
switchCase contact = CaseUpdate ->
meta.FindStatusCondition (Conditions (cStatus contact))
                         LoopsContactReadyCondition = Some old ->
loopsReply env (S (tick w)) = None ->
exists final,
  ctrl.object (fst (Reconcile env r req w)) = Some final
  /\ meta.FindStatusCondition (Conditions (cStatus final))
                              LoopsContactReadyCondition
     = Some (mkCondition LoopsContactReadyCondition ConditionTrue
               (Generation (cMeta contact))
               (if ConditionStatus_eqb (Status old) ConditionTrue
                then LastTransitionTime old
                else clock env (S (S (tick w))))
               LoopsContactUpdatedReason
               "Loops contact updated on email provider")
  /\ switchCase final = CaseNone.
Proof.
intros Hok Hfind Hz Hfin Hcase Hold Hrep.
set (w1 := logged (StoreCall VGet "Contact") w).
pose proof (update_accepted contact w1 Hrep) as U.
match type of U with
| _ = (_, _, ?w2) =>
    destruct (Reconcile_after_switch
                req w contact
                (readyCondition ConditionTrue LoopsContactUpdatedReason
                   "Loops contact updated on email provider" contact
                   (clock env (S (tick w1))))
                w2 Hok Hfind Hz Hfin)
      as [final [O [M F]]]; [rewrite Hcase; exact U|]
end.
pose proof (Find_SetStatusCondition_overwrite
              (Conditions (cStatus contact))
              (readyCondition ConditionTrue LoopsContactUpdatedReason
                 "Loops contact updated on email provider" contact
                 (clock env (S (tick w1)))) old Hold) as Hr.
change (Type_ (readyCondition _ _ _ _ _)) with LoopsContactReadyCondition
  in Hr.
rewrite <- F in Hr.
assert (Type_ old = LoopsContactReadyCondition) as Ht.
{ unfold meta.FindStatusCondition in Hold.
  apply find_some in Hold as [_ Hold]. now apply String.eqb_eq. }
exists final. split; [exact O|]. split.
- rewrite Hr. unfold meta.overwrite. rewrite Ht. reflexivity.
- rewrite (switchCase_of final _ Hr), M.
  cbn [meta.overwrite readyCondition Reason ObservedGeneration].
  unfold generation. now rewrite Z.eqb_refl.
Qed.

End ContactUpdate.

Section ContactUpdateWitness.
Import metav1 v1alpha1 client controller spec.
Import controller.LoopsContactController.

Lemma accepted_update_keeps_transition_time_of_true_condition_witness :
let w := mkWorld (mkCluster [example.edited] [example.news] [] []) [] in
exists final,
  ctrl.object (fst (Reconcile example.calm example.fields example.aliceKey w))
  = Some final
  /\ meta.FindStatusCondition (Conditions (cStatus final))
                              LoopsContactReadyCondition
     = Some (mkCondition LoopsContactReadyCondition ConditionTrue 2 7%N
               LoopsContactUpdatedReason
               "Loops contact updated on email provider")
  /\ switchCase final = CaseNone.
Proof.
intros w.
exact (accepted_update_keeps_transition_time_of_true_condition
         example.calm example.fields example.aliceKey w example.edited
         example.created eq_refl eq_refl eq_refl eq_refl eq_refl eq_refl
         eq_refl).
Defined.

End ContactUpdateWitness.

(* ------------------------------------------------------------------------- *)
(** * The ContactGroupMembership reconciler *)

Section MembershipFacts.
Import metav1 v1alpha1 client controller spec.
Import controller.LoopsContactGroupMembershipController.
Variable env : Env.

Lemma getReferencedResources_remote cgm :
  preserves remoteCalls (getReferencedResources env cgm).
Proof. unfold getReferencedResources. preserve. Qed.

Lemma getReferencedResources_cluster cgm w :
  cluster (snd (getReferencedResources env cgm w)) = cluster w.
Proof.
  unfold getReferencedResources, bind. rewrite Get_eq.
  destruct (match storeFault env (tick w) with
            | Some e => inr e
            | None => _
            end) as [contact|e]; [|reflexivity].
  rewrite Get_eq.
  now destruct (match storeFault env _ with
                | Some e => inr e
                | None => _
                end).
Qed.

Lemma DeepEqualMembershipStatus_refl (s : ContactGroupMembershipStatus) :
  equality.DeepEqualMembershipStatus s s = true.
Proof. now apply DeepEqualMembershipStatus_spec. Qed.

(** [Reconcile] on a stored membership that is not being deleted. *)
Lemma Reconcile_membership_not_deleting req w cgm :
  storeFault env (tick w) = None ->
  find (hasKey req) (Memberships (cluster w)) = Some cgm ->
  finalizer.IsZero (DeletionTimestamp (mMeta cgm)) = true ->
  Reconcile env req w
  = if controllerutil.ContainsFinalizer
         (mMeta cgm) loopsContactGroupMembershipFinalizerKey
    then converge env cgm (logged (StoreCall VGet "ContactGroupMembership") w)
    else
      let cgm' :=
        mkMembership (controllerutil.AddFinalizer
                        (mMeta cgm) loopsContactGroupMembershipFinalizerKey)
                     (mSpec cgm) (mStatus cgm) in
      let (updateErr, w') :=
        Update env cgm' (logged (StoreCall VGet "ContactGroupMembership") w) in
      (match updateErr with
       | Some ue => if apierrors.IsConflict ue
                    then ctrl.requeue (Some cgm')
                    else ctrl.failed ue (Some cgm')
       | None => ctrl.done (Some cgm')
       end, w').
Proof.
  intros Hok Hfind Hz. unfold Reconcile, bind.
  rewrite Get_eq, Hok. cbn [items MembershipObject]. rewrite Hfind.
  rewrite Finalize_not_deleting by exact Hz.
  cbn [GetObjectMeta SetObjectMeta MembershipObject Kind].
  destruct (controllerutil.ContainsFinalizer _ _); [reflexivity|].
  cbn [finalizer.Updated].
  destruct (Update env _ _) as [[ue|] w']; [|reflexivity].
  now destruct (apierrors.IsConflict ue).
Qed.

(** [converge] when nothing is to be created: two reads, nothing else. *)
Lemma converge_settled cgm w :
  needsCreation cgm = false ->
  remoteCalls (snd (converge env cgm w)) = remoteCalls w
  /\ statusPatches (snd (converge env cgm w)) = statusPatches w
  /\ cluster (snd (converge env cgm w)) = cluster w.
Proof.
  intros Hneeds. unfold converge, bind.
  pose proof (getReferencedResources_remote cgm w) as R.
  pose proof (getReferencedResources_unpatched env cgm w) as P.
  pose proof (getReferencedResources_cluster cgm w) as C.
  destruct (getReferencedResources env cgm w)
    as [[[contact contactGroup]|e] w1]; cbn [snd] in R, P, C;
    [|now repeat split].
  rewrite Hneeds. unfold util.PatchStatusIfChanged, ret.
  cbv beta iota.
  rewrite DeepEqualMembershipStatus_refl. cbn [negb snd].
  now repeat split.
Qed.

(** X18. A membership that was added to its mailing list costs nothing more.
  Reconciling a stored ContactGroupMembership that is not being deleted
  and whose Ready condition is present with a reason other than
  ContactGroupMembershipNotCreated makes no call to the provider and
  patches no status, whatever the store would answer. *)
Theorem settled_membership_makes_no_remote_call_and_no_patch
      (req : ObjectKey) (w : World) (cgm : ContactGroupMembership) :
find (hasKey req) (Memberships (cluster w)) = Some cgm ->
finalizer.IsZero (DeletionTimestamp (mMeta cgm)) = true ->
needsCreation cgm = false ->
remoteCalls (snd (Reconcile env req w)) = remoteCalls w
/\ statusPatches (snd (Reconcile env req w)) = statusPatches w.
Proof.
intros Hfind Hz Hneeds.
destruct (storeFault env (tick w)) as [e|] eqn:Hok.
- unfold Reconcile, bind. rewrite Get_eq, Hok.
  now destruct (apierrors.IsNotFound e).
- rewrite (Reconcile_membership_not_deleting req w cgm Hok Hfind Hz).
  destruct (controllerutil.ContainsFinalizer _ _).
  + destruct (converge_settled
                cgm (logged (StoreCall VGet "ContactGroupMembership") w)
                Hneeds) as [R [P _]].
    now split.
  + cbv zeta.
    match goal with
    | |- context [Update env ?c ?w0] =>
        pose proof (Update_remote env c w0) as R;
        pose proof (Update_unpatched env c w0) as P;
        destruct (Update env c w0) as [ue w']
    end.
    now split.
Qed.

End MembershipFacts.

Section MembershipFactsWitness.
Import metav1 v1alpha1 client controller spec.
Import controller.LoopsContactGroupMembershipController.

Lemma settled_membership_makes_no_remote_call_and_no_patch_witness :
let w := mkWorld (mkCluster [example.converged] [example.news]
                            [example.subscribed] []) [] in
needsCreation example.subscribed = false
/\ remoteCalls (snd (Reconcile example.calm example.membershipKey w)) = []
/\ statusPatches (snd (Reconcile example.calm example.membershipKey w)) = [].
Proof.
intros w. split; [reflexivity|].
exact (settled_membership_makes_no_remote_call_and_no_patch
         example.calm example.membershipKey w example.subscribed
         eq_refl eq_refl eq_refl).
Defined.

End MembershipFactsWitness.

Section MembershipCreation.
Import metav1 v1alpha1 client controller spec.
Import controller.LoopsContactGroupMembershipController.
Variable env : Env.

Lemma getMailingListId_none (cg : ContactGroup) :
  (forall provider, In provider (gProviders (gSpec cg)) ->
                    gpName provider <> "Loops") ->
  getMailingListId cg
  = (EmptyString,
     Some (errorString "mailing list ID not found for contact group")).
Proof.
  intros H. unfold getMailingListId.
  destruct (find _ (gProviders (gSpec cg))) as [provider|] eqn:F;
    [|reflexivity].
  apply find_some in F as [Hin Hn]. apply String.eqb_eq in Hn.
  now elim (H provider Hin).
Qed.

Lemma PatchStatusIfChanged_remote (cgm : ContactGroupMembership)
      (old new : ContactGroupMembershipStatus) :
  preserves remoteCalls
    (util.PatchStatusIfChanged env equality.DeepEqualMembershipStatus
                               cgm old new).
Proof. unfold util.PatchStatusIfChanged. preserve. Qed.

(** A status patch on a membership changes no metadata and no object of
    another kind. *)
Lemma PatchStatusIfChanged_metas (cgm : ContactGroupMembership)
      (old new : ContactGroupMembershipStatus) (w : World) :
  let cl' :=
    cluster (snd (util.PatchStatusIfChanged
                    env equality.DeepEqualMembershipStatus cgm old new w)) in
  map mMeta (Memberships cl') = map mMeta (Memberships (cluster w))
  /\ Contacts cl' = Contacts (cluster w)
  /\ ContactGroups cl' = ContactGroups (cluster w)
  /\ Removals cl' = Removals (cluster w).
Proof.
  cbv zeta. unfold util.PatchStatusIfChanged, bind, PatchStatus, request.
  destruct (negb _); [|now repeat split].
  destruct (storeFault env (tick w)); [now repeat split|].
  destruct (existsb _ _); [|now repeat split].
  cbn [ret snd cluster setItems items MembershipObject Memberships Contacts
       ContactGroups Removals].
  repeat split. rewrite map_map. apply map_ext. intros o.
  now destruct (hasKey _ o).
Qed.

(** [Reconcile] in the creation case, once the three reads succeeded. *)
Lemma Reconcile_membership_creation req w cgm contact contactGroup :
  storeFault env (tick w) = None ->
  storeFault env (S (tick w)) = None ->
  storeFault env (S (S (tick w))) = None ->
  find (hasKey req) (Memberships (cluster w)) = Some cgm ->
  finalizer.IsZero (DeletionTimestamp (mMeta cgm)) = true ->
  controllerutil.ContainsFinalizer
    (mMeta cgm) loopsContactGroupMembershipFinalizerKey = true ->
  needsCreation cgm = true ->
  find (hasKey (mkKey (crNamespace (ContactRef (mSpec cgm)))
                      (crName (ContactRef (mSpec cgm)))))
       (Contacts (cluster w)) = Some contact ->
  find (hasKey (mkKey (grNamespace (ContactGroupRef (mSpec cgm)))
                      (grName (ContactGroupRef (mSpec cgm)))))
       (ContactGroups (cluster w)) = Some contactGroup ->
  let w3 := logged (StoreCall VGet "ContactGroup")
              (logged (StoreCall VGet "Contact")
                 (logged (StoreCall VGet "ContactGroupMembership") w)) in
  Reconcile env req w
  = (let '(final, reconcileError, w4) :=
       creation env cgm contact contactGroup w3 in
     let (err, w5) :=
       util.PatchStatusIfChanged env equality.DeepEqualMembershipStatus
                                 final (mStatus cgm) (mStatus final) w4 in
     (match err with
      | Some e => ctrl.failed e (Some final)
      | None =>
          match reconcileError with
          | Some e => ctrl.failed e (Some final)
          | None => ctrl.done (Some final)
          end
      end, w5)).
Proof.
  intros H0 H1 H2 Hfind Hz Hfin Hneeds Hc Hg. cbv zeta.
  rewrite (Reconcile_membership_not_deleting env req w cgm H0 Hfind Hz), Hfin.
  unfold converge, bind.
  rewrite (getReferencedResources_found env cgm contact contactGroup)
    by assumption.
  rewrite Hneeds.
  destruct (creation env cgm contact contactGroup _)
    as [[final reconcileError] w4].
  destruct (util.PatchStatusIfChanged _ _ _ _ _ _) as [[pe|] w5];
    [reflexivity|].
  now destruct reconcileError.
Qed.

(** The creation branch when the group has no mailing-list id. *)
Lemma creation_without_list_id cgm contact contactGroup w :
  (forall provider, In provider (gProviders (gSpec contactGroup)) ->
                    gpName provider <> "Loops") ->
  let e := wrapError "failed to get Loops mailing list ID"
             (errorString "mailing list ID not found for contact group") in
  creation env cgm contact contactGroup w
  = (mSetCondition cgm
       (mkCondition LoopsContactGroupMembershipReadyCondition
          ConditionFalse (Generation (mMeta cgm)) (clock env (tick w))
          LoopsContactGroupMembershipNotCreatedReason
          ("Loops contact group membership not created on email provider: "
             ++ Error e)),
     Some e, w).
Proof.
  intros Hnone. cbv zeta. unfold creation, addContactToMailingList, bind.
  now rewrite (getMailingListId_none contactGroup Hnone).
Qed.

(** X19. A group the provider does not know.  A stored ContactGroupMembership in
  the creation case (not being deleted, finalizer in place, both referenced
  objects stored, the three reads served) whose ContactGroup has no
  provider entry named Loops: [Reconcile] makes no call to the provider,
  returns an error (the missing mailing-list id, when the status patch is
  served), and the membership it returns with has a Ready condition False
  with reason ContactGroupMembershipNotCreated whose message names the
  missing id. *)
Theorem membership_of_group_without_list_id_fails_without_remote_call
      (req : ObjectKey) (w : World) (cgm : ContactGroupMembership)
      (contact : Contact) (contactGroup : ContactGroup) :
storeFault env (tick w) = None ->
storeFault env (S (tick w)) = None ->
storeFault env (S (S (tick w))) = None ->
find (hasKey req) (Memberships (cluster w)) = Some cgm ->
finalizer.IsZero (DeletionTimestamp (mMeta cgm)) = true ->
controllerutil.ContainsFinalizer
  (mMeta cgm) loopsContactGroupMembershipFinalizerKey = true ->
needsCreation cgm = true ->
find (hasKey (mkKey (crNamespace (ContactRef (mSpec cgm)))
                    (crName (ContactRef (mSpec cgm)))))
     (Contacts (cluster w)) = Some contact ->
find (hasKey (mkKey (grNamespace (ContactGroupRef (mSpec cgm)))
                    (grName (ContactGroupRef (mSpec cgm)))))
     (ContactGroups (cluster w)) = Some contactGroup ->
(forall provider, In provider (gProviders (gSpec contactGroup)) ->
                  gpName provider <> "Loops") ->
let run := Reconcile env req w in
remoteCalls (snd run) = remoteCalls w
/\ ctrl.err (fst run) <> None
/\ (storeFault env (S (S (S (tick w)))) = None ->
    ctrl.err (fst run)
    = Some (wrapError "failed to get Loops mailing list ID"
              (errorString "mailing list ID not found for contact group")))
/\ exists final readyCond,
     ctrl.object (fst run) = Some final
     /\ meta.FindStatusCondition (mConditions (mStatus final))
                                 LoopsContactGroupMembershipReadyCondition
        = Some readyCond
     /\ Status readyCond = ConditionFalse
     /\ Reason readyCond = LoopsContactGroupMembershipNotCreatedReason
     /\ Message readyCond
        = "Loops contact group membership not created on email provider: failed to get Loops mailing list ID: mailing list ID not found for contact group".
Proof.
intros H0 H1 H2 Hfind Hz Hfin Hneeds Hc Hg Hnone. cbv zeta.
rewrite (Reconcile_membership_creation
           req w cgm contact contactGroup H0 H1 H2 Hfind Hz Hfin Hneeds
           Hc Hg).
cbv zeta. rewrite (creation_without_list_id _ _ _ _ Hnone).
cbv beta iota zeta.
set (w3 := logged (StoreCall VGet "ContactGroup") _).
set (final := mSetCondition cgm _).
pose proof (PatchStatusIfChanged_remote final (mStatus cgm) (mStatus final)
                                        w3) as R.
assert (storeFault env (S (S (S (tick w)))) = None ->
        fst (util.PatchStatusIfChanged
               env equality.DeepEqualMembershipStatus final (mStatus cgm)
               (mStatus final) w3) = None) as Pok.
{ intros H3. unfold util.PatchStatusIfChanged, bind.
  destruct (negb _); [|reflexivity].
  pose proof (PatchStatus_accepted env final w3 H3) as Q.
  destruct (PatchStatus env final w3) as [pe w4]. cbn [fst] in Q.
  rewrite Q; [reflexivity|]. exact (find_stored req _ cgm Hfind). }
destruct (util.PatchStatusIfChanged _ _ _ _ _ _) as [pe w4].
cbn [fst snd] in R, Pok |- *.
split; [exact R|]. split; [now destruct pe|].
split; [intros H3; now rewrite (Pok H3)|].
unfold final.
match goal with
| |- context [mSetCondition cgm ?c] =>
    destruct (Find_SetStatusCondition_same (mConditions (mStatus cgm)) c)
      as [readyCond [Hr [Hs [Hre [Hm _]]]]]
end.
exists final, readyCond. split; [now destruct pe|].
split; [exact Hr|]. split; [exact Hs|]. split; [exact Hre | exact Hm].
Qed.

End MembershipCreation.

Section MembershipCreationWitness.
Import metav1 v1alpha1 client controller spec.
Import controller.LoopsContactGroupMembershipController.

Lemma membership_of_group_without_list_id_fails_without_remote_call_witness :
let w := mkWorld (mkCluster [example.pending] [example.local]
                            [example.membership] []) [] in
let run := Reconcile example.calm example.membershipKey w in
remoteCalls (snd run) = []
/\ ctrl.err (fst run)
   = Some (wrapError "failed to get Loops mailing list ID"
             (errorString "mailing list ID not found for contact group")).
Proof.
intros w run.
destruct (membership_of_group_without_list_id_fails_without_remote_call
            example.calm example.membershipKey w example.membership
            example.pending example.local
            eq_refl eq_refl eq_refl eq_refl eq_refl eq_refl eq_refl eq_refl
            eq_refl)
  as [R [_ [E _]]].
- intros provider [<- | []]. discriminate.
- split; [exact R | exact (E eq_refl)].
Defined.

End MembershipCreationWitness.

Section MembershipAccepted.
Import metav1 v1alpha1 client controller spec.
Import controller.LoopsContactGroupMembershipController.
Variable env : Env.

(** The creation branch when the provider accepts. *)
Lemma creation_membership_accepted cgm contact contactGroup listID w :
  getMailingListId contactGroup = (listID, None) ->
  loopsReply env (tick w) = None ->
  creation env cgm contact contactGroup w
  = (mWithProviders
       (mSetCondition cgm
          (mkCondition LoopsContactGroupMembershipReadyCondition
             ConditionTrue (Generation (mMeta cgm)) (clock env (S (tick w)))
             LoopsContactGroupMembershipCreatedReason
             "Loops contact group membership created on email provider"))
       [mkProviderStatus "Loops" (UID (cMeta contact))],
     None,
     logged (LoopsCall (loops.AddToMailingList (UID (cMeta contact)) listID))
            w).
Proof.
  intros Hlist Hrep. unfold creation, addContactToMailingList, bind.
  rewrite Hlist. unfold Loops, Now, ret. now rewrite Hrep.
Qed.

Lemma needsCreation_status (a b : ContactGroupMembership) :
  mStatus a = mStatus b -> needsCreation a = needsCreation b.
Proof. unfold needsCreation. now intros ->. Qed.

(** What is stored under a key after a status patch was served. *)
Lemma patched_find (obj : ContactGroupMembership) key
      (l : list ContactGroupMembership) (o : ContactGroupMembership) :
  find (hasKey key) l = Some o ->
  find (hasKey key)
       (map (fun o => if hasKey (keyOf obj) o then copyStatus obj o else o) l)
  = Some (if hasKey (keyOf obj) o then copyStatus obj o else o).
Proof.
  induction l as [|x l IH]; [discriminate|].
  cbn [find map].
  assert (hasKey key (if hasKey (keyOf obj) x then copyStatus obj x else x)
          = hasKey key x) as E by (now destruct (hasKey (keyOf obj) x)).
  rewrite E. destruct (hasKey key x); [now intros [= ->] | exact IH].
Qed.

(** X20. An accepted subscription is recorded.  A stored ContactGroupMembership
  in the creation case (not being deleted, finalizer in place, both
  referenced objects stored, the group with a Loops mailing-list id) whose
  reads and status patch the store serves and whose AddToMailingList the
  provider accepts: [Reconcile] makes that one call, with the UID of the
  contact and the id of the list, returns without error, and the stored
  membership then has the provider entry [{Loops, UID of the contact}] and
  a Ready condition True with reason ContactGroupMembershipCreated, so
  that it is not in the creation case any more. *)
Theorem accepted_membership_creation_is_recorded_in_the_store
      (req : ObjectKey) (w : World) (cgm : ContactGroupMembership)
      (contact : Contact) (contactGroup : ContactGroup) (listID : string) :
storeFault env (tick w) = None ->
storeFault env (S (tick w)) = None ->
storeFault env (S (S (tick w))) = None ->
find (hasKey req) (Memberships (cluster w)) = Some cgm ->
finalizer.IsZero (DeletionTimestamp (mMeta cgm)) = true ->
controllerutil.ContainsFinalizer
  (mMeta cgm) loopsContactGroupMembershipFinalizerKey = true ->
needsCreation cgm = true ->
find (hasKey (mkKey (crNamespace (ContactRef (mSpec cgm)))
                    (crName (ContactRef (mSpec cgm)))))
     (Contacts (cluster w)) = Some contact ->
find (hasKey (mkKey (grNamespace (ContactGroupRef (mSpec cgm)))
                    (grName (ContactGroupRef (mSpec cgm)))))
     (ContactGroups (cluster w)) = Some contactGroup ->
getMailingListId contactGroup = (listID, None) ->
loopsReply env (S (S (S (tick w)))) = None ->
storeFault env (S (S (S (S (tick w))))) = None ->
let run := Reconcile env req w in
let final :=
  mWithProviders
    (mSetCondition cgm
       (mkCondition LoopsContactGroupMembershipReadyCondition
          ConditionTrue (Generation (mMeta cgm))
          (clock env (S (S (S (S (tick w))))))
          LoopsContactGroupMembershipCreatedReason
          "Loops contact group membership created on email provider"))
    [mkProviderStatus "Loops" (UID (cMeta contact))] in
fst run = ctrl.done (Some final)
/\ remoteCalls (snd run)
   = LoopsCall (loops.AddToMailingList (UID (cMeta contact)) listID)
       :: remoteCalls w
/\ find (hasKey req) (Memberships (cluster (snd run))) = Some final
/\ needsCreation final = false.
Proof.
intros H0 H1 H2 Hfind Hz Hfin Hneeds Hc Hg Hlist Hrep H4. cbv zeta.
rewrite (Reconcile_membership_creation
           env req w cgm contact contactGroup H0 H1 H2 Hfind Hz Hfin Hneeds
           Hc Hg).
cbv zeta.
set (w3 := logged (StoreCall VGet "ContactGroup") _).
rewrite (creation_membership_accepted cgm contact contactGroup listID w3
                                      Hlist Hrep).
cbv beta iota zeta.
change (clock env (S (tick w3))) with (clock env (S (S (S (S (tick w)))))).
set (final := mWithProviders _ _).
set (w4 := logged (LoopsCall _) w3).
assert (needsCreation final = false) as Hdone.
{ unfold needsCreation, final. cbn [mWithProviders mWithStatus mStatus
                                     mConditions].
  unfold mSetCondition. cbn [mWithConditions mWithStatus mStatus mConditions].
  match goal with
  | |- context [meta.SetStatusCondition ?l ?c] =>
      destruct (Find_SetStatusCondition_same l c) as [c' [Hr [_ [Hre _]]]]
  end.
  change (Type_ _) with LoopsContactGroupMembershipReadyCondition in Hr.
  rewrite Hr, Hre. reflexivity. }
assert (equality.DeepEqualMembershipStatus (mStatus cgm) (mStatus final)
        = false) as Hdiff.
{ apply not_true_is_false. intros E.
  apply DeepEqualMembershipStatus_spec in E.
  apply needsCreation_status in E. congruence. }
unfold util.PatchStatusIfChanged, bind. rewrite Hdiff. cbn [negb].
rewrite (PatchStatus_served env final w4 H4)
  by exact (find_stored req _ cgm Hfind).
cbv beta iota. unfold ret. cbn [fst snd].
split; [reflexivity|]. split; [reflexivity|]. split; [|exact Hdone].
cbn [cluster setItems items MembershipObject Memberships].
change (Memberships (cluster w4)) with (Memberships (cluster w)).
rewrite (patched_find final req _ cgm Hfind).
change (keyOf final) with (keyOf cgm). now rewrite hasKey_keyOf.
Qed.

End MembershipAccepted.

Section MembershipAcceptedWitness.
Import metav1 v1alpha1 client controller spec.
Import controller.LoopsContactGroupMembershipController.

Lemma accepted_membership_creation_is_recorded_in_the_store_witness :
let run := Reconcile example.calm example.membershipKey
                     example.pendingWorld in
fst run = ctrl.done (Some example.subscribed')
/\ remoteCalls (snd run) = [LoopsCall (loops.AddToMailingList "u1" "g1")]
/\ find (hasKey example.membershipKey) (Memberships (cluster (snd run)))
   = Some example.subscribed'
/\ needsCreation example.subscribed' = false.
Proof.
exact (accepted_membership_creation_is_recorded_in_the_store
         example.calm example.membershipKey example.pendingWorld
         example.membership example.pending example.news "g1"
         eq_refl eq_refl eq_refl eq_refl eq_refl eq_refl eq_refl eq_refl
         eq_refl eq_refl eq_refl eq_refl).
Defined.

End MembershipAcceptedWitness.

(* ------------------------------------------------------------------------- *)
(** * The ContactGroupMembership reconciler: finalization *)

Section MembershipFinalization.
Import metav1 v1alpha1 client controller spec.
Import controller.LoopsContactGroupMembershipController.
Variable env : Env.

(** [Reconcile] on a stored membership under deletion that has the key. *)
Lemma Reconcile_membership_deleting req w cgm :
  storeFault env (tick w) = None ->
  find (hasKey req) (Memberships (cluster w)) = Some cgm ->
  finalizer.IsZero (DeletionTimestamp (mMeta cgm)) = false ->
  controllerutil.ContainsFinalizer
    (mMeta cgm) loopsContactGroupMembershipFinalizerKey = true ->
  Reconcile env req w
  = (let '(_, err, final, w2) :=
       loopsContactGroupMembershipFinalizer.Finalize
         env cgm (logged (StoreCall VGet "ContactGroupMembership") w) in
     match err with
     | Some e =>
         (ctrl.failed
            (wrapError "failed to run finalizers for ContactGroupMembership"
               (aggregateError
                  (wrapError
                     ("finalizer "
                        ++ finalizer.quoted
                             loopsContactGroupMembershipFinalizerKey
                        ++ " failed") e)))
            (Some final), w2)
     | None =>
         let released :=
           mkMembership
             (controllerutil.RemoveFinalizer
                (mMeta final) loopsContactGroupMembershipFinalizerKey)
             (mSpec final) (mStatus final) in
         let (updateErr, w3) := Update env released w2 in
         (match updateErr with
          | Some ue => if apierrors.IsConflict ue
                       then ctrl.requeue (Some released)
                       else ctrl.failed ue (Some released)
          | None => ctrl.done (Some released)
          end, w3)
     end).
Proof.
  intros Hok Hfind Hz Hfin. unfold Reconcile, bind.
  rewrite Get_eq, Hok. cbn [items MembershipObject]. rewrite Hfind.
  unfold finalizer.Finalize.
  cbn [GetObjectMeta SetObjectMeta MembershipObject]. rewrite Hz, Hfin.
  cbn [andb negb]. unfold bind.
  destruct (loopsContactGroupMembershipFinalizer.Finalize env cgm _)
    as [[[res err] final] w2].
  destruct err as [e|]; unfold ret; cbv beta iota; [reflexivity|].
  cbn [finalizer.Updated].
  destruct (Update env _ w2) as [[ue|] w3]; [|reflexivity].
  now destruct (apierrors.IsConflict ue).
Qed.

(** The failure branch of the finalizer: the error is kept, whatever
    becomes of the status patch; nothing but a status is written. *)
Lemma Finalize_failed cgm w e finalizerError w1 :
  loopsContactGroupMembershipFinalizer.cleanup env cgm w
  = (Some (e, finalizerError), w1) ->
  exists err w2,
    loopsContactGroupMembershipFinalizer.Finalize env cgm w
    = (finalizer.mkResult false false, Some err,
       mSetCondition cgm
         (mkCondition LoopsContactGroupMembershipReadyCondition
            ConditionFalse (Generation (mMeta cgm)) (clock env (tick w1))
            LoopsContactGroupMembershipNotFinalizedReason
            ("Failed to remove Loops contact from mailing list: "
               ++ Error e)),
       w2)
    /\ remoteCalls w2 = remoteCalls w1
    /\ map mMeta (Memberships (cluster w2))
       = map mMeta (Memberships (cluster w1)).
Proof.
  intros C. unfold loopsContactGroupMembershipFinalizer.Finalize, bind.
  rewrite C. unfold Now. cbv beta iota.
  match goal with
  | |- context [util.PatchStatusIfChanged env _ ?c ?old ?new w1] =>
      pose proof (PatchStatusIfChanged_remote env c old new w1) as R;
      pose proof (PatchStatusIfChanged_metas env c old new w1) as [M _];
      destruct (util.PatchStatusIfChanged
                  env equality.DeepEqualMembershipStatus c old new w1)
        as [[pe|] w2]
  end; cbn [snd] in R, M; unfold ret; do 2 eexists;
    (split; [reflexivity|]); now split.
Qed.

(** X21. A membership whose Contact is gone cannot be finalized.  For a stored
  ContactGroupMembership under deletion that still has the finalizer key
  (the reads served) and whose referenced Contact is not in the store:
  [Reconcile] makes no call to the provider and returns an error, the
  membership it returns with has a Ready condition False with reason
  ContactGroupMembershipNotFinalized, and the metadata of the stored
  memberships is as it was, so the membership keeps its finalizer and
  stays in the store. *)
Theorem membership_without_its_contact_is_never_released
      (req : ObjectKey) (w : World) (cgm : ContactGroupMembership) :
storeFault env (tick w) = None ->
storeFault env (S (tick w)) = None ->
find (hasKey req) (Memberships (cluster w)) = Some cgm ->
finalizer.IsZero (DeletionTimestamp (mMeta cgm)) = false ->
controllerutil.ContainsFinalizer
  (mMeta cgm) loopsContactGroupMembershipFinalizerKey = true ->
find (hasKey (mkKey (crNamespace (ContactRef (mSpec cgm)))
                    (crName (ContactRef (mSpec cgm)))))
     (Contacts (cluster w)) = None ->
let run := Reconcile env req w in
remoteCalls (snd run) = remoteCalls w
/\ ctrl.err (fst run) <> None
/\ map mMeta (Memberships (cluster (snd run)))
   = map mMeta (Memberships (cluster w))
/\ exists final readyCond,
     ctrl.object (fst run) = Some final
     /\ meta.FindStatusCondition (mConditions (mStatus final))
                                 LoopsContactGroupMembershipReadyCondition
        = Some readyCond
     /\ Status readyCond = ConditionFalse
     /\ Reason readyCond = LoopsContactGroupMembershipNotFinalizedReason.
Proof.
intros H0 H1 Hfind Hz Hfin Hgone. cbv zeta.
rewrite (Reconcile_membership_deleting req w cgm H0 Hfind Hz Hfin).
set (w1 := logged (StoreCall VGet "ContactGroupMembership") w).
assert (exists e finalizerError,
           loopsContactGroupMembershipFinalizer.cleanup env cgm w1
           = (Some (e, finalizerError), logged (StoreCall VGet "Contact") w1))
  as [e [finalizerError C]].
{ unfold loopsContactGroupMembershipFinalizer.cleanup,
    getReferencedResources, bind.
  rewrite Get_eq.
  change (tick w1) with (S (tick w)). rewrite H1.
  cbn [items ContactObject cluster w1 logged]. rewrite Hgone.
  unfold ret. do 2 eexists. reflexivity. }
destruct (Finalize_failed cgm w1 e finalizerError _ C)
  as [err [w2 [F [R M]]]].
rewrite F. cbv beta iota. cbn [fst snd ctrl.failed ctrl.err ctrl.object].
split; [exact R|]. split; [discriminate|]. split; [exact M|].
match goal with
| |- context [mSetCondition cgm ?c] =>
    destruct (Find_SetStatusCondition_same (mConditions (mStatus cgm)) c)
      as [readyCond [Hr [Hs [Hre _]]]]
end.
eexists. exists readyCond. split; [reflexivity|].
split; [exact Hr|]. split; [exact Hs | exact Hre].
Qed.

(** X22. The finalizer of a membership takes the contact off the mailing list,
  and tolerates no answer but success.  For a stored
  ContactGroupMembership under deletion that still has the finalizer key
  (the reads served, both referenced objects stored, the group with a
  Loops mailing-list id): [Reconcile] makes exactly one call to the
  provider, RemoveFromMailingList with the UID of the contact and the id
  of the list.  When the provider accepts, the membership is updated
  without the key: once the store serves that update no stored membership
  of that name has the key any more, and the membership is gone from the
  store when the key was its only finalizer.  When the provider answers
  any error, not-found included, [Reconcile] returns an error and the
  metadata of the stored memberships is as it was. *)
Theorem membership_is_released_only_after_removal_from_mailing_list
      (req : ObjectKey) (w : World) (cgm : ContactGroupMembership)
      (contact : Contact) (contactGroup : ContactGroup) (listID : string) :
storeFault env (tick w) = None ->
storeFault env (S (tick w)) = None ->
storeFault env (S (S (tick w))) = None ->
find (hasKey req) (Memberships (cluster w)) = Some cgm ->
finalizer.IsZero (DeletionTimestamp (mMeta cgm)) = false ->
controllerutil.ContainsFinalizer
  (mMeta cgm) loopsContactGroupMembershipFinalizerKey = true ->
find (hasKey (mkKey (crNamespace (ContactRef (mSpec cgm)))
                    (crName (ContactRef (mSpec cgm)))))
     (Contacts (cluster w)) = Some contact ->
find (hasKey (mkKey (grNamespace (ContactGroupRef (mSpec cgm)))
                    (grName (ContactGroupRef (mSpec cgm)))))
     (ContactGroups (cluster w)) = Some contactGroup ->
getMailingListId contactGroup = (listID, None) ->
let run := Reconcile env req w in
remoteCalls (snd run)
= LoopsCall (loops.RemoveFromMailingList (UID (cMeta contact)) listID)
    :: remoteCalls w
/\ match loopsReply env (S (S (S (tick w)))) with
   | None =>
       storeFault env (S (S (S (S (tick w))))) = None ->
       ctrl.err (fst run) = None
       /\ (forall m, In m (Memberships (cluster (snd run))) ->
                     hasKey req m = true ->
                     controllerutil.ContainsFinalizer
                       (mMeta m) loopsContactGroupMembershipFinalizerKey
                     = false)
       /\ (Finalizers (mMeta cgm)
           = [loopsContactGroupMembershipFinalizerKey] ->
           existsb (hasKey req) (Memberships (cluster (snd run))) = false)
   | Some e =>
       ctrl.err (fst run) <> None
       /\ map mMeta (Memberships (cluster (snd run)))
          = map mMeta (Memberships (cluster w))
   end.
Proof.
intros H0 H1 H2 Hfind Hz Hfin Hc Hg Hlist. cbv zeta.
rewrite (Reconcile_membership_deleting req w cgm H0 Hfind Hz Hfin).
set (w1 := logged (StoreCall VGet "ContactGroupMembership") w).
set (w3 := logged (StoreCall VGet "ContactGroup")
                  (logged (StoreCall VGet "Contact") w1)).
set (w4 := logged (LoopsCall (loops.RemoveFromMailingList
                                (UID (cMeta contact)) listID)) w3).
assert (loopsContactGroupMembershipFinalizer.cleanup env cgm w1
        = (match loopsReply env (S (S (S (tick w)))) with
           | Some e =>
               let e' := wrapError
                           "failed to remove Loops contact from mailing list"
                           e in
               Some (e', wrapError "failed to delete Loops contact" e')
           | None => None
           end, w4)) as C.
{ unfold loopsContactGroupMembershipFinalizer.cleanup, bind.
  rewrite (getReferencedResources_found env cgm contact contactGroup w1)
    by assumption.
  unfold loopsContactGroupMembershipFinalizer.removeContactFromMailingList,
    bind.
  rewrite Hlist. unfold Loops.
  change (tick (logged (StoreCall VGet "ContactGroup")
                       (logged (StoreCall VGet "Contact") w1)))
    with (S (S (S (tick w)))).
  now destruct (loopsReply env (S (S (S (tick w))))). }
destruct (loopsReply env (S (S (S (tick w))))) as [e|].
- destruct (Finalize_failed cgm w1 _ _ _ C) as [err [w5 [F [R M]]]].
  rewrite F. cbv beta iota. cbn [fst snd ctrl.failed ctrl.err].
  split; [exact R|]. split; [discriminate | exact M].
- unfold loopsContactGroupMembershipFinalizer.Finalize, bind.
  rewrite C. unfold ret. cbv beta iota zeta.
  set (released := mkMembership _ (mSpec cgm) (mStatus cgm)).
  destruct (find_hasKey req _ cgm Hfind) as [Hreq Hin].
  assert (keyOf released = req) as K by (now subst req).
  assert (isNil (DeletionTimestamp (mMeta cgm)) = false) as Hnil
      by (destruct (DeletionTimestamp (mMeta cgm)); [reflexivity
                                                    | discriminate Hz]).
  pose proof (Update_remote env released w4) as R.
  destruct (storeFault env (S (S (S (S (tick w)))))) as [ue|] eqn:H4.
  + destruct (Update env released w4) as [updateErr w5]. cbn [fst snd] in *.
    split; [exact R | discriminate].
  + assert (existsb (hasKey (keyOf released)) (Memberships (cluster w4))
            = true) as E.
    { rewrite K. apply existsb_exists. exists cgm.
      split; [exact Hin | now apply hasKey_eq]. }
    rewrite (Update_accepted env released w4 H4 E) in *.
    cbn [fst snd cluster setItems MembershipObject Memberships items
         ctrl.done ctrl.err].
    split; [exact R|]. intros _. split; [reflexivity|]. split.
    * intros m Hm Hk. rewrite <- K in Hk.
      destruct (updated_lookup released _ m Hm Hk) as [-> _].
      apply ContainsFinalizer_RemoveFinalizer.
    * intros Hone. destruct (existsb (hasKey req) _) eqn:X; [|reflexivity].
      apply existsb_exists in X as [m [Hm Hk]]. rewrite <- K in Hk.
      destruct (updated_lookup released _ m Hm Hk) as [_ Hp].
      unfold purged in Hp. cbn [GetObjectMeta MembershipObject] in Hp.
      unfold released in Hp.
      cbn [mMeta controllerutil.RemoveFinalizer withFinalizers Finalizers
           DeletionTimestamp] in Hp.
      rewrite Hone, Hnil in Hp. cbn in Hp. discriminate Hp.
Qed.

End MembershipFinalization.

Section MembershipFinalizationWitness.
Import metav1 v1alpha1 client controller spec.
Import controller.LoopsContactGroupMembershipController.

Lemma membership_without_its_contact_is_never_released_witness :
let w := mkWorld (mkCluster [] [example.news] [example.leaving] []) [] in
let run := Reconcile example.calm example.membershipKey w in
remoteCalls (snd run) = []
/\ ctrl.err (fst run) <> None
/\ map mMeta (Memberships (cluster (snd run))) = [mMeta example.leaving].
Proof.
intros w run.
destruct (membership_without_its_contact_is_never_released
            example.calm example.membershipKey w example.leaving
            eq_refl eq_refl eq_refl eq_refl eq_refl eq_refl)
  as [R [E [M _]]].
split; [exact R|]. split; [exact E | exact M].
Defined.

Lemma membership_is_released_only_after_removal_from_mailing_list_witness :
let w := mkWorld (mkCluster [example.converged] [example.news]
                            [example.leaving] []) [] in
let run := Reconcile example.calm example.membershipKey w in
remoteCalls (snd run) = [LoopsCall (loops.RemoveFromMailingList "u1" "g1")]
/\ ctrl.err (fst run) = None
/\ existsb (hasKey example.membershipKey) (Memberships (cluster (snd run)))
   = false.
Proof.
intros w run.
destruct (membership_is_released_only_after_removal_from_mailing_list
            example.calm example.membershipKey w example.leaving
            example.converged example.news "g1"
            eq_refl eq_refl eq_refl eq_refl eq_refl eq_refl eq_refl eq_refl
            eq_refl)
  as [R Rel].
destruct (Rel eq_refl) as [E [_ Gone]].
split; [exact R|]. split; [exact E | exact (Gone eq_refl)].
Defined.

End MembershipFinalizationWitness.

(* ------------------------------------------------------------------------- *)
(** * The HTTP entry point of the webhook *)

Section ServeFacts.
Import client webhook.
Variable unmarshalEvent : string -> loops.WebhookEvent + error.
Variable unmarshalSubscribed
  : string -> loops.MailingListSubscribedEvent + error.
Variable unmarshalUnsubscribed
  : string -> loops.MailingListUnsubscribedEvent + error.

(** X23. Only a verified POST reaches the handler.  Whatever the handler is: a
  request whose method is not POST is answered with
  [MethodNotAllowedResponse] and the header [Allow] set to [POST],
  whatever it held before; a POST whose
  signature does not verify is answered with [UnauthorizedResponse]; in
  both cases nothing is done to the store.  And whenever [ServeHTTP] has
  done anything to the store or the provider, the request was a POST with
  a readable body that [verifyWebhook] accepted under the signing secret
  and whose event name is one of the two mailing-list events. *)
Theorem ServeHTTP_runs_handler_only_for_verified_post
      (wh : Webhook) (rw : ResponseWriter) (r : http.Request)
      (read : string + error) (w : World) :
let run :=
  ServeHTTP unmarshalEvent unmarshalSubscribed unmarshalUnsubscribed
            wh rw r read w in
(http.Method r <> "POST" ->
 run = (mkResponseWriter (http.Set_ (wHeader rw) "Allow" "POST")
                         (Some (HttpStatus MethodNotAllowedResponse)), w)
 /\ http.Get (wHeader (fst run)) "Allow" = "POST")
/\ (http.Method r = "POST" ->
    forall body e,
      read = inl body ->
      verifyWebhook r body (signingSecret wh) = Some e ->
      run = (writeResponse rw UnauthorizedResponse, w))
/\ (snd run <> w ->
    http.Method r = "POST"
    /\ exists body baseEvent,
         read = inl body
         /\ verifyWebhook r body (signingSecret wh) = None
         /\ unmarshalEvent body = inl baseEvent
         /\ (loops.EventName baseEvent = loops.EventNameMailingListSubscribed
             \/ loops.EventName baseEvent
                = loops.EventNameMailingListUnsubscribed)).
Proof.
cbv zeta. unfold ServeHTTP.
destruct (String.eqb_spec (http.Method r) "POST") as [Hm | Hm]; cbn [negb].
- split; [intros N; now elim N|]. split.
  + intros _ body e -> V. now rewrite V.
  + destruct read as [body|e]; [|intros N; now elim N].
    destruct (verifyWebhook r body (signingSecret wh)) as [e|] eqn:V;
      [intros N; now elim N|].
    destruct (unmarshalEvent body) as [baseEvent|e] eqn:U;
      [|intros N; now elim N].
    destruct (String.eqb_spec (loops.EventName baseEvent)
                              loops.EventNameMailingListSubscribed)
      as [Es | Es].
    * intros _. split; [exact Hm|]. exists body, baseEvent. auto.
    * destruct (String.eqb_spec (loops.EventName baseEvent)
                                loops.EventNameMailingListUnsubscribed)
        as [Eu | Eu]; [|intros N; now elim N].
      intros _. split; [exact Hm|]. exists body, baseEvent. auto.
- split; [intros _; split; reflexivity|]. split; [intros E; now elim Hm|].
  intros N. now elim N.
Qed.

End ServeFacts.

Section ServeWitness.
Import client webhook.

Lemma ServeHTTP_runs_handler_only_for_verified_post_witness :
let wh := NewLoopsContactGroupMembershipWebhookV1 example.calm
                                                  example.secret in
let unmarshalEvent := fun _ : string =>
  inl (spec.baseEvent loops.EventNameMailingListSubscribed "u1") in
let unmarshalSubscribed := fun _ : string =>
  inr (errorString "unexpected end of JSON input") in
let unmarshalUnsubscribed := fun _ : string =>
  inr (errorString "unexpected end of JSON input") in
ServeHTTP unmarshalEvent unmarshalSubscribed unmarshalUnsubscribed wh
          (mkResponseWriter [] None) (http.mkRequest "GET" []) (inl "{}")
          example.fresh
= (mkResponseWriter [("Allow", "POST")]
                    (Some (HttpStatus MethodNotAllowedResponse)),
   example.fresh)
/\ ServeHTTP unmarshalEvent unmarshalSubscribed unmarshalUnsubscribed wh
             (mkResponseWriter [] None)
             (spec.signedRequest "evt_1" "" "v1,AAAA") (inl "{}")
             example.fresh
   = (writeResponse (mkResponseWriter [] None) UnauthorizedResponse,
      example.fresh).
Proof.
intros wh unmarshalEvent unmarshalSubscribed unmarshalUnsubscribed.
split.
- destruct (ServeHTTP_runs_handler_only_for_verified_post
              unmarshalEvent unmarshalSubscribed unmarshalUnsubscribed wh
              (mkResponseWriter [] None) (http.mkRequest "GET" [])
              (inl "{}") example.fresh) as [H _].
  destruct H as [H _]; [discriminate | exact H].
- destruct (ServeHTTP_runs_handler_only_for_verified_post
              unmarshalEvent unmarshalSubscribed unmarshalUnsubscribed wh
              (mkResponseWriter [] None)
              (spec.signedRequest "evt_1" "" "v1,AAAA") (inl "{}")
              example.fresh) as [_ [H _]].
  exact (H eq_refl "{}" _ eq_refl eq_refl).
Defined.

End ServeWitness.

(* ------------------------------------------------------------------------- *)
(** * The SDK of the provider *)

Section SDKFacts.
Import sdk_client.
Variable Marshal : Payload -> string + error.
Variable NewRequest : string -> string -> option error.
Variable Decode : string -> APIResponse + error.
Variable network : HTTPRequest -> HTTPResponse + error.

(** The options the package offers. *)
Lemma options_keep_apiKey (opts : list ClientOption) (c : Client) :
  Forall (fun opt => (exists url, opt = WithBaseURL url)
                     \/ (exists client, opt = WithHTTPClient client)) opts ->
  apiKey (fold_left (fun c opt => opt c) opts c) = apiKey c.
Proof.
  intros H. revert c. induction H as [|opt opts Ho _ IH]; intros c;
    [reflexivity|].
  cbn [fold_left]. rewrite IH.
  destruct Ho as [[url ->] | [client ->]]; reflexivity.
Qed.

(** X24. [NewSDK] checks the key first and the base URL last.  An empty API key
  is refused whatever the options are.  With a non-empty key and options
  made of [WithBaseURL] and [WithHTTPClient]: a client that is returned
  has the key it was given and a non-empty base URL; and the options are
  applied in order, so that the last base URL wins: with [WithBaseURL url]
  as the last option the client is refused exactly when [url] is empty,
  and has base URL [url] otherwise. *)
Theorem NewSDK_checks_key_first_and_last_base_url
      (key url : string) (opts : list ClientOption) :
NewSDK network "" opts = inr (errorString "api key is required")
/\ (key <> EmptyString ->
    Forall (fun opt => (exists url, opt = WithBaseURL url)
                       \/ (exists client, opt = WithHTTPClient client))
           opts ->
    (forall c, NewSDK network key opts = inl c ->
               apiKey c = key /\ baseURL c <> EmptyString)
    /\ NewSDK network key (opts ++ [WithBaseURL url])%list
       = if String.eqb url ""
         then inr (errorString "base url is required")
         else inl (mkClient
                     key url
                     (httpClient
                        (fold_left (fun c opt => opt c) opts
                           (mkClient key defaultBaseURL
                                     (mkHTTPClient 10 network)))))).
Proof.
split; [reflexivity|].
intros Hkey Hopts. apply String.eqb_neq in Hkey. unfold NewSDK.
rewrite Hkey. cbv zeta. split.
- intros c.
  destruct (String.eqb_spec
              (baseURL (fold_left (fun c opt => opt c) opts
                          (mkClient key defaultBaseURL
                                    (mkHTTPClient 10 network)))) "")
    as [E | N]; [discriminate|].
  intros [= <-]. split; [|exact N].
  now rewrite options_keep_apiKey.
- rewrite fold_left_app. cbn [fold_left]. unfold WithBaseURL.
  cbn [baseURL]. rewrite options_keep_apiKey by exact Hopts.
  reflexivity.
Qed.

(** X25. The error of a request carries the HTTP status.  Once the body was
  marshalled, the request built and the transport returned a response:
  with a status of 400 or more [sendRequest] returns the [*Error] of that
  status and body without decoding anything, so that the error is
  bad-request, not-found or conflict exactly when the status is 400, 404
  or 409; with a lower status, any 3xx included, it returns no error
  unless the caller passed an [out] and the body does not decode. *)
Theorem sendRequest_error_carries_http_status
      (c : Client) (method path : string) (body : option Payload)
      (out : option APIResponse) (bodyReader : option string)
      (resp : HTTPResponse) :
match body with
| Some b => exists data, Marshal b = inl data /\ bodyReader = Some data
| None => bodyReader = None
end ->
NewRequest method (baseURL c ++ path) = None ->
Do (httpClient c)
   (mkHTTPRequest method (baseURL c ++ path)
      [("Authorization", "Bearer " ++ apiKey c);
       ("Content-Type", "application/json")] bodyReader)
= inl resp ->
let err := fst (sendRequest Marshal NewRequest Decode c method path body out) in
((400 <= StatusCode resp)%Z ->
 err = Some (LoopsError (StatusCode resp) (Body resp))
 /\ forall e, err = Some e ->
      (loops.IsBadRequest e = true <-> StatusCode resp = 400%Z)
      /\ (loops.IsNotFound e = true <-> StatusCode resp = 404%Z)
      /\ (loops.IsConflict e = true <-> StatusCode resp = 409%Z))
/\ ((StatusCode resp < 400)%Z ->
    err = match out with
          | Some _ =>
              match Decode (Body resp) with
              | inr de => Some (wrapError "failed to decode response" de)
              | inl _ => None
              end
          | None => None
          end).
Proof.
intros Hbody Hreq Hdo. cbv zeta. unfold sendRequest.
assert (match body with
        | Some b => match Marshal b with
                    | inl data => inl (Some data)
                    | inr err => inr err
                    end
        | None => inl None
        end = inl bodyReader) as M.
{ destruct body as [b|]; [|now subst].
  destruct Hbody as [data [-> ->]]. reflexivity. }
rewrite M, Hreq, Hdo. split.
- intros Hs. apply Z.leb_le in Hs. rewrite Hs. cbn [fst].
  split; [reflexivity|]. intros e [= <-].
  unfold loops.IsBadRequest, loops.IsNotFound, loops.IsConflict,
    loops.isErrorStatus. cbn [loops.asError].
  rewrite !Z.eqb_eq. now repeat split.
- intros Hs. apply Z.leb_gt in Hs. rewrite Hs.
  destruct out; [|reflexivity]. now destruct (Decode (Body resp)).
Qed.

End SDKFacts.

Section SDKWitness.
Import sdk_client.

Lemma NewSDK_checks_key_first_and_last_base_url_witness :
let network := fun _ : HTTPRequest =>
  inl (mkHTTPResponse 200 "{}") : HTTPResponse + error in
NewSDK network "test-api-key"
       [WithBaseURL "http://localhost"; WithBaseURL ""]
= inr (errorString "base url is required").
Proof.
intros network.
destruct (NewSDK_checks_key_first_and_last_base_url
            network "test-api-key" "" [WithBaseURL "http://localhost"])
  as [_ H].
destruct H as [_ H].
- discriminate.
- constructor; [|constructor]. left. now exists "http://localhost".
- exact H.
Defined.

Lemma sendRequest_error_carries_http_status_witness :
let Marshal := fun _ : Payload => inl "{}" : string + error in
let NewRequest := fun _ _ : string => @None error in
let Decode := fun _ : string =>
  inl (mkAPIResponse true "" "") : APIResponse + error in
let answer := mkHTTPResponse 404 "{}" in
let c := mkClient "test-key" "http://localhost"
                  (mkHTTPClient 10 (fun _ => inl answer)) in
let err := fst (sendRequest Marshal NewRequest Decode c "POST"
                            "/contacts/delete"
                            (Some (DeletePayload
                                     (mkDeleteContactRequest "missing-user")))
                            (Some zeroResponse)) in
err = Some (LoopsError 404 "{}")
/\ forall e, err = Some e -> loops.IsNotFound e = true.
Proof.
intros Marshal NewRequest Decode answer c err.
destruct (sendRequest_error_carries_http_status
            Marshal NewRequest Decode c "POST" "/contacts/delete"
            (Some (DeletePayload (mkDeleteContactRequest "missing-user")))
            (Some zeroResponse) (Some "{}") answer)
  as [H _].
- now exists "{}".
- reflexivity.
- reflexivity.
- destruct H as [E C]; [cbn; lia|].
  split; [exact E|]. intros e He. now apply (C e He).
Defined.

End SDKWitness.

(* ------------------------------------------------------------------------- *)
(** * Reconciling an object that is gone, reconciling a contact again *)

Section Absent.
Import metav1 v1alpha1 client controller spec.

(** X26. An object that is gone ends its reconciliation quietly.  When the store
  serves the read and holds no object of the name asked for, both
  reconcilers return no error and no requeue after that one read; when
  the store refuses the read, they return the error, wrapped, unless it is
  itself a not-found. *)
Theorem Reconcile_of_absent_object_only_reads
      (env : Env) (r : LoopsContactController.Fields)
      (req : ObjectKey) (w : World) :
(find (hasKey req) (Contacts (cluster w)) = None ->
 LoopsContactController.Reconcile env r req w
 = (match storeFault env (tick w) with
    | None => ctrl.done None
    | Some e =>
        if apierrors.IsNotFound e then ctrl.done None
        else ctrl.failed (wrapError "failed to get contact" e) None
    end, logged (StoreCall VGet "Contact") w))
/\ (find (hasKey req) (Memberships (cluster w)) = None ->
    LoopsContactGroupMembershipController.Reconcile env req w
    = (match storeFault env (tick w) with
       | None => ctrl.done None
       | Some e =>
           if apierrors.IsNotFound e then ctrl.done None
           else ctrl.failed
                  (wrapError "failed to get contactgroupmembership" e) None
       end, logged (StoreCall VGet "ContactGroupMembership") w)).
Proof.
split; intros Hnone.
- unfold LoopsContactController.Reconcile, bind. rewrite Get_eq.
  cbn [items ContactObject]. rewrite Hnone.
  destruct (storeFault env (tick w)) as [e|]; [|reflexivity].
  now destruct (apierrors.IsNotFound e).
- unfold LoopsContactGroupMembershipController.Reconcile, bind.
  rewrite Get_eq. cbn [items MembershipObject]. rewrite Hnone.
  destruct (storeFault env (tick w)) as [e|]; [|reflexivity].
  now destruct (apierrors.IsNotFound e).
Qed.

Lemma Reconcile_of_absent_object_only_reads_witness :
LoopsContactController.Reconcile example.calm example.fields
                                 (mkKey "default" "bob") example.fresh
= (ctrl.done None, logged (StoreCall VGet "Contact") example.fresh)
/\ LoopsContactGroupMembershipController.Reconcile
     example.calm (mkKey "default" "bob") example.fresh
   = (ctrl.done None,
      logged (StoreCall VGet "ContactGroupMembership") example.fresh).
Proof.
destruct (Reconcile_of_absent_object_only_reads
            example.calm example.fields (mkKey "default" "bob")
            example.fresh) as [Hc Hm].
split; [exact (Hc eq_refl) | exact (Hm eq_refl)].
Defined.

End Absent.

Section Again.
Import metav1 v1alpha1 client controller spec.
Import controller.LoopsContactController.
Variable env : Env.
Variable r : Fields.

(** A contact for which the switch has nothing to send: reconciling it
    makes no call to the provider. *)
Lemma Reconcile_nothing_to_send req w contact :
  find (hasKey req) (Contacts (cluster w)) = Some contact ->
  finalizer.IsZero (DeletionTimestamp (cMeta contact)) = true ->
  switchCase contact = CaseNone ->
  remoteCalls (snd (Reconcile env r req w)) = remoteCalls w.
Proof.
  intros Hfind Hz Hcase.
  destruct (storeFault env (tick w)) as [e|] eqn:Hok.
  - unfold Reconcile, bind. rewrite Get_eq, Hok.
    now destruct (apierrors.IsNotFound e).
  - rewrite (Reconcile_not_deleting env r req w contact Hok Hfind Hz).
    destruct (controllerutil.ContainsFinalizer _ _).
    + transitivity (remoteCalls (logged (StoreCall VGet "Contact") w));
        [|reflexivity].
      generalize (logged (StoreCall VGet "Contact") w).
      change (preserves remoteCalls (converge env r contact)).
      unfold converge. rewrite Hcase.
      preserve; apply addToNewsLetterList_remote.
    + cbv zeta.
      match goal with
      | |- context [Update env ?c ?w0] =>
          pose proof (Update_remote env c w0) as P;
          destruct (Update env c w0) as [ue w']
      end.
      exact P.
Qed.

Lemma creation_accepted_eq contact w :
  loopsReply env (tick w) = None ->
  creation env contact w
  = (withProviders
       (setCondition contact
          (readyCondition ConditionTrue LoopsContactCreatedReason
             "Loops contact created on email provider" contact
             (clock env (S (tick w)))))
       [mkProviderStatus "Loops" (UID (cMeta contact))],
     None,
     logged (LoopsCall
               (loops.UpsertContact
                  (loops.mkContactRequest
                     (Email (cSpec contact)) (UID (cMeta contact))
                     (GivenName (cSpec contact)) (FamilyName (cSpec contact))
                     "email-provider-loops-k8s-controller" (Some true)))) w).
Proof.
  intros Hok. unfold creation, upsertContact, bind, Loops, Now, ret.
  now rewrite Hok.
Qed.

Lemma switchCase_status (a b : Contact) :
  cStatus a = cStatus b -> Generation (cMeta a) = Generation (cMeta b) ->
  switchCase a = switchCase b.
Proof. unfold switchCase, generation. now intros -> ->. Qed.

Lemma patched_find_contact (obj : Contact) key (l : list Contact)
      (o : Contact) :
  find (hasKey key) l = Some o ->
  find (hasKey key)
       (map (fun o => if hasKey (keyOf obj) o then copyStatus obj o else o) l)
  = Some (if hasKey (keyOf obj) o then copyStatus obj o else o).
Proof.
  induction l as [|x l IH]; [discriminate|].
  cbn [find map].
  assert (hasKey key (if hasKey (keyOf obj) x then copyStatus obj x else x)
          = hasKey key x) as E by (now destruct (hasKey (keyOf obj) x)).
  rewrite E. destruct (hasKey key x); [now intros [= ->] | exact IH].
Qed.

(** X27. Reconciling twice creates the provider's contact once.  For a stored
  Contact in the creation case (not being deleted, finalizer in place),
  a store that refuses nothing and a provider that accepts the upsert:
  two reconciliations in a row make one call to the provider, the
  UpsertContact of the first; the second finds the Ready condition the
  first one stored and sends nothing, whatever the provider would
  answer. *)
Theorem reconciling_a_contact_twice_upserts_it_once
      (req : ObjectKey) (w : World) (contact : Contact) :
(forall n, storeFault env n = None) ->
find (hasKey req) (Contacts (cluster w)) = Some contact ->
finalizer.IsZero (DeletionTimestamp (cMeta contact)) = true ->
controllerutil.ContainsFinalizer (cMeta contact) loopsContactFinalizerKey
= true ->
switchCase contact = CaseCreation ->
loopsReply env (S (tick w)) = None ->
remoteCalls (snd (twice (Reconcile env r req) w))
= LoopsCall
    (loops.UpsertContact
       (loops.mkContactRequest
          (Email (cSpec contact)) (UID (cMeta contact))
          (GivenName (cSpec contact)) (FamilyName (cSpec contact))
          "email-provider-loops-k8s-controller" (Some true)))
    :: remoteCalls w.
Proof.
intros accepts Hfind Hz Hfin Hcase Hrep.
assert (exists stored,
           remoteCalls (snd (Reconcile env r req w))
           = LoopsCall
               (loops.UpsertContact
                  (loops.mkContactRequest
                     (Email (cSpec contact)) (UID (cMeta contact))
                     (GivenName (cSpec contact)) (FamilyName (cSpec contact))
                     "email-provider-loops-k8s-controller" (Some true)))
               :: remoteCalls w
           /\ find (hasKey req)
                   (Contacts (cluster (snd (Reconcile env r req w))))
              = Some stored
           /\ finalizer.IsZero (DeletionTimestamp (cMeta stored)) = true
           /\ switchCase stored = CaseNone) as [stored [R1 [F1 [Z1 S1]]]].
{ rewrite (Reconcile_not_deleting env r req w contact (accepts _) Hfind Hz),
    Hfin.
  set (w0 := logged (StoreCall VGet "Contact") w).
  unfold converge, bind. rewrite Hcase.
  rewrite (creation_accepted_eq contact w0 Hrep).
  set (c1 := withProviders _ _). set (w1 := logged (LoopsCall _) w0).
  assert (exists c2 w2,
             (if isNewsletterContact c1
              then addToNewsLetterList env r c1
              else ret (false, c1)) w1 = (false, c2, w2)
             /\ cMeta c2 = cMeta contact
             /\ meta.FindStatusCondition (Conditions (cStatus c2))
                                         LoopsContactReadyCondition
                = meta.FindStatusCondition (Conditions (cStatus c1))
                                           LoopsContactReadyCondition
             /\ Contacts (cluster w2) = Contacts (cluster w)
             /\ remoteCalls w2 = remoteCalls w1)
    as [c2 [w2 [N [M2 [F2 [C2 R2]]]]]].
  { destruct (isNewsletterContact c1).
    - destruct (addToNewsLetterList_accepted env r c1 w1 accepts) as [Fl C].
      destruct (addToNewsLetterList_inv env r c1 w1) as [M [_ [F _]]].
      pose proof (addToNewsLetterList_remote env r c1 w1) as R.
      destruct (addToNewsLetterList env r c1 w1) as [[flag c2] w2].
      cbn [fst snd] in *. subst flag. exists c2, w2. auto.
    - exists c1, w1. auto. }
  rewrite N.
  destruct (Find_SetStatusCondition_same
              (Conditions (cStatus contact))
              (readyCondition ConditionTrue LoopsContactCreatedReason
                 "Loops contact created on email provider" contact
                 (clock env (S (tick w0)))))
    as [readyCond [Hr [_ [Hre [_ Hg]]]]].
  change (Type_ (readyCondition _ _ _ _ _)) with LoopsContactReadyCondition
    in Hr.
  change (meta.FindStatusCondition (Conditions (cStatus c1))
                                   LoopsContactReadyCondition
          = Some readyCond) in Hr.
  rewrite <- F2 in Hr.
  assert (switchCase c2 = CaseNone) as Sc2.
  { rewrite (switchCase_of c2 readyCond Hr), Hre, Hg, M2.
    cbn [readyCondition ObservedGeneration]. unfold generation.
    now rewrite Z.eqb_refl. }
  assert (equality.DeepEqualContactStatus (cStatus contact) (cStatus c2)
          = false) as Hdiff.
  { apply not_true_is_false. intros E.
    apply DeepEqualContactStatus_spec in E.
    assert (switchCase contact = switchCase c2) as X
        by (apply switchCase_status; [exact E | now rewrite M2]).
    congruence. }
  rewrite Hdiff. cbn [negb].
  assert (keyOf c2 = keyOf contact) as K
      by (unfold keyOf; cbn [GetObjectMeta ContactObject]; now rewrite M2).
  rewrite (PatchStatus_served env c2 w2 (accepts _))
    by (cbn [items ContactObject]; rewrite K, C2;
        exact (find_stored req _ contact Hfind)).
  unfold ret. cbn [fst snd cluster setItems items ContactObject Contacts].
  exists (copyStatus c2 contact).
  split; [exact R2|]. split; [|split].
  - rewrite C2, (patched_find_contact c2 req _ contact Hfind), K.
    now rewrite hasKey_keyOf.
  - exact Hz.
  - rewrite <- Sc2. apply switchCase_status; [reflexivity|].
    cbn [copyStatus ContactObject withStatus cMeta]. now rewrite M2. }
unfold twice, bind.
destruct (Reconcile env r req w) as [o1 w1]. cbn [snd] in R1, F1.
pose proof (Reconcile_nothing_to_send req w1 stored F1 Z1 S1) as R2.
destruct (Reconcile env r req w1) as [o2 w2]. cbn [snd ret] in *.
now rewrite R2.
Qed.

End Again.

Section AgainWitness.
Import metav1 v1alpha1 client controller spec.
Import controller.LoopsContactController.

Lemma reconciling_a_contact_twice_upserts_it_once_witness :
remoteCalls (snd (twice (Reconcile example.calm example.fields
                                   example.aliceKey)
                        example.pendingWorld))
= [LoopsCall
     (loops.UpsertContact
        (loops.mkContactRequest "a@example.com" "u1" "Alice" "Liddell"
           "email-provider-loops-k8s-controller" (Some true)))].
Proof.
apply (reconciling_a_contact_twice_upserts_it_once
         example.calm example.fields example.aliceKey example.pendingWorld
         example.pending).
- intros n. reflexivity.
- reflexivity.
- reflexivity.
- reflexivity.
- reflexivity.
- reflexivity.
Defined.

End AgainWitness.

(* ------------------------------------------------------------------------- *)
(** * What an OK answer of the webhook handler stands for *)

Section Answered.
Import metav1 v1alpha1 client webhook spec.
Variable env : Env.

Lemma getContactByProviderID_found providerID w contact err w' :
  getContactByProviderID env providerID w = (Some contact, err, w') ->
  In contact (Contacts (cluster w))
  /\ UID (cMeta contact) = providerID.
Proof.
  unfold getContactByProviderID, bind. rewrite List_first.
  cbn [items ContactObject].
  destruct (storeFault env (tick w)); [discriminate|].
  cbn [ret]. intros [= Hfirst _ _].
  apply firstItem_In, filter_In in Hfirst as [Hin Hm].
  apply indexContact_matches in Hm as [Huid _]. auto.
Qed.

Lemma getContactGroupByProviderID_found providerID w group err w' :
  getContactGroupByProviderID env providerID w = (Some group, err, w') ->
  In group (ContactGroups (cluster w))
  /\ controller.getMailingListId group = (providerID, None).
Proof.
  unfold getContactGroupByProviderID, bind. rewrite List_first.
  cbn [items ContactGroupObject].
  destruct (storeFault env (tick w)); [discriminate|].
  cbn [ret]. intros [= Hfirst _ _].
  apply firstItem_In, filter_In in Hfirst as [Hin Hm].
  apply indexContactGroup_matches in Hm. auto.
Qed.

(** The handler answers OK from one of its two branches only, with the
    contact and the group the event names. *)
Lemma Handle_ok_resolved (req : Request) (w : World) :
  fst (Handle env req w) = OkResponse ->
  exists contact group wb,
    In contact (Contacts (cluster w))
    /\ UID (cMeta contact)
       = loops.UserID (loops.contactIdentity (BaseEvent req))
    /\ In group (ContactGroups (cluster w))
    /\ controller.getMailingListId group = (requestGroupID req, None)
    /\ cluster wb = cluster w
    /\ Handle env req w
       = match MailingListSubscribedEvent req with
         | Some _ => handleSubscribed env contact group wb
         | None => handleUnsubscribed env contact group wb
         end.
Proof.
  unfold Handle, bind.
  destruct (String.eqb _ ""); [discriminate|].
  destruct (getContactByProviderID env _ w) as [[contact err] wa] eqn:Hc.
  destruct err as [e|]; [discriminate|].
  destruct contact as [contact|]; [|discriminate].
  destruct (String.eqb (requestGroupID req) ""); [discriminate|].
  destruct (getContactGroupByProviderID env _ wa)
    as [[group err] wb] eqn:Hg.
  destruct err as [e|]; [discriminate|].
  destruct group as [group|]; [|discriminate].
  pose proof (getContactByProviderID_inv env _ _ _ _ _ Hc) as Ca.
  pose proof (getContactGroupByProviderID_inv env _ _ _ _ _ Hg) as Cb.
  apply getContactByProviderID_found in Hc as [Hin Huid].
  apply getContactGroupByProviderID_found in Hg as [Hgin Hid].
  rewrite Ca in Hgin.
  destruct (MailingListSubscribedEvent req) as [s|].
  - intros _. exists contact, group, wb.
    repeat split; try assumption. congruence.
  - destruct (MailingListUnsubscribedEvent req) as [u|]; [|discriminate].
    intros _. exists contact, group, wb.
    repeat split; try assumption. congruence.
Qed.

(** X28. An OK answer of the webhook handler stands for a resolved event, and
  for an unsubscription that is on record.  When the handler answers
  [OkResponse], a stored Contact has the user id of the event as its UID
  and a stored ContactGroup has the mailing-list id of the event as its
  Loops id.  For an unsubscribed event the store then holds a tombstone
  under the index key of that contact and group, found or just created.
  For a subscribed event either one membership that refers to that
  contact and group, in the namespace of the group, was appended, or the
  memberships are as they were (the creation was answered
  AlreadyExists). *)
Theorem Handle_ok_means_resolved_event_and_recorded_unsubscription
      (req : Request) (w : World) :
let run := Handle env req w in
fst run = OkResponse ->
exists contact group,
  In contact (Contacts (cluster w))
  /\ UID (cMeta contact)
     = loops.UserID (loops.contactIdentity (BaseEvent req))
  /\ In group (ContactGroups (cluster w))
  /\ controller.getMailingListId group = (requestGroupID req, None)
  /\ match MailingListSubscribedEvent req with
     | Some _ =>
         Memberships (cluster (snd run)) = Memberships (cluster w)
         \/ exists m,
              Memberships (cluster (snd run))
              = (Memberships (cluster w) ++ [m])%list
              /\ membershipOf contact group m = true
              /\ Namespace (mMeta m) = Namespace (gMeta group)
     | None =>
         exists removal,
           In removal (Removals (cluster (snd run)))
           /\ In (buildGroupMembershipRemovalIndexKey
                    (mkContactRef (Name (cMeta contact))
                                  (Namespace (cMeta contact)))
                    (mkGroupRef (Name (gMeta group))
                                (Namespace (gMeta group))))
                 (indexRemoval removal)
     end.
Proof.
cbv zeta. intros Hok.
destruct (Handle_ok_resolved req w Hok)
  as [contact [group [wb [Hin [Huid [Hgin [Hid [Cb E]]]]]]]].
exists contact, group. repeat (split; [assumption|]).
rewrite E in Hok |- *. clear E.
destruct (MailingListSubscribedEvent req) as [s|].
- revert Hok. unfold handleSubscribed, bind.
  destruct (getContactGroupMembershipRemoval env contact group wb)
    as [[removal err] wc] eqn:Hr.
  apply getContactGroupMembershipRemoval_inv in Hr as [Cc _].
  destruct (failedOtherThan apierrors.IsNotFound err); [discriminate|].
  assert (forall e wd,
             match removal with
             | Some removal => deleteContactGroupMembershipRemoval env removal
             | None => ret None
             end wc = (e, wd) ->
             Memberships (cluster wd) = Memberships (cluster wc)) as Hdel.
  { intros e wd. destruct removal as [r|].
    - unfold deleteContactGroupMembershipRemoval. destruct e as [e|].
      + intros D. apply Delete_failed in D. now rewrite D.
      + intros D. apply Delete_succeeded in D. now rewrite D.
    - now intros [= _ <-]. }
  destruct (match removal with
            | Some removal => deleteContactGroupMembershipRemoval env removal
            | None => ret None
            end wc) as [e wd] eqn:Hd.
  pose proof (Hdel e wd eq_refl) as Hm. clear Hd Hdel.
  destruct e as [e|]; [discriminate|].
  destruct (createContactGroupMembership env contact group wd)
    as [e we] eqn:Hcm.
  destruct e as [e|].
  + destruct (failedOtherThan apierrors.IsAlreadyExists (Some e));
      [discriminate|].
    intros _. left. unfold createContactGroupMembership in Hcm.
    apply Create_failed in Hcm. unfold ret. cbn [snd]. congruence.
  + unfold failedOtherThan. intros _. right.
    unfold createContactGroupMembership in Hcm.
    apply Create_succeeded in Hcm as [name [_ C]].
    eexists. unfold ret. cbn [snd]. rewrite C.
    cbn [setItems items MembershipObject Memberships].
    rewrite Hm, Cc, Cb. split; [reflexivity|].
    unfold membershipOf.
    cbn [SetObjectMeta MembershipObject mSpec mMeta ContactRef
         ContactGroupRef crName crNamespace grName grNamespace].
    rewrite !String.eqb_refl. split; reflexivity.
- revert Hok. unfold handleUnsubscribed, bind.
  destruct (getContactGroupMembershipRemoval env contact group wb)
    as [[removal err] wc] eqn:Hr.
  apply getContactGroupMembershipRemoval_inv in Hr as [Cc Hfound].
  destruct (failedOtherThan apierrors.IsNotFound err); [discriminate|].
  destruct removal as [r|].
  + intros _. destruct (Hfound r eq_refl) as [Hrin Hkey].
    exists r. unfold ret. cbn [snd]. rewrite Cc. split; [exact Hrin|].
    unfold indexRemoval. left. exact Hkey.
  + destruct (createContactGroupMembershipRemoval env contact group wc)
      as [e wd] eqn:Hcr.
    destruct e as [e|]; [discriminate|]. intros _.
    apply createContactGroupMembershipRemoval_appends in Hcr
      as [r [R [_ [I _]]]].
    exists r. unfold ret. cbn [snd]. rewrite R, I. split.
    * apply in_or_app. right. now left.
    * now left.
Qed.

End Answered.

Section AnsweredWitness.
Import metav1 v1alpha1 client webhook spec.

Lemma Handle_ok_means_resolved_event_and_recorded_unsubscription_witness :
exists contact group,
  In contact (Contacts (cluster example.fresh))
  /\ UID (cMeta contact) = "u1"
  /\ In group (ContactGroups (cluster example.fresh))
  /\ controller.getMailingListId group = ("g1", None)
  /\ exists removal,
       In removal
          (Removals
             (cluster (snd (Handle example.calm
                                   (unsubscribedRequest "u1" "g1")
                                   example.fresh))))
       /\ In (buildGroupMembershipRemovalIndexKey
                (mkContactRef (Name (cMeta contact))
                              (Namespace (cMeta contact)))
                (mkGroupRef (Name (gMeta group)) (Namespace (gMeta group))))
             (indexRemoval removal).
Proof.
exact (Handle_ok_means_resolved_event_and_recorded_unsubscription
         example.calm (unsubscribedRequest "u1" "g1") example.fresh
         eq_refl).
Defined.

End AnsweredWitness.

(* ------------------------------------------------------------------------- *)
(** * The four calls of the SDK *)

Section SDKCalls.
Import sdk_client.
Variable Marshal : Payload -> string + error.
Variable NewRequest : string -> string -> option error.
Variable Decode : string -> APIResponse + error.

(** When [sendRequest] with a body and an [out] returns no error. *)
Lemma sendRequest_accepted (c : Client) (method path : string)
      (b : Payload) (out resp : APIResponse) :
  sendRequest Marshal NewRequest Decode c method path (Some b) (Some out)
  = (None, Some resp)
  <-> exists data answer,
        Marshal b = inl data
        /\ NewRequest method (baseURL c ++ path) = None
        /\ Do (httpClient c)
              (mkHTTPRequest method (baseURL c ++ path)
                 [("Authorization", "Bearer " ++ apiKey c);
                  ("Content-Type", "application/json")] (Some data))
           = inl answer
        /\ (StatusCode answer < 400)%Z
        /\ Decode (Body answer) = inl resp.
Proof.
  unfold sendRequest. split.
  - destruct (Marshal b) as [data|e]; [|discriminate].
    destruct (NewRequest method (baseURL c ++ path)); [discriminate|].
    destruct (Do (httpClient c) _) as [answer|e] eqn:D; [|discriminate].
    destruct (400 <=? StatusCode answer)%Z eqn:S; [discriminate|].
    destruct (Decode (Body answer)) as [decoded|e] eqn:J; [|discriminate].
    intros [= <-]. exists data, answer. apply Z.leb_gt in S. auto.
  - intros [data [answer [-> [-> [-> [S ->]]]]]].
    apply Z.leb_gt in S. now rewrite S.
Qed.

Lemma sendRequest_answer (c : Client) (method path : string)
      (b : Payload) (out resp : APIResponse) :
  match sendRequest Marshal NewRequest Decode c method path (Some b)
                    (Some out) with
  | (Some err, _) => inr err
  | (None, Some resp) => inl resp
  | (None, None) => inl zeroResponse
  end = inl resp
  <-> sendRequest Marshal NewRequest Decode c method path (Some b) (Some out)
      = (None, Some resp).
Proof.
  split.
  - destruct (sendRequest _ _ _ _ _ _ _ _) as [[e|] [o|]] eqn:E;
      try discriminate.
    + now intros [= ->].
    + exfalso. revert E. unfold sendRequest.
      destruct (Marshal b); [|discriminate].
      destruct (NewRequest _ _); [discriminate|].
      destruct (Do _ _) as [answer|]; [|discriminate].
      destruct (400 <=? StatusCode answer)%Z; [discriminate|].
      destruct (Decode _); discriminate.
  - now intros ->.
Qed.

(** X29. A call of the SDK returns a response exactly when the server
  accepted its request.  [UpsertContact], [DeleteContact],
  [AddToMailingList] and [RemoveFromMailingList] return a response (and no
  error) if and only if the payload was marshalled, the request was built
  and sent with the client's key as bearer token to the base URL followed
  by the path, the answer had a status below 400, and its body decoded to
  that response.  The two calls on a mailing list are a PUT on
  [/contacts/update] of a contact that carries the user id and the one
  list, subscribed or not, and nothing else; deleting is a POST on
  [/contacts/delete]. *)
Theorem sdk_call_returns_response_iff_server_accepted_request
      (c : Client) (req : ContactRequest) (userID listID : string)
      (resp : APIResponse) :
let accepted (method path : string) (payload : Payload) :=
  exists data answer,
    Marshal payload = inl data
    /\ NewRequest method (baseURL c ++ path) = None
    /\ Do (httpClient c)
          (mkHTTPRequest method (baseURL c ++ path)
             [("Authorization", "Bearer " ++ apiKey c);
              ("Content-Type", "application/json")] (Some data))
       = inl answer
    /\ (StatusCode answer < 400)%Z
    /\ Decode (Body answer) = inl resp in
(UpsertContact Marshal NewRequest Decode c req = inl resp
 <-> accepted "PUT" "/contacts/update" (ContactPayload req))
/\ (DeleteContact Marshal NewRequest Decode c userID = inl resp
    <-> accepted "POST" "/contacts/delete"
                 (DeletePayload (mkDeleteContactRequest userID)))
/\ (AddToMailingList Marshal NewRequest Decode c userID listID = inl resp
    <-> accepted "PUT" "/contacts/update"
                 (ContactPayload
                    (mkContactRequest "" userID "" "" "" None ""
                                      [(listID, true)])))
/\ (RemoveFromMailingList Marshal NewRequest Decode c userID listID
    = inl resp
    <-> accepted "PUT" "/contacts/update"
                 (ContactPayload
                    (mkContactRequest "" userID "" "" "" None ""
                                      [(listID, false)]))).
Proof.
cbv zeta.
unfold RemoveFromMailingList, AddToMailingList, DeleteContact, UpsertContact.
cbv zeta.
repeat split; intros H;
  try (apply sendRequest_accepted with (out := zeroResponse);
       apply sendRequest_answer; exact H);
  apply sendRequest_answer; apply sendRequest_accepted; exact H.
Qed.

End SDKCalls.

(* ------------------------------------------------------------------------- *)
(** * What a reconciliation leaves in the store *)

Section ContactRecorded.
Import metav1 v1alpha1 client controller spec.
Import controller.LoopsContactController.
Variable env : Env.
Variable r : Fields.

Lemma withStatus_same (c : Contact) : withStatus c (cStatus c) = c.
Proof. now destruct c. Qed.

(** With a store that refuses nothing, and a switch that did not return
    early: [converge] returns without error, and the stored contact is
    the one read with the status [converge] ends with. *)
Lemma converge_recorded req contact w c1 w1 :
  (forall n, storeFault env n = None) ->
  match switchCase contact with
  | CaseCreation => creation env contact
  | CaseUpdate => update env contact
  | CaseNone => ret (contact, None)
  end w = (c1, None, w1) ->
  cMeta c1 = cMeta contact ->
  Contacts (cluster w1) = Contacts (cluster w) ->
  find (hasKey req) (Contacts (cluster w)) = Some contact ->
  exists final,
    fst (converge env r contact w) = ctrl.done (Some final)
    /\ cMeta final = cMeta contact
    /\ meta.FindStatusCondition (Conditions (cStatus final))
                                LoopsContactReadyCondition
       = meta.FindStatusCondition (Conditions (cStatus c1))
                                  LoopsContactReadyCondition
    /\ find (hasKey req)
            (Contacts (cluster (snd (converge env r contact w))))
       = Some (withStatus contact (cStatus final))
    /\ remoteCalls (snd (converge env r contact w)) = remoteCalls w1.
Proof.
  intros accepts B Hmeta Hcl Hfind. unfold converge, bind. rewrite B.
  assert (exists c2 w2,
             (if isNewsletterContact c1
              then addToNewsLetterList env r c1
              else ret (false, c1)) w1 = (false, c2, w2)
             /\ cMeta c2 = cMeta c1
             /\ meta.FindStatusCondition (Conditions (cStatus c2))
                                         LoopsContactReadyCondition
                = meta.FindStatusCondition (Conditions (cStatus c1))
                                           LoopsContactReadyCondition
             /\ Contacts (cluster w2) = Contacts (cluster w1)
             /\ remoteCalls w2 = remoteCalls w1)
    as [c2 [w2 [N [M2 [F2 [C2 R2]]]]]].
  { destruct (isNewsletterContact c1).
    - destruct (addToNewsLetterList_accepted env r c1 w1 accepts) as [Fl C].
      destruct (addToNewsLetterList_inv env r c1 w1) as [M [_ [F _]]].
      pose proof (addToNewsLetterList_remote env r c1 w1) as R.
      destruct (addToNewsLetterList env r c1 w1) as [[flag c2] w2].
      cbn [fst snd] in *. subst flag. exists c2, w2. auto.
    - exists c1, w1. auto. }
  rewrite N.
  assert (keyOf c2 = keyOf contact) as K
      by (unfold keyOf; cbn [GetObjectMeta ContactObject];
          now rewrite M2, Hmeta).
  destruct (equality.DeepEqualContactStatus (cStatus contact) (cStatus c2))
    eqn:D; cbn [negb].
  - apply DeepEqualContactStatus_spec in D. unfold ret. cbn [fst snd].
    exists c2. split; [reflexivity|]. split; [congruence|].
    split; [exact F2|]. split; [|exact R2].
    rewrite C2, Hcl, Hfind, <- D. now rewrite withStatus_same.
  - rewrite (PatchStatus_served env c2 w2 (accepts _))
      by (cbn [items ContactObject]; rewrite K, C2, Hcl;
          exact (find_stored req _ contact Hfind)).
    unfold ret. cbn [fst snd cluster setItems items ContactObject Contacts].
    exists c2. split; [reflexivity|]. split; [congruence|].
    split; [exact F2|]. split; [|exact R2].
    rewrite C2, Hcl, (patched_find_contact c2 req _ contact Hfind), K.
    now rewrite hasKey_keyOf.
Qed.

(** The same for [Reconcile], on a stored contact that is not being
    deleted and has its finalizer. *)
Lemma Reconcile_recorded req w contact c1 w1 :
  (forall n, storeFault env n = None) ->
  find (hasKey req) (Contacts (cluster w)) = Some contact ->
  finalizer.IsZero (DeletionTimestamp (cMeta contact)) = true ->
  controllerutil.ContainsFinalizer (cMeta contact) loopsContactFinalizerKey
  = true ->
  match switchCase contact with
  | CaseCreation => creation env contact
  | CaseUpdate => update env contact
  | CaseNone => ret (contact, None)
  end (logged (StoreCall VGet "Contact") w) = (c1, None, w1) ->
  cMeta c1 = cMeta contact ->
  Contacts (cluster w1) = Contacts (cluster w) ->
  exists final,
    fst (Reconcile env r req w) = ctrl.done (Some final)
    /\ cMeta final = cMeta contact
    /\ meta.FindStatusCondition (Conditions (cStatus final))
                                LoopsContactReadyCondition
       = meta.FindStatusCondition (Conditions (cStatus c1))
                                  LoopsContactReadyCondition
    /\ find (hasKey req) (Contacts (cluster (snd (Reconcile env r req w))))
       = Some (withStatus contact (cStatus final))
    /\ remoteCalls (snd (Reconcile env r req w)) = remoteCalls w1.
Proof.
  intros accepts Hfind Hz Hfin B Hmeta Hcl.
  rewrite (Reconcile_not_deleting env r req w contact (accepts _) Hfind Hz),
    Hfin.
  exact (converge_recorded req contact _ c1 w1 accepts B Hmeta Hcl Hfind).
Qed.

(** The creation case answered with bad-request, in the store. *)
Lemma contact_records req w contact e final :
  (forall n, storeFault env n = None) ->
  find (hasKey req) (Contacts (cluster w)) = Some contact ->
  finalizer.IsZero (DeletionTimestamp (cMeta contact)) = true ->
  controllerutil.ContainsFinalizer (cMeta contact) loopsContactFinalizerKey
  = true ->
  switchCase contact = CaseCreation ->
  loopsReply env (S (tick w)) = Some e ->
  loops.IsBadRequest e = true ->
  ctrl.object (fst (Reconcile env r req w)) = Some final ->
  find (hasKey req) (Contacts (cluster (snd (Reconcile env r req w))))
  = Some (withStatus contact (cStatus final)).
Proof.
  intros accepts Hfind Hz Hfin Hcase Hrep Hbad O.
  destruct (creation_bad_request
              env contact (logged (StoreCall VGet "Contact") w) e Hrep Hbad)
    as [now [message [w2 [C [Hcl _]]]]].
  destruct (Reconcile_recorded
              req w contact
              (setCondition contact
                 (readyCondition ConditionFalse LoopsContactNotCreatedReason
                    message contact now))
              w2 accepts Hfind Hz Hfin)
    as [final' [D [_ [_ [S _]]]]].
  - rewrite Hcase. exact C.
  - reflexivity.
  - now rewrite Hcl.
  - rewrite D in O. cbn [ctrl.done ctrl.object] in O.
    injection O as <-. exact S.
Qed.

End ContactRecorded.

Section MembershipRecorded.
Import metav1 v1alpha1 client controller spec.
Import controller.LoopsContactGroupMembershipController.
Variable env : Env.

Lemma mWithStatus_same (m : ContactGroupMembership) :
  mWithStatus m (mStatus m) = m.
Proof. now destruct m. Qed.

(** The creation branch when the provider refuses. *)
Lemma creation_membership_failed cgm contact contactGroup listID e w :
  getMailingListId contactGroup = (listID, None) ->
  loopsReply env (tick w) = Some e ->
  creation env cgm contact contactGroup w
  = (mSetCondition cgm
       (mkCondition LoopsContactGroupMembershipReadyCondition
          ConditionFalse (Generation (mMeta cgm)) (clock env (S (tick w)))
          LoopsContactGroupMembershipNotCreatedReason
          ("Loops contact group membership not created on email provider: "
             ++ Error (wrapError
                         "failed to add Loops contact to mailing list" e))),
     Some (wrapError "failed to add Loops contact to mailing list" e),
     logged (LoopsCall (loops.AddToMailingList (UID (cMeta contact)) listID))
            w).
Proof.
  intros Hlist Hrep. unfold creation, addContactToMailingList, bind.
  rewrite Hlist. unfold Loops, Now, ret. now rewrite Hrep.
Qed.

(** A refused AddToMailingList, in the store: once the status patch is
    served, the stored membership is the one [Reconcile] returns with. *)
Lemma membership_records req w cgm contact contactGroup listID e final :
  storeFault env (tick w) = None ->
  storeFault env (1 + tick w) = None ->
  storeFault env (2 + tick w) = None ->
  find (hasKey req) (Memberships (cluster w)) = Some cgm ->
  finalizer.IsZero (DeletionTimestamp (mMeta cgm)) = true ->
  controllerutil.ContainsFinalizer
    (mMeta cgm) loopsContactGroupMembershipFinalizerKey = true ->
  needsCreation cgm = true ->
  find (hasKey (mkKey (crNamespace (ContactRef (mSpec cgm)))
                      (crName (ContactRef (mSpec cgm)))))
       (Contacts (cluster w)) = Some contact ->
  find (hasKey (mkKey (grNamespace (ContactGroupRef (mSpec cgm)))
                      (grName (ContactGroupRef (mSpec cgm)))))
       (ContactGroups (cluster w)) = Some contactGroup ->
  getMailingListId contactGroup = (listID, None) ->
  loopsReply env (3 + tick w) = Some e ->
  storeFault env (4 + tick w) = None ->
  ctrl.object (fst (Reconcile env req w)) = Some final ->
  find (hasKey req) (Memberships (cluster (snd (Reconcile env req w))))
  = Some final.
Proof.
  intros H0 H1 H2 Hfind Hz Hfin Hneeds Hc Hg Hlist Hrep H4.
  rewrite (Reconcile_membership_creation
             env req w cgm contact contactGroup H0 H1 H2 Hfind Hz Hfin
             Hneeds Hc Hg).
  cbv zeta.
  set (w3 := logged (StoreCall VGet "ContactGroup") _).
  rewrite (creation_membership_failed cgm contact contactGroup listID e w3
                                      Hlist Hrep).
  cbv beta iota zeta.
  set (stored := mSetCondition cgm _).
  set (w4 := logged (LoopsCall _) w3).
  unfold util.PatchStatusIfChanged, bind.
  destruct (equality.DeepEqualMembershipStatus (mStatus cgm) (mStatus stored))
    eqn:D; cbn [negb].
  - apply DeepEqualMembershipStatus_spec in D.
    assert (stored = cgm) as E.
    { change stored with (mWithStatus cgm (mStatus stored)).
      rewrite <- D. apply mWithStatus_same. }
    unfold ret. cbn [fst snd ctrl.failed ctrl.object].
    intros [= <-]. rewrite E.
    change (Memberships (cluster w4)) with (Memberships (cluster w)).
    exact Hfind.
  - rewrite (PatchStatus_served env stored w4 H4)
      by exact (find_stored req _ cgm Hfind).
    cbv beta iota. unfold ret. cbn [fst snd ctrl.failed ctrl.object].
    intros [= <-].
    cbn [cluster setItems items MembershipObject Memberships].
    change (Memberships (cluster w4)) with (Memberships (cluster w)).
    rewrite (patched_find stored req _ cgm Hfind).
    change (keyOf stored) with (keyOf cgm). now rewrite hasKey_keyOf.
Qed.

End MembershipRecorded.

(* ------------------------------------------------------------------------- *)
(** * Claim C7: bad-request in the two reconcilers *)

Section Asymmetry.
Import metav1 v1alpha1 client controller spec.

(** C7.  A stored Contact in the creation case (read not refused, not
  being deleted, finalizer in place) whose upsert the provider answers
  with bad-request: the Contact [Reconcile] returns with has a Ready
  condition False with reason ContactNotCreated, and the bad-request is
  not escalated: the only errors [Reconcile] can return are a refused
  status patch and the newsletter side effect, and when the store refuses
  nothing it returns none and the stored Contact is the one read with
  that status.  A stored ContactGroupMembership in the creation case
  (reads not refused, both referenced objects stored, a Loops list id)
  whose AddToMailingList the provider answers with any error, bad-request
  included: the membership [Reconcile] returns with has a Ready condition
  False with reason ContactGroupMembershipNotCreated, and [Reconcile]
  returns an error; when the status patch is not refused, the error is
  the provider's, wrapped, and the stored membership is the one
  [Reconcile] returns with. *)
Theorem bad_request_softened_for_contact_escalated_for_membership
      (env : Env) (r : LoopsContactController.Fields) (w : World) :
(forall req contact e,
    storeFault env (tick w) = None ->
    find (hasKey req) (Contacts (cluster w)) = Some contact ->
    finalizer.IsZero (DeletionTimestamp (cMeta contact)) = true ->
    controllerutil.ContainsFinalizer (cMeta contact)
                                     loopsContactFinalizerKey = true ->
    LoopsContactController.switchCase contact
    = LoopsContactController.CaseCreation ->
    loopsReply env (S (tick w)) = Some e ->
    loops.IsBadRequest e = true ->
    let run := LoopsContactController.Reconcile env r req w in
    (exists final readyCond,
        ctrl.object (fst run) = Some final
        /\ meta.FindStatusCondition (Conditions (cStatus final))
                                    LoopsContactReadyCondition
           = Some readyCond
        /\ Status readyCond = ConditionFalse
        /\ Reason readyCond = LoopsContactNotCreatedReason
        /\ ((forall n, storeFault env n = None) ->
            find (hasKey req) (Contacts (cluster (snd run)))
            = Some (withStatus contact (cStatus final))))
    /\ (ctrl.err (fst run) = None
        \/ (exists pe,
               ctrl.err (fst run)
               = Some (wrapError "failed to patch contact status" pe))
        \/ ctrl.err (fst run)
           = Some (errorString
                     "failed to add mailing list to Loops contact"))
    /\ ((forall n, storeFault env n = None) ->
        ctrl.err (fst run) = None))
/\
(forall req cgm contact contactGroup listID e,
    storeFault env (tick w) = None ->
    storeFault env (1 + tick w) = None ->
    storeFault env (2 + tick w) = None ->
    find (hasKey req) (Memberships (cluster w)) = Some cgm ->
    finalizer.IsZero (DeletionTimestamp (mMeta cgm)) = true ->
    controllerutil.ContainsFinalizer
      (mMeta cgm) loopsContactGroupMembershipFinalizerKey = true ->
    LoopsContactGroupMembershipController.needsCreation cgm = true ->
    find (hasKey (mkKey (crNamespace (ContactRef (mSpec cgm)))
                        (crName (ContactRef (mSpec cgm)))))
         (Contacts (cluster w)) = Some contact ->
    find (hasKey (mkKey (grNamespace (ContactGroupRef (mSpec cgm)))
                        (grName (ContactGroupRef (mSpec cgm)))))
         (ContactGroups (cluster w)) = Some contactGroup ->
    getMailingListId contactGroup = (listID, None) ->
    loopsReply env (3 + tick w) = Some e ->
    let run := LoopsContactGroupMembershipController.Reconcile env req w in
    (exists final readyCond,
        ctrl.object (fst run) = Some final
        /\ meta.FindStatusCondition
             (mConditions (mStatus final))
             LoopsContactGroupMembershipReadyCondition = Some readyCond
        /\ Status readyCond = ConditionFalse
        /\ Reason readyCond
           = LoopsContactGroupMembershipNotCreatedReason
        /\ (storeFault env (4 + tick w) = None ->
            find (hasKey req) (Memberships (cluster (snd run)))
            = Some final))
    /\ ctrl.err (fst run) <> None
    /\ (storeFault env (4 + tick w) = None ->
        ctrl.err (fst run)
        = Some (wrapError "failed to add Loops contact to mailing list"
                          e))).
Proof.
split.
- intros req contact e Hok Hfind Hz Hfin Hcase Hrep Hbad run.
  destruct (contact_softens env r req w contact e Hok Hfind Hz Hfin Hcase
                            Hrep Hbad)
    as [[final [readyCond [O [F [S R]]]]] [E N]].
  split; [|split; [exact E | exact N]].
  exists final, readyCond. repeat (split; [assumption|]).
  intros accepts.
  exact (contact_records env r req w contact e final accepts Hfind Hz Hfin
                         Hcase Hrep Hbad O).
- intros req cgm contact contactGroup listID e H0 H1 H2 Hfind Hz Hfin Hneeds
         Hc Hg Hlist Hrep run.
  destruct (membership_escalates env req w cgm contact contactGroup listID e
                                 H0 H1 H2 Hfind Hz Hfin Hneeds Hc Hg Hlist
                                 Hrep)
    as [[final [readyCond [O [F [S R]]]]] [E N]].
  split; [|split; [exact E | exact N]].
  exists final, readyCond. repeat (split; [assumption|]).
  intros H4.
  exact (membership_records env req w cgm contact contactGroup listID e
                            final H0 H1 H2 Hfind Hz Hfin Hneeds Hc Hg Hlist
                            Hrep H4 O).
Qed.

End Asymmetry.

Section AsymmetryWitness.
Import metav1 v1alpha1 client controller spec example.

Lemma bad_request_softened_for_contact_escalated_for_membership_witness :
let env := answering badRequest in
let crun := LoopsContactController.Reconcile env fields aliceKey
                                             pendingWorld in
let mrun := LoopsContactGroupMembershipController.Reconcile
              env membershipKey pendingWorld in
loops.IsBadRequest badRequest = true
/\ ctrl.err (fst crun) = None
/\ (exists final readyCond,
       ctrl.object (fst crun) = Some final
       /\ meta.FindStatusCondition (Conditions (cStatus final))
                                   LoopsContactReadyCondition
          = Some readyCond
       /\ Status readyCond = ConditionFalse
       /\ Reason readyCond = LoopsContactNotCreatedReason
       /\ find (hasKey aliceKey) (Contacts (cluster (snd crun)))
          = Some (withStatus pending (cStatus final)))
/\ ctrl.err (fst mrun)
   = Some (wrapError "failed to add Loops contact to mailing list"
                     badRequest)
/\ (exists final readyCond,
       ctrl.object (fst mrun) = Some final
       /\ meta.FindStatusCondition
            (mConditions (mStatus final))
            LoopsContactGroupMembershipReadyCondition = Some readyCond
       /\ Status readyCond = ConditionFalse
       /\ Reason readyCond = LoopsContactGroupMembershipNotCreatedReason
       /\ find (hasKey membershipKey) (Memberships (cluster (snd mrun)))
          = Some final).
Proof.
intros env crun mrun.
destruct (bad_request_softened_for_contact_escalated_for_membership
            env fields pendingWorld)
  as [Hcontact Hmembership].
destruct (Hcontact aliceKey pending badRequest eq_refl eq_refl eq_refl
                   eq_refl eq_refl eq_refl eq_refl)
  as [[cfinal [ccond [CO [CF [CS [CR Cstored]]]]]] [_ Hnil]].
destruct (Hmembership membershipKey membership pending news "g1"
                      badRequest eq_refl eq_refl eq_refl eq_refl eq_refl
                      eq_refl eq_refl eq_refl eq_refl eq_refl eq_refl)
  as [[mfinal [mcond [MO [MF [MS [MR Mstored]]]]]] [_ Hescalated]].
split; [reflexivity|]. split; [apply Hnil; intros n; reflexivity|].
split.
- exists cfinal, ccond. repeat (split; [assumption|]).
  apply Cstored. intros n. reflexivity.
- split; [apply Hescalated; reflexivity|].
  exists mfinal, mcond. repeat (split; [assumption|]).
  apply Mstored. reflexivity.
Defined.

End AsymmetryWitness.

(* ------------------------------------------------------------------------- *)
(** * The Contact reconciler: a rejected upsert, and the next run *)

Section Rejected.
Import metav1 v1alpha1 client controller spec.
Import controller.LoopsContactController.
Variable env : Env.
Variable r : Fields.

Lemma bind_remote_after {A B} (m : M A) (k : A -> M B) (w : World) :
  (forall a, preserves remoteCalls (k a)) ->
  remoteCalls (snd (bind m k w)) = remoteCalls (snd (m w)).
Proof.
  intros P. unfold bind. destruct (m w) as [a w']. apply P.
Qed.

(** The creation case sends its upsert whatever the provider answers. *)
Lemma creation_upserts contact w :
  remoteCalls (snd (creation env contact w))
  = LoopsCall
      (loops.UpsertContact
         (loops.mkContactRequest
            (Email (cSpec contact)) (UID (cMeta contact))
            (GivenName (cSpec contact)) (FamilyName (cSpec contact))
            "email-provider-loops-k8s-controller" (Some true)))
      :: remoteCalls w.
Proof.
  unfold creation, upsertContact, bind, Loops, Now, ret.
  destruct (loopsReply env (tick w)) as [e|]; [|reflexivity].
  now destruct (negb _).
Qed.

(** A stored contact in the creation case: reconciling it makes one call
    to the provider, the upsert. *)
Lemma Reconcile_creation_upserts req w contact :
  storeFault env (tick w) = None ->
  find (hasKey req) (Contacts (cluster w)) = Some contact ->
  finalizer.IsZero (DeletionTimestamp (cMeta contact)) = true ->
  controllerutil.ContainsFinalizer (cMeta contact) loopsContactFinalizerKey
  = true ->
  switchCase contact = CaseCreation ->
  remoteCalls (snd (Reconcile env r req w))
  = LoopsCall
      (loops.UpsertContact
         (loops.mkContactRequest
            (Email (cSpec contact)) (UID (cMeta contact))
            (GivenName (cSpec contact)) (FamilyName (cSpec contact))
            "email-provider-loops-k8s-controller" (Some true)))
      :: remoteCalls w.
Proof.
  intros Hok Hfind Hz Hfin Hcase.
  rewrite (Reconcile_not_deleting env r req w contact Hok Hfind Hz), Hfin.
  unfold converge. rewrite Hcase.
  rewrite bind_remote_after; [rewrite creation_upserts; reflexivity|].
  intros [c1 [early|]]; preserve; apply addToNewsLetterList_remote.
Qed.

(** The contact [Reconcile] returns with after a bad-request. *)
Lemma bad_request_object req w contact e :
  storeFault env (tick w) = None ->
  find (hasKey req) (Contacts (cluster w)) = Some contact ->
  finalizer.IsZero (DeletionTimestamp (cMeta contact)) = true ->
  controllerutil.ContainsFinalizer (cMeta contact) loopsContactFinalizerKey
  = true ->
  loopsReply env (S (tick w)) = Some e ->
  loops.IsBadRequest e = true ->
  (switchCase contact = CaseUpdate ->
   exists final readyCond,
     ctrl.object (fst (Reconcile env r req w)) = Some final
     /\ switchCase final = CaseNone
     /\ meta.FindStatusCondition (Conditions (cStatus final))
                                 LoopsContactReadyCondition
        = Some readyCond
     /\ Status readyCond = ConditionFalse
     /\ Reason readyCond = LoopsContactNotUpdatedReason
     /\ ObservedGeneration readyCond = Generation (cMeta contact))
  /\ (switchCase contact = CaseCreation ->
      exists final,
        ctrl.object (fst (Reconcile env r req w)) = Some final
        /\ switchCase final = CaseCreation).
Proof.
  intros Hok Hfind Hz Hfin Hrep Hbad.
  set (w1 := logged (StoreCall VGet "Contact") w).
  split; intros Hcase.
  - destruct (update_bad_request env contact w1 e Hrep Hbad) as [message U].
    match type of U with
    | _ = (_, _, ?w2) =>
        destruct (Reconcile_after_switch
                    env r req w contact
                    (readyCondition ConditionFalse
                       LoopsContactNotUpdatedReason
                       message contact (clock env (S (tick w1))))
                    w2 Hok Hfind Hz Hfin)
          as [final [O [M F]]]; [rewrite Hcase; exact U|]
    end.
    destruct (Find_SetStatusCondition_same
                (Conditions (cStatus contact))
                (readyCondition ConditionFalse LoopsContactNotUpdatedReason
                   message contact (clock env (S (tick w1)))))
      as [readyCond [Hr [Hs [Hre [_ Hg]]]]].
    change (Type_ (readyCondition _ _ _ _ _))
      with LoopsContactReadyCondition in Hr.
    rewrite <- F in Hr.
    exists final, readyCond. split; [exact O|]. split.
    + rewrite (switchCase_of final readyCond Hr), Hre, Hg, M.
      cbn [readyCondition ObservedGeneration]. unfold generation.
      now rewrite Z.eqb_refl.
    + split; [exact Hr|]. split; [exact Hs|]. split; [exact Hre | exact Hg].
  - destruct (creation_bad_request env contact w1 e Hrep Hbad)
      as [now [message [w2 [C _]]]].
    destruct (Reconcile_after_switch
                env r req w contact
                (readyCondition ConditionFalse LoopsContactNotCreatedReason
                   message contact now) w2 Hok Hfind Hz Hfin)
      as [final [O [M F]]]; [rewrite Hcase; exact C|].
    exists final. split; [exact O|].
    destruct (Find_SetStatusCondition_same
                (Conditions (cStatus contact))
                (readyCondition ConditionFalse LoopsContactNotCreatedReason
                   message contact now))
      as [readyCond [Hr [_ [Hre _]]]].
    unfold switchCase. rewrite F.
    change (Type_ (readyCondition _ _ _ _ _))
      with LoopsContactReadyCondition in Hr.
    rewrite Hr, Hre. reflexivity.
Qed.

(** The first run after a bad-request, with a store that refuses
    nothing: the stored contact and the call made. *)
Lemma bad_request_recorded req w contact e final :
  (forall n, storeFault env n = None) ->
  find (hasKey req) (Contacts (cluster w)) = Some contact ->
  finalizer.IsZero (DeletionTimestamp (cMeta contact)) = true ->
  controllerutil.ContainsFinalizer (cMeta contact) loopsContactFinalizerKey
  = true ->
  loopsReply env (S (tick w)) = Some e ->
  loops.IsBadRequest e = true ->
  switchCase contact <> CaseNone ->
  ctrl.object (fst (Reconcile env r req w)) = Some final ->
  cMeta final = cMeta contact
  /\ find (hasKey req) (Contacts (cluster (snd (Reconcile env r req w))))
     = Some (withStatus contact (cStatus final))
  /\ remoteCalls (snd (Reconcile env r req w))
     = LoopsCall
         (loops.UpsertContact
            (loops.mkContactRequest
               (Email (cSpec contact)) (UID (cMeta contact))
               (GivenName (cSpec contact)) (FamilyName (cSpec contact))
               "email-provider-loops-k8s-controller" (Some true)))
         :: remoteCalls w.
Proof.
  intros accepts Hfind Hz Hfin Hrep Hbad Hcase O.
  set (w1 := logged (StoreCall VGet "Contact") w).
  assert (exists c1 w2,
             match switchCase contact with
             | CaseCreation => creation env contact
             | CaseUpdate => update env contact
             | CaseNone => ret (contact, None)
             end w1 = (c1, None, w2)
             /\ cMeta c1 = cMeta contact
             /\ Contacts (cluster w2) = Contacts (cluster w)
             /\ remoteCalls w2
                = LoopsCall
                    (loops.UpsertContact
                       (loops.mkContactRequest
                          (Email (cSpec contact)) (UID (cMeta contact))
                          (GivenName (cSpec contact))
                          (FamilyName (cSpec contact))
                          "email-provider-loops-k8s-controller" (Some true)))
                    :: remoteCalls w)
    as [c1 [w2 [B [M [C R]]]]].
  { destruct (switchCase contact); [| |now elim Hcase].
    - pose proof (creation_upserts contact w1) as Q.
      destruct (creation_bad_request env contact w1 e Hrep Hbad)
        as [now [message [w2 [B [Hcl _]]]]].
      rewrite B in Q. cbn [snd] in Q.
      do 2 eexists. split; [exact B|]. split; [reflexivity|].
      split; [now rewrite Hcl | exact Q].
    - destruct (update_bad_request env contact w1 e Hrep Hbad)
        as [message B].
      do 2 eexists. split; [exact B|]. split; [reflexivity|].
      split; reflexivity. }
  destruct (Reconcile_recorded env r req w contact c1 w2 accepts Hfind Hz
                               Hfin B M C)
    as [final' [D [Mf [_ [S Rf]]]]].
  rewrite D in O. cbn [ctrl.done ctrl.object] in O. injection O as <-.
  split; [exact Mf|]. split; [exact S|]. now rewrite Rf.
Qed.

(** X16. A rejected update is not tried again, a rejected creation is.  For a
  stored Contact that is not being deleted and has its finalizer, whose
  upsert the provider answers with bad-request.  In the update case the
  Contact [Reconcile] returns with has a Ready condition False with reason
  ContactNotUpdated observed at the current generation, and is in the case
  of the switch where nothing is sent; when the store refuses nothing,
  that status is stored and a second reconciliation sends nothing: the
  two runs make one upsert.  In the creation case the Contact is in the
  creation case again; when the store refuses nothing, that status is
  stored and a second reconciliation upserts again: the two runs make two
  upserts. *)
Theorem rejected_update_is_not_retried_rejected_creation_is
      (req : ObjectKey) (w : World) (contact : Contact) (e : error) :
storeFault env (tick w) = None ->
find (hasKey req) (Contacts (cluster w)) = Some contact ->
finalizer.IsZero (DeletionTimestamp (cMeta contact)) = true ->
controllerutil.ContainsFinalizer (cMeta contact) loopsContactFinalizerKey
= true ->
loopsReply env (S (tick w)) = Some e ->
loops.IsBadRequest e = true ->
let upsert :=
  LoopsCall
    (loops.UpsertContact
       (loops.mkContactRequest
          (Email (cSpec contact)) (UID (cMeta contact))
          (GivenName (cSpec contact)) (FamilyName (cSpec contact))
          "email-provider-loops-k8s-controller" (Some true))) in
(switchCase contact = CaseUpdate ->
 exists final readyCond,
   ctrl.object (fst (Reconcile env r req w)) = Some final
   /\ switchCase final = CaseNone
   /\ meta.FindStatusCondition (Conditions (cStatus final))
                               LoopsContactReadyCondition
      = Some readyCond
   /\ Status readyCond = ConditionFalse
   /\ Reason readyCond = LoopsContactNotUpdatedReason
   /\ ObservedGeneration readyCond = Generation (cMeta contact)
   /\ ((forall n, storeFault env n = None) ->
       find (hasKey req) (Contacts (cluster (snd (Reconcile env r req w))))
       = Some (withStatus contact (cStatus final))
       /\ remoteCalls (snd (twice (Reconcile env r req) w))
          = upsert :: remoteCalls w))
/\ (switchCase contact = CaseCreation ->
    exists final,
      ctrl.object (fst (Reconcile env r req w)) = Some final
      /\ switchCase final = CaseCreation
      /\ ((forall n, storeFault env n = None) ->
          find (hasKey req)
               (Contacts (cluster (snd (Reconcile env r req w))))
          = Some (withStatus contact (cStatus final))
          /\ remoteCalls (snd (twice (Reconcile env r req) w))
             = upsert :: upsert :: remoteCalls w)).
Proof.
intros Hok Hfind Hz Hfin Hrep Hbad upsert.
destruct (bad_request_object req w contact e Hok Hfind Hz Hfin Hrep Hbad)
  as [Hupdate Hcreation].
split; intros Hcase.
- destruct (Hupdate Hcase) as [final [readyCond [O [Sn [F [Hs [Hre Hg]]]]]]].
  exists final, readyCond. repeat (split; [assumption|]).
  intros accepts.
  destruct (bad_request_recorded req w contact e final accepts Hfind Hz Hfin
                                 Hrep Hbad)
    as [Mf [S R]]; [congruence | exact O |].
  split; [exact S|].
  unfold twice, bind.
  destruct (Reconcile env r req w) as [o1 w1]. cbn [snd] in S, R.
  pose proof (Reconcile_nothing_to_send
                env r req w1 (withStatus contact (cStatus final)) S Hz)
    as R2.
  destruct (Reconcile env r req w1) as [o2 w2]. cbn [snd ret] in *.
  rewrite R2; [exact R|].
  rewrite <- Sn. apply switchCase_status; [reflexivity|].
  cbn [withStatus cMeta]. now rewrite Mf.
- destruct (Hcreation Hcase) as [final [O Sc]].
  exists final. repeat (split; [assumption|]).
  intros accepts.
  destruct (bad_request_recorded req w contact e final accepts Hfind Hz Hfin
                                 Hrep Hbad)
    as [Mf [S R]]; [congruence | exact O |].
  split; [exact S|].
  unfold twice, bind.
  destruct (Reconcile env r req w) as [o1 w1]. cbn [snd] in S, R.
  pose proof (Reconcile_creation_upserts
                req w1 (withStatus contact (cStatus final)) (accepts _) S Hz
                Hfin)
    as R2.
  destruct (Reconcile env r req w1) as [o2 w2]. cbn [snd ret] in *.
  rewrite R2; [now rewrite R|].
  rewrite <- Sc. apply switchCase_status; [reflexivity|].
  cbn [withStatus cMeta]. now rewrite Mf.
Qed.

End Rejected.

Section RejectedWitness.
Import metav1 v1alpha1 client controller spec.
Import controller.LoopsContactController.

Lemma rejected_update_is_not_retried_rejected_creation_is_witness :
let w := mkWorld (mkCluster [example.edited] [example.news] [] []) [] in
let env := example.answering example.badRequest in
switchCase example.edited = CaseUpdate
/\ exists final readyCond,
     ctrl.object (fst (Reconcile env example.fields example.aliceKey w))
     = Some final
     /\ switchCase final = CaseNone
     /\ meta.FindStatusCondition (Conditions (cStatus final))
                                 LoopsContactReadyCondition
        = Some readyCond
     /\ Status readyCond = ConditionFalse
     /\ Reason readyCond = LoopsContactNotUpdatedReason
     /\ ObservedGeneration readyCond = 2%Z
     /\ find (hasKey example.aliceKey)
             (Contacts (cluster (snd (Reconcile env example.fields
                                                example.aliceKey w))))
        = Some (withStatus example.edited (cStatus final))
     /\ remoteCalls (snd (twice (Reconcile env example.fields
                                           example.aliceKey) w))
        = [LoopsCall
             (loops.UpsertContact
                (loops.mkContactRequest
                   "alice@example.com" "u1" "Alice" "Liddell"
                   "email-provider-loops-k8s-controller" (Some true)))].
Proof.
intros w env. split; [reflexivity|].
destruct (rejected_update_is_not_retried_rejected_creation_is
            env example.fields example.aliceKey w example.edited
            example.badRequest eq_refl eq_refl eq_refl eq_refl eq_refl
            eq_refl)
  as [Hupdate _].
destruct (Hupdate eq_refl)
  as [final [readyCond [O [Sn [F [Hs [Hre [Hg Hstore]]]]]]]].
destruct Hstore as [S T]; [intros n; reflexivity|].
exists final, readyCond. repeat (split; [assumption|]). exact T.
Defined.

End RejectedWitness.
